(* ===== verification/_CoqProject ===== *)
-Q . S2P
Prelude.v
Bits.v
Hart.v
HartInv.v
Trap.v
Dram.v
Machine.v
Bus.v
Decoder.v
Mmu.v
MmuSpec.v
TlbSpec.v
CsrAccess.v
Execute.v
ExecFloat.v
Dispatch.v
ExecSpec.v
ExecFloatSpec.v
ExecSafe.v
ExecPrecise.v
Engine.v
EngineSpec.v
Runner.v
RunnerSpec.v
InsnSpec.v
Isa.v
IsaFloat.v
IsaDecode.v
ReturnSpec.v
IsaShapes.v
IsaSystem.v
IsaFloatSpec.v
IsaSpec.v
IsaC.v
IsaCSpec.v
IsaEngine.v
AtomicSpec.v
Divergences.v
ByteVec.v
Elf.v
Ports.v
SmallDevices.v
Ns16550.v
GoldfishRtc.v
GoldfishEvents.v
PFlash.v
Clint.v
Plic.v
PlicSpec.v
Ns16550Spec.v
GoldfishEventsSpec.v
GoldfishRtcSpec.v
PFlashSpec.v
ClintSpec.v
VirtioBlk.v
VirtioBlkSpec.v
DeviceFrames.v
Emulator.v
Backends.v
Ui.v
EmulatorSpec.v
Main.v
Sv39Program.v
Sv39Spec.v
Sv39Start.v
Sv39Space.v
Sv39Run.v
Firmware.v
