(* ===== verification/Prelude.v ===== *)
(** * uemu-ng: a verification library for the RISC-V system emulator

    uemu-ng (src/) is a C++ emulator of an RV64GC machine with Sv39 virtual memory, the
    usual platform devices and a UI.  This library translates its code into Rocq
    definitions, component by component, and proves what each component promises to the
    others and what the program promises as a whole.

    ** The program

    [Emulator::Emulator] (src/emulator.cpp) builds a hart, DRAM, a bus with the devices, an
    MMU and an execution engine.  The engine's CPU thread fetches through the MMU, decodes
    and executes instructions; a RISC-V trap or a WFI is a C++ exception that the loop of
    [cpu_thread] catches.  Loads, stores and fetches go through the MMU (two TLBs, page
    tables in DRAM) to the bus, which dispatches to DRAM or to a device.  The host thread
    ticks the devices and updates the UI.  Devices drive interrupt lines: the PLIC, the CLINT
    and the interrupt generator set and clear bits of the hart's mip.

    ** The files

    Foundations.
    - Prelude.v: fixed-width integers on [Z] ([uwrap], [swrap], [fits]), the state and error
      monad [M] with its program-logic predicates ([spec], [stable], [precise], [framed]).
    - Bits.v: include/common/bit.hpp.  ByteVec.v: std::vector<uint8_t> with memcpy and memset.

    The hart and memory.
    - Hart.v, HartInv.v: include/core/hart.hpp, src/core/hart.cpp: registers, one constructor
      per CSR class with its masks and accesses, construction; the invariant [csr_legal].
    - Trap.v: handle_trap and check_interrupts.  CsrAccess.v: checked accesses and side effects.
    - Dram.v: include/core/dram.hpp.  Bus.v: include/core/bus.hpp.
    - Machine.v: the machine state [mach D] over a type of device states, the [Device] record
      (include/device/device.hpp), the class [Platform] of what the core uses of the devices and
      [PlatformLaws], what it relies on: devices change the hart only through mip.
    - Mmu.v, MmuSpec.v, TlbSpec.v: include/core/mmu.hpp: walks, TLBs, loads, stores, fetches.

    Instructions.
    - Decoder.v: src/core/decoder.cpp, tables and extraction of the operands.
    - Execute.v, ExecFloat.v, Dispatch.v: src/core/execute.cpp, one definition per instruction.
      SoftFloat (vendored) is the class [SoftFloat] with laws of ranges and flags only.
    - ExecSpec.v, ExecFloatSpec.v, ExecSafe.v, ExecPrecise.v: every instruction preserves the
      machine invariant, raises only proper traps, and is precise.
    - InsnSpec.v, ReturnSpec.v, AtomicSpec.v: arithmetic, trap returns, LR/SC.
    - Isa.v, IsaFloat.v, IsaC.v: the instruction set as the manual tabulates it, independent of
      the code: actions and the rows of RV64IMA, Zicsr and the privileged instructions, the rows
      of F and D over a format, the compressed instructions.  IsaDecode.v: the decoder selects
      the rows.  IsaShapes.v, IsaSystem.v, IsaFloatSpec.v: the bodies do what the rows say, by
      shape.  IsaSpec.v, IsaCSpec.v: a turn of the interpreter refines the table.  IsaEngine.v: the
      runs of the engine are the runs of the loop around the table.
    - Divergences.v: behaviours where the code departs from its comments or the architecture.

    The engine (src/execution_engine.cpp).
    - Engine.v, EngineSpec.v: the loop of the CPU thread, as a step relation on the engine.
    - Runner.v, RunnerSpec.v: execute_until_halt and the destructor on the host thread, with
      the start of the CPU thread, the handshake, the timeout and the class [UiBackend] of
      user interfaces.

    Devices, each with the ports it uses (Ports.v: the hart, interrupt lines, clocks, console).
    - Clint.v, ClintSpec.v: src/device/clint.cpp, in binary64 arithmetic (SpecFloat).
    - Plic.v, PlicSpec.v: src/device/plic.cpp.
    - Ns16550.v, Ns16550Spec.v: src/device/ns16550.cpp.
    - GoldfishEvents.v, GoldfishEventsSpec.v, GoldfishRtc.v, GoldfishRtcSpec.v.
    - PFlash.v, PFlashSpec.v: src/device/pflash_cfi01.cpp.
    - VirtioBlk.v, VirtioBlkSpec.v: src/device/virtio_blk.cpp.
    - SmallDevices.v: interrupt generator, SiFive test finisher, NEMU console, framebuffer,
      BCM2835 random numbers, goldfish battery.
    - DeviceFrames.v: devices act on the machine only through their ports.

    The program.
    - Elf.v: src/utils/elfloader.cpp.
    - Emulator.v, EmulatorSpec.v: src/emulator.cpp: the machine with its fourteen devices (the
      disk is optional) as an instance of [Platform] and [PlatformLaws], construction, loading.
    - Backends.v, Ui.v: the user interfaces (include/ui, src/ui): construction and destruction
      with the terminal mode and the SDL objects, frames, events and the key map.
    - Main.v: src/main.cpp: the options, the start, the run and the exit code.

    Guest programs.
    - Sv39Program.v: examples/sv39-test on the emulator: start.S and main.c.  Sv39Spec.v,
      Sv39Start.v, Sv39Space.v, Sv39Run.v: its tables, the state its start-up code leaves, the
      address space, and the whole run.
    - Firmware.v: test binaries of tests/isa/test_custom.cpp, run on the machine.

    ** What the theorems show

    - The whole program: [Main.main_safe] and [main_terminates], from the command line to the
      exit code, for every host and every interleaving of the two threads; they rest on
      [RunnerSpec.halt_safe] and [halt_terminates] (any devices and user interface that keep
      their laws), [EngineSpec.reachable_safe] and [EmulatorSpec.emulator_safe].
    - The instruction set: the runs of the engine are the runs of the instruction table
      ([runs_are_isa_runs]), since each turn of the interpreter refines the table, for every
      word (but csrrwi with a destination, see Divergences.v) and every halfword the fetch can
      deliver ([isa_refines], [compressed_refines]); safety ([exec_safe]), precise traps
      ([exec_precise]), decoding ([decode_total], [decode_imm_bits]), division, multiplication
      and the reservation protocol.
    - Traps and interrupts: delivery, priority, returns, liveness of WFI and of shutdown.
    - Memory: outcomes of loads and stores, equivalence of the TLB with the page tables, an
      address space built by a guest ([sv39_address_space]) and the whole run of that guest
      ([sv39_program_passes]), DRAM's accesses, one owner per address.
    - Devices: refinement of queues by the UART and the input device, the interrupt lines of PLIC
      and CLINT, alarms and time of the RTC, all-or-nothing programming of the flash, safety,
      completion and data round trip of the block device, the effect of the ELF loader.
    - The user interface: the host is left as it was found, the pacing and content of frames.
    - Errors: the ways a guest can end the process ([guest_kills_process],
      [virtio_bad_requests]) and further divergences.

    ** Bounds and fuel

    The page walk has the three levels of Sv39.  The loop of the virtqueue has 2^16 turns of
    fuel; [virtio_safe] shows it never runs out, since each turn advances a 16-bit index.
    A host shutdown is seen within 2*65536 steps of the CPU thread, since the engine looks for it
    when its 16-bit counter wraps and a wait adds one step.  Loops over bytes recurse on their
    number.  The status loop of the flash has as many turns as bytes of the access.  A schedule is
    a list of moves of the two threads.

    ** Parameters and granularity

    SoftFloat operations, the result of an out-of-range conversion from double
    ([UndefinedConversion]), the indeterminate contents of operand fields that the decoder does
    not set, the values the option parser accepted, and the answers of the host (clocks, random
    numbers, console input, terminal attributes, disk stream, SDL) are arguments.  One step of
    the CPU thread is one iteration of its loop; the host thread steps between the calls of its
    loop: operations under a device mutex are atomic, the compare-exchange loops on mip are
    single updates, a wait on the condition variable is its predicate, and memory accesses of
    the two threads are sequentially consistent.  A device call that ends the process
    (std::terminate, or undefined behaviour a guest can reach through the block device) makes the
    machine dead and the engine [Died]; undefined behaviour of the ELF loader is an outcome of its
    own; the signed overflow of AMO additions is given its wrapped value.

    ** Not modelled

    The drawing inside SDL, the parsing of the command line and of the disk path are calls of
    libraries: their outcomes are arguments.  What the host does with the path of the disk
    (create, write, open, tell the size) is an argument of [open_disk], the reading of a file
    is its bytes; the host has the memory and the threads the program asks for.  How far the
    CLINT's floating-point time is from the exact one is not stated (its rounding is computed,
    not bounded); neither are the results of SoftFloat, beyond their ranges.  Of the guest
    programs, the third custom test (77,190 instructions, too many to run in the kernel) is left
    out, and the statements of sv39-test act through the emulator's loads, stores, CSR accesses and
    mret: the fetches and the registers of its compiled code are not represented.  The build
    files and the icon are not code of the emulator. *)

From stdpp Require Export base list numbers option.
From Stdlib Require Export ZArith Lia.

Declare Scope emu_scope.
Delimit Scope emu_scope with emu.
#[global] Open Scope Z_scope.

(** ** Fixed-width integers

    A [w]-bit unsigned value is a [Z] in [[0, 2^w)].  [uwrap] is the conversion
    to an unsigned type of [w] bits, [swrap] the conversion to the signed type
    of the same width (two's complement). *)

Definition uwrap (w x : Z) : Z := x mod 2 ^ w.
Definition swrap (w x : Z) : Z :=
  let y := x mod 2 ^ w in if y <? 2 ^ (w - 1) then y else y - 2 ^ w.

Abbreviation u8 := (uwrap 8).
Abbreviation u16 := (uwrap 16).
Abbreviation u32 := (uwrap 32).
Abbreviation u64 := (uwrap 64).
Abbreviation s32 := (swrap 32).
Abbreviation s64 := (swrap 64).

(** [fits w x]: [x] is a value of the unsigned type of width [w]. *)
Definition fits (w x : Z) : Prop := 0 <= x < 2 ^ w.

(** C++ [bool] used as an integer. *)
Definition b2z (b : bool) : Z := if b then 1 else 0.

(** C++ integer used as a condition: [if (x & m)]. *)
Definition nz (x : Z) : bool := negb (x =? 0).

(** [x & ~m] on 64-bit values. *)
Definition andn (x m : Z) : Z := Z.ldiff x m.

(** ** Tactics *)

Ltac Zify.zify_post_hook ::= Z.to_euclidean_division_equations.

Ltac bool_hyps :=
  repeat match goal with
  | H : _ && _ = true |- _ => apply andb_true_iff in H; destruct H
  | H : _ || _ = false |- _ => apply orb_false_iff in H; destruct H
  | H : negb _ = true |- _ => apply negb_true_iff in H
  | H : negb _ = false |- _ => apply negb_false_iff in H
  | H : (_ <? _) = true |- _ => apply Z.ltb_lt in H
  | H : (_ <? _) = false |- _ => apply Z.ltb_ge in H
  | H : (_ <=? _) = true |- _ => apply Z.leb_le in H
  | H : (_ <=? _) = false |- _ => apply Z.leb_gt in H
  | H : (_ =? _) = true |- _ => apply Z.eqb_eq in H
  | H : (_ =? _) = false |- _ => apply Z.eqb_neq in H
  end.

(** Case analysis on the innermost boolean test or option scrutinee of the
    goal, with the arithmetic facts it gives. *)
Ltac case_test :=
  match goal with
  | |- context [if ?b then _ else _] =>
      lazymatch b with context [if _ then _ else _] => fail | _ => idtac end;
      let E := fresh "E" in destruct b eqn:E
  | |- context [match ?o with Some _ => _ | None => _ end] =>
      lazymatch o with context [match _ with _ => _ end] => fail | _ => idtac end;
      let E := fresh "E" in destruct o eqn:E
  end.

(** ** Lemmas on fixed-width integers *)

Lemma uwrap_fits w x : 0 <= w -> fits w (uwrap w x).
Proof. intros. apply Z.mod_pos_bound, Z.pow_pos_nonneg; lia. Qed.

Lemma uwrap_id w x : fits w x -> uwrap w x = x.
Proof. apply Z.mod_small. Qed.

Lemma uwrap_idemp w x : uwrap w (uwrap w x) = uwrap w x.
Proof. apply Zmod_mod. Qed.

Lemma fits_le w w' x : 0 <= w <= w' -> fits w x -> fits w' x.
Proof.
  unfold fits. intros Hw Hx.
  pose proof (Z.pow_le_mono_r 2 w w'). lia.
Qed.

Lemma fits_b2z w b : 1 <= w -> fits w (b2z b).
Proof.
  intros. pose proof (Z.pow_le_mono_r 2 1 w).
  unfold fits. destruct b; simpl; lia.
Qed.

Lemma uwrap_spec w x i :
  0 <= w -> 0 <= i -> Z.testbit (uwrap w x) i = (i <? w) && Z.testbit x i.
Proof.
  intros. unfold uwrap. destruct (Z.ltb_spec i w).
  - rewrite Z.mod_pow2_bits_low; auto.
  - rewrite Z.mod_pow2_bits_high; auto.
Qed.

(** [fits] read off the bits, which is how the bit operations are handled. *)
Lemma fits_testbit w x :
  0 <= w -> fits w x <-> (0 <= x /\ forall i, w <= i -> Z.testbit x i = false).
Proof.
  intros Hw. split.
  - intros Hx. split; [apply Hx|]. intros i Hi.
    rewrite <- (uwrap_id w x Hx). rewrite uwrap_spec by lia.
    destruct (Z.ltb_spec i w); [lia|done].
  - intros [Hx Hb]. assert (x = uwrap w x) as ->; [|by apply uwrap_fits].
    apply Z.bits_inj'. intros i Hi. rewrite uwrap_spec by lia.
    destruct (Z.ltb_spec i w); [done|]. simpl. auto.
Qed.

Lemma fits_land_l w x m : 0 <= w -> fits w x -> fits w (Z.land x m).
Proof.
  intros Hw Hx. pose proof (proj1 (fits_testbit w x Hw) Hx) as [H0 Hb].
  apply fits_testbit; [done|]. split; [apply Z.land_nonneg; auto|].
  intros i Hi. rewrite Z.land_spec, Hb; auto.
Qed.

Lemma fits_land_r w x m : 0 <= w -> fits w m -> fits w (Z.land x m).
Proof. intros. rewrite Z.land_comm. by apply fits_land_l. Qed.

Lemma fits_lor w x y : 0 <= w -> fits w x -> fits w y -> fits w (Z.lor x y).
Proof.
  intros Hw Hx Hy.
  pose proof (proj1 (fits_testbit w x Hw) Hx) as [H0 Hb].
  pose proof (proj1 (fits_testbit w y Hw) Hy) as [H1 Hc].
  apply fits_testbit; [done|]. split; [apply Z.lor_nonneg; auto|].
  intros i Hi. rewrite Z.lor_spec, Hb, Hc; auto.
Qed.

Lemma fits_lxor w x y : 0 <= w -> fits w x -> fits w y -> fits w (Z.lxor x y).
Proof.
  intros Hw Hx Hy.
  pose proof (proj1 (fits_testbit w x Hw) Hx) as [H0 Hb].
  pose proof (proj1 (fits_testbit w y Hw) Hy) as [H1 Hc].
  apply fits_testbit; [done|]. split; [apply Z.lxor_nonneg; tauto|].
  intros i Hi. rewrite Z.lxor_spec, Hb, Hc; auto.
Qed.

Lemma fits_andn w x m : 0 <= w -> fits w x -> fits w (andn x m).
Proof.
  intros Hw Hx. pose proof (proj1 (fits_testbit w x Hw) Hx) as [H0 Hb].
  apply fits_testbit; [done|]. split; [apply Z.ldiff_nonneg; auto|].
  intros i Hi. unfold andn. rewrite Z.ldiff_spec, Hb; auto.
Qed.

Lemma fits_shiftr w x n : 0 <= w -> 0 <= n -> fits w x -> fits w (Z.shiftr x n).
Proof.
  intros Hw Hn Hx. pose proof (proj1 (fits_testbit w x Hw) Hx) as [H0 Hb].
  apply fits_testbit; [done|]. split; [by apply Z.shiftr_nonneg|].
  intros i Hi. rewrite Z.shiftr_spec by lia. apply Hb. lia.
Qed.

Lemma land_shiftl_low x y n : 0 <= n -> fits n y -> Z.land (Z.shiftl x n) y = 0.
Proof.
  intros Hn Hy. apply Z.bits_inj'. intros i Hi. rewrite Z.land_spec, Z.bits_0, Z.shiftl_spec by done.
  destruct (Z.ltb_spec i n); [by rewrite Z.testbit_neg_r by lia|].
  assert (Z.testbit y i = false) as ->; [|by rewrite andb_false_r].
  by apply (fits_testbit n y).
Qed.

(** Disjoint fields: or is addition. *)
Lemma lor_shiftl_add x y n : 0 <= n -> fits n y -> Z.lor (Z.shiftl x n) y = x * 2 ^ n + y.
Proof.
  intros Hn Hy. pose proof (Z.add_lor_land (Z.shiftl x n) y) as E.
  rewrite land_shiftl_low in E by done. rewrite <- Z.shiftl_mul_pow2 by done. lia.
Qed.

Lemma swrap_range w x : 1 <= w -> - 2 ^ (w - 1) <= swrap w x < 2 ^ (w - 1).
Proof.
  intros Hw. unfold swrap.
  assert (2 ^ w = 2 * 2 ^ (w - 1)) as E
    by (rewrite <- Z.pow_succ_r by lia; f_equal; lia).
  pose proof (Z.mod_pos_bound x (2 ^ w)).
  assert (0 < 2 ^ (w - 1)) by (apply Z.pow_pos_nonneg; lia).
  destruct (Z.ltb_spec (x mod 2 ^ w) (2 ^ (w - 1))); lia.
Qed.

(** The signed and the unsigned reading of a value are congruent. *)
Lemma uwrap_swrap w x : uwrap w (swrap w x) = uwrap w x.
Proof.
  unfold uwrap, swrap. case_test; [apply Zmod_mod|].
  replace (x mod 2 ^ w - 2 ^ w) with (x mod 2 ^ w + (-1) * 2 ^ w) by lia.
  rewrite Z_mod_plus_full. apply Zmod_mod.
Qed.

Lemma swrap_uwrap w x : swrap w (uwrap w x) = swrap w x.
Proof. unfold swrap, uwrap. by rewrite Zmod_mod. Qed.

Lemma swrap_id w x : 1 <= w -> - 2 ^ (w - 1) <= x < 2 ^ (w - 1) -> swrap w x = x.
Proof.
  intros Hw Hx. unfold swrap.
  assert (2 ^ w = 2 * 2 ^ (w - 1)) as E
    by (rewrite <- Z.pow_succ_r by lia; f_equal; lia).
  destruct (Z_lt_le_dec x 0).
  - rewrite <- (Z_mod_plus_full x 1), Z.mod_small by lia.
    destruct (Z.ltb_spec (x + 1 * 2 ^ w) (2 ^ (w - 1))); lia.
  - rewrite Z.mod_small by lia. destruct (Z.ltb_spec x (2 ^ (w - 1))); lia.
Qed.

(** The bits of a small signed number, from its sign bit up. *)
Lemma testbit_sign w v i :
  0 < w -> - 2 ^ (w - 1) <= v < 2 ^ (w - 1) -> w - 1 <= i -> Z.testbit v i = (v <? 0).
Proof.
  intros Hw Hv Hi. pose proof (Z.pow_le_mono_r 2 (w - 1) i).
  apply Z.b2z_inj. rewrite Z.testbit_spec' by lia.
  destruct (Z.ltb_spec v 0).
  - replace (v / 2 ^ i) with (-1); [done|].
    apply (Z.div_unique_pos v (2 ^ i) (-1) (v + 2 ^ i)); lia.
  - by rewrite Z.div_small by lia.
Qed.

(** The bits of a sign extension: the field, then copies of its top bit. *)
Lemma swrap_testbit w x i :
  0 < w -> 0 <= i -> Z.testbit (swrap w x) i = Z.testbit x (Z.min i (w - 1)).
Proof.
  intros Hw Hi.
  assert (forall j, 0 <= j < w -> Z.testbit (swrap w x) j = Z.testbit x j) as Hlow.
  { intros j Hj. pose proof (f_equal (fun y => Z.testbit y j) (uwrap_swrap w x)) as E.
    simpl in E. rewrite !uwrap_spec in E by lia.
    by destruct (Z.ltb_spec j w); [|lia]. }
  destruct (Z.le_gt_cases i (w - 1)).
  - rewrite Z.min_l by lia. apply Hlow. lia.
  - rewrite Z.min_r by lia. pose proof (swrap_range w x).
    rewrite <- Hlow by lia. by rewrite !(testbit_sign w) by lia.
Qed.

Lemma nz_true x : nz x = true <-> x <> 0.
Proof. unfold nz. rewrite negb_true_iff. apply Z.eqb_neq. Qed.

Lemma nz_false x : nz x = false <-> x = 0.
Proof. unfold nz. rewrite negb_false_iff. apply Z.eqb_eq. Qed.

Create HintDb fits discriminated.
#[export] Hint Resolve uwrap_fits fits_land_l fits_lor fits_lxor fits_andn
  fits_shiftr fits_b2z : fits.
#[export] Hint Extern 1 (_ <= _) => lia : fits.
#[export] Hint Extern 1 (_ <= _ <= _) => lia : fits.

(** A concrete constant fits. *)
#[export] Hint Extern 2 (fits ?w ?x) =>
  lazymatch x with
  | Z0 => split; [discriminate | reflexivity]
  | Zpos _ => split; [discriminate | reflexivity]
  end : fits.

(** Range goals over bitwise expressions. *)
Ltac fits_step :=
  first
    [ assumption
    | solve [auto with fits nocore]
    | apply uwrap_fits; lia
    | apply fits_lor; [lia| |]
    | apply fits_lxor; [lia| |]
    | apply fits_andn; [lia|]
    | apply fits_shiftr; [lia|lia|]
    | apply fits_b2z; lia
    | case_test ].
Ltac fits_tac :=
  repeat fits_step;
  try solve [ apply fits_land_l; [lia|]; fits_tac
            | apply fits_land_r; [lia|]; fits_tac
            | vm_compute; done ].

(** ** State and exception monad

    The C++ code mutates objects in place and leaves by [throw].  [M S E A] is a
    computation on a state [S] that returns an [A] or throws an [E]; the writes
    made before a [throw] persist, as they do in the code. *)

Inductive result (E A : Type) : Type :=
  | Ok (a : A)
  | Throw (e : E).
Arguments Ok {E A} a.
Arguments Throw {E A} e.

Definition M (S E A : Type) : Type := S -> result E A * S.

Definition ret {S E A} (a : A) : M S E A := fun s => (Ok a, s).
Definition throw {S E A} (e : E) : M S E A := fun s => (Throw e, s).
Definition bind {S E A B} (c : M S E A) (k : A -> M S E B) : M S E B :=
  fun s => match c s with
           | (Ok a, s') => k a s'
           | (Throw e, s') => (Throw e, s')
           end.
Definition gets {S E A} (f : S -> A) : M S E A := fun s => (Ok (f s), s).
Definition modify {S E} (f : S -> S) : M S E unit := fun s => (Ok tt, f s).
(** A state transformer that also returns a value, as a computation. *)
Definition state {S E A} (f : S -> A * S) : M S E A :=
  fun s => let '(a, s') := f s in (Ok a, s').

Notation "'let!' x ':=' c 'in' k" := (bind c (fun x => k))
  (at level 10, x pattern, c at level 100, k at level 200,
   format "'[hv' 'let!'  x  ':='  c  'in'  '/' k ']'") : emu_scope.
Notation "c ;;; k" := (bind c (fun _ => k))
  (at level 100, k at level 200, right associativity,
   format "'[hv' c  ';;;'  '/' k ']'") : emu_scope.
#[global] Open Scope emu_scope.

Definition when {S E} (b : bool) (c : M S E unit) : M S E unit :=
  if b then c else ret tt.

(** A loop that collects the values of its body. *)
Fixpoint mapm {S E A B} (f : A -> M S E B) (l : list A) : M S E (list B) :=
  match l with
  | [] => ret []
  | x :: l => let! y := f x in let! ys := mapm f l in ret (y :: ys)
  end.

Section Specs.
Context {S E : Type}.

(** [spec I X c V]: from a state satisfying [I], [c] ends in a state that
    satisfies [I], with a value satisfying [V] or an exception satisfying [X]. *)
Definition spec (I : S -> Prop) (X : E -> Prop) {A} (c : M S E A)
    (V : A -> Prop) : Prop :=
  forall s, I s ->
    match c s with
    | (Ok a, s') => I s' /\ V a
    | (Throw e, s') => I s' /\ X e
    end.

(** [stable f c]: whatever happens, [c] does not change the view [f]. *)
Definition stable {B} (f : S -> B) {A} (c : M S E A) : Prop :=
  forall s, f (snd (c s)) = f s.

(** [precise f c]: if [c] throws, the view [f] is what it was before. *)
Definition precise {B} (f : S -> B) {A} (c : M S E A) : Prop :=
  forall s e s', c s = (Throw e, s') -> f s' = f s.

(** [nothrow c]: [c] always returns. *)
Definition nothrow {A} (c : M S E A) : Prop :=
  forall s, exists a, fst (c s) = Ok a.

Lemma spec_ret I X {A} (a : A) (V : A -> Prop) : V a -> spec I X (ret a) V.
Proof. intros HV s Hs. simpl. auto. Qed.

Lemma spec_throw I (X : E -> Prop) {A} e (V : A -> Prop) :
  X e -> spec I X (throw e) V.
Proof. intros HX s Hs. simpl. auto. Qed.

Lemma spec_bind I X {A B} (c : M S E A) (k : A -> M S E B) V W :
  spec I X c V -> (forall a, V a -> spec I X (k a) W) -> spec I X (bind c k) W.
Proof.
  intros Hc Hk s Hs. specialize (Hc s Hs). unfold bind.
  destruct (c s) as [[a|e] s']; [|done].
  destruct Hc as [Hs' Ha]. apply (Hk a Ha s' Hs').
Qed.

Lemma spec_gets I X {A} (f : S -> A) (V : A -> Prop) :
  (forall s, I s -> V (f s)) -> spec I X (gets f) V.
Proof. intros H s Hs. simpl. auto. Qed.

Lemma spec_modify (I : S -> Prop) X f (V : unit -> Prop) :
  (forall s, I s -> I (f s)) -> V tt -> spec I X (modify f) V.
Proof. intros H HV s Hs. simpl. auto. Qed.

Lemma spec_weaken (I : S -> Prop) (X : E -> Prop) {A} (c : M S E A) V W :
  spec I X c V -> (forall a, V a -> W a) -> spec I X c W.
Proof.
  intros Hc HVW s Hs. specialize (Hc s Hs).
  destruct (c s) as [[a|e] s']; destruct Hc; auto.
Qed.

Lemma spec_when (I : S -> Prop) (X : E -> Prop) b c (V : unit -> Prop) :
  V tt -> spec I X c V -> spec I X (when b c) V.
Proof. intros HV Hc. destruct b; [done|]. by apply spec_ret. Qed.

Lemma stable_ret {B} (f : S -> B) {A} (a : A) : stable f (ret a).
Proof. done. Qed.
Lemma stable_throw {B} (f : S -> B) {A} e : stable f (throw (A := A) e).
Proof. done. Qed.
Lemma stable_gets {B} (f : S -> B) {A} (g : S -> A) : stable f (gets g).
Proof. done. Qed.
Lemma stable_modify {B} (f : S -> B) g : (forall s, f (g s) = f s) -> stable f (modify g).
Proof. intros H s. apply H. Qed.
Lemma stable_bind {B} (f : S -> B) {A C} (c : M S E A) (k : A -> M S E C) :
  stable f c -> (forall a, stable f (k a)) -> stable f (bind c k).
Proof.
  intros Hc Hk s. specialize (Hc s). unfold bind.
  destruct (c s) as [[a|e] s']; simpl in *; [by rewrite Hk|done].
Qed.
Lemma stable_when {B} (f : S -> B) b c : stable f c -> stable f (when b c).
Proof. by destruct b. Qed.

Lemma nothrow_ret {A} (a : A) : nothrow (ret a).
Proof. intros s. by exists a. Qed.
Lemma nothrow_gets {A} (g : S -> A) : nothrow (gets g).
Proof. intros s. by eexists. Qed.
Lemma nothrow_modify g : nothrow (modify g).
Proof. intros s. by eexists. Qed.
Lemma nothrow_bind {A C} (c : M S E A) (k : A -> M S E C) :
  nothrow c -> (forall a, nothrow (k a)) -> nothrow (bind c k).
Proof.
  intros Hc Hk s. destruct (Hc s) as [a Ha]. unfold bind.
  destruct (c s) as [r s']. simpl in Ha. subst r. apply Hk.
Qed.
Lemma nothrow_when b c : nothrow c -> nothrow (when b c).
Proof. destruct b; [done|]. intros. apply nothrow_ret. Qed.

Lemma precise_stable {B} (f : S -> B) {A} (c : M S E A) : stable f c -> precise f c.
Proof. intros H s e s' E1. specialize (H s). by rewrite E1 in H. Qed.
Lemma precise_nothrow {B} (f : S -> B) {A} (c : M S E A) : nothrow c -> precise f c.
Proof. intros H s e s' E1. destruct (H s) as [a Ha]. by rewrite E1 in Ha. Qed.
Lemma precise_bind {B} (f : S -> B) {A C} (c : M S E A) (k : A -> M S E C) :
  stable f c -> (forall a, precise f (k a)) -> precise f (bind c k).
Proof.
  intros Hc Hk s e s' E1. specialize (Hc s). unfold bind in E1.
  destruct (c s) as [[a|e1] s1]; simpl in *.
  - rewrite <- Hc. eapply Hk, E1.
  - by simplify_eq.
Qed.
Lemma precise_bind_nothrow {B} (f : S -> B) {A C} (c : M S E A) (k : A -> M S E C) :
  precise f c -> (forall a, nothrow (k a)) -> precise f (bind c k).
Proof.
  intros Hc Hk s e s' E1. unfold bind in E1.
  destruct (c s) as [[a|e1] s1] eqn:E2.
  - destruct (Hk a s1) as [b Hb]. by rewrite E1 in Hb.
  - simplify_eq. by eapply Hc.
Qed.

Lemma spec_state I X {A} (f : S -> A * S) (V : A -> Prop) :
  (forall s, I s -> I (snd (f s)) /\ V (fst (f s))) -> spec I X (state f) V.
Proof. intros H s Hs. unfold state. specialize (H s Hs). by destruct (f s). Qed.
Lemma stable_state {B} (g : S -> B) {A} (f : S -> A * S) :
  (forall s, g (snd (f s)) = g s) -> stable g (state f).
Proof. intros H s. specialize (H s). unfold state. by destruct (f s). Qed.

Lemma spec_mapm I X {A B} (f : A -> M S E B) l (V : B -> Prop) :
  (forall x, In x l -> spec I X (f x) V) ->
  spec I X (mapm f l) (fun ys => length ys = length l /\ Forall V ys).
Proof.
  induction l as [|x l IH]; intros Hf; simpl; [by apply spec_ret|].
  eapply spec_bind; [apply Hf; by left|]. intros y Hy.
  eapply spec_bind; [apply IH; intros; apply Hf; by right|]. intros ys [Hl Hys].
  apply spec_ret. simpl. split; [lia|by constructor].
Qed.
Lemma stable_mapm {C} (g : S -> C) {A B} (f : A -> M S E B) l :
  (forall x, stable g (f x)) -> stable g (mapm f l).
Proof.
  intros Hf. induction l as [|x l IH]; simpl; [apply stable_ret|].
  apply stable_bind; [done|]. intros. apply stable_bind; [done|]. intros. apply stable_ret.
Qed.
End Specs.

(** *** Frames and outcomes

    [framed R c]: whatever [c] does relates the state before to the state after by
    the preorder [R] (a frame: what [c] leaves alone).  [outcome I X V c]: from a
    state satisfying [I], [c] ends with a value in [V] or an exception in [X]; with
    a frame that preserves [I] this composes. *)
Section Framed.
Context {S E : Type} (R : S -> S -> Prop) `{!PreOrder R}.

Definition framed {A} (c : M S E A) : Prop := forall s, R s (snd (c s)).

Lemma framed_ret {A} (a : A) : framed (ret a).
Proof. intros s. simpl. reflexivity. Qed.
Lemma framed_throw {A} e : framed (throw (A := A) e).
Proof. intros s. simpl. reflexivity. Qed.
Lemma framed_gets {A} (f : S -> A) : framed (gets f).
Proof. intros s. simpl. reflexivity. Qed.
Lemma framed_modify f : (forall s, R s (f s)) -> framed (modify f).
Proof. intros H s. apply H. Qed.
Lemma framed_state {A} (f : S -> A * S) : (forall s, R s (snd (f s))) -> framed (state f).
Proof. intros H s. specialize (H s). unfold state. by destruct (f s). Qed.
Lemma framed_bind {A B} (c : M S E A) (k : A -> M S E B) :
  framed c -> (forall a, framed (k a)) -> framed (bind c k).
Proof.
  intros Hc Hk s. specialize (Hc s). unfold bind.
  destruct (c s) as [[a|e] s']; simpl in *; [|done]. etrans; [exact Hc|apply Hk].
Qed.
Lemma framed_when b c : framed c -> framed (when b c).
Proof. destruct b; [done|]. intros. apply framed_ret. Qed.
Lemma framed_mapm {A B} (f : A -> M S E B) l :
  (forall x, framed (f x)) -> framed (mapm f l).
Proof.
  intros Hf. induction l as [|x l IH]; simpl; [apply framed_ret|].
  apply framed_bind; [done|]. intros. apply framed_bind; [done|]. intros. apply framed_ret.
Qed.
Lemma framed_stable {B} (f : S -> B) {A} (c : M S E A) :
  (forall s s', R s s' -> f s' = f s) -> framed c -> stable f c.
Proof. intros Hf Hc s. apply Hf, Hc. Qed.
End Framed.

(** Weakening the relation. *)
Lemma framed_mono {S E A} (R R' : S -> S -> Prop) (c : M S E A) :
  (forall s s', R s s' -> R' s s') -> framed R c -> framed R' c.
Proof. intros H Hc s. apply H, Hc. Qed.
