(* ===== verification/Bits.v ===== *)
(** * Bit-field helpers (include/common/bit.hpp)

    [bitmask], [bits], [sext], [ctz] and [deposit], each with the width of the
    template argument as an explicit parameter, and what they compute. *)

From S2P Require Import Prelude.

(** [bitmask<T>(bits)], [W] the number of bits of [T]. *)
(* @src include/common/bit.hpp 27-38 bitmask *)
Definition bitmask (W n : Z) : Z :=
  if n <=? 0 then 0
  else if W <=? n then 2 ^ W - 1
  else uwrap W (uwrap W (Z.shiftl 1 n) - 1).

(** [bits<T>(x, hi, lo)]. *)
(* @src include/common/bit.hpp 40-45 bits *)
Definition bits (W x hi lo : Z) : Z :=
  Z.land (Z.shiftr (uwrap W x) lo) (bitmask W (hi - lo + 1)).

(** [sext(x, len)]: the result is an [int64_t]. *)
(* @src include/common/bit.hpp 47-53 sext *)
Definition sext (x len : Z) : Z :=
  if (len <=? 0) || (64 <=? len) then s64 x
  else
    let shift := 64 - len in
    Z.shiftr (s64 (u64 (Z.shiftl (u64 x) shift))) shift.

(** [ctz<T>(val)]; [x & -x] isolates the lowest set bit. *)
(* @src include/common/bit.hpp 55-68 ctz *)
Definition ctz (W x : Z) : Z :=
  let u := uwrap W x in
  if u =? 0 then W else Z.log2 (Z.land u (- u)).

(** [deposit<T>(value, start, length, fieldval)]. *)
(* @src include/common/bit.hpp 70-97 deposit *)
Definition deposit (W value start length fieldval : Z) : Z :=
  let uvalue := uwrap W value in
  if length =? 0 then uvalue
  else
    let low_mask := bitmask W length in
    let mask := uwrap W (Z.shiftl low_mask start) in
    let field_shifted :=
      uwrap W (Z.shiftl (Z.land (uwrap W fieldval) low_mask) start) in
    Z.lor (andn uvalue mask) (Z.land field_shifted mask).

(** ** Properties *)

Lemma bitmask_ones W n : 0 <= n <= W -> bitmask W n = Z.ones n.
Proof.
  intros Hn. unfold bitmask. rewrite Z.ones_equiv, <- Z.sub_1_r.
  destruct (Z.leb_spec n 0); [by replace n with 0 by lia|].
  destruct (Z.leb_spec W n); [by replace n with W by lia|].
  rewrite Z.shiftl_1_l.
  pose proof (Z.pow_lt_mono_r 2 n W). pose proof (Z.pow_pos_nonneg 2 n).
  rewrite (uwrap_id W (2 ^ n)), uwrap_id; unfold fits; lia.
Qed.

(** [bits] is the slice [x / 2^lo mod 2^(hi-lo+1)] of the value. *)
Lemma bits_div_mod W x hi lo :
  0 <= lo <= hi -> hi < W ->
  bits W x hi lo = (uwrap W x / 2 ^ lo) mod 2 ^ (hi - lo + 1).
Proof.
  intros. unfold bits. rewrite bitmask_ones, Z.land_ones by lia.
  by rewrite Z.shiftr_div_pow2 by lia.
Qed.

Lemma bits_fits W x hi lo :
  0 <= lo <= hi -> hi < W -> fits (hi - lo + 1) (bits W x hi lo).
Proof. intros. rewrite bits_div_mod by lia. apply uwrap_fits. lia. Qed.

Lemma bits_testbit W x hi lo i :
  0 <= lo <= hi -> hi < W -> 0 <= i ->
  Z.testbit (bits W x hi lo) i = (i <? hi - lo + 1) && Z.testbit x (i + lo).
Proof.
  intros. unfold bits. rewrite bitmask_ones by lia.
  rewrite Z.land_spec, Z.shiftr_spec, uwrap_spec by lia.
  destruct (Z.ltb_spec i (hi - lo + 1)).
  - rewrite Z.ones_spec_low by lia. destruct (Z.ltb_spec (i + lo) W); [|lia].
    by rewrite andb_true_r.
  - rewrite Z.ones_spec_high by lia. by rewrite andb_false_r.
Qed.

(** Shifting left by [64 - len] keeps exactly the low [len] bits. *)
Lemma shl_mod x len :
  0 < len < 64 ->
  (x mod 2 ^ 64 * 2 ^ (64 - len)) mod 2 ^ 64 = x mod 2 ^ len * 2 ^ (64 - len).
Proof.
  intros Hl.
  assert (2 ^ 64 = 2 ^ len * 2 ^ (64 - len)) as E
    by (rewrite <- Z.pow_add_r by lia; f_equal; lia).
  pose proof (Z.pow_pos_nonneg 2 (64 - len)). pose proof (Z.pow_pos_nonneg 2 len).
  rewrite Z.mul_mod_idemp_l by lia. rewrite E. by rewrite Z.mul_mod_distr_r by lia.
Qed.

(** [sext x len] is the two's complement reading of the low [len] bits. *)
Lemma sext_swrap x len : 0 < len < 64 -> sext x len = swrap len x.
Proof.
  intros Hl. unfold sext.
  destruct (Z.leb_spec len 0); [lia|]. destruct (Z.leb_spec 64 len); [lia|]. simpl.
  rewrite swrap_uwrap, Z.shiftr_div_pow2, Z.shiftl_mul_pow2 by lia.
  assert (2 ^ 64 = 2 ^ len * 2 ^ (64 - len)) as E
    by (rewrite <- Z.pow_add_r by lia; f_equal; lia).
  assert (2 ^ (64 - 1) = 2 ^ (len - 1) * 2 ^ (64 - len)) as E'
    by (rewrite <- Z.pow_add_r by lia; f_equal; lia).
  pose proof (Z.pow_pos_nonneg 2 (64 - len)).
  unfold swrap, uwrap. rewrite shl_mod, E' by lia.
  destruct (Z.ltb_spec (x mod 2 ^ len) (2 ^ (len - 1)));
    destruct (Z.ltb_spec (x mod 2 ^ len * 2 ^ (64 - len)) (2 ^ (len - 1) * 2 ^ (64 - len)));
    nia.
Qed.

Lemma sext_range x len : 0 < len < 64 -> - 2 ^ (len - 1) <= sext x len < 2 ^ (len - 1).
Proof. intros. rewrite sext_swrap by lia. apply swrap_range. lia. Qed.

Lemma sext_testbit x len i :
  0 < len < 64 -> 0 <= i -> Z.testbit (sext x len) i = Z.testbit x (Z.min i (len - 1)).
Proof. intros. rewrite sext_swrap by lia. apply swrap_testbit; lia. Qed.

(** What [deposit] does to each bit: the field replaces bits
    [start .. start+length-1], every other bit is kept. *)
Lemma deposit_testbit W v s l f i :
  0 <= s -> 0 < l -> s + l <= W -> 0 <= i < W ->
  Z.testbit (deposit W v s l f) i =
    if (s <=? i) && (i <? s + l) then Z.testbit f (i - s) else Z.testbit v i.
Proof.
  intros Hs Hl HW Hi. unfold deposit.
  destruct (Z.eqb_spec l 0); [lia|]. rewrite bitmask_ones by lia. unfold andn.
  rewrite Z.lor_spec, Z.ldiff_spec, Z.land_spec, !uwrap_spec by lia.
  destruct (Z.ltb_spec i W); [|lia]. rewrite !Z.shiftl_spec by lia. simpl.
  destruct (Z.leb_spec s i); simpl.
  - destruct (Z.ltb_spec i (s + l)).
    + rewrite Z.land_spec, Z.ones_spec_low, uwrap_spec by lia.
      destruct (Z.ltb_spec (i - s) W); [|lia]. simpl.
      by rewrite !andb_true_r, andb_false_r.
    + rewrite Z.land_spec, Z.ones_spec_high by lia.
      by rewrite !andb_false_r, orb_false_r, andb_true_r.
  - rewrite !(Z.testbit_neg_r _ (i - s)) by lia. by rewrite orb_false_r, andb_true_r.
Qed.

Lemma deposit_fits W v s l f : 0 < W -> fits W (deposit W v s l f).
Proof.
  intros. unfold deposit. case_test; [apply uwrap_fits; lia|].
  apply fits_lor; [lia|..].
  - apply fits_andn; [lia|]. apply uwrap_fits. lia.
  - apply fits_land_l; [lia|]. apply uwrap_fits. lia.
Qed.

(** ** A deposited field reads back, and its neighbours are untouched *)

(** Writing a field with [deposit] and reading the same range with [bits]
    returns the low [length] bits of the field, and every bit outside the range is
    the bit of the old value. *)
Theorem bits_deposit W v s l f :
  0 <= s -> 0 < l -> s + l <= W ->
  bits W (deposit W v s l f) (s + l - 1) s = uwrap l f /\
  forall i, 0 <= i < W -> i < s \/ s + l <= i ->
    Z.testbit (deposit W v s l f) i = Z.testbit v i.
Proof.
  intros Hs Hl HW. split.
  - apply Z.bits_inj'. intros i Hi.
    rewrite bits_testbit, uwrap_spec by lia.
    replace (s + l - 1 - s + 1) with l by lia.
    destruct (Z.ltb_spec i l); [|done]. rewrite deposit_testbit by lia.
    destruct (Z.leb_spec s (i + s)); [|lia].
    destruct (Z.ltb_spec (i + s) (s + l)); [|lia]. simpl. f_equal. lia.
  - intros i Hi Ho. rewrite deposit_testbit by lia.
    destruct (Z.leb_spec s i), (Z.ltb_spec i (s + l)); simpl; try done; lia.
Qed.

Lemma bits_deposit_witness : bits 32 (deposit 32 0xdeadbeef 8 8 0x42) 15 8 = 0x42.
Proof. exact (proj1 (bits_deposit 32 0xdeadbeef 8 8 0x42 ltac:(lia) ltac:(lia) ltac:(lia))). Defined.
