(* ===== verification/Hart.v ===== *)
(** * The hart: registers, control and status registers, traps

    Models include/core/hart.hpp and src/core/hart.cpp: the register files, every
    CSR class with its stored value and its masks, the construction of the CSR
    file, trap delivery and interrupt selection.  A CSR object is its dynamic class
    ([csr_class]) plus its stored value ([csr_value], keyed by the object's
    address); virtual calls are dispatches on the class.  CSR accesses that reach
    outside the hart (satp flushes the TLB, time and stimecmp reach the CLINT) are
    completed in CsrAccess.v. *)

From stdpp Require Import gmap.
From S2P Require Import Prelude Bits.

(** ** Privilege levels, trap causes, exceptions *)

(* The enumeration has the underlying type uint8_t and values are produced by
   static_cast from two-bit fields, so the model keeps the integer. *)
(* @src include/core/hart.hpp 35-39 PrivilegeLevel *)
Definition PrivU : Z := 0.
Definition PrivS : Z := 1.
Definition PrivM : Z := 3.

(* @src include/core/hart.hpp 41-72 TrapCause *)
Inductive TrapCause : Set :=
  | InstructionAddressMisaligned
  | InstructionAccessFault
  | IllegalInstruction
  | Breakpoint
  | LoadAddressMisaligned
  | LoadAccessFault
  | StoreAMOAddressMisaligned
  | StoreAMOAccessFault
  | EnvironmentCallFromU
  | EnvironmentCallFromS
  | EnvironmentCallFromM
  | InstructionPageFault
  | LoadPageFault
  | StoreAMOPageFault
  | SupervisorSoftwareInterrupt
  | MachineSoftwareInterrupt
  | SupervisorTimerInterrupt
  | MachineTimerInterrupt
  | SupervisorExternalInterrupt
  | MachineExternalInterrupt
  | TrapCause_None.

#[export] Instance TrapCause_eq_dec : EqDecision TrapCause.
Proof. solve_decision. Defined.

(* @src include/core/hart.hpp 41-72 TrapCause *)
Definition cause_value (c : TrapCause) : Z :=
  match c with
  | InstructionAddressMisaligned => 0
  | InstructionAccessFault => 1
  | IllegalInstruction => 2
  | Breakpoint => 3
  | LoadAddressMisaligned => 4
  | LoadAccessFault => 5
  | StoreAMOAddressMisaligned => 6
  | StoreAMOAccessFault => 7
  | EnvironmentCallFromU => 8
  | EnvironmentCallFromS => 9
  | EnvironmentCallFromM => 11
  | InstructionPageFault => 12
  | LoadPageFault => 13
  | StoreAMOPageFault => 15
  | SupervisorSoftwareInterrupt => 2 ^ 63 + 1
  | MachineSoftwareInterrupt => 2 ^ 63 + 3
  | SupervisorTimerInterrupt => 2 ^ 63 + 5
  | MachineTimerInterrupt => 2 ^ 63 + 7
  | SupervisorExternalInterrupt => 2 ^ 63 + 9
  | MachineExternalInterrupt => 2 ^ 63 + 11
  | TrapCause_None => 2 ^ 64 - 1
  end.

(* @src include/core/hart.hpp 74-91 Trap *)
Record Trap := mkTrap { trap_pc : Z; trap_cause : TrapCause; trap_tval : Z }.

(** What may leave a C++ call other than by returning: a RISC-V trap, the WFI
    stall, another exception of the host, or the end of the process
    ([std::terminate], [std::unreachable] and undefined behaviour). *)
(* @src include/core/hart.hpp 74-100 Trap, WfiWait *)
Inductive exn : Type :=
  | ETrap (t : Trap)
  | EWfi
  | EHost
  | ETerminate.

(** ** Register files *)

(* @src include/core/hart.hpp 134-141 RegisterFile::read, RegisterFile::write *)
Definition RegisterFile_read (rf : list Z) (idx : Z) : Z :=
  if negb (idx =? 0) then nth (Z.to_nat idx) rf 0 else 0.
Definition RegisterFile_write (rf : list Z) (idx value : Z) : list Z :=
  if negb (idx =? 0) then <[Z.to_nat idx := value]> rf else rf.

(* @src include/common/float.hpp 23-27 F32_DEFAULT_NAN, F64_DEFAULT_NAN, F32_SIGN, F64_SIGN *)
Definition F32_DEFAULT_NAN : Z := 0x7FC00000.
Definition F64_DEFAULT_NAN : Z := 0x7FF8000000000000.
Definition F32_SIGN : Z := 2 ^ 31.
Definition F64_SIGN : Z := 2 ^ 63.

(* @src include/common/float.hpp 31-39 is_boxed_f32, unbox_f32, box_f32 *)
Definition is_boxed_f32 (x : Z) : bool := Z.shiftr x 32 =? 0xFFFFFFFF.
Definition unbox_f32 (x : Z) : Z := u32 x.
Definition box_f32 (x : Z) : Z := Z.lor x 0xFFFFFFFF00000000.

(* @src include/core/hart.hpp 109-120 FPR::read_32, FPR::write_32 *)
Definition FPR_read_32 (value : Z) : Z :=
  if is_boxed_f32 value then unbox_f32 value else F32_DEFAULT_NAN.
Definition FPR_write_32 (x : Z) : Z := box_f32 x.

(** ** The hart object *)

(* [csr_value] holds the field [value_] (or [value_atomic_]) of each CSR object;
   [increase_suppressed] is the extra field of MINSTRET.  The pointers to the MMU
   and to the CLINT are fields of the machine (Machine.v). *)
(* @src include/core/hart.hpp 151-202 Hart *)
Record Hart := mkHart {
  pc : Z;
  gprs : list Z;
  fprs : list Z;
  csr_value : gmap Z Z;
  priv : Z;
  interrupt_check_pending : bool;
  increase_suppressed : bool;
}.

Definition set_pc (v : Z) (h : Hart) : Hart :=
  mkHart v (gprs h) (fprs h) (csr_value h) (priv h) (interrupt_check_pending h)
    (increase_suppressed h).
Definition set_gprs (v : list Z) (h : Hart) : Hart :=
  mkHart (pc h) v (fprs h) (csr_value h) (priv h) (interrupt_check_pending h)
    (increase_suppressed h).
Definition set_fprs (v : list Z) (h : Hart) : Hart :=
  mkHart (pc h) (gprs h) v (csr_value h) (priv h) (interrupt_check_pending h)
    (increase_suppressed h).
Definition set_csr_value (v : gmap Z Z) (h : Hart) : Hart :=
  mkHart (pc h) (gprs h) (fprs h) v (priv h) (interrupt_check_pending h)
    (increase_suppressed h).
Definition set_priv (v : Z) (h : Hart) : Hart :=
  mkHart (pc h) (gprs h) (fprs h) (csr_value h) v (interrupt_check_pending h)
    (increase_suppressed h).
Definition set_interrupt_check_pending (v : bool) (h : Hart) : Hart :=
  mkHart (pc h) (gprs h) (fprs h) (csr_value h) (priv h) v (increase_suppressed h).
Definition set_increase_suppressed (v : bool) (h : Hart) : Hart :=
  mkHart (pc h) (gprs h) (fprs h) (csr_value h) (priv h) (interrupt_check_pending h) v.

(** The stored value of the CSR object at an address. *)
(* @src include/core/hart.hpp 204-232 CSR::value_ *)
Definition raw (h : Hart) (addr : Z) : Z := default 0 (csr_value h !! addr).
Definition set_raw (addr v : Z) (h : Hart) : Hart :=
  set_csr_value (<[addr := v]> (csr_value h)) h.

(** ** CSR addresses, fields and masks *)

(* @src include/core/hart.hpp 275-314 MISA *)
Definition MISA_ADDRESS : Z := 0x301.
Definition MISA_A : Z := Z.shiftl 1 0.
Definition MISA_C : Z := Z.shiftl 1 2.
Definition MISA_D : Z := Z.shiftl 1 3.
Definition MISA_F : Z := Z.shiftl 1 5.
Definition MISA_I : Z := Z.shiftl 1 8.
Definition MISA_M : Z := Z.shiftl 1 12.
Definition MISA_S : Z := Z.shiftl 1 18.
Definition MISA_U : Z := Z.shiftl 1 20.
Definition MISA_MXL_SHIFT : Z := 62.
Definition MISA_xlen_64 : Z := 2.

(* @src include/core/hart.hpp 316-346 MVENDORID, MARCHID, MIMPID, MHARTID *)
Definition MVENDORID_ADDRESS : Z := 0xF11.
Definition MARCHID_ADDRESS : Z := 0xF12.
Definition MIMPID_ADDRESS : Z := 0xF13.
Definition MHARTID_ADDRESS : Z := 0xF14.

(* @src include/core/hart.hpp 348-380 MENVCFG::Field *)
Definition MENVCFG_ADDRESS : Z := 0x30A.
Definition MENVCFG_FIOM : Z := Z.shiftl 1 0.
Definition MENVCFG_ADUE : Z := Z.shiftl 1 61.
Definition MENVCFG_STCE : Z := Z.shiftl 1 63.

(* @src include/core/hart.hpp 386-395 MENVCFG::read_unchecked, MENVCFG::write_unchecked *)
Definition MENVCFG_mask : Z := Z.lor MENVCFG_FIOM (Z.lor MENVCFG_ADUE MENVCFG_STCE).
Definition MENVCFG_read (h : Hart) : Z := Z.land (raw h MENVCFG_ADDRESS) MENVCFG_mask.
Definition MENVCFG_write (v : Z) (h : Hart) : Hart :=
  set_raw MENVCFG_ADDRESS (Z.land v MENVCFG_mask) h.

(* @src include/core/hart.hpp 400-440 MSTATUS::Shift, MSTATUS::Field *)
Definition MSTATUS_ADDRESS : Z := 0x300.
Definition MPP_SHIFT : Z := 11.
Definition SPP_SHIFT : Z := 8.
Definition FS_SHIFT : Z := 13.
Definition MSTATUS_SIE : Z := Z.shiftl 1 1.
Definition MSTATUS_MIE : Z := Z.shiftl 1 3.
Definition MSTATUS_SPIE : Z := Z.shiftl 1 5.
Definition MSTATUS_MPIE : Z := Z.shiftl 1 7.
Definition MSTATUS_SPP : Z := Z.shiftl 1 SPP_SHIFT.
Definition MSTATUS_MPP : Z := Z.shiftl 3 MPP_SHIFT.
Definition MSTATUS_FS : Z := Z.shiftl 3 FS_SHIFT.
Definition MSTATUS_MPRV : Z := Z.shiftl 1 17.
Definition MSTATUS_SUM : Z := Z.shiftl 1 18.
Definition MSTATUS_MXR : Z := Z.shiftl 1 19.
Definition MSTATUS_TVM : Z := Z.shiftl 1 20.
Definition MSTATUS_TW : Z := Z.shiftl 1 21.
Definition MSTATUS_TSR : Z := Z.shiftl 1 22.
Definition MSTATUS_UXL : Z := Z.shiftl 3 32.
Definition MSTATUS_SXL : Z := Z.shiftl 3 34.
Definition MSTATUS_SD : Z := Z.shiftl 1 63.

(** Bitwise or of a list of fields, as the masks are written in the code. *)
Definition flags (l : list Z) : Z := foldr Z.lor 0 l.

(* @src src/core/hart.cpp 66-79 MSTATUS::MSTATUS *)
Definition MSTATUS_read_mask : Z :=
  flags [MSTATUS_SIE; MSTATUS_MIE; MSTATUS_SPIE; MSTATUS_MPIE; MSTATUS_SPP;
         MSTATUS_MPP; MSTATUS_FS; MSTATUS_MPRV; MSTATUS_SUM; MSTATUS_MXR;
         MSTATUS_TVM; MSTATUS_TW; MSTATUS_TSR; MSTATUS_UXL; MSTATUS_SXL; MSTATUS_SD].
Definition MSTATUS_write_mask : Z :=
  flags [MSTATUS_MIE; MSTATUS_MPIE; MSTATUS_MPRV; MSTATUS_MPP; MSTATUS_FS;
         MSTATUS_SIE; MSTATUS_SPIE; MSTATUS_SPP; MSTATUS_SUM; MSTATUS_MXR;
         MSTATUS_TVM; MSTATUS_TW; MSTATUS_TSR].
Definition MSTATUS_init : Z :=
  flags [Z.shiftl MISA_xlen_64 34; Z.shiftl MISA_xlen_64 32; Z.shiftl PrivU MPP_SHIFT].

(* @src include/core/hart.hpp 444-457 MSTATUS::read_unchecked, MSTATUS::write_unchecked *)
Definition MSTATUS_read (h : Hart) : Z :=
  Z.land (raw h MSTATUS_ADDRESS) MSTATUS_read_mask.
Definition MSTATUS_write (v : Z) (h : Hart) : Hart :=
  let v := Z.lor (andn (raw h MSTATUS_ADDRESS) MSTATUS_write_mask)
                 (Z.land v MSTATUS_write_mask) in
  let v := if Z.shiftr (Z.land v MSTATUS_FS) FS_SHIFT =? 3
           then Z.lor v MSTATUS_SD else andn v MSTATUS_SD in
  set_raw MSTATUS_ADDRESS v h.

(* @src include/core/hart.hpp 464-491 TVECCSR, MTVEC *)
Definition MTVEC_ADDRESS : Z := 0x305.
Definition TVEC_write (addr v : Z) (h : Hart) : Hart := set_raw addr (andn v 2) h.

(* @src include/core/hart.hpp 493-509 MEDELEG *)
Definition MEDELEG_ADDRESS : Z := 0x302.
Definition MEDELEG_mask : Z :=
  andn (2 ^ 64 - 1) (Z.lor (Z.shiftl 1 11) (Z.shiftl 1 16)).
Definition MEDELEG_read (h : Hart) : Z := Z.land (raw h MEDELEG_ADDRESS) MEDELEG_mask.
Definition MEDELEG_write (v : Z) (h : Hart) : Hart :=
  set_raw MEDELEG_ADDRESS (Z.land v MEDELEG_mask) h.

(* @src include/core/hart.hpp 515-531 MIDELEG::Field, MIP::Field *)
Definition SSIP : Z := Z.shiftl 1 1.
Definition MSIP : Z := Z.shiftl 1 3.
Definition STIP : Z := Z.shiftl 1 5.
Definition MTIP : Z := Z.shiftl 1 7.
Definition SEIP : Z := Z.shiftl 1 9.
Definition MEIP : Z := Z.shiftl 1 11.

(* @src include/core/hart.hpp 533-552 MIDELEG *)
Definition MIDELEG_ADDRESS : Z := 0x303.
Definition MIDELEG_write_mask : Z := flags [SSIP; STIP; SEIP].
Definition MIDELEG_read (h : Hart) : Z := raw h MIDELEG_ADDRESS.
Definition MIDELEG_write (v : Z) (h : Hart) : Hart :=
  set_raw MIDELEG_ADDRESS (Z.land v MIDELEG_write_mask) h.

(* @src include/core/hart.hpp 584-621 MIP *)
Definition MIP_ADDRESS : Z := 0x344.
Definition MIP_read_mask : Z := flags [SSIP; MSIP; STIP; MTIP; SEIP; MEIP].
Definition MIP_write_mask : Z := flags [SSIP; SEIP].
Definition MIP_read (h : Hart) : Z := Z.land (raw h MIP_ADDRESS) MIP_read_mask.

(* The compare-exchange loop of the code publishes the value computed from the last
   observed one: as one atomic step it is this function of the current value. *)
(* @src include/core/hart.hpp 589-602 MIP::write_unchecked *)
Definition MIP_write (v : Z) (h : Hart) : Hart :=
  let write_mask :=
    if negb (nz (Z.land (MENVCFG_read h) MENVCFG_STCE))
    then Z.lor MIP_write_mask STIP else MIP_write_mask in
  set_raw MIP_ADDRESS
    (Z.lor (andn (raw h MIP_ADDRESS) write_mask) (Z.land v write_mask)) h.

(* @src include/core/hart.hpp 604-610 MIP::set_pending, MIP::clear_pending *)
Definition MIP_set_pending (mask : Z) (h : Hart) : Hart :=
  set_raw MIP_ADDRESS (Z.lor (raw h MIP_ADDRESS) (Z.land mask MIP_read_mask)) h.
Definition MIP_clear_pending (mask : Z) (h : Hart) : Hart :=
  set_raw MIP_ADDRESS (andn (raw h MIP_ADDRESS) mask) h.

(* @src include/core/hart.hpp 623-656 MIE *)
Definition MIE_ADDRESS : Z := 0x304.
Definition MIE_mask : Z := flags [SSIP; MSIP; STIP; MTIP; SEIP; MEIP].
Definition MIE_read (h : Hart) : Z := Z.land (raw h MIE_ADDRESS) MIE_mask.
Definition MIE_write (v : Z) (h : Hart) : Hart :=
  set_raw MIE_ADDRESS (Z.land v MIE_mask) h.

(* @src include/core/hart.hpp 658-682 MCOUNTINHIBIT *)
Definition MCOUNTINHIBIT_ADDRESS : Z := 0x320.
Definition MCOUNTINHIBIT_CY : Z := Z.shiftl 1 0.
Definition MCOUNTINHIBIT_IR : Z := Z.shiftl 1 2.
Definition MCOUNTINHIBIT_mask : Z := andn (2 ^ 64 - 1) 2.
Definition MCOUNTINHIBIT_read (h : Hart) : Z :=
  Z.land (raw h MCOUNTINHIBIT_ADDRESS) MCOUNTINHIBIT_mask.
Definition MCOUNTINHIBIT_write (v : Z) (h : Hart) : Hart :=
  set_raw MCOUNTINHIBIT_ADDRESS (Z.land v MCOUNTINHIBIT_mask) h.

(* @src include/core/hart.hpp 684-704 MCYCLE::advance *)
Definition MCYCLE_ADDRESS : Z := 0xB00.
Definition MCYCLE_advance (h : Hart) : Hart :=
  if nz (Z.land (MCOUNTINHIBIT_read h) MCOUNTINHIBIT_CY) then h
  else set_raw MCYCLE_ADDRESS (u64 (raw h MCYCLE_ADDRESS + 1)) h.

(* @src include/core/hart.hpp 706-733 MINSTRET::advance *)
Definition MINSTRET_ADDRESS : Z := 0xB02.
Definition MINSTRET_advance (h : Hart) : Hart :=
  let h' :=
    if negb (increase_suppressed h) &&
       negb (nz (Z.land (MCOUNTINHIBIT_read h) MCOUNTINHIBIT_IR))
    then set_raw MINSTRET_ADDRESS (u64 (raw h MINSTRET_ADDRESS + 1)) h else h in
  set_increase_suppressed false h'.

(* @src include/core/hart.hpp 735-751 MHPMCOUNTERN, MHPMEVENTN *)
Definition MHPMCOUNTERN_MIN_ADDRESS : Z := 0xB03.
Definition MHPMCOUNTERN_MAX_ADDRESS : Z := 0xB1F.
Definition MHPMEVENTN_MIN_ADDRESS : Z := 0x323.
Definition MHPMEVENTN_MAX_ADDRESS : Z := 0x33F.

(* [None] is std::terminate. *)
(* @src include/core/hart.hpp 753-779 MCOUNTEREN *)
Definition MCOUNTEREN_ADDRESS : Z := 0x306.
Definition MCOUNTEREN_CY : Z := Z.shiftl 1 0.
Definition MCOUNTEREN_TM : Z := Z.shiftl 1 1.
Definition MCOUNTEREN_IR : Z := Z.shiftl 1 2.
Definition hpm_available_to_supervisor_and_user (h : Hart) (csr_addr : Z) : option bool :=
  if csr_addr =? 0x14D then Some (nz (Z.land (raw h MCOUNTEREN_ADDRESS) MCOUNTEREN_TM))
  else if (csr_addr <? 0xC00) || (0xC1F <? csr_addr) then None
  else Some (nz (Z.land (raw h MCOUNTEREN_ADDRESS) (Z.shiftl 1 (csr_addr - 0xC00)))).

(* @src include/core/hart.hpp 781-829 MSCRATCH, EPCCSR, MEPC, MCAUSE, MTVAL, MCONFIGPTR *)
Definition MSCRATCH_ADDRESS : Z := 0x340.
Definition MEPC_ADDRESS : Z := 0x341.
Definition MCAUSE_ADDRESS : Z := 0x342.
Definition MTVAL_ADDRESS : Z := 0x343.
Definition MCONFIGPTR_ADDRESS : Z := 0xF15.
Definition EPC_mask : Z := andn (2 ^ 64 - 1) 1.
Definition EPC_read (h : Hart) (addr : Z) : Z := Z.land (raw h addr) EPC_mask.
Definition EPC_write (addr v : Z) (h : Hart) : Hart :=
  set_raw addr (Z.lor (andn (raw h addr) EPC_mask) (Z.land v EPC_mask)) h.

(* @src include/core/hart.hpp 832-864 PMPCFGN, PMPADDRN, TSELECT, TDATAN *)
Definition PMPCFGN_MIN_ADDRESS : Z := 0x3A0.
Definition PMPCFGN_MAX_ADDRESS : Z := 0x3AF.
Definition PMPADDRN_MIN_ADDRESS : Z := 0x3B0.
Definition PMPADDRN_MAX_ADDRESS : Z := 0x3EF.
Definition TSELECT_ADDRESS : Z := 0x7A0.
Definition TDATAN_MIN_ADDRESS : Z := 0x7A1.
Definition TDATAN_MAX_ADDRESS : Z := 0x7A3.

(* @src include/core/hart.hpp 866-899 SSTATUS *)
Definition SSTATUS_ADDRESS : Z := 0x100.
Definition SSTATUS_read_mask : Z :=
  flags [MSTATUS_SIE; MSTATUS_SPIE; MSTATUS_SPP; MSTATUS_FS; MSTATUS_SUM;
         MSTATUS_MXR; MSTATUS_UXL; MSTATUS_SD].
Definition SSTATUS_write_mask : Z :=
  flags [MSTATUS_SIE; MSTATUS_SPIE; MSTATUS_SPP; MSTATUS_FS; MSTATUS_SUM; MSTATUS_MXR].
Definition SSTATUS_read (h : Hart) : Z := Z.land (MSTATUS_read h) SSTATUS_read_mask.
Definition SSTATUS_write (v : Z) (h : Hart) : Hart :=
  let old_value := MSTATUS_read h in
  MSTATUS_write (Z.lor (andn old_value SSTATUS_write_mask)
                       (Z.land v SSTATUS_write_mask)) h.

(* @src include/core/hart.hpp 901-939 STVEC, SIP *)
Definition STVEC_ADDRESS : Z := 0x105.
Definition SIP_ADDRESS : Z := 0x144.
Definition SIP_read_mask : Z := flags [SSIP; STIP; SEIP].
Definition SIP_write_mask : Z := SSIP.
Definition SIP_read (h : Hart) : Z :=
  Z.land (Z.land (MIP_read h) SIP_read_mask) (MIDELEG_read h).
Definition SIP_write (v : Z) (h : Hart) : Hart :=
  MIP_write (Z.land (Z.land v SIP_write_mask) (MIDELEG_read h)) h.

(* @src include/core/hart.hpp 941-966 SIE *)
Definition SIE_ADDRESS : Z := 0x104.
Definition SIE_mask : Z := flags [SSIP; STIP; SEIP].
Definition SIE_read (h : Hart) : Z := Z.land (MIE_read h) SIE_mask.
Definition SIE_write (v : Z) (h : Hart) : Hart := MIE_write (Z.land v SIE_mask) h.

(* @src include/core/hart.hpp 968-1000 SCOUNTEREN *)
Definition SCOUNTEREN_ADDRESS : Z := 0x106.
Definition SCOUNTEREN_mask : Z := flags [MCOUNTEREN_CY; MCOUNTEREN_TM; MCOUNTEREN_IR].
Definition SCOUNTEREN_read (h : Hart) : Z :=
  Z.land (raw h SCOUNTEREN_ADDRESS) SCOUNTEREN_mask.
Definition SCOUNTEREN_write (v : Z) (h : Hart) : Hart :=
  set_raw SCOUNTEREN_ADDRESS (Z.land v SCOUNTEREN_mask) h.
Definition hpm_available_to_user (h : Hart) (csr_addr : Z) : option bool :=
  if (csr_addr <? 0xC00) || (0xC1F <? csr_addr) then None
  else Some (nz (Z.land (raw h SCOUNTEREN_ADDRESS) (Z.shiftl 1 (csr_addr - 0xC00)))).

(* @src include/core/hart.hpp 1002-1028 SSCRATCH, SEPC, SCAUSE, STVAL *)
Definition SSCRATCH_ADDRESS : Z := 0x140.
Definition SEPC_ADDRESS : Z := 0x141.
Definition SCAUSE_ADDRESS : Z := 0x142.
Definition STVAL_ADDRESS : Z := 0x143.

(* @src include/core/hart.hpp 1030-1047 SENVCFG *)
Definition SENVCFG_ADDRESS : Z := 0x10A.
Definition SENVCFG_mask : Z := MENVCFG_FIOM.
Definition SENVCFG_read (h : Hart) : Z := Z.land (raw h SENVCFG_ADDRESS) SENVCFG_mask.
Definition SENVCFG_write (v : Z) (h : Hart) : Hart :=
  set_raw SENVCFG_ADDRESS (Z.land v SENVCFG_mask) h.

(* @src include/core/hart.hpp 1049-1061 SATP::Field, SATP::Mode *)
Definition SATP_ADDRESS : Z := 0x180.
Definition SATP_PPN : Z := 2 ^ 44 - 1.
Definition SATP_MODE : Z := Z.shiftl 0xF 60.
Definition SATP_MODE_SHIFT : Z := 60.
Definition SATP_Bare : Z := 0.
Definition SATP_Sv39 : Z := 8.
Definition satp_mode (satp : Z) : Z := Z.shiftr (Z.land satp SATP_MODE) SATP_MODE_SHIFT.

(* The boolean says that the TLB is flushed. *)
(* @src src/core/hart.cpp 81-91 SATP::write_unchecked *)
Definition SATP_write (v : Z) (h : Hart) : Hart * bool :=
  let mode := satp_mode v in
  if negb (raw h SATP_ADDRESS =? v) && ((mode =? SATP_Bare) || (mode =? SATP_Sv39))
  then (set_raw SATP_ADDRESS v h, true) else (h, false).

(* @src include/core/hart.hpp 1083-1098 STIMECMP::read_unchecked *)
Definition STIMECMP_ADDRESS : Z := 0x14D.
Definition STIMECMP_read (h : Hart) : Z := raw h STIMECMP_ADDRESS.

(* @src include/core/hart.hpp 1165-1224 CYCLE, TIME, INSTRET, HPMCOUNTERN *)
Definition CYCLE_ADDRESS : Z := 0xC00.
Definition TIME_ADDRESS : Z := 0xC01.
Definition INSTRET_ADDRESS : Z := 0xC02.
Definition HPMCOUNTERN_MIN_ADDRESS : Z := 0xC03.
Definition HPMCOUNTERN_MAX_ADDRESS : Z := 0xC1F.

(* @src include/core/hart.hpp 1226-1260 FFLAGS *)
Definition FFLAGS_ADDRESS : Z := 0x001.
Definition FFLAGS_NV : Z := Z.shiftl 1 4.
Definition FFLAGS_read (h : Hart) : Z := Z.land (raw h FFLAGS_ADDRESS) 31.
Definition FFLAGS_write (v : Z) (h : Hart) : Hart :=
  set_raw FFLAGS_ADDRESS (Z.land v 31) h.

(* @src include/core/hart.hpp 1270-1297 FRM *)
Definition FRM_ADDRESS : Z := 0x002.
Definition FRM_RMM : Z := 4.
Definition FRM_DYN : Z := 7.
Definition FRM_read (h : Hart) : Z := Z.land (raw h FRM_ADDRESS) 7.
Definition FRM_write (v : Z) (h : Hart) : Hart := set_raw FRM_ADDRESS (Z.land v 7) h.

(* @src include/core/hart.hpp 1307-1333 FCSR *)
Definition FCSR_ADDRESS : Z := 0x003.
Definition FCSR_read (h : Hart) : Z := Z.lor (FFLAGS_read h) (Z.shiftl (FRM_read h) 5).
Definition FCSR_write (v : Z) (h : Hart) : Hart :=
  FRM_write (Z.land (Z.shiftr v 5) 7) (FFLAGS_write (Z.land v 31) h).

(** ** The CSR file: dynamic classes, construction, virtual calls *)

(* One constructor per concrete class, in the order Hart::Hart builds them. *)
(* @src include/core/hart.hpp 234-346 CSR subclasses *)
Inductive csr_class : Set :=
  | CMISA | CMVENDORID | CMARCHID | CMIMPID | CMHARTID
  | CMENVCFG | CMSTATUS | CMTVEC | CMEDELEG | CMIDELEG | CMIP | CMIE
  | CMSCRATCH | CMEPC | CMCAUSE | CMTVAL
  | CMCOUNTEREN | CMCOUNTINHIBIT | CMCYCLE | CMINSTRET
  | CMHPMCOUNTERN | CMHPMEVENTN | CMCONFIGPTR | CPMPCFGN | CPMPADDRN
  | CTSELECT | CTDATAN
  | CSSTATUS | CSTVEC | CSIP | CSIE | CSSCRATCH | CSEPC | CSCAUSE | CSTVAL
  | CSCOUNTEREN | CSENVCFG | CSATP | CSTIMECMP
  | CCYCLE | CTIME | CINSTRET | CFFLAGS | CFRM | CFCSR | CHPMCOUNTERN
  | CUnimplemented.

#[export] Instance csr_class_eq_dec : EqDecision csr_class.
Proof. solve_decision. Defined.

(* for (size_t i = min; i <= max; i += delta) *)
(* @src include/core/hart.hpp 196-201 Hart::add_csr_ranged *)
Definition csr_range (lo hi delta : Z) : list Z :=
  map (fun k => lo + Z.of_nat k * delta) (seq 0 (Z.to_nat ((hi - lo) / delta + 1))).

(* @src src/core/hart.cpp 93-167 Hart::Hart *)
Definition csr_objects : list (Z * csr_class * Z) :=
  [ (MISA_ADDRESS, CMISA,
      flags [MISA_I; MISA_M; MISA_A; MISA_F; MISA_D; MISA_C; MISA_S; MISA_U;
             Z.shiftl MISA_xlen_64 MISA_MXL_SHIFT]);
    (MVENDORID_ADDRESS, CMVENDORID, 0);
    (MARCHID_ADDRESS, CMARCHID, 0);
    (MIMPID_ADDRESS, CMIMPID, 0x00000010);
    (MHARTID_ADDRESS, CMHARTID, 0);
    (MENVCFG_ADDRESS, CMENVCFG, 0);
    (MSTATUS_ADDRESS, CMSTATUS, MSTATUS_init);
    (MTVEC_ADDRESS, CMTVEC, 0);
    (MEDELEG_ADDRESS, CMEDELEG, 0);
    (MIDELEG_ADDRESS, CMIDELEG, 0);
    (MIP_ADDRESS, CMIP, 0);
    (MIE_ADDRESS, CMIE, 0);
    (MSCRATCH_ADDRESS, CMSCRATCH, 0);
    (MEPC_ADDRESS, CMEPC, 0);
    (MCAUSE_ADDRESS, CMCAUSE, 0);
    (MTVAL_ADDRESS, CMTVAL, 0);
    (MCOUNTEREN_ADDRESS, CMCOUNTEREN, 0);
    (MCOUNTINHIBIT_ADDRESS, CMCOUNTINHIBIT, 0);
    (MCYCLE_ADDRESS, CMCYCLE, 0);
    (MINSTRET_ADDRESS, CMINSTRET, 0) ] ++
  map (fun a => (a, CMHPMCOUNTERN, 0))
    (csr_range MHPMCOUNTERN_MIN_ADDRESS MHPMCOUNTERN_MAX_ADDRESS 1) ++
  map (fun a => (a, CMHPMEVENTN, 0))
    (csr_range MHPMEVENTN_MIN_ADDRESS MHPMEVENTN_MAX_ADDRESS 1) ++
  [ (MCONFIGPTR_ADDRESS, CMCONFIGPTR, 0) ] ++
  map (fun a => (a, CPMPCFGN, 0)) (csr_range PMPCFGN_MIN_ADDRESS PMPCFGN_MAX_ADDRESS 2) ++
  map (fun a => (a, CPMPADDRN, 0))
    (csr_range PMPADDRN_MIN_ADDRESS PMPADDRN_MAX_ADDRESS 1) ++
  [ (TSELECT_ADDRESS, CTSELECT, 0) ] ++
  map (fun a => (a, CTDATAN, 0)) (csr_range TDATAN_MIN_ADDRESS TDATAN_MAX_ADDRESS 1) ++
  [ (SSTATUS_ADDRESS, CSSTATUS, 0);
    (STVEC_ADDRESS, CSTVEC, 0);
    (SIP_ADDRESS, CSIP, 0);
    (SIE_ADDRESS, CSIE, 0);
    (SSCRATCH_ADDRESS, CSSCRATCH, 0);
    (SEPC_ADDRESS, CSEPC, 0);
    (SCAUSE_ADDRESS, CSCAUSE, 0);
    (STVAL_ADDRESS, CSTVAL, 0);
    (SCOUNTEREN_ADDRESS, CSCOUNTEREN, 0);
    (SENVCFG_ADDRESS, CSENVCFG, 0);
    (SATP_ADDRESS, CSATP, 0);
    (STIMECMP_ADDRESS, CSTIMECMP, 0);
    (CYCLE_ADDRESS, CCYCLE, 0);
    (TIME_ADDRESS, CTIME, 0);
    (INSTRET_ADDRESS, CINSTRET, 0);
    (FFLAGS_ADDRESS, CFFLAGS, 0);
    (FRM_ADDRESS, CFRM, 0);
    (FCSR_ADDRESS, CFCSR, 0) ] ++
  map (fun a => (a, CHPMCOUNTERN, 0))
    (csr_range HPMCOUNTERN_MIN_ADDRESS HPMCOUNTERN_MAX_ADDRESS 1).

(* The class of the object at csrs[addr]; every other slot of the array holds an
   UnimplementedCSR. *)
(* @src src/core/hart.cpp 160-167 Hart::Hart *)
Definition csr_class_at (addr : Z) : csr_class :=
  match find (fun o => o.1.1 =? addr) csr_objects with
  | Some o => o.1.2
  | None => CUnimplemented
  end.

(* STIMECMP has a stored value that its constructor does not initialise: the C++20
   default constructor of std::atomic value-initialises it to 0. *)
(* @src src/core/hart.cpp 93-173 Hart::Hart *)
Definition Hart_init (reset_pc : Z) : Hart :=
  mkHart reset_pc (replicate 32 0) (replicate 32 0)
    (foldl (fun m o => <[o.1.1 := o.2]> m) ∅ csr_objects) PrivM false false.

(* @src include/core/hart.hpp 234-273 CSR::min_priv_ *)
Definition min_priv (c : csr_class) : Z :=
  match c with
  | CMISA | CMVENDORID | CMARCHID | CMIMPID | CMHARTID | CMENVCFG | CMSTATUS
  | CMTVEC | CMEDELEG | CMIDELEG | CMIP | CMIE | CMSCRATCH | CMEPC | CMCAUSE
  | CMTVAL | CMCOUNTEREN | CMCOUNTINHIBIT | CMCYCLE | CMINSTRET | CMHPMCOUNTERN
  | CMHPMEVENTN | CMCONFIGPTR | CPMPCFGN | CPMPADDRN | CTSELECT | CTDATAN
  | CUnimplemented => PrivM
  | CSSTATUS | CSTVEC | CSIP | CSIE | CSSCRATCH | CSEPC | CSCAUSE | CSTVAL
  | CSCOUNTEREN | CSENVCFG | CSATP | CSTIMECMP => PrivS
  | CCYCLE | CTIME | CINSTRET | CHPMCOUNTERN | CFFLAGS | CFRM | CFCSR => PrivU
  end.

(* CSR::check_permissions *)
(* @src include/core/hart.hpp 225-227 CSR::check_permissions *)
Definition CSR_check_permissions (h : Hart) (c : csr_class) : bool :=
  min_priv c <=? priv h.

(* @src include/core/hart.hpp 1071-1077 SATP::check_permissions *)
Definition SATP_check_permissions (h : Hart) : bool :=
  if (priv h =? PrivS) && nz (Z.land (MSTATUS_read h) MSTATUS_TVM) then false
  else CSR_check_permissions h CSATP.

(* @src include/core/hart.hpp 1103-1117 STIMECMP::check_permissions *)
Definition STIMECMP_check_permissions (h : Hart) : bool :=
  if priv h =? PrivM then true
  else if priv h =? PrivU then false
  else if negb (nz (Z.land (raw h MCOUNTEREN_ADDRESS) MCOUNTEREN_TM)) then false
  else if negb (nz (Z.land (MENVCFG_read h) MENVCFG_STCE)) then false
  else true.

(* [None] is std::terminate.  UserCounterCSR and TIME have the same body. *)
(* @src include/core/hart.hpp 1143-1155 UserCounterCSR::check_permissions *)
Definition UserCounter_check_permissions (h : Hart) (address : Z) : option bool :=
  if priv h =? PrivM then Some true
  else match hpm_available_to_supervisor_and_user h address with
       | None => None
       | Some false => Some false
       | Some true =>
           if priv h =? PrivU then
             match hpm_available_to_user h address with
             | None => None
             | Some false => Some false
             | Some true => Some true
             end
           else Some true
       end.

(* @src include/core/hart.hpp 1188-1200 TIME::check_permissions *)
Definition TIME_check_permissions (h : Hart) : option bool :=
  UserCounter_check_permissions h TIME_ADDRESS.

(* FFLAGS, FRM and FCSR. *)
(* @src include/core/hart.hpp 1248-1254 FFLAGS::check_permissions *)
Definition FP_check_permissions (h : Hart) (c : csr_class) : bool :=
  if negb (nz (Z.land (MSTATUS_read h) MSTATUS_FS)) then false
  else CSR_check_permissions h c.

(** The virtual call [csrs[addr]->check_permissions()]. *)
(* @src include/core/hart.hpp 225-227 CSR::check_permissions *)
Definition check_permissions (h : Hart) (addr : Z) : option bool :=
  match csr_class_at addr with
  | CSATP => Some (SATP_check_permissions h)
  | CSTIMECMP => Some (STIMECMP_check_permissions h)
  | CTIME => TIME_check_permissions h
  | CCYCLE | CINSTRET | CHPMCOUNTERN => UserCounter_check_permissions h addr
  | (CFFLAGS | CFRM | CFCSR) as c => Some (FP_check_permissions h c)
  | c => Some (CSR_check_permissions h c)
  end.

(* The reads that only look at the hart, without the user counters: those of the
   classes that do not override read_unchecked return the stored value. *)
(* @src include/core/hart.hpp 214-216 CSR::read_unchecked *)
Definition read_own (h : Hart) (addr : Z) : Z :=
  match csr_class_at addr with
  | CUnimplemented => 0
  | CMENVCFG => MENVCFG_read h
  | CMSTATUS => MSTATUS_read h
  | CMEDELEG => MEDELEG_read h
  | CMIDELEG => MIDELEG_read h
  | CMIP => MIP_read h
  | CMIE => MIE_read h
  | CMCOUNTINHIBIT => MCOUNTINHIBIT_read h
  | CMEPC | CSEPC => EPC_read h addr
  | CSSTATUS => SSTATUS_read h
  | CSIP => SIP_read h
  | CSIE => SIE_read h
  | CSCOUNTEREN => SCOUNTEREN_read h
  | CSENVCFG => SENVCFG_read h
  | CSTIMECMP => STIMECMP_read h
  | CFFLAGS => FFLAGS_read h
  | CFRM => FRM_read h
  | CFCSR => FCSR_read h
  | _ => raw h addr
  end.

(* @src include/core/hart.hpp 1128-1140 UserCounterCSR::read_unchecked *)
Definition mirrored_address (c : csr_class) (addr : Z) : Z :=
  match c with
  | CCYCLE => MCYCLE_ADDRESS
  | CINSTRET => MINSTRET_ADDRESS
  | _ => MHPMCOUNTERN_MIN_ADDRESS + addr - HPMCOUNTERN_MIN_ADDRESS
  end.

(* [csrs[addr]->read_unchecked()] for every class but TIME, whose read advances the
   CLINT (CsrAccess.v). *)
(* @src include/core/hart.hpp 1138-1140 UserCounterCSR::read_unchecked *)
Definition read_hart (h : Hart) (addr : Z) : Z :=
  match csr_class_at addr with
  | (CCYCLE | CINSTRET | CHPMCOUNTERN) as c => read_own h (mirrored_address c addr)
  | _ => read_own h addr
  end.

(* [csrs[addr]->write_unchecked(v)] for every class but SATP and STIMECMP, which
   reach the MMU and the CLINT (CsrAccess.v).  ConstCSR, HardwiredCSR and
   UnimplementedCSR ignore the write. *)
(* @src include/core/hart.hpp 218-273 CSR::write_unchecked, ConstCSR, HardwiredCSR *)
Definition write_hart (addr v : Z) (h : Hart) : Hart :=
  match csr_class_at addr with
  | CUnimplemented
  | CMVENDORID | CMARCHID | CMIMPID | CMHARTID | CMCONFIGPTR
  | CCYCLE | CTIME | CINSTRET | CHPMCOUNTERN
  | CMISA | CMHPMCOUNTERN | CMHPMEVENTN | CPMPCFGN | CTSELECT | CTDATAN => h
  | CMENVCFG => MENVCFG_write v h
  | CMSTATUS => MSTATUS_write v h
  | CMTVEC | CSTVEC => TVEC_write addr v h
  | CMEDELEG => MEDELEG_write v h
  | CMIDELEG => MIDELEG_write v h
  | CMIP => MIP_write v h
  | CMIE => MIE_write v h
  | CMCOUNTINHIBIT => MCOUNTINHIBIT_write v h
  | CMEPC | CSEPC => EPC_write addr v h
  | CSSTATUS => SSTATUS_write v h
  | CSIP => SIP_write v h
  | CSIE => SIE_write v h
  | CSCOUNTEREN => SCOUNTEREN_write v h
  | CSENVCFG => SENVCFG_write v h
  | CFFLAGS => FFLAGS_write v h
  | CFRM => FRM_write v h
  | CFCSR => FCSR_write v h
  | CMSCRATCH | CMCAUSE | CMTVAL | CMCOUNTEREN | CMCYCLE | CMINSTRET | CPMPADDRN
  | CSSCRATCH | CSCAUSE | CSTVAL => set_raw addr v h
  | CSATP | CSTIMECMP => set_raw addr v h
  end.

(** ** Traps *)

(* The body common to both targets of handle_trap: where the program counter goes. *)
(* @src src/core/hart.cpp 217-224 Hart::handle_trap *)
Definition trap_vector (tvec : Z) (is_interrupt : bool) (cause_code : Z) : Z :=
  let vector_base := andn tvec 3 in
  let vector_mode := Z.land tvec 3 in
  if is_interrupt && (vector_mode =? 1)
  then u64 (vector_base + u64 (Z.shiftl cause_code 2))
  else vector_base.

(* @src src/core/hart.cpp 197-226 Hart::handle_trap *)
Definition trap_to_S (t : Trap) (is_interrupt : bool) (cause_code : Z) (h : Hart) : Hart :=
  let h := EPC_write SEPC_ADDRESS (trap_pc t) h in
  let h := set_raw SCAUSE_ADDRESS (cause_value (trap_cause t)) h in
  let h := set_raw STVAL_ADDRESS (trap_tval t) h in
  let sstatus := SSTATUS_read h in
  let sstatus := if nz (Z.land sstatus MSTATUS_SIE)
                 then Z.lor sstatus MSTATUS_SPIE else andn sstatus MSTATUS_SPIE in
  let sstatus := if PrivS <=? priv h
                 then Z.lor sstatus MSTATUS_SPP else andn sstatus MSTATUS_SPP in
  let sstatus := andn sstatus MSTATUS_SIE in
  let h := SSTATUS_write sstatus h in
  let stvec := raw h STVEC_ADDRESS in
  let h := set_pc (trap_vector stvec is_interrupt cause_code) h in
  set_priv PrivS h.

(* @src src/core/hart.cpp 228-256 Hart::handle_trap *)
Definition trap_to_M (t : Trap) (is_interrupt : bool) (cause_code : Z) (h : Hart) : Hart :=
  let h := EPC_write MEPC_ADDRESS (trap_pc t) h in
  let h := set_raw MCAUSE_ADDRESS (cause_value (trap_cause t)) h in
  let h := set_raw MTVAL_ADDRESS (trap_tval t) h in
  let mstatus := MSTATUS_read h in
  let mstatus := if nz (Z.land mstatus MSTATUS_MIE)
                 then Z.lor mstatus MSTATUS_MPIE else andn mstatus MSTATUS_MPIE in
  let mstatus := andn mstatus MSTATUS_MPP in
  let mstatus := Z.lor mstatus (u64 (Z.shiftl (priv h) MPP_SHIFT)) in
  let mstatus := andn mstatus MSTATUS_MIE in
  let h := MSTATUS_write mstatus h in
  let mtvec := raw h MTVEC_ADDRESS in
  let h := set_pc (trap_vector mtvec is_interrupt cause_code) h in
  set_priv PrivM h.

(* The privilege a trap is taken to. *)
(* @src src/core/hart.cpp 179-194 Hart::handle_trap *)
Definition cause_is_interrupt (cause_val : Z) : bool := nz (Z.land (Z.shiftr cause_val 63) 1).
Definition cause_code_of (cause_val : Z) : Z := andn cause_val (Z.shiftl 1 63).
Definition trap_target (h : Hart) (cause_val : Z) : Z :=
  if priv h <=? PrivS then
    let deleg_mask := if cause_is_interrupt cause_val
                      then MIDELEG_read h else MEDELEG_read h in
    if nz (Z.land (Z.shiftr deleg_mask (cause_code_of cause_val)) 1) then PrivS else PrivM
  else PrivM.

(* [None] is std::terminate. *)
(* @src src/core/hart.cpp 175-257 Hart::handle_trap *)
Definition handle_trap (t : Trap) (h : Hart) : option Hart :=
  if decide (trap_cause t = TrapCause_None) then None
  else
    let cause_val := cause_value (trap_cause t) in
    let is_interrupt := cause_is_interrupt cause_val in
    let cause_code := cause_code_of cause_val in
    if trap_target h cause_val =? PrivS
    then Some (trap_to_S t is_interrupt cause_code h)
    else Some (trap_to_M t is_interrupt cause_code h).

(** ** Interrupts *)

(* @src src/core/hart.cpp 279-292 Hart::check_interrupts *)
Definition interrupt_prio : list (Z * TrapCause) :=
  [ (MEIP, MachineExternalInterrupt);
    (MSIP, MachineSoftwareInterrupt);
    (MTIP, MachineTimerInterrupt);
    (SEIP, SupervisorExternalInterrupt);
    (SSIP, SupervisorSoftwareInterrupt);
    (STIP, SupervisorTimerInterrupt) ].

(* @src src/core/hart.cpp 272-277 Hart::check_interrupts *)
Definition m_enabled (h : Hart) : bool :=
  (priv h <? PrivM) || ((priv h =? PrivM) && nz (Z.land (MSTATUS_read h) MSTATUS_MIE)).
Definition s_enabled (h : Hart) : bool :=
  (priv h <? PrivS) || ((priv h =? PrivS) && nz (Z.land (MSTATUS_read h) MSTATUS_SIE)).

(* The loop over prio[]: the first entry that throws. *)
(* @src src/core/hart.cpp 294-305 Hart::check_interrupts *)
Fixpoint select_interrupt (h : Hart) (pending mideleg : Z)
    (prio : list (Z * TrapCause)) : option Trap :=
  match prio with
  | [] => None
  | (bit, cause) :: rest =>
      if negb (nz (Z.land pending bit)) then select_interrupt h pending mideleg rest
      else if nz (Z.land mideleg bit) then
        if s_enabled h then Some (mkTrap (pc h) cause 0)
        else select_interrupt h pending mideleg rest
      else
        if m_enabled h then Some (mkTrap (pc h) cause 0)
        else select_interrupt h pending mideleg rest
  end.

(* The trap it throws, if any, and the hart with its mutable flag cleared. *)
(* @src src/core/hart.cpp 259-306 Hart::check_interrupts *)
Definition check_interrupts (h : Hart) : option Trap * Hart :=
  let h := set_interrupt_check_pending false h in
  let pending := Z.land (MIP_read h) (MIE_read h) in
  if negb (nz pending) then (None, h)
  else (select_interrupt h pending (MIDELEG_read h) interrupt_prio, h).

(* @src src/core/hart.cpp 308-313 Hart::has_pending_enabled_interrupt *)
Definition has_pending_enabled_interrupt (h : Hart) : bool :=
  nz (Z.land (MIP_read h) (MIE_read h)).

(* @src src/core/hart.cpp 315-323 Hart::set_interrupt_pending *)
Definition set_interrupt_pending (mip_mask : Z) (pending : bool) (h : Hart) : Hart :=
  if pending then MIP_set_pending mip_mask h else MIP_clear_pending mip_mask h.

(** Small concrete runs. *)
Example csr_classes_small :
  csr_class_at 0x300 = CMSTATUS /\ csr_class_at 0x3A1 = CUnimplemented /\
  csr_class_at 0xC1F = CHPMCOUNTERN /\ csr_class_at 0x7FF = CUnimplemented /\
  length csr_objects = 202%nat.
Proof. vm_compute. repeat split. Qed.
