(* ===== verification/HartInv.v ===== *)
(** * Invariants of the hart: legality of the CSR file, traps, interrupts

    The stored value of every CSR object stays legal for its class (reserved bits
    zero, WARL fields in range, mstatus.SD a summary of mstatus.FS); trap delivery
    and the selection of interrupts against their specifications. *)

From stdpp Require Import gmap.
From Stdlib Require Import Btauto.
From S2P Require Import Prelude Bits Hart.

#[global] Arguments raw : simpl never.
#[global] Arguments set_raw : simpl never.

(** ** Reasoning on bits and on the CSR map *)

(** [x] has no bit outside the mask [m]. *)
Definition sub (x m : Z) : Prop := Z.land x m = x.

Ltac bit_specs :=
  repeat first
    [ rewrite Z.land_spec | rewrite Z.lor_spec | rewrite Z.ldiff_spec
    | rewrite Z.lxor_spec ].

(** Equality of two bitwise expressions, atom by atom. *)
Ltac bit_ext :=
  unfold sub, andn in *; apply Z.bits_inj'; intros ?i ?Hi; bit_specs; try btauto.

Lemma sub_testbit x m : sub x m <-> forall i, 0 <= i -> Z.testbit x i = true -> Z.testbit m i = true.
Proof.
  split.
  - intros H i Hi Hx. rewrite <- H, Z.land_spec in Hx.
    by apply andb_prop in Hx as [_ Hx].
  - intros H. apply Z.bits_inj'. intros i Hi. rewrite Z.land_spec.
    destruct (Z.testbit x i) eqn:E; [|done]. by rewrite (H i Hi E).
Qed.

Lemma sub_land v m : sub (Z.land v m) m.
Proof. bit_ext. Qed.
Lemma sub_lor x y m : sub x m -> sub y m -> sub (Z.lor x y) m.
Proof. unfold sub. intros Hx Hy. by rewrite Z.land_lor_distr_l, Hx, Hy. Qed.
Lemma sub_andn x y m : sub x m -> sub (andn x y) m.
Proof.
  rewrite !sub_testbit. unfold andn. intros H i Hi. rewrite Z.ldiff_spec.
  intros [? ?]%andb_prop. by apply H.
Qed.
Lemma sub_land_l x y m : sub x m -> sub (Z.land x y) m.
Proof.
  rewrite !sub_testbit. intros H i Hi. rewrite Z.land_spec.
  intros [? ?]%andb_prop. by apply H.
Qed.
Lemma sub_trans x m m' : sub x m -> sub m m' -> sub x m'.
Proof. rewrite !sub_testbit. auto. Qed.
Lemma sub_fits x m : fits 64 m -> sub x m -> fits 64 x.
Proof. intros Hm <-. by apply fits_land_r. Qed.

Create HintDb sub discriminated.
#[export] Hint Resolve sub_land sub_lor sub_andn : sub.

(** A one-bit test reads a bit. *)
Lemma nz_land_bit x n : 0 <= n -> nz (Z.land x (Z.shiftl 1 n)) = Z.testbit x n.
Proof.
  intros Hn. destruct (Z.testbit x n) eqn:E.
  - apply nz_true. intros H0. pose proof (f_equal (fun y => Z.testbit y n) H0) as H1.
    simpl in H1. rewrite Z.land_spec, E, Z.shiftl_spec, Z.sub_diag, Z.testbit_0_l in H1
      by lia. done.
  - apply nz_false. apply Z.bits_inj'. intros i Hi.
    rewrite Z.land_spec, Z.shiftl_1_l, Z.pow2_bits_eqb, Z.testbit_0_l by lia.
    destruct (Z.eqb_spec n i); [subst; by rewrite E|apply andb_false_r].
Qed.

Lemma raw_set_raw_eq a v h : raw (set_raw a v h) a = v.
Proof. unfold raw, set_raw. simpl. by rewrite lookup_insert_eq. Qed.
Lemma raw_set_raw_ne a b v h : a <> b -> raw (set_raw a v h) b = raw h b.
Proof. intros. unfold raw, set_raw. simpl. by rewrite lookup_insert_ne. Qed.
Lemma raw_set_raw a b v h : raw (set_raw a v h) b = if a =? b then v else raw h b.
Proof.
  destruct (Z.eqb_spec a b) as [->|]; [apply raw_set_raw_eq|by apply raw_set_raw_ne].
Qed.
Lemma raw_set_pc v h a : raw (set_pc v h) a = raw h a. Proof. done. Qed.
Lemma raw_set_gprs v h a : raw (set_gprs v h) a = raw h a. Proof. done. Qed.
Lemma raw_set_fprs v h a : raw (set_fprs v h) a = raw h a. Proof. done. Qed.
Lemma raw_set_priv v h a : raw (set_priv v h) a = raw h a. Proof. done. Qed.
Lemma raw_set_icp v h a : raw (set_interrupt_check_pending v h) a = raw h a.
Proof. done. Qed.
Lemma raw_set_is v h a : raw (set_increase_suppressed v h) a = raw h a.
Proof. done. Qed.

(** Evaluate the CSR reads of an updated hart; addresses are constants. *)
Ltac neq_addr := vm_compute; congruence.
Ltac csr_step :=
  first
    [ rewrite raw_set_raw_eq
    | rewrite raw_set_raw_ne by neq_addr
    | rewrite raw_set_pc | rewrite raw_set_gprs | rewrite raw_set_fprs
    | rewrite raw_set_priv | rewrite raw_set_icp | rewrite raw_set_is ].
Ltac csr_simpl := repeat csr_step.

(** ** Legality of the stored CSR values *)

Definition MSTATUS_hardwired_mask : Z := Z.lor MSTATUS_write_mask MSTATUS_SD.

(** The value an object of class [c] may hold. *)
Definition legal (c : csr_class) (v : Z) : Prop :=
  fits 64 v /\
  match c with
  | CMSTATUS =>
      andn v MSTATUS_hardwired_mask = MSTATUS_init /\
      Z.testbit v 63 = (Z.shiftr (Z.land v MSTATUS_FS) FS_SHIFT =? 3)
  | CMENVCFG => sub v MENVCFG_mask
  | CMEDELEG => sub v MEDELEG_mask
  | CMIDELEG => sub v MIDELEG_write_mask
  | CMIP => sub v MIP_read_mask
  | CMIE => sub v MIE_mask
  | CMCOUNTINHIBIT => sub v MCOUNTINHIBIT_mask
  | CMTVEC | CSTVEC => Z.testbit v 1 = false
  | CMEPC | CSEPC => Z.testbit v 0 = false
  | CSCOUNTEREN => sub v SCOUNTEREN_mask
  | CSENVCFG => sub v SENVCFG_mask
  | CSATP => satp_mode v = SATP_Bare \/ satp_mode v = SATP_Sv39
  | CFFLAGS => sub v 31
  | CFRM => sub v 7
  | _ => True
  end.

Definition csr_legal (h : Hart) : Prop :=
  forall a, legal (csr_class_at a) (raw h a).

Lemma csr_legal_set_raw a v h :
  csr_legal h -> legal (csr_class_at a) v -> csr_legal (set_raw a v h).
Proof.
  intros Hh Hv b. rewrite raw_set_raw. destruct (Z.eqb_spec a b) as [->|]; auto.
Qed.

(** As [csr_legal_set_raw], with the class of a constant address already found. *)
Lemma csr_legal_set_at c a v h :
  csr_class_at a = c -> csr_legal h -> legal c v -> csr_legal (set_raw a v h).
Proof. intros <-. apply csr_legal_set_raw. Qed.

Lemma csr_legal_at c a h : csr_class_at a = c -> csr_legal h -> legal c (raw h a).
Proof. intros <- Hh. apply Hh. Qed.

Lemma csr_legal_fits h a : csr_legal h -> fits 64 (raw h a).
Proof. intros H. apply (H a). Qed.
#[export] Hint Resolve csr_legal_fits : fits.

(** The writes of the masked classes. *)
Lemma legal_masked c v m :
  fits 64 m -> (forall x, sub x m -> fits 64 x -> legal c x) -> legal c (Z.land v m).
Proof. intros Hm H. apply H; [apply sub_land|by apply fits_land_r]. Qed.

Ltac solve_masked := apply legal_masked; [by vm_compute | by split].

Lemma MSTATUS_write_legal v h :
  fits 64 v -> csr_legal h -> csr_legal (MSTATUS_write v h).
Proof.
  intros Hv Hh. apply (csr_legal_set_at CMSTATUS); [by vm_compute|done|].
  pose proof (csr_legal_at CMSTATUS MSTATUS_ADDRESS h eq_refl Hh) as [Hr [Hw _]].
  set (r := raw h MSTATUS_ADDRESS) in *.
  set (w := Z.lor (andn r MSTATUS_write_mask) (Z.land v MSTATUS_write_mask)).
  assert (fits 64 w) as Hfw by (unfold w; auto with fits).
  assert (andn w MSTATUS_hardwired_mask = MSTATUS_init) as Hi.
  { rewrite <- Hw. unfold w, MSTATUS_hardwired_mask. bit_ext. }
  assert (forall x, Z.land (Z.lor x MSTATUS_SD) MSTATUS_FS = Z.land x MSTATUS_FS) as EF1.
  { intros. rewrite Z.land_lor_distr_l. replace (Z.land MSTATUS_SD MSTATUS_FS) with 0
      by reflexivity. apply Z.lor_0_r. }
  assert (forall x, Z.land (andn x MSTATUS_SD) MSTATUS_FS = Z.land x MSTATUS_FS) as EF2.
  { intros. replace MSTATUS_FS with (andn MSTATUS_FS MSTATUS_SD) at 2 by reflexivity.
    bit_ext. }
  destruct (Z.eqb_spec (Z.shiftr (Z.land w MSTATUS_FS) FS_SHIFT) 3) as [E|E];
    refine (conj _ (conj _ _)).
  - apply fits_lor; [lia|done|]. by vm_compute.
  - rewrite <- Hi. unfold MSTATUS_hardwired_mask. bit_ext.
  - rewrite EF1, E. rewrite Z.lor_spec. simpl. apply orb_true_r.
  - auto with fits.
  - rewrite <- Hi. unfold MSTATUS_hardwired_mask. bit_ext.
  - rewrite EF2, (proj2 (Z.eqb_neq _ _) E). unfold andn. rewrite Z.ldiff_spec.
    apply andb_false_r.
Qed.

Lemma fits_mask_r v m : fits 64 m -> fits 64 (Z.land v m).
Proof. by apply fits_land_r. Qed.

Lemma MSTATUS_read_fits h : fits 64 (MSTATUS_read h).
Proof. by apply fits_mask_r. Qed.
#[export] Hint Resolve MSTATUS_read_fits : fits.

Lemma SSTATUS_write_legal v h :
  fits 64 v -> csr_legal h -> csr_legal (SSTATUS_write v h).
Proof. intros. apply MSTATUS_write_legal; auto 6 with fits. Qed.

Lemma MIP_value_legal x h :
  csr_legal h -> sub x MIP_read_mask -> csr_legal (set_raw MIP_ADDRESS x h).
Proof.
  intros Hh Hx. apply (csr_legal_set_at CMIP); [by vm_compute|done|].
  split; [by apply (sub_fits _ MIP_read_mask)|done].
Qed.

Lemma MIP_raw_sub h : csr_legal h -> sub (raw h MIP_ADDRESS) MIP_read_mask.
Proof. intros Hh. apply (csr_legal_at CMIP MIP_ADDRESS h eq_refl Hh). Qed.

Lemma MIP_write_legal v h : csr_legal h -> csr_legal (MIP_write v h).
Proof.
  intros Hh. apply MIP_value_legal; [done|].
  apply sub_lor; [apply sub_andn, MIP_raw_sub, Hh|].
  eapply sub_trans; [apply sub_land|]. by case_test.
Qed.

Lemma set_interrupt_pending_legal m b h :
  csr_legal h -> csr_legal (set_interrupt_pending m b h).
Proof.
  intros Hh. destruct b; apply MIP_value_legal; auto using MIP_raw_sub with sub.
Qed.

Lemma EPC_value_legal c a v h :
  csr_class_at a = c -> c = CMEPC \/ c = CSEPC -> fits 64 v -> csr_legal h ->
  csr_legal (EPC_write a v h).
Proof.
  intros Ha Hc Hv Hh. apply (csr_legal_set_at c); [done|done|].
  pose proof (csr_legal_at c a h Ha Hh) as [Hr H0].
  assert (legal c (Z.lor (andn (raw h a) EPC_mask) (Z.land v EPC_mask))); [|done].
  split; [auto with fits|].
  assert (Z.testbit (raw h a) 0 = false) as H0' by by destruct Hc as [->| ->].
  assert (Z.testbit (Z.lor (andn (raw h a) EPC_mask) (Z.land v EPC_mask)) 0 = false).
  { unfold andn. bit_specs. rewrite H0'. simpl. apply andb_false_r. }
  by destruct Hc as [->| ->].
Qed.

Lemma TVEC_write_legal c a v h :
  csr_class_at a = c -> c = CMTVEC \/ c = CSTVEC -> fits 64 v -> csr_legal h ->
  csr_legal (TVEC_write a v h).
Proof.
  intros Ha Hc Hv Hh. apply (csr_legal_set_at c); [done|done|].
  assert (fits 64 (andn v 2) /\ Z.testbit (andn v 2) 1 = false) as [? ?].
  { split; [auto with fits|]. unfold andn. rewrite Z.ldiff_spec. apply andb_false_r. }
  by destruct Hc as [->| ->].
Qed.

Lemma SATP_write_legal v h :
  fits 64 v -> csr_legal h -> csr_legal (fst (SATP_write v h)).
Proof.
  intros Hv Hh. unfold SATP_write. case_test; [|done]. simpl.
  apply (csr_legal_set_at CSATP); [by vm_compute|done|].
  bool_hyps. split; [done|]. apply orb_true_iff in H0 as [E1|E1]; bool_hyps; auto.
Qed.

Lemma masked_write_legal c a m v h :
  csr_class_at a = c -> fits 64 m -> (forall x, sub x m -> fits 64 x -> legal c x) ->
  csr_legal h -> csr_legal (set_raw a (Z.land v m) h).
Proof.
  intros Ha Hm Hc Hh. apply (csr_legal_set_at c); [done|done|].
  by apply (legal_masked c v m).
Qed.

Ltac legal_masked_at c :=
  apply (masked_write_legal c); [by vm_compute | by vm_compute | by split | done].

Lemma FFLAGS_write_legal v h : csr_legal h -> csr_legal (FFLAGS_write v h).
Proof. intros. legal_masked_at CFFLAGS. Qed.
Lemma FRM_write_legal v h : csr_legal h -> csr_legal (FRM_write v h).
Proof. intros. legal_masked_at CFRM. Qed.

(** Every write that stays inside the hart keeps the CSR file legal, at every
    address. *)
Lemma write_hart_legal a v h :
  fits 64 v -> csr_class_at a <> CSATP -> csr_legal h -> csr_legal (write_hart a v h).
Proof.
  intros Hv Hns Hh. unfold write_hart. destruct (csr_class_at a) eqn:Ea;
    try done;
    try (apply csr_legal_set_raw; [done|]; by rewrite Ea);
    eauto using MSTATUS_write_legal, MIP_write_legal, SSTATUS_write_legal,
      EPC_value_legal, TVEC_write_legal, FFLAGS_write_legal, FRM_write_legal.
  - legal_masked_at CMENVCFG.
  - legal_masked_at CMEDELEG.
  - legal_masked_at CMIDELEG.
  - legal_masked_at CMIE.
  - legal_masked_at CMCOUNTINHIBIT.
  - legal_masked_at CMIE.
  - legal_masked_at CSCOUNTEREN.
  - legal_masked_at CSENVCFG.
Qed.

Lemma MCYCLE_advance_legal h : csr_legal h -> csr_legal (MCYCLE_advance h).
Proof.
  intros Hh. unfold MCYCLE_advance. case_test; [done|].
  apply (csr_legal_set_at CMCYCLE); [by vm_compute|done|].
  split; [apply uwrap_fits; lia|done].
Qed.

Lemma MINSTRET_advance_legal h : csr_legal h -> csr_legal (MINSTRET_advance h).
Proof.
  intros Hh a. unfold MINSTRET_advance. rewrite raw_set_is. revert a.
  change (csr_legal (if negb (increase_suppressed h) &&
       negb (nz (Z.land (MCOUNTINHIBIT_read h) MCOUNTINHIBIT_IR))
    then set_raw MINSTRET_ADDRESS (u64 (raw h MINSTRET_ADDRESS + 1)) h else h)).
  case_test; [|done].
  apply (csr_legal_set_at CMINSTRET); [by vm_compute|done|].
  split; [apply uwrap_fits; lia|done].
Qed.

(** The constructor builds a legal file: only misa, mimpid and mstatus start with a
    value other than zero. *)
Definition csr_init : gmap Z Z :=
  foldl (fun m o => <[o.1.1 := o.2]> m) ∅ csr_objects.

Lemma csr_init_values :
  map_Forall (fun k v => v = 0 \/ k = MISA_ADDRESS \/ k = MIMPID_ADDRESS \/ k = MSTATUS_ADDRESS)
    csr_init.
Proof. apply (bool_decide_unpack _). by vm_compute. Qed.

Lemma csr_class_at_MSTATUS a : csr_class_at a = CMSTATUS -> a = MSTATUS_ADDRESS.
Proof.
  unfold csr_class_at. destruct (find _ _) as [o|] eqn:E; [|done].
  apply find_some in E as [Hin Ha]. apply Z.eqb_eq in Ha. subst a.
  assert (Forall (fun o => o.1.2 = CMSTATUS -> o.1.1 = MSTATUS_ADDRESS) csr_objects) as HF.
  { apply (bool_decide_unpack _). by vm_compute. }
  rewrite List.Forall_forall in HF. by apply HF.
Qed.

Lemma legal_0 c : c <> CMSTATUS -> legal c 0.
Proof. intros. split; [by split|]. destruct c; try done. by left. Qed.

Lemma Hart_init_legal pc0 : csr_legal (Hart_init pc0).
Proof.
  intros a. change (raw (Hart_init pc0) a) with (default 0 (csr_init !! a)).
  destruct (csr_init !! a) as [v|] eqn:E; simpl.
  - pose proof (csr_init_values a v E) as [->|[->|[->| ->]]];
      [|vm_compute in E; simplify_eq; by vm_compute..].
    apply legal_0. intros ->%csr_class_at_MSTATUS. by vm_compute in E.
  - apply legal_0. intros ->%csr_class_at_MSTATUS. by vm_compute in E.
Qed.

(** ** Trap delivery *)

Lemma set_pc_legal v h : csr_legal h -> csr_legal (set_pc v h).
Proof. done. Qed.
Lemma set_priv_legal v h : csr_legal h -> csr_legal (set_priv v h).
Proof. done. Qed.
Lemma plain_write_legal a v h :
  legal (csr_class_at a) v -> csr_legal h -> csr_legal (set_raw a v h).
Proof. intros. by apply csr_legal_set_raw. Qed.

Lemma cause_value_fits c : fits 64 (cause_value c).
Proof. by destruct c. Qed.

Lemma SSTATUS_read_fits h : fits 64 (SSTATUS_read h).
Proof. by apply fits_mask_r. Qed.
#[export] Hint Resolve SSTATUS_read_fits cause_value_fits : fits.

Lemma trap_to_S_legal t b code h :
  fits 64 (trap_pc t) -> fits 64 (trap_tval t) -> csr_legal h ->
  csr_legal (trap_to_S t b code h).
Proof.
  intros Hp Ht Hh. unfold trap_to_S. apply set_priv_legal, set_pc_legal.
  apply SSTATUS_write_legal.
  - fits_tac.
  - apply plain_write_legal; [by split|]. apply plain_write_legal; [|].
    { split; [apply cause_value_fits|done]. }
    apply (EPC_value_legal CSEPC); auto.
Qed.

Lemma trap_to_M_legal t b code h :
  fits 64 (trap_pc t) -> fits 64 (trap_tval t) -> csr_legal h ->
  csr_legal (trap_to_M t b code h).
Proof.
  intros Hp Ht Hh. unfold trap_to_M. apply set_priv_legal, set_pc_legal.
  apply MSTATUS_write_legal.
  - fits_tac.
  - apply plain_write_legal; [by split|]. apply plain_write_legal; [|].
    { split; [apply cause_value_fits|done]. }
    apply (EPC_value_legal CMEPC); auto.
Qed.

Lemma handle_trap_legal t h h' :
  fits 64 (trap_pc t) -> fits 64 (trap_tval t) -> csr_legal h ->
  handle_trap t h = Some h' -> csr_legal h'.
Proof.
  unfold handle_trap. intros ? ? ? ?. case_decide; [done|].
  case_match; simplify_eq; auto using trap_to_S_legal, trap_to_M_legal.
Qed.

(** *** mstatus, bit by bit *)

Lemma FS_eqb_3 v : fits 64 v ->
  (Z.shiftr (Z.land v MSTATUS_FS) FS_SHIFT =? 3) = Z.testbit v 13 && Z.testbit v 14.
Proof.
  intros Hv. change MSTATUS_FS with (Z.shiftl (Z.ones 2) FS_SHIFT).
  assert (Z.shiftr (Z.land v (Z.shiftl (Z.ones 2) FS_SHIFT)) FS_SHIFT
          = Z.land (Z.shiftr v FS_SHIFT) (Z.ones 2)) as ->.
  { apply Z.bits_inj'. intros i Hi. unfold FS_SHIFT.
    rewrite Z.land_spec, !Z.shiftr_spec, Z.land_spec, Z.shiftl_spec by lia.
    by replace (i + 13 - 13) with i by lia. }
  replace (Z.testbit v 13) with (Z.testbit (Z.shiftr v FS_SHIFT) 0)
    by (by rewrite Z.shiftr_spec).
  replace (Z.testbit v 14) with (Z.testbit (Z.shiftr v FS_SHIFT) 1)
    by (by rewrite Z.shiftr_spec).
  generalize (Z.shiftr v FS_SHIFT). intros x. rewrite Z.land_ones by lia.
  pose proof (Z.testbit_spec' x 0). pose proof (Z.testbit_spec' x 1).
  change (2 ^ 0) with 1 in *. change (2 ^ 1) with 2 in *. change (2 ^ 2) with 4.
  destruct (Z.testbit x 0), (Z.testbit x 1); simpl in *;
    apply Z.eqb_eq || apply Z.eqb_neq; lia.
Qed.

Lemma MSTATUS_read_testbit h i : 0 <= i ->
  Z.testbit (MSTATUS_read h) i
    = Z.testbit (raw h MSTATUS_ADDRESS) i && Z.testbit MSTATUS_read_mask i.
Proof. intros. unfold MSTATUS_read. by rewrite Z.land_spec. Qed.

(** A write that keeps FS changes exactly the writable bits. *)
Lemma MSTATUS_write_testbit v h i :
  csr_legal h -> fits 64 v -> 0 <= i ->
  Z.testbit v 13 = Z.testbit (MSTATUS_read h) 13 ->
  Z.testbit v 14 = Z.testbit (MSTATUS_read h) 14 ->
  Z.testbit (MSTATUS_read (MSTATUS_write v h)) i =
    if Z.testbit MSTATUS_write_mask i then Z.testbit v i
    else Z.testbit (MSTATUS_read h) i.
Proof.
  intros Hh Hv Hi H13 H14.
  pose proof (csr_legal_at CMSTATUS MSTATUS_ADDRESS h eq_refl Hh) as [Hr [_ HSD]].
  rewrite !MSTATUS_read_testbit in * by lia. unfold MSTATUS_write.
  rewrite raw_set_raw_eq. set (r := raw h MSTATUS_ADDRESS) in *.
  set (w := Z.lor (andn r MSTATUS_write_mask) (Z.land v MSTATUS_write_mask)).
  assert (fits 64 w) by (unfold w; fits_tac).
  assert (forall j, 0 <= j -> Z.testbit w j =
    if Z.testbit MSTATUS_write_mask j then Z.testbit v j else Z.testbit r j) as Hw.
  { intros j Hj. unfold w, andn. bit_specs.
    destruct (Z.testbit MSTATUS_write_mask j); simpl; btauto. }
  rewrite FS_eqb_3 in * by done. rewrite !Hw by lia.
  change (Z.testbit MSTATUS_write_mask 13) with true.
  change (Z.testbit MSTATUS_write_mask 14) with true. cbn match.
  change (Z.testbit MSTATUS_read_mask 13) with true in H13.
  change (Z.testbit MSTATUS_read_mask 14) with true in H14.
  rewrite andb_true_r in H13, H14. rewrite H13, H14, <- HSD.
  assert (Z.testbit (if Z.testbit r 63 then Z.lor w MSTATUS_SD else andn w MSTATUS_SD) i
          = if i =? 63 then Z.testbit r 63 else Z.testbit w i) as ->.
  { change MSTATUS_SD with (2 ^ 63). destruct (Z.testbit r 63); unfold andn;
      rewrite ?Z.lor_spec, ?Z.ldiff_spec, Z.pow2_bits_eqb by lia;
      rewrite (Z.eqb_sym 63 i); destruct (i =? 63); simpl; btauto. }
  destruct (Z.eqb_spec i 63) as [->|].
  - simpl. done.
  - rewrite Hw by lia. destruct (Z.testbit MSTATUS_write_mask i) eqn:E; [|done].
    assert (sub MSTATUS_write_mask MSTATUS_read_mask) as Hs by done.
    rewrite sub_testbit in Hs. rewrite (Hs i) by done. apply andb_true_r.
Qed.

Lemma SSTATUS_read_testbit h i : 0 <= i ->
  Z.testbit (SSTATUS_read h) i
    = Z.testbit (MSTATUS_read h) i && Z.testbit SSTATUS_read_mask i.
Proof. intros. unfold SSTATUS_read. by rewrite Z.land_spec. Qed.

Lemma SSTATUS_write_testbit v h i :
  csr_legal h -> fits 64 v -> 0 <= i ->
  Z.testbit v 13 = Z.testbit (MSTATUS_read h) 13 ->
  Z.testbit v 14 = Z.testbit (MSTATUS_read h) 14 ->
  Z.testbit (MSTATUS_read (SSTATUS_write v h)) i =
    if Z.testbit SSTATUS_write_mask i then Z.testbit v i
    else Z.testbit (MSTATUS_read h) i.
Proof.
  intros Hh Hv Hi H13 H14. unfold SSTATUS_write.
  assert (forall j, 0 <= j ->
    Z.testbit (Z.lor (andn (MSTATUS_read h) SSTATUS_write_mask) (Z.land v SSTATUS_write_mask)) j
    = if Z.testbit SSTATUS_write_mask j then Z.testbit v j else Z.testbit (MSTATUS_read h) j) as Hw.
  { intros j Hj. unfold andn. bit_specs.
    destruct (Z.testbit SSTATUS_write_mask j); simpl; btauto. }
  rewrite MSTATUS_write_testbit; [|done|fits_tac|done|by rewrite Hw|by rewrite Hw].
  rewrite Hw by done.
  destruct (Z.testbit SSTATUS_write_mask i) eqn:E; [|by case_test].
  assert (sub SSTATUS_write_mask MSTATUS_write_mask) as Hs by done.
  rewrite sub_testbit in Hs. by rewrite (Hs i).
Qed.

(** *** Where a trap goes and what it writes *)

Definition is_interrupt (c : TrapCause) : bool := 2 ^ 63 <=? cause_value c.
Definition exception_code (c : TrapCause) : Z := cause_value c mod 2 ^ 63.

(** The delegation rule of the privileged architecture. *)
Definition delegated (h : Hart) (c : TrapCause) : bool :=
  (priv h <=? PrivS) &&
  Z.testbit (if is_interrupt c then MIDELEG_read h else MEDELEG_read h) (exception_code c).

(** [tvec] direct or vectored. *)
Definition vector_of (tvec : Z) (c : TrapCause) : Z :=
  if is_interrupt c && Z.testbit tvec 0
  then u64 (andn tvec 3 + 4 * exception_code c) else andn tvec 3.

Lemma cause_split c : c <> TrapCause_None ->
  cause_is_interrupt (cause_value c) = is_interrupt c /\
  cause_code_of (cause_value c) = exception_code c /\ 0 <= exception_code c < 16.
Proof. intros Hc. destruct c; try done; by vm_compute. Qed.

Lemma nz_land_1 x n : 0 <= n -> nz (Z.land (Z.shiftr x n) 1) = Z.testbit x n.
Proof.
  intros. change 1 with (Z.shiftl 1 0) at 1. rewrite nz_land_bit by lia.
  by rewrite Z.shiftr_spec.
Qed.

Lemma trap_target_spec h c : c <> TrapCause_None ->
  trap_target h (cause_value c) = if delegated h c then PrivS else PrivM.
Proof.
  intros Hc. destruct (cause_split c Hc) as (Ei & Ec & Hr).
  unfold trap_target, delegated. rewrite Ei, Ec, nz_land_1 by lia.
  destruct (priv h <=? PrivS); simpl; [|done]. by case_match.
Qed.

Lemma trap_vector_spec tvec c : c <> TrapCause_None -> Z.testbit tvec 1 = false ->
  trap_vector tvec (cause_is_interrupt (cause_value c)) (cause_code_of (cause_value c))
    = vector_of tvec c.
Proof.
  intros Hc H1. destruct (cause_split c Hc) as (Ei & Ec & Hr).
  unfold trap_vector, vector_of. rewrite Ei, Ec.
  assert ((Z.land tvec 3 =? 1) = Z.testbit tvec 0) as ->.
  { change 3 with (Z.ones 2). rewrite Z.land_ones by lia. change (2 ^ 2) with 4.
    pose proof (Z.testbit_spec' tvec 0). pose proof (Z.testbit_spec' tvec 1).
    rewrite H1 in *. change (2 ^ 0) with 1 in *. change (2 ^ 1) with 2 in *.
    destruct (Z.testbit tvec 0); simpl in *; apply Z.eqb_eq || apply Z.eqb_neq; lia. }
  case_match; [|done]. f_equal. rewrite Z.shiftl_mul_pow2 by lia.
  rewrite uwrap_id; [lia|]. unfold fits. lia.
Qed.

(** A vector is a 64-bit address, a multiple of four. *)
Lemma vector_of_ok tvec c : fits 64 tvec ->
  fits 64 (vector_of tvec c) /\ Z.testbit (vector_of tvec c) 0 = false.
Proof.
  intros Hf. unfold vector_of.
  assert (Z.testbit (andn tvec 3) 0 = false) as E0.
  { unfold andn. by rewrite Z.ldiff_spec, andb_false_r. }
  case_match.
  - split; [apply uwrap_fits; lia|]. rewrite uwrap_spec by lia.
    rewrite Z.bit0_odd in *. rewrite Z.odd_add, E0, Z.odd_mul. done.
  - split; [by apply fits_andn|done].
Qed.

(** The effect of a trap taken to the level with registers [epc cause tval tvec], with
    the new mstatus given bit by bit. *)
Record trap_effect (t : Trap) (level epc cause tval tvec : Z)
    (mstatus_bit : Z -> bool) (h h' : Hart) : Prop := {
  te_priv : priv h' = level;
  te_epc : raw h' epc = andn (trap_pc t) 1;
  te_cause : raw h' cause = cause_value (trap_cause t);
  te_tval : raw h' tval = trap_tval t;
  te_pc : pc h' = vector_of (raw h tvec) (trap_cause t);
  te_mstatus : forall i, 0 <= i -> Z.testbit (MSTATUS_read h') i = mstatus_bit i;
  te_frame : forall a, a <> epc -> a <> cause -> a <> tval -> a <> MSTATUS_ADDRESS ->
    raw h' a = raw h a;
  te_regs : gprs h' = gprs h /\ fprs h' = fprs h;
}.

Lemma EPC_value h a v : csr_legal h -> csr_class_at a = CMEPC \/ csr_class_at a = CSEPC ->
  fits 64 v -> Z.lor (andn (raw h a) EPC_mask) (Z.land v EPC_mask) = andn v 1.
Proof.
  intros Hh Hc Hv. pose proof (Hh a) as [Hr H0].
  assert (Z.testbit (raw h a) 0 = false) as Hz by (by destruct Hc as [E|E]; rewrite E in H0).
  pose proof (proj1 (fits_testbit 64 _ ltac:(lia)) Hr) as [_ Hr'].
  pose proof (proj1 (fits_testbit 64 _ ltac:(lia)) Hv) as [_ Hv'].
  apply Z.bits_inj'. intros i Hi. unfold EPC_mask, andn. bit_specs.
  change (2 ^ 64 - 1) with (Z.ones 64).
  destruct (Z.lt_ge_cases i 64).
  - rewrite Z.ones_spec_low by lia. destruct (Z.eq_dec i 0) as [->|]; [by rewrite Hz|].
    replace (Z.testbit 1 i) with false; [btauto|].
    symmetry. change 1 with (2 ^ 0). rewrite Z.pow2_bits_eqb by lia. apply Z.eqb_neq. lia.
  - by rewrite Hr', Hv' by lia.
Qed.

Lemma testbit_flag n i : 0 <= n -> 0 <= i -> Z.testbit (Z.shiftl 1 n) i = (i =? n).
Proof. intros. rewrite Z.shiftl_1_l, Z.pow2_bits_eqb by lia. apply Z.eqb_sym. Qed.

(** The three registers a trap records, before mstatus is written. *)
Definition trap_record (epc cause tval : Z) (t : Trap) (h : Hart) : Hart :=
  set_raw tval (trap_tval t) (set_raw cause (cause_value (trap_cause t))
    (EPC_write epc (trap_pc t) h)).

Section TrapRecord.
Variables (epc cause tval : Z) (t : Trap) (h : Hart).
Hypothesis Hdist : epc <> cause /\ epc <> tval /\ cause <> tval.
Hypothesis Hms : epc <> MSTATUS_ADDRESS /\ cause <> MSTATUS_ADDRESS /\ tval <> MSTATUS_ADDRESS.
Hypothesis Hcls : csr_class_at epc = CMEPC \/ csr_class_at epc = CSEPC.
Hypothesis Hplain : forall v, fits 64 v ->
  legal (csr_class_at cause) v /\ legal (csr_class_at tval) v.
Hypothesis Hh : csr_legal h.
Hypothesis Hp : fits 64 (trap_pc t).
Hypothesis Ht : fits 64 (trap_tval t).
Local Abbreviation h1 := (trap_record epc cause tval t h).
Local Ltac dist := destruct Hdist as (?&?&?), Hms as (?&?&?); congruence.

Lemma trap_record_epc : raw h1 epc = andn (trap_pc t) 1.
Proof.
  unfold trap_record, EPC_write. rewrite !raw_set_raw_ne, raw_set_raw_eq by dist.
  by apply EPC_value.
Qed.
Lemma trap_record_cause : raw h1 cause = cause_value (trap_cause t).
Proof. unfold trap_record. by rewrite raw_set_raw_ne, raw_set_raw_eq by dist. Qed.
Lemma trap_record_tval : raw h1 tval = trap_tval t.
Proof. unfold trap_record. by rewrite raw_set_raw_eq. Qed.
Lemma trap_record_frame a : a <> epc -> a <> cause -> a <> tval -> raw h1 a = raw h a.
Proof. intros. unfold trap_record, EPC_write. by rewrite !raw_set_raw_ne by auto. Qed.
Lemma trap_record_legal : csr_legal h1.
Proof.
  apply csr_legal_set_raw; [|by apply Hplain].
  apply csr_legal_set_raw; [|apply Hplain, cause_value_fits].
  destruct Hcls; [by apply (EPC_value_legal CMEPC); auto|by apply (EPC_value_legal CSEPC); auto].
Qed.
Lemma trap_record_mstatus : MSTATUS_read h1 = MSTATUS_read h.
Proof. unfold MSTATUS_read. by rewrite trap_record_frame by dist. Qed.
End TrapRecord.

Ltac split_bits i :=
  repeat match goal with
  | |- context [i =? ?n] => destruct (Z.eqb_spec i n); [subst i|]
  end.

Definition S_trap_sstatus (h : Hart) : Z :=
  let s := SSTATUS_read h in
  let s := if nz (Z.land s MSTATUS_SIE) then Z.lor s MSTATUS_SPIE else andn s MSTATUS_SPIE in
  let s := if PrivS <=? priv h then Z.lor s MSTATUS_SPP else andn s MSTATUS_SPP in
  andn s MSTATUS_SIE.

Lemma trap_to_S_mstatus h i :
  0 <= i ->
  Z.testbit (S_trap_sstatus h) i =
    if i =? 1 then false
    else if i =? 5 then Z.testbit (MSTATUS_read h) 1
    else if i =? 8 then PrivS <=? priv h
    else Z.testbit (SSTATUS_read h) i.
Proof.
  intros Hi. unfold S_trap_sstatus, MSTATUS_SIE. rewrite nz_land_bit, SSTATUS_read_testbit by lia.
  change (Z.testbit SSTATUS_read_mask 1) with true. rewrite andb_true_r.
  unfold MSTATUS_SPIE, MSTATUS_SPP, SPP_SHIFT, andn.
  rewrite Z.ldiff_spec, testbit_flag by lia.
  destruct (PrivS <=? priv h), (Z.testbit (MSTATUS_read h) 1);
    repeat rewrite ?Z.lor_spec, ?Z.ldiff_spec, ?testbit_flag by lia;
    split_bits i; simpl; try btauto; try lia.
Qed.

Definition M_trap_mstatus (h : Hart) : Z :=
  let m := MSTATUS_read h in
  let m := if nz (Z.land m MSTATUS_MIE) then Z.lor m MSTATUS_MPIE else andn m MSTATUS_MPIE in
  let m := andn m MSTATUS_MPP in
  let m := Z.lor m (u64 (Z.shiftl (priv h) MPP_SHIFT)) in
  andn m MSTATUS_MIE.

Lemma trap_to_M_mstatus h i :
  0 <= i -> fits 2 (priv h) ->
  Z.testbit (M_trap_mstatus h) i =
    if i =? 3 then false
    else if i =? 7 then Z.testbit (MSTATUS_read h) 3
    else if i =? 11 then Z.testbit (priv h) 0
    else if i =? 12 then Z.testbit (priv h) 1
    else Z.testbit (MSTATUS_read h) i.
Proof.
  intros Hi Hp. unfold M_trap_mstatus, MSTATUS_MIE. rewrite nz_land_bit by lia.
  assert (forall j, 0 <= j -> Z.testbit (u64 (Z.shiftl (priv h) MPP_SHIFT)) j
    = if j =? 11 then Z.testbit (priv h) 0
      else if j =? 12 then Z.testbit (priv h) 1 else false) as Hsh.
  { intros j Hj. pose proof (proj1 (fits_testbit 2 _ ltac:(lia)) Hp) as [_ Hz].
    unfold MPP_SHIFT. rewrite uwrap_spec, Z.shiftl_spec by lia.
    destruct (Z.eqb_spec j 11) as [->|]; [done|].
    destruct (Z.eqb_spec j 12) as [->|]; [done|].
    destruct (Z.lt_ge_cases j 11); [rewrite (Z.testbit_neg_r _ (j - 11)) by lia|
      rewrite Hz by lia]; apply andb_false_r. }
  unfold MSTATUS_MPIE, MSTATUS_MPP, andn.
  assert (forall j, 0 <= j -> Z.testbit (Z.shiftl 3 MPP_SHIFT) j = (j =? 11) || (j =? 12)) as H3.
  { intros j Hj. change (Z.shiftl 3 MPP_SHIFT) with (Z.lor (Z.shiftl 1 11) (Z.shiftl 1 12)).
    by rewrite Z.lor_spec, !testbit_flag by lia. }
  rewrite Z.ldiff_spec, Z.lor_spec, Z.ldiff_spec, Hsh, H3, testbit_flag by lia.
  destruct (Z.testbit (MSTATUS_read h) 3);
    repeat rewrite ?Z.lor_spec, ?Z.ldiff_spec, ?testbit_flag by lia;
    split_bits i; simpl; try btauto; try lia.
Qed.

(** The bits of mstatus a supervisor may write are bits it sees. *)
Lemma sstatus_hidden_bit h i : 0 <= i ->
  Z.testbit SSTATUS_write_mask i = true ->
  Z.testbit (SSTATUS_read h) i = Z.testbit (MSTATUS_read h) i.
Proof.
  intros Hi Hw. rewrite SSTATUS_read_testbit by lia.
  assert (sub SSTATUS_write_mask SSTATUS_read_mask) as Hs by done.
  rewrite sub_testbit in Hs. rewrite (Hs i Hi Hw). apply andb_true_r.
Qed.

Lemma S_trap_sstatus_fits h : csr_legal h -> fits 64 (S_trap_sstatus h).
Proof.
  intros Hh. unfold S_trap_sstatus. pose proof (SSTATUS_read_fits h). fits_tac.
Qed.

Lemma M_trap_mstatus_fits h : csr_legal h -> fits 64 (M_trap_mstatus h).
Proof.
  intros Hh. unfold M_trap_mstatus. pose proof (MSTATUS_read_fits h). fits_tac.
Qed.

Lemma S_trap_write_testbit h i : csr_legal h -> 0 <= i ->
  Z.testbit (MSTATUS_read (SSTATUS_write (S_trap_sstatus h) h)) i =
    if i =? 1 then false
    else if i =? 5 then Z.testbit (MSTATUS_read h) 1
    else if i =? 8 then PrivS <=? priv h
    else Z.testbit (MSTATUS_read h) i.
Proof.
  intros Hh Hi. rewrite SSTATUS_write_testbit;
    [|done|by apply S_trap_sstatus_fits|done|rewrite trap_to_S_mstatus by lia..];
    [|by apply sstatus_hidden_bit..].
  rewrite trap_to_S_mstatus by done.
  destruct (Z.testbit SSTATUS_write_mask i) eqn:E.
  - split_bits i; try done. by apply sstatus_hidden_bit.
  - split_bits i; done.
Qed.

Lemma M_trap_write_testbit h i : csr_legal h -> fits 2 (priv h) -> 0 <= i ->
  Z.testbit (MSTATUS_read (MSTATUS_write (M_trap_mstatus h) h)) i =
    if i =? 3 then false
    else if i =? 7 then Z.testbit (MSTATUS_read h) 3
    else if i =? 11 then Z.testbit (priv h) 0
    else if i =? 12 then Z.testbit (priv h) 1
    else Z.testbit (MSTATUS_read h) i.
Proof.
  intros Hh Hp Hi. rewrite MSTATUS_write_testbit;
    [|done|by apply M_trap_mstatus_fits|done|by rewrite trap_to_M_mstatus by (done || lia)..].
  rewrite trap_to_M_mstatus by done.
  destruct (Z.testbit MSTATUS_write_mask i) eqn:E; [done|]. split_bits i; done.
Qed.

Ltac trap_side := first [ done | neq_addr | (split_and!; neq_addr)
  | left; by vm_compute | right; by vm_compute | (intros; split; (split; [done|by vm_compute])) ].

(** Both handlers record the trap, rewrite mstatus, read the vector and switch
    privilege; only the status computation differs. *)
Lemma trap_effect_intro t level epc cause tval tvec bit h h2 :
  let h1 := trap_record epc cause tval t h in
  csr_legal h ->
  (csr_class_at tvec = CMTVEC \/ csr_class_at tvec = CSTVEC) ->
  (forall a, a <> MSTATUS_ADDRESS -> raw h2 a = raw h1 a) ->
  gprs h2 = gprs h -> fprs h2 = fprs h ->
  raw h1 epc = andn (trap_pc t) 1 ->
  raw h1 cause = cause_value (trap_cause t) ->
  raw h1 tval = trap_tval t ->
  raw h1 tvec = raw h tvec ->
  (forall a, a <> epc -> a <> cause -> a <> tval -> raw h1 a = raw h a) ->
  epc <> MSTATUS_ADDRESS /\ cause <> MSTATUS_ADDRESS /\ tval <> MSTATUS_ADDRESS /\
    tvec <> MSTATUS_ADDRESS ->
  trap_cause t <> TrapCause_None ->
  (forall i, 0 <= i -> Z.testbit (MSTATUS_read h2) i = bit i) ->
  trap_effect t level epc cause tval tvec bit h
    (set_priv level (set_pc (trap_vector (raw h2 tvec)
       (cause_is_interrupt (cause_value (trap_cause t)))
       (cause_code_of (cause_value (trap_cause t)))) h2)).
Proof.
  intros h1 Hh Hcl Hw Hg Hf He Hc Ht Hv Hfr (? & ? & ? & ?) Hcause Hbit.
  split; try done.
  - by rewrite raw_set_priv, raw_set_pc, Hw.
  - by rewrite raw_set_priv, raw_set_pc, Hw.
  - by rewrite raw_set_priv, raw_set_pc, Hw.
  - simpl. rewrite Hw, Hv by done. apply trap_vector_spec; [done|].
    by destruct Hcl as [Hcl|Hcl]; destruct (csr_legal_at _ tvec h Hcl Hh) as [_ ?].
  - intros a ????. by rewrite raw_set_priv, raw_set_pc, Hw, Hfr.
Qed.

Lemma trap_to_S_eq t i c h (h1 := trap_record SEPC_ADDRESS SCAUSE_ADDRESS STVAL_ADDRESS t h)
    (h2 := SSTATUS_write (S_trap_sstatus h1) h1) :
  trap_to_S t i c h = set_priv PrivS (set_pc (trap_vector (raw h2 STVEC_ADDRESS) i c) h2).
Proof. reflexivity. Qed.

Lemma trap_to_M_eq t i c h (h1 := trap_record MEPC_ADDRESS MCAUSE_ADDRESS MTVAL_ADDRESS t h)
    (h2 := MSTATUS_write (M_trap_mstatus h1) h1) :
  trap_to_M t i c h = set_priv PrivM (set_pc (trap_vector (raw h2 MTVEC_ADDRESS) i c) h2).
Proof. reflexivity. Qed.

Section TrapHandlers.
Variables (t : Trap) (h : Hart).
Hypothesis Hh : csr_legal h.
Hypothesis Hp : fits 64 (trap_pc t).
Hypothesis Ht : fits 64 (trap_tval t).
Hypothesis Hc : trap_cause t <> TrapCause_None.

Lemma trap_to_S_spec :
  trap_effect t PrivS SEPC_ADDRESS SCAUSE_ADDRESS STVAL_ADDRESS STVEC_ADDRESS
    (fun i => if i =? 1 then false
              else if i =? 5 then Z.testbit (MSTATUS_read h) 1
              else if i =? 8 then PrivS <=? priv h
              else Z.testbit (MSTATUS_read h) i) h
    (trap_to_S t (cause_is_interrupt (cause_value (trap_cause t)))
       (cause_code_of (cause_value (trap_cause t))) h).
Proof.
  rewrite trap_to_S_eq.
  apply trap_effect_intro; [exact Hh|right; by vm_compute|..].
  - intros a Ha. unfold SSTATUS_write, MSTATUS_write. by rewrite raw_set_raw_ne.
  - reflexivity.
  - reflexivity.
  - apply trap_record_epc; trap_side.
  - apply trap_record_cause; trap_side.
  - apply trap_record_tval.
  - apply trap_record_frame; neq_addr.
  - intros. by apply trap_record_frame.
  - split_and!; neq_addr.
  - exact Hc.
  - intros i Hi. rewrite S_trap_write_testbit;
      [|apply trap_record_legal; trap_side|exact Hi].
    by rewrite trap_record_mstatus by trap_side.
Qed.

Lemma trap_to_M_spec : fits 2 (priv h) ->
  trap_effect t PrivM MEPC_ADDRESS MCAUSE_ADDRESS MTVAL_ADDRESS MTVEC_ADDRESS
    (fun i => if i =? 3 then false
              else if i =? 7 then Z.testbit (MSTATUS_read h) 3
              else if i =? 11 then Z.testbit (priv h) 0
              else if i =? 12 then Z.testbit (priv h) 1
              else Z.testbit (MSTATUS_read h) i) h
    (trap_to_M t (cause_is_interrupt (cause_value (trap_cause t)))
       (cause_code_of (cause_value (trap_cause t))) h).
Proof.
  intros Hpr.
  rewrite trap_to_M_eq.
  apply trap_effect_intro; [exact Hh|left; by vm_compute|..].
  - intros a Ha. unfold MSTATUS_write. by rewrite raw_set_raw_ne.
  - reflexivity.
  - reflexivity.
  - apply trap_record_epc; trap_side.
  - apply trap_record_cause; trap_side.
  - apply trap_record_tval.
  - apply trap_record_frame; neq_addr.
  - intros. by apply trap_record_frame.
  - split_and!; neq_addr.
  - exact Hc.
  - intros i Hi. rewrite M_trap_write_testbit;
      [|apply trap_record_legal; trap_side|exact Hpr|exact Hi].
    by rewrite trap_record_mstatus by trap_side.
Qed.
End TrapHandlers.
