(* ===== verification/Trap.v ===== *)
(** * Trap entry and interrupt selection (Hart::handle_trap, Hart::check_interrupts)

    The theorems about the handlers of Hart.v: which privilege level takes a
    trap and what it records, and which interrupt is taken. *)

From S2P Require Import Prelude Bits Hart HartInv.

(** ** Trap entry *)

Lemma handle_trap_effect t h :
  csr_legal h -> fits 2 (priv h) -> fits 64 (trap_pc t) -> fits 64 (trap_tval t) ->
  trap_cause t <> TrapCause_None ->
  exists h', handle_trap t h = Some h' /\
    if delegated h (trap_cause t) then
      trap_effect t PrivS SEPC_ADDRESS SCAUSE_ADDRESS STVAL_ADDRESS STVEC_ADDRESS
        (fun i => if i =? 1 then false
                  else if i =? 5 then Z.testbit (MSTATUS_read h) 1
                  else if i =? 8 then PrivS <=? priv h
                  else Z.testbit (MSTATUS_read h) i) h h'
    else
      trap_effect t PrivM MEPC_ADDRESS MCAUSE_ADDRESS MTVAL_ADDRESS MTVEC_ADDRESS
        (fun i => if i =? 3 then false
                  else if i =? 7 then Z.testbit (MSTATUS_read h) 3
                  else if i =? 11 then Z.testbit (priv h) 0
                  else if i =? 12 then Z.testbit (priv h) 1
                  else Z.testbit (MSTATUS_read h) i) h h'.
Proof.
  intros Hh Hpr Hp Ht Hc. unfold handle_trap.
  destruct (decide _) as [?|_]; [done|]. cbv zeta. rewrite trap_target_spec by done.
  destruct (delegated h (trap_cause t)); simpl.
  - eexists. split; [done|]. by apply trap_to_S_spec.
  - eexists. split; [done|]. by apply trap_to_M_spec.
Qed.

(** C10. [Hart::handle_trap] takes every trap (it only gives up on [None]): a
    trap from S or U whose cause is delegated goes to S, every other to M; the
    target's epc, cause and tval registers get the pc (bit 0 cleared), the
    cause and the value; the pc is the vector; the previous interrupt enable is
    stacked in xPIE, the previous privilege in xPP and xIE is cleared; no other
    CSR and no register changes. *)
Theorem handle_trap_spec t h :
  csr_legal h -> fits 2 (priv h) -> fits 64 (trap_pc t) -> fits 64 (trap_tval t) ->
  trap_cause t <> TrapCause_None ->
  exists h', handle_trap t h = Some h' /\
    if delegated h (trap_cause t) then
      trap_effect t PrivS SEPC_ADDRESS SCAUSE_ADDRESS STVAL_ADDRESS STVEC_ADDRESS
        (fun i => if i =? 1 then false
                  else if i =? 5 then Z.testbit (MSTATUS_read h) 1
                  else if i =? 8 then PrivS <=? priv h
                  else Z.testbit (MSTATUS_read h) i) h h'
    else
      trap_effect t PrivM MEPC_ADDRESS MCAUSE_ADDRESS MTVAL_ADDRESS MTVEC_ADDRESS
        (fun i => if i =? 3 then false
                  else if i =? 7 then Z.testbit (MSTATUS_read h) 3
                  else if i =? 11 then Z.testbit (priv h) 0
                  else if i =? 12 then Z.testbit (priv h) 1
                  else Z.testbit (MSTATUS_read h) i) h h'.
Proof. apply handle_trap_effect. Qed.

Lemma handle_trap_spec_witness :
  exists h', handle_trap (mkTrap 0x80000004 EnvironmentCallFromU 0) (Hart_init 0x80000000) = Some h'
    /\ priv h' = PrivM /\ raw h' MEPC_ADDRESS = 0x80000004 /\ raw h' MCAUSE_ADDRESS = 8.
Proof.
  destruct (handle_trap_spec (mkTrap 0x80000004 EnvironmentCallFromU 0) (Hart_init 0x80000000))
    as (h' & E & Hd);
    [ apply Hart_init_legal | split; done | split; done | split; done | discriminate |].
  assert (delegated (Hart_init 0x80000000) EnvironmentCallFromU = false) as Ed
    by (vm_compute; reflexivity).
  cbn [trap_cause] in Hd. rewrite Ed in Hd. destruct Hd as [Hpr He Hc _ _ _ _ _].
  exists h'. repeat split; [exact E|exact Hpr|exact He|exact Hc].
Defined.

(** ** Interrupt selection *)

(** The architectural priority of the interrupts, by their bit number. *)
Definition interrupt_order : list (Z * TrapCause) :=
  [ (11, MachineExternalInterrupt); (3, MachineSoftwareInterrupt);
    (7, MachineTimerInterrupt); (9, SupervisorExternalInterrupt);
    (1, SupervisorSoftwareInterrupt); (5, SupervisorTimerInterrupt) ].

(** Interrupts for level [p] are enabled when the hart runs below [p], or at
    [p] with its enable bit set. *)
Definition level_enabled (h : Hart) (p bit : Z) : bool :=
  (priv h <? p) || ((priv h =? p) && Z.testbit (MSTATUS_read h) bit).

(** An interrupt can be taken when it is pending, enabled by mie, and its
    target level's interrupts are enabled. *)
Definition eligible (h : Hart) (n : Z) : bool :=
  Z.testbit (MIP_read h) n && Z.testbit (MIE_read h) n &&
  (if Z.testbit (MIDELEG_read h) n then level_enabled h PrivS 1 else level_enabled h PrivM 3).

Lemma enabled_bits h :
  m_enabled h = level_enabled h PrivM 3 /\ s_enabled h = level_enabled h PrivS 1.
Proof.
  unfold m_enabled, s_enabled, level_enabled, MSTATUS_MIE, MSTATUS_SIE.
  by rewrite !nz_land_bit by lia.
Qed.

Lemma interrupt_prio_order :
  interrupt_prio = map (fun '(n, c) => (Z.shiftl 1 n, c)) interrupt_order.
Proof. done. Qed.

Lemma select_interrupt_find h order :
  Forall (fun nc => 0 <= fst nc) order ->
  select_interrupt h (Z.land (MIP_read h) (MIE_read h)) (MIDELEG_read h)
    (map (fun '(n, c) => (Z.shiftl 1 n, c)) order)
  = option_map (fun nc => mkTrap (pc h) (snd nc) 0)
      (List.find (fun nc => eligible h (fst nc)) order).
Proof.
  destruct (enabled_bits h) as [Em Es].
  induction order as [|[n c] order IH]; intros Hn; [done|].
  inversion Hn as [|? ? Hn0 Hr]; subst. specialize (IH Hr). simpl in *. clear Hn.
  rewrite !nz_land_bit, Z.land_spec, Em, Es, IH by done. unfold eligible.
  destruct (Z.testbit (MIP_read h) n && Z.testbit (MIE_read h) n); simpl; [|done].
  destruct (Z.testbit (MIDELEG_read h) n); case_match; done.
Qed.

Lemma check_interrupts_eq h :
  check_interrupts h =
    ( option_map (fun nc => mkTrap (pc h) (snd nc) 0)
        (List.find (fun nc => eligible h (fst nc)) interrupt_order),
      set_interrupt_check_pending false h ).
Proof.
  unfold check_interrupts. cbv zeta.
  set (h1 := set_interrupt_check_pending false h).
  assert (select_interrupt h1 (Z.land (MIP_read h1) (MIE_read h1)) (MIDELEG_read h1) interrupt_prio
    = option_map (fun nc => mkTrap (pc h) (snd nc) 0)
        (List.find (fun nc => eligible h (fst nc)) interrupt_order)) as E.
  { change (pc h) with (pc h1). rewrite interrupt_prio_order. apply (select_interrupt_find h1). repeat constructor; simpl; lia. }
  destruct (nz (Z.land (MIP_read h1) (MIE_read h1))) eqn:Ep; cbn [negb]; [by rewrite E|].
  rewrite <- E. apply nz_false in Ep. by rewrite Ep.
Qed.

(** C11. [Hart::check_interrupts] clears the re-check flag and changes nothing
    else; it throws iff some interrupt can be taken, and then the one that comes
    first in the priority order, with the current pc. *)
Theorem check_interrupts_spec h :
  check_interrupts h =
    ( option_map (fun nc => mkTrap (pc h) (snd nc) 0)
        (List.find (fun nc => eligible h (fst nc)) interrupt_order),
      set_interrupt_check_pending false h ).
Proof. apply check_interrupts_eq. Qed.

(** What [check_interrupts] throws can be handled: a known interrupt cause, the
    current pc. *)
Lemma check_interrupts_trap h t h' : check_interrupts h = (Some t, h') ->
  trap_pc t = pc h /\ trap_tval t = 0 /\ is_interrupt (trap_cause t) = true /\
  trap_cause t <> TrapCause_None.
Proof.
  rewrite check_interrupts_eq. intros [= E _].
  repeat (case_match; [injection E as <-; split_and!; done|]). done.
Qed.
