(* ===== verification/Dram.v ===== *)
(** * DRAM (include/core/dram.hpp)

    The byte array behind [Dram], addressed by physical address, with the
    bounds test and the little-endian accesses of the templates [read] and
    [write] (the byte count is [sizeof(T)]; [memcpy] on a little-endian host).
    Bytes never written read as the zero of [new uint8_t\[size\]()]. *)

From stdpp Require Import gmap.
From Stdlib Require Import ZifyBool.
From S2P Require Import Prelude Bits.

Module Dram.

Definition DRAM_BASE : Z := 0x80000000.

(* @src include/core/dram.hpp 83-86 Dram *)
Record Dram := mkDram {
  mem_ : gmap Z Z;
  size_ : Z;
}.

(* @src include/core/dram.hpp 32-39 Dram::Dram *)
Definition Dram_init (size : Z) : Dram := mkDram ∅ size.

(* @src include/core/dram.hpp 41-51 Dram::is_valid_addr *)
Definition is_valid_addr (d : Dram) (addr len : Z) : bool :=
  if addr <? DRAM_BASE then false
  else
    let offset := u64 (addr - DRAM_BASE) in
    if (size_ d <? len) || (u64 (size_ d - len) <? offset) then false else true.

(** One byte of [mem_]. *)
Definition byte_at (d : Dram) (off : Z) : Z := default 0 (mem_ d !! off).
Definition set_byte (off v : Z) (d : Dram) : Dram :=
  mkDram (<[off := u8 v]> (mem_ d)) (size_ d).

(** [memcpy] of [n] bytes out of and into the array, least significant first. *)
Fixpoint load_le (d : Dram) (off : Z) (n : nat) : Z :=
  match n with
  | O => 0
  | S n => byte_at d off + 256 * load_le d (off + 1) n
  end.

Fixpoint store_le (off : Z) (n : nat) (v : Z) (d : Dram) : Dram :=
  match n with
  | O => d
  | S n => store_le (off + 1) n (v / 256) (set_byte off v d)
  end.

(* @src include/core/dram.hpp 53-58 Dram::read *)
Definition read (n : nat) (addr : Z) (d : Dram) : Z :=
  load_le d (u64 (addr - DRAM_BASE)) n.

(* @src include/core/dram.hpp 60-63 Dram::write *)
Definition write (n : nat) (addr value : Z) (d : Dram) : Dram :=
  store_le (u64 (addr - DRAM_BASE)) n value d.

(* @src include/core/dram.hpp 65-72 Dram::write_bytes *)
Definition write_bytes (addr : Z) (src : list Z) (d : Dram) : option Dram :=
  if is_valid_addr d addr (Z.of_nat (length src)) then
    Some (foldl (fun d ib => set_byte (u64 (addr - DRAM_BASE) + Z.of_nat (fst ib)) (snd ib) d)
            d (imap pair src))
  else None.

(* @src include/core/dram.hpp 74-81 Dram::read_bytes *)
Definition read_bytes (addr : Z) (len : nat) (d : Dram) : option (list Z) :=
  if is_valid_addr d addr (Z.of_nat len) then
    Some (map (fun i => byte_at d (u64 (addr - DRAM_BASE) + Z.of_nat i)) (seq 0 len))
  else None.

(** ** Well-formedness *)

(** Every stored byte is a byte, and the array fits below 2^64. *)
Definition dram_wf (d : Dram) : Prop :=
  map_Forall (fun _ v => fits 8 v) (mem_ d) /\ 0 <= size_ d <= 2 ^ 64 - DRAM_BASE.

Lemma byte_at_fits d off : dram_wf d -> fits 8 (byte_at d off).
Proof.
  intros [H _]. unfold byte_at. destruct (mem_ d !! off) eqn:E; simpl; [|by vm_compute].
  by apply (H off).
Qed.

Lemma set_byte_wf off v d : dram_wf d -> dram_wf (set_byte off v d).
Proof.
  intros [H Hs]. split; [|done]. apply map_Forall_insert_2; [|done].
  apply uwrap_fits. lia.
Qed.

Lemma store_le_wf off n v d : dram_wf d -> dram_wf (store_le off n v d).
Proof.
  revert off v d. induction n as [|n IH]; intros off v d H; [done|].
  apply IH. by apply set_byte_wf.
Qed.

Lemma write_wf n addr v d : dram_wf d -> dram_wf (write n addr v d).
Proof. apply store_le_wf. Qed.

Lemma load_le_fits d off n : dram_wf d -> 0 <= load_le d off n < 256 ^ Z.of_nat n.
Proof.
  intros H. revert off. induction n as [|n IH]; intros off; [simpl; lia|].
  cbn [load_le]. rewrite Nat2Z.inj_succ, Z.pow_succ_r by lia.
  pose proof (IH (off + 1)). pose proof (byte_at_fits d off H) as Hb. unfold fits in Hb. lia.
Qed.

Lemma pow256 n : 256 ^ Z.of_nat n = 2 ^ (8 * Z.of_nat n).
Proof. by rewrite Z.pow_mul_r by lia. Qed.

Lemma read_fits n addr d : dram_wf d -> fits (8 * Z.of_nat n) (read n addr d).
Proof. intros H. unfold fits. rewrite <- pow256. by apply load_le_fits. Qed.

Lemma store_le_size off n v d : size_ (store_le off n v d) = size_ d.
Proof. revert off v d. induction n as [|n IH]; intros; simpl; [done|]. by rewrite IH. Qed.

Lemma is_valid_addr_write n a v d addr len :
  is_valid_addr (write n a v d) addr len = is_valid_addr d addr len.
Proof. unfold is_valid_addr, write. by rewrite !store_le_size. Qed.

(** ** Reading back *)

Lemma byte_at_set_eq d off v : byte_at (set_byte off v d) off = u8 v.
Proof. unfold byte_at. simpl. by rewrite lookup_insert_eq. Qed.
Lemma byte_at_set_ne d off off' v : off <> off' ->
  byte_at (set_byte off v d) off' = byte_at d off'.
Proof. intros. unfold byte_at. simpl. by rewrite lookup_insert_ne. Qed.

Lemma store_le_frame d off n v off' :
  off' < off \/ off + Z.of_nat n <= off' ->
  byte_at (store_le off n v d) off' = byte_at d off'.
Proof.
  revert off v d. induction n as [|n IH]; intros off v d H; [done|].
  cbn [store_le]. rewrite IH by lia. apply byte_at_set_ne. lia.
Qed.

Lemma load_le_ext d d' off n :
  (forall i, off <= i < off + Z.of_nat n -> byte_at d i = byte_at d' i) ->
  load_le d off n = load_le d' off n.
Proof.
  revert off. induction n as [|n IH]; intros off H; [done|].
  cbn [load_le]. rewrite (H off) by lia. f_equal. f_equal. apply IH. intros. apply H. lia.
Qed.

Lemma load_store_same d off n v :
  load_le (store_le off n v d) off n = v mod 256 ^ Z.of_nat n.
Proof.
  revert off v d. induction n as [|n IH]; intros off v d; [by rewrite Z.mod_1_r|].
  cbn [store_le load_le]. rewrite store_le_frame by lia.
  rewrite byte_at_set_eq, IH, Nat2Z.inj_succ, Z.pow_succ_r by lia.
  rewrite Z.rem_mul_r by lia. done.
Qed.

(** ** Properties *)

Lemma valid_addr_range d addr len :
  dram_wf d -> fits 64 addr -> fits 64 len ->
  is_valid_addr d addr len = true <->
  DRAM_BASE <= addr /\ addr + len <= DRAM_BASE + size_ d.
Proof.
  intros [_ Hs] Ha Hl. unfold is_valid_addr, uwrap, fits, DRAM_BASE in *.
  destruct (Z.ltb_spec addr 0x80000000); [split; [done|intros; exfalso; lia]|].
  destruct (Z.ltb_spec (size_ d) len); simpl; [split; [done|intros; exfalso; lia]|].
  rewrite !Z.mod_small by lia.
  destruct (Z.ltb_spec (size_ d - len) (addr - 0x80000000)); split; try done;
    intros; first [lia|exfalso; lia].
Qed.

(** [is_valid_addr] is exact although it is computed in 64-bit arithmetic:
    it accepts a range iff the range lies inside the array, with no wrap-around
    in [addr + len]. *)
Theorem is_valid_addr_spec d addr len :
  dram_wf d -> fits 64 addr -> fits 64 len ->
  is_valid_addr d addr len = true <->
  DRAM_BASE <= addr /\ addr + len <= DRAM_BASE + size_ d.
Proof. apply valid_addr_range. Qed.

Lemma is_valid_addr_spec_witness :
  is_valid_addr (Dram_init 0x4000000) 0x83FFFFF8 8 = true /\
  (DRAM_BASE <= 0x83FFFFF8 /\ 0x83FFFFF8 + 8 <= DRAM_BASE + 0x4000000).
Proof.
  split; [reflexivity|].
  apply (is_valid_addr_spec (Dram_init 0x4000000) 0x83FFFFF8 8);
    [ split; [apply map_Forall_empty|simpl; unfold DRAM_BASE; lia] | split; done | split; done
    | reflexivity ].
Defined.

Lemma valid_offset d addr len :
  dram_wf d -> fits 64 addr -> fits 64 len -> is_valid_addr d addr len = true ->
  u64 (addr - DRAM_BASE) = addr - DRAM_BASE /\
  0 <= addr - DRAM_BASE /\ addr - DRAM_BASE + len <= size_ d.
Proof.
  intros Hd Ha Hl Hv. apply valid_addr_range in Hv; [|done..].
  destruct Hd as [_ Hs]. unfold fits in *.
  split; [|lia]. apply uwrap_id. unfold fits, DRAM_BASE in *. lia.
Qed.

Lemma read_write_eq d n m a b v :
  dram_wf d -> fits 64 a -> fits 64 b ->
  is_valid_addr d a (Z.of_nat n) = true -> is_valid_addr d b (Z.of_nat m) = true ->
  fits (8 * Z.of_nat n) v -> (n <= 8)%nat -> (m <= 8)%nat ->
  read n a (write n a v d) = v /\
  (a + Z.of_nat n <= b \/ b + Z.of_nat m <= a -> read m b (write n a v d) = read m b d).
Proof.
  intros Hd Ha Hb Va Vb Hv Hn Hm.
  destruct (valid_offset d a (Z.of_nat n)) as (Ea & ? & ?); [done|done|unfold fits; lia|done|].
  destruct (valid_offset d b (Z.of_nat m)) as (Eb & ? & ?); [done|done|unfold fits; lia|done|].
  unfold read, write. rewrite Ea, Eb. split.
  - rewrite load_store_same, pow256. by apply uwrap_id.
  - intros Hdisj. apply load_le_ext. intros i Hi. apply store_le_frame. lia.
Qed.

(** A store of [n] bytes at an address accepted by the bounds test is read
    back by a load of the same size, and a load from a range disjoint from it is
    not affected. *)
Theorem read_write d n m a b v :
  dram_wf d -> fits 64 a -> fits 64 b ->
  is_valid_addr d a (Z.of_nat n) = true -> is_valid_addr d b (Z.of_nat m) = true ->
  fits (8 * Z.of_nat n) v -> (n <= 8)%nat -> (m <= 8)%nat ->
  read n a (write n a v d) = v /\
  (a + Z.of_nat n <= b \/ b + Z.of_nat m <= a -> read m b (write n a v d) = read m b d).
Proof. apply read_write_eq. Qed.

Lemma read_write_witness :
  let d := Dram_init 0x1000 in
  read 4 0x80000010 (write 4 0x80000010 0xDEADBEEF d) = 0xDEADBEEF /\
  (0x80000010 + 4 <= 0x80000014 \/ 0x80000014 + 2 <= 0x80000010 ->
   read 2 0x80000014 (write 4 0x80000010 0xDEADBEEF d) = read 2 0x80000014 d).
Proof.
  apply (read_write (Dram_init 0x1000) 4 2 0x80000010 0x80000014 0xDEADBEEF);
    [ split; [apply map_Forall_empty|simpl; unfold DRAM_BASE; lia]
    | split; done | split; done | reflexivity | reflexivity | split; done | lia | lia ].
Defined.

Lemma byte_at_foldl src : forall k off d j,
  byte_at (foldl (fun d ib => set_byte (off + Z.of_nat (fst ib)) (snd ib) d) d
             (imap (fun i x => ((k + i)%nat, x)) src)) j
  = if (off + Z.of_nat k <=? j) && (j <? off + Z.of_nat k + Z.of_nat (length src))
    then u8 (nth (Z.to_nat (j - off - Z.of_nat k)) src 0) else byte_at d j.
Proof.
  induction src as [|x src IH]; intros k off d j.
  - cbn [length imap foldl]. case_test; [|done]. bool_hyps. lia.
  - rewrite imap_cons. cbn [foldl fst snd length].
    replace (imap ((fun i x0 => ((k + i)%nat, x0)) ∘ S) src)
      with (imap (fun i x0 => ((S k + i)%nat, x0)) src).
    2:{ apply imap_ext. intros i y _. simpl. f_equal. lia. }
    rewrite IH, Nat2Z.inj_succ. rewrite Nat.add_0_r.
    destruct (Z.eq_dec j (off + Z.of_nat k)) as [->|Hj].
    + replace (off + Z.succ (Z.of_nat k) <=? off + Z.of_nat k) with false by lia.
      simpl. rewrite byte_at_set_eq, Nat2Z.inj_succ.
      replace (off + Z.of_nat k <=? off + Z.of_nat k) with true by lia.
      replace (off + Z.of_nat k <? off + Z.of_nat k + Z.succ (Z.of_nat (length src)))
        with true by lia.
      replace (off + Z.of_nat k - off - Z.of_nat k) with 0 by lia. done.
    + rewrite byte_at_set_ne by lia. rewrite Nat2Z.inj_succ.
      replace (off + Z.of_nat k <=? j) with (off + Z.succ (Z.of_nat k) <=? j) by lia.
      replace (j <? off + Z.of_nat k + Z.succ (Z.of_nat (length src)))
        with (j <? off + Z.succ (Z.of_nat k) + Z.of_nat (length src)) by lia.
      destruct (Z.leb_spec (off + Z.succ (Z.of_nat k)) j); simpl; [|done].
      replace (Z.to_nat (j - off - Z.of_nat k))
        with (S (Z.to_nat (j - off - Z.succ (Z.of_nat k)))) by lia. done.
Qed.

(** The copying loop of [memcpy], and the byte it leaves at each place. *)
Abbreviation copy src off d :=
  (foldl (fun d ib => set_byte (off + Z.of_nat (fst ib)) (snd ib) d) d (imap pair src)).

Lemma copy_size src off d : size_ (copy src off d) = size_ d.
Proof.
  generalize (imap pair src) as l, d as d0.
  induction l as [|x l IH]; intros d0; simpl; [done|]. by rewrite IH.
Qed.

Lemma copy_byte src off d i : (i < length src)%nat ->
  byte_at (copy src off d) (off + Z.of_nat i) = u8 (nth i src 0).
Proof.
  intros Hi. pose proof (byte_at_foldl src 0 off d (off + Z.of_nat i)) as E.
  change (imap (fun i x => ((0 + i)%nat, x)) src) with (imap pair src) in E. rewrite E.
  replace ((off + Z.of_nat 0 <=? off + Z.of_nat i) && _) with true by lia.
  by replace (Z.to_nat (off + Z.of_nat i - off - Z.of_nat 0)) with i by lia.
Qed.

Lemma copy_wf src off d : dram_wf d -> dram_wf (copy src off d).
Proof.
  generalize (imap pair src) as l. intros l. revert d.
  induction l as [|x l IH]; intros d Hd; simpl; [done|]. apply IH. by apply set_byte_wf.
Qed.

Lemma write_bytes_wf addr src d d' :
  dram_wf d -> write_bytes addr src d = Some d' -> dram_wf d' /\ size_ d' = size_ d.
Proof.
  unfold write_bytes. intros Hd. case_test; [|done]. intros [= <-].
  split; [by apply copy_wf|apply copy_size].
Qed.

(** The bulk accessors used by the loaders and by DMA: [write_bytes] fails
    exactly when the range leaves the array, and what it wrote is what
    [read_bytes] returns from there. *)
Theorem read_write_bytes d addr src :
  dram_wf d -> fits 64 addr -> Z.of_nat (length src) < 2 ^ 64 -> Forall (fits 8) src ->
  match write_bytes addr src d with
  | Some d' => read_bytes addr (length src) d' = Some src /\ size_ d' = size_ d
  | None => addr < DRAM_BASE \/ DRAM_BASE + size_ d < addr + Z.of_nat (length src)
  end.
Proof.
  intros Hd Ha Hl Hs. unfold write_bytes, read_bytes.
  assert (fits 64 (Z.of_nat (length src))) as Hl' by (unfold fits; lia).
  destruct (is_valid_addr d addr (Z.of_nat (length src))) eqn:V.
  2:{ destruct (valid_addr_range d addr _ Hd Ha Hl') as [_ H]. rewrite V in H.
      destruct (Z.lt_ge_cases addr DRAM_BASE); [by left|right].
      destruct (Z.le_gt_cases (addr + Z.of_nat (length src)) (DRAM_BASE + size_ d)); [|lia].
      discriminate H. lia. }
  split; [|apply copy_size]. unfold is_valid_addr in *. rewrite copy_size, V. f_equal.
  apply (nth_ext _ _ 0 0); rewrite length_map, length_seq; [done|].
  intros i Hi.
  rewrite (nth_indep _ _ (byte_at (copy src (u64 (addr - DRAM_BASE)) d)
    (u64 (addr - DRAM_BASE) + Z.of_nat 0))) by (by rewrite length_map, length_seq).
  rewrite (map_nth (fun i => byte_at _ (u64 (addr - DRAM_BASE) + Z.of_nat i))).
  rewrite seq_nth, copy_byte by done. simpl.
  apply uwrap_id. rewrite List.Forall_forall in Hs. by apply Hs, nth_In.
Qed.

Lemma read_write_bytes_witness :
  match write_bytes 0x80000100 [1; 2; 3] (Dram_init 0x1000) with
  | Some d' => read_bytes 0x80000100 3 d' = Some [1; 2; 3] /\ size_ d' = 0x1000
  | None => 0x80000100 < DRAM_BASE \/ DRAM_BASE + 0x1000 < 0x80000100 + 3
  end.
Proof.
  apply (read_write_bytes (Dram_init 0x1000) 0x80000100 [1; 2; 3]);
    [ split; [apply map_Forall_empty|simpl; unfold DRAM_BASE; lia]
    | split; done | simpl; lia | repeat constructor; done ].
Defined.

End Dram.
