(* ===== verification/Machine.v ===== *)
(** * The machine state and the device interface

    [mach D] gathers the objects the emulation thread works on: the hart, the
    MMU's own state (two TLBs and the LR/SC reservation), DRAM, the two globals of
    the SoftFloat library and the state [D] of the devices.  Devices act on the
    whole machine: an access may raise an interrupt in mip or do DMA.

    [Platform] is what Bus, MMU and Hart use of the devices; [PlatformLaws] is
    what they promise in return.  Emulator.v builds an instance. *)

From stdpp Require Import gmap.
From S2P Require Import Prelude Bits Hart HartInv.
From S2P Require Export Dram.
Export Dram.

(* @src include/core/mmu.hpp 35-41 MMU::TLBEntry *)
Record TLBEntry := mkTLBEntry {
  tlb_vpn : Z;
  tlb_ppn : Z;
  tlb_perm : Z;
  tlb_valid : bool;
  tlb_dirty : bool;
}.

(* @src include/core/mmu.hpp 203-228 MMU *)
Record MMU := mkMMU {
  itlb_ : list TLBEntry;
  dtlb_ : list TLBEntry;
  reservation_address : Z;
  reservation_valid : bool;
}.

Record mach (D : Type) := mkMach {
  hart : Hart;
  mmu : MMU;
  dram_ : Dram;
  softfloat_exceptionFlags : Z;
  softfloat_roundingMode : Z;
  devs : D;
}.
Arguments mkMach {D} _ _ _ _ _ _.
Arguments hart {D} _.
Arguments mmu {D} _.
Arguments dram_ {D} _.
Arguments softfloat_exceptionFlags {D} _.
Arguments softfloat_roundingMode {D} _.
Arguments devs {D} _.

Section Setters.
Context {D : Type}.
Definition upd_hart (f : Hart -> Hart) (m : mach D) : mach D :=
  mkMach (f (hart m)) (mmu m) (dram_ m) (softfloat_exceptionFlags m)
    (softfloat_roundingMode m) (devs m).
Definition upd_mmu (f : MMU -> MMU) (m : mach D) : mach D :=
  mkMach (hart m) (f (mmu m)) (dram_ m) (softfloat_exceptionFlags m)
    (softfloat_roundingMode m) (devs m).
Definition upd_dram (f : Dram -> Dram) (m : mach D) : mach D :=
  mkMach (hart m) (mmu m) (f (dram_ m)) (softfloat_exceptionFlags m)
    (softfloat_roundingMode m) (devs m).
Definition set_exceptionFlags (v : Z) (m : mach D) : mach D :=
  mkMach (hart m) (mmu m) (dram_ m) v (softfloat_roundingMode m) (devs m).
Definition set_roundingMode (v : Z) (m : mach D) : mach D :=
  mkMach (hart m) (mmu m) (dram_ m) (softfloat_exceptionFlags m) v (devs m).
Definition upd_devs (f : D -> D) (m : mach D) : mach D :=
  mkMach (hart m) (mmu m) (dram_ m) (softfloat_exceptionFlags m)
    (softfloat_roundingMode m) (f (devs m)).
End Setters.

(** ** Devices *)

(* A device is an address range and its virtual functions, which act on a world [W]. *)
(* @src include/device/device.hpp 29-79 Device *)
Record Device (W : Type) := mkDevice {
  start_ : Z;
  end_ : Z;
  read_internal : Z -> Z -> W -> option Z * W;
  write_internal : Z -> Z -> Z -> W -> bool * W;
  dev_tick : W -> W;
}.
Arguments mkDevice {W} _ _ _ _ _.
Arguments start_ {W} _.
Arguments end_ {W} _.
Arguments read_internal {W} _ _ _ _.
Arguments write_internal {W} _ _ _ _ _.
Arguments dev_tick {W} _ _.

(* The constructor: the end is inclusive and computed in 64 bits. *)
(* @src include/device/device.hpp 31-32 Device::Device *)
Definition Device_end (start size : Z) : Z := u64 (u64 (start + size) - 1).

Section Device.
Context {W : Type}.

(* @src include/device/device.hpp 49-55 Device::contains *)
Definition contains (d : Device W) (addr len : Z) : bool :=
  if (addr <? start_ d) || (end_ d <? addr) then false
  else if (0 <? len) && (end_ d <? u64 (u64 (addr + len) - 1)) then false
  else true.

(* static_cast<T>(v) is the reduction to the access size. *)
(* @src include/device/device.hpp 57-65 Device::read *)
Definition device_read (d : Device W) (n : nat) (addr : Z) (w : W) : option Z * W :=
  match read_internal d (u64 (addr - start_ d)) (Z.of_nat n) w with
  | (None, w') => (None, w')
  | (Some v, w') => (Some (uwrap (8 * Z.of_nat n) v), w')
  end.

(* @src include/device/device.hpp 67-71 Device::write *)
Definition device_write (d : Device W) (n : nat) (addr value : Z) (w : W) : bool * W :=
  write_internal d (u64 (addr - start_ d)) (Z.of_nat n) (uwrap (8 * Z.of_nat n) value) w.
End Device.

(* The little-endian views the devices have of their registers: a byte array of
   eight bytes, read or written piecewise; out of range nothing happens. *)
(* @src include/device/device.hpp 80-92 Device::read_little_endian *)
Definition read_little_endian (src offset size out_val : Z) : Z :=
  if (size =? 0) || (8 <? u64 (offset + size)) then out_val
  else foldl (fun val i => Z.lor val
         (Z.shiftl (Z.land (Z.shiftr src (8 * (offset + i))) 0xFF) (8 * i)))
         0 (seqZ 0 size).

(* @src include/device/device.hpp 94-103 Device::write_little_endian *)
Definition write_little_endian (dst offset size value : Z) : Z :=
  if (size =? 0) || (8 <? u64 (offset + size)) then dst
  else foldl (fun dst i => deposit 64 dst (8 * (offset + i)) 8
         (Z.land (Z.shiftr value (8 * i)) 0xFF))
         dst (seqZ 0 size).

(** ** What the core uses of the devices *)

Class Platform (D : Type) := {
  (** The devices registered on the bus, in order. *)
  devices_ : list (Device (mach D));
  (** [Clint::get_mtime]: the CLINT reads the host's clock and updates the timer
      interrupts before it answers. *)
  clint_get_mtime : mach D -> Z * mach D;
  (** [Clint::tick]. *)
  clint_tick : mach D -> mach D;
  (** A device has called [request_shutdown_from_guest]. *)
  guest_shutdown : D -> bool;
  (** A device call has ended the process (an exception left a [noexcept] function, or
      the behaviour is undefined). *)
  process_dead : D -> bool;
  (** What the devices keep true of their own state. *)
  devs_ok : D -> Prop;
}.

(** What a device may do to the machine: set and clear interrupt-pending bits,
    write DRAM, change its own state. *)
Record device_frame {D} `{Platform D} (m m' : mach D) : Prop := {
  df_pc : pc (hart m') = pc (hart m);
  df_gprs : gprs (hart m') = gprs (hart m);
  df_fprs : fprs (hart m') = fprs (hart m);
  df_priv : priv (hart m') = priv (hart m);
  df_csr : forall a, a <> MIP_ADDRESS -> raw (hart m') a = raw (hart m) a;
  df_mip : fits 64 (raw (hart m) MIP_ADDRESS) ->
    sub (raw (hart m) MIP_ADDRESS) MIP_read_mask ->
    fits 64 (raw (hart m') MIP_ADDRESS) /\ sub (raw (hart m') MIP_ADDRESS) MIP_read_mask;
  df_icp : interrupt_check_pending (hart m') = interrupt_check_pending (hart m);
  df_is : increase_suppressed (hart m') = increase_suppressed (hart m);
  df_mmu : mmu m' = mmu m;
  df_dram : dram_wf (dram_ m) -> dram_wf (dram_ m') /\ size_ (dram_ m') = size_ (dram_ m);
  df_flags : softfloat_exceptionFlags m' = softfloat_exceptionFlags m;
  df_rm : softfloat_roundingMode m' = softfloat_roundingMode m;
  df_devs : dram_wf (dram_ m) -> devs_ok (devs m) -> devs_ok (devs m');
}.

Class PlatformLaws (D : Type) `{Platform D} := {
  device_read_frame : forall d off n m, d ∈ devices_ ->
    device_frame m (snd (read_internal d off n m));
  device_write_frame : forall d off n v m, d ∈ devices_ ->
    device_frame m (snd (write_internal d off n v m));
  device_tick_frame : forall d m, d ∈ devices_ -> device_frame m (dev_tick d m);
  clint_tick_frame : forall m, device_frame m (clint_tick m);
  clint_mtime_frame : forall m, device_frame m (snd (clint_get_mtime m));
  clint_mtime_fits : forall m, fits 64 (fst (clint_get_mtime m));
}.

Lemma device_frame_refl {D} `{Platform D} (m : mach D) : device_frame m m.
Proof. split; auto. Qed.

Lemma device_frame_trans {D} `{Platform D} (m1 m2 m3 : mach D) :
  device_frame m1 m2 -> device_frame m2 m3 -> device_frame m1 m3.
Proof.
  intros [] []. split; try congruence.
  - intros a Ha. by rewrite df_csr1, df_csr0.
  - intros F S. destruct (df_mip0 F S). auto.
  - intros F. destruct (df_dram0 F) as [F1 E1]. destruct (df_dram1 F1).
    split; [done|congruence].
  - intros F O. destruct (df_dram0 F). auto.
Qed.

Lemma device_frame_legal {D} `{Platform D} (m m' : mach D) :
  device_frame m m' -> csr_legal (hart m) -> csr_legal (hart m').
Proof.
  intros [] Hh a. destruct (Z.eq_dec a MIP_ADDRESS) as [->|Ha].
  - pose proof (csr_legal_at CMIP MIP_ADDRESS (hart m) eq_refl Hh) as [F S].
    split; apply df_mip0; done.
  - rewrite df_csr0 by done. apply Hh.
Qed.

(** The register-like view of the state that device activity leaves alone. *)
Lemma device_frame_read_own {D} `{Platform D} (m m' : mach D) a :
  device_frame m m' -> csr_class_at a <> CMIP -> csr_class_at a <> CSIP ->
  read_own (hart m') a = read_own (hart m) a.
Proof.
  intros [] H1 H2.
  assert (a <> MIP_ADDRESS) as Ha by (intros ->; by apply H1).
  unfold read_own, MENVCFG_read, MSTATUS_read, MEDELEG_read, MIDELEG_read, MIE_read,
    MCOUNTINHIBIT_read, EPC_read, SSTATUS_read, SIE_read, MSTATUS_read, MIE_read,
    SCOUNTEREN_read, SENVCFG_read, STIMECMP_read, FFLAGS_read, FRM_read, FCSR_read,
    FFLAGS_read, FRM_read.
  destruct (csr_class_at a); try done;
    rewrite ?df_csr0 by (done || neq_addr); done.
Qed.
