(* ===== verification/Bus.v ===== *)
(** * The system bus (include/core/bus.hpp)

    Registration of devices with the overlap test, and the dispatch of reads,
    writes and accessibility tests to DRAM or to the first device that owns the
    range. *)

From stdpp Require Import gmap.
From S2P Require Import Prelude Bits Hart HartInv Machine.

(** ** Registration *)

(* @src include/core/bus.hpp 114-116 Bus::check_overlap *)
Definition check_overlap (s1 e1 s2 e2 : Z) : bool := Z.max s1 s2 <=? Z.min e1 e2.

(* [None] is the std::runtime_error. *)
(* @src include/core/bus.hpp 34-65 Bus::add_device *)
Definition add_device {W} (dram_size : Z) (dev : Device W) (devices : list (Device W)) :
    option (list (Device W)) :=
  let dram_start := DRAM_BASE in
  let dram_end := u64 (u64 (dram_start + dram_size) - 1) in
  if check_overlap (start_ dev) (end_ dev) dram_start dram_end then None
  else if existsb (fun existing =>
            check_overlap (start_ dev) (end_ dev) (start_ existing) (end_ existing)) devices
  then None
  else Some (devices ++ [dev]).

(* The constructor's empty vector, then one call per device. *)
Fixpoint add_devices {W} (dram_size : Z) (devs : list (Device W)) (acc : list (Device W)) :
    option (list (Device W)) :=
  match devs with
  | [] => Some acc
  | d :: rest =>
      match add_device dram_size d acc with
      | None => None
      | Some acc => add_devices dram_size rest acc
      end
  end.

(** ** Accesses *)

Section Access.
Context {D : Type} `{Platform D}.

(* @src include/core/bus.hpp 67-80 Bus::read *)
Definition bus_read (n : nat) (addr : Z) (m : mach D) : option Z * mach D :=
  if is_valid_addr (dram_ m) addr (Z.of_nat n) then (Some (read n addr (dram_ m)), m)
  else
    match List.find (fun dev => contains dev addr (Z.of_nat n)) devices_ with
    | Some dev => device_read dev n addr m
    | None => (None, m)
    end.

(* @src include/core/bus.hpp 82-97 Bus::write *)
Definition bus_write (n : nat) (addr value : Z) (m : mach D) : bool * mach D :=
  if is_valid_addr (dram_ m) addr (Z.of_nat n)
  then (true, upd_dram (write n addr value) m)
  else
    match List.find (fun dev => contains dev addr (Z.of_nat n)) devices_ with
    | Some dev => device_write dev n addr value m
    | None => (false, m)
    end.

(* @src include/core/bus.hpp 99-106 Bus::accessible *)
Definition accessible (addr : Z) (m : mach D) : bool :=
  if is_valid_addr (dram_ m) addr 1 then true
  else existsb (fun dev => contains dev addr 1) devices_.

(* @src include/core/bus.hpp 108-111 Bus::tick_devices *)
Definition tick_devices (m : mach D) : mach D :=
  foldl (fun m dev => dev_tick dev m) m devices_.

(** *** What an access may change *)
Context `{!PlatformLaws D}.

Lemma bus_read_frame n addr m : device_frame m (snd (bus_read n addr m)).
Proof.
  unfold bus_read. case_test; [apply device_frame_refl|].
  destruct (List.find _ _) as [d|] eqn:Ed; [|apply device_frame_refl].
  apply find_some in Ed as [Hd _]. unfold device_read.
  pose proof (device_read_frame d (u64 (addr - start_ d)) (Z.of_nat n) m
    (proj2 (list_elem_of_In _ _) Hd)) as F.
  by destruct (read_internal _ _ _ _) as [[v|] m'].
Qed.

Lemma write_dram_frame n addr v (m : mach D) : device_frame m (upd_dram (write n addr v) m).
Proof.
  split; auto. intros Hd. split; [by apply write_wf|]. apply store_le_size.
Qed.

Lemma bus_write_frame n addr v m : device_frame m (snd (bus_write n addr v m)).
Proof.
  unfold bus_write. case_test; [apply write_dram_frame|].
  destruct (List.find _ _) as [d|] eqn:Ed; [|apply device_frame_refl].
  apply find_some in Ed as [Hd _]. unfold device_write.
  by apply device_write_frame, list_elem_of_In.
Qed.

Lemma tick_devices_frame m : device_frame m (tick_devices m).
Proof.
  unfold tick_devices. assert (forall d, d ∈ devices_ -> d ∈ devices_) as Hin by done.
  revert Hin. generalize (devices_ (D := D)) at 1 3 as l. intros l. revert m.
  induction l as [|d l IH]; intros m Hin; [apply device_frame_refl|].
  simpl. eapply device_frame_trans; [apply (device_tick_frame d m), Hin; left|].
  apply IH. intros d' Hd'. apply Hin. by right.
Qed.

Lemma bus_read_fits n addr m v :
  dram_wf (dram_ m) -> fst (bus_read n addr m) = Some v -> fits (8 * Z.of_nat n) v.
Proof.
  intros Hd. unfold bus_read. case_test.
  - intros [= <-]. by apply read_fits.
  - destruct (List.find _ _) as [d|]; [|done]. unfold device_read.
    destruct (read_internal _ _ _ _) as [[x|] m']; [|done]. intros [= <-].
    apply uwrap_fits. lia.
Qed.
End Access.

(** ** Ownership of addresses *)

Section Ownership.
Context {W : Type}.

(** The range of a device is not empty and does not wrap. *)
Definition device_range (d : Device W) : Prop := 0 <= start_ d <= end_ d /\ end_ d < 2 ^ 64.

Definition disjoint_devices (d1 d2 : Device W) : Prop :=
  end_ d1 < start_ d2 \/ end_ d2 < start_ d1.

Lemma contains_range d addr len :
  device_range d -> fits 64 addr -> 0 < len < 2 ^ 64 -> contains d addr len = true ->
  start_ d <= addr <= end_ d /\ (addr + len <= 2 ^ 64 -> addr + len - 1 <= end_ d).
Proof.
  intros [Hr He] Ha Hl. unfold contains, fits in *.
  destruct (_ || _) eqn:E1; [done|]. destruct (_ && _) eqn:E2; [done|]. bool_hyps.
  intros _. split; [lia|]. intros Hw.
  apply andb_false_iff in E2 as [E2|E2]; bool_hyps; [lia|]. unfold uwrap in *. lia.
Qed.

(** What [add_device] keeps true of the vector. *)
Definition bus_ok (dram_size : Z) (devices : list (Device W)) : Prop :=
  (forall d, d ∈ devices -> device_range d /\
     (end_ d < DRAM_BASE \/ DRAM_BASE + dram_size <= start_ d)) /\
  (forall i j d1 d2, devices !! i = Some d1 -> devices !! j = Some d2 -> i <> j ->
     disjoint_devices d1 d2).

Lemma check_overlap_false s1 e1 s2 e2 :
  s1 <= e1 -> s2 <= e2 -> check_overlap s1 e1 s2 e2 = false -> e1 < s2 \/ e2 < s1.
Proof. unfold check_overlap. intros. bool_hyps. lia. Qed.

Lemma add_device_ok dram_size dev devices devices' :
  0 < dram_size <= 2 ^ 64 - DRAM_BASE ->
  device_range dev -> bus_ok dram_size devices ->
  add_device dram_size dev devices = Some devices' -> bus_ok dram_size devices'.
Proof.
  intros Hs Hr [H1 H2]. unfold add_device. cbv zeta.
  case_test; [done|]. case_test; [done|]. intros [= <-].
  assert (end_ dev < DRAM_BASE \/ DRAM_BASE + dram_size <= start_ dev) as Hdram.
  { assert (u64 (u64 (DRAM_BASE + dram_size) - 1) = DRAM_BASE + dram_size - 1) as Ee
      by (unfold uwrap, DRAM_BASE in *; lia).
    rewrite Ee in E. apply check_overlap_false in E; [lia|destruct Hr; lia|lia]. }
  assert (forall d, d ∈ devices -> disjoint_devices dev d) as Hnew.
  { intros d Hd. destruct (H1 d Hd) as [[Hd' _] _]. destruct Hr.
    apply check_overlap_false; [lia..|].
    apply not_true_is_false. intros Eo.
    assert (existsb (fun e => check_overlap (start_ dev) (end_ dev) (start_ e) (end_ e)) devices
      = true) as E2; [|by rewrite E2 in E0].
    apply existsb_exists. exists d. by rewrite <- list_elem_of_In. }
  split.
  - intros d [Hd|Hd]%elem_of_app; [by apply H1|].
    apply list_elem_of_singleton in Hd as ->. done.
  - intros i j d1 d2 Hi Hj Hij.
    apply lookup_app_Some in Hi as [Hi|[Li Hi]]; apply lookup_app_Some in Hj as [Hj|[Lj Hj]].
    + by eapply H2.
    + apply list_lookup_singleton_Some in Hj as [_ <-].
      destruct (Hnew d1); [by eapply list_elem_of_lookup_2|by right|by left].
    + apply list_lookup_singleton_Some in Hi as [_ <-].
      apply Hnew. by eapply list_elem_of_lookup_2.
    + apply list_lookup_singleton_Some in Hi as [? _], Hj as [? _]. lia.
Qed.

Lemma add_devices_ok dram_size devs acc devices :
  0 < dram_size <= 2 ^ 64 - DRAM_BASE ->
  Forall device_range devs -> bus_ok dram_size acc ->
  add_devices dram_size devs acc = Some devices -> bus_ok dram_size devices.
Proof.
  intros Hs Hr. revert acc. induction Hr as [|d devs Hd Hr IH]; intros acc Hacc; simpl.
  { by intros [= <-]. }
  destruct (add_device dram_size d acc) as [acc'|] eqn:E; [|done].
  apply IH. by eapply add_device_ok.
Qed.

(** Once every device has been registered, each address has one owner:
    two devices never claim the same access and no device is hidden by DRAM,
    so the order of the vector does not matter. *)
Theorem bus_owner_unique dram_size devs devices addr len d1 d2 :
  0 < dram_size <= 2 ^ 64 - DRAM_BASE -> Forall device_range devs ->
  add_devices dram_size devs [] = Some devices ->
  fits 64 addr -> 0 < len < 2 ^ 64 ->
  d1 ∈ devices -> contains d1 addr len = true ->
  ~ DRAM_BASE <= addr < DRAM_BASE + dram_size /\
  (d2 ∈ devices -> contains d2 addr len = true ->
   start_ d2 = start_ d1 /\ end_ d2 = end_ d1).
Proof.
  intros Hs Hr Hadd Ha Hl H1 Hc1.
  assert (bus_ok dram_size devices) as [Hrange Hdisj].
  { eapply add_devices_ok; [done..| |done]. split; [|done]. intros d Hd. inversion Hd. }
  destruct (Hrange d1 H1) as [R1 D1].
  destruct (contains_range d1 addr len) as [I1 _]; [done..|]. split; [lia|].
  intros H2 Hc2. destruct (Hrange d2 H2) as [R2 D2].
  destruct (contains_range d2 addr len) as [I2 _]; [done..|].
  apply list_elem_of_lookup_1 in H1 as [i Hi], H2 as [j Hj].
  destruct (decide (i = j)) as [->|Hij]; [by simplify_eq|].
  destruct (Hdisj i j d1 d2); [done..|lia|lia].
Qed.
End Ownership.

Definition null_device {W} (start size : Z) : Device W :=
  mkDevice start (Device_end start size) (fun _ _ w => (Some 0, w)) (fun _ _ _ w => (true, w))
    (fun w => w).

Lemma bus_owner_unique_witness :
  ~ DRAM_BASE <= 0x2000010 < DRAM_BASE + 0x20000000 /\
  (@null_device unit 0xC000000 0x4000000 ∈ [null_device 0x2000000 0xC000; null_device 0xC000000 0x4000000] ->
   contains (@null_device unit 0xC000000 0x4000000) 0x2000010 4 = true ->
   0xC000000 = 0x2000000 /\ 0xFFFFFFF = 0x200BFFF).
Proof.
  apply (bus_owner_unique 0x20000000
           [@null_device unit 0x2000000 0xC000; null_device 0xC000000 0x4000000]
           [@null_device unit 0x2000000 0xC000; null_device 0xC000000 0x4000000]
           0x2000010 4 (null_device 0x2000000 0xC000) (null_device 0xC000000 0x4000000));
    [ split; reflexivity || discriminate
    | repeat constructor; discriminate
    | reflexivity | split; [discriminate|reflexivity] | split; reflexivity
    | left | reflexivity ].
Defined.
