(* ===== verification/Decoder.v ===== *)
(** * Instruction decoding (include/core/decoder.hpp, src/core/decoder.cpp)

    The tables of patterns with their textual form, the pattern parser, the
    operand decoders for the 32-bit and the 16-bit formats, and what decoding
    guarantees to the execution functions. *)

From Stdlib Require Import String Ascii.
From stdpp Require Import list.
From S2P Require Import Prelude Bits.
Open Scope string_scope.
Open Scope Z_scope.

(* @src include/core/decoder.hpp 23-98 Iname *)
Inductive Iname : Set :=
  | rv_add | rv_addi | rv_addiw | rv_addw | rv_and | rv_andi | rv_auipc | rv_beq | rv_bge
  | rv_bgeu | rv_blt | rv_bltu | rv_bne | rv_fence | rv_fence_i | rv_jal | rv_jalr | rv_lb
  | rv_lbu | rv_ld | rv_lh | rv_lhu | rv_lui | rv_lw | rv_lwu | rv_or | rv_ori | rv_sb
  | rv_sd | rv_sh | rv_sw | rv_sll | rv_slli | rv_slliw | rv_sllw | rv_slt | rv_slti
  | rv_sltiu | rv_sltu | rv_sra | rv_srai | rv_sraiw | rv_sraw | rv_srl | rv_srli
  | rv_srliw | rv_srlw | rv_sub | rv_subw | rv_xor | rv_xori | rv_csrrc | rv_csrrci
  | rv_csrrs | rv_csrrsi | rv_csrrw | rv_csrrwi | rv_ebreak | rv_ecall | rv_mret | rv_sret
  | rv_wfi | rv_sfence_vma | rv_mul | rv_mulh | rv_mulhsu | rv_mulhu | rv_mulw | rv_div
  | rv_divu | rv_divuw | rv_divw | rv_rem | rv_remu | rv_remuw | rv_remw | rv_lr_d
  | rv_lr_w | rv_sc_d | rv_sc_w | rv_amoadd_d | rv_amoadd_w | rv_amoand_d | rv_amoand_w
  | rv_amoor_d | rv_amoor_w | rv_amoxor_d | rv_amoxor_w | rv_amomax_d | rv_amomax_w
  | rv_amomaxu_d | rv_amomaxu_w | rv_amomin_d | rv_amomin_w | rv_amominu_d | rv_amominu_w
  | rv_amoswap_d | rv_amoswap_w | rv_flw | rv_fsw | rv_fadd_s | rv_fsub_s | rv_fmul_s
  | rv_fdiv_s | rv_fsqrt_s | rv_fsgnj_s | rv_fsgnjn_s | rv_fsgnjx_s | rv_fmin_s | rv_fmax_s
  | rv_fclass_s | rv_feq_s | rv_flt_s | rv_fle_s | rv_fmadd_s | rv_fmsub_s | rv_fnmsub_s
  | rv_fnmadd_s | rv_fcvt_w_s | rv_fcvt_wu_s | rv_fcvt_l_s | rv_fcvt_lu_s | rv_fcvt_s_w
  | rv_fcvt_s_wu | rv_fcvt_s_l | rv_fcvt_s_lu | rv_fmv_x_w | rv_fmv_w_x | rv_fld | rv_fsd
  | rv_fadd_d | rv_fsub_d | rv_fmul_d | rv_fdiv_d | rv_fsqrt_d | rv_fsgnj_d | rv_fsgnjn_d
  | rv_fsgnjx_d | rv_fmin_d | rv_fmax_d | rv_fclass_d | rv_feq_d | rv_flt_d | rv_fle_d
  | rv_fmadd_d | rv_fmsub_d | rv_fnmsub_d | rv_fnmadd_d | rv_fcvt_w_d | rv_fcvt_wu_d
  | rv_fcvt_l_d | rv_fcvt_lu_d | rv_fcvt_d_w | rv_fcvt_d_wu | rv_fcvt_d_l | rv_fcvt_d_lu
  | rv_fcvt_s_d | rv_fcvt_d_s | rv_fmv_x_d | rv_fmv_d_x | rv_c_nop | rv_c_addi | rv_c_addiw
  | rv_c_li | rv_c_addi16sp | rv_c_lui | rv_c_srli | rv_c_srai | rv_c_andi | rv_c_sub
  | rv_c_xor | rv_c_or | rv_c_and | rv_c_subw | rv_c_addw | rv_c_j | rv_c_beqz | rv_c_bnez
  | rv_c_addi4spn | rv_c_fld | rv_c_lw | rv_c_ld | rv_c_fsd | rv_c_sw | rv_c_sd | rv_c_slli
  | rv_c_fldsp | rv_c_lwsp | rv_c_ldsp | rv_c_jr | rv_c_mv | rv_c_ebreak | rv_c_jalr
  | rv_c_add | rv_c_fsdsp | rv_c_swsp | rv_c_sdsp | rv_c_inv | rv_inv.

(* @src include/core/decoder.hpp 108-130 Itype *)
Inductive Itype : Set :=
  | Ity_I | Ity_U | Ity_S | Ity_J | Ity_R | Ity_B | Ity_R4
  | Ity_CR | Ity_CI | Ity_CSS | Ity_CIW | Ity_CL | Ity_CS | Ity_CA | Ity_CB | Ity_CJ
  | Ity_N.

(* @src include/core/decoder.hpp 132-135 Ilen *)
Inductive Ilen : Set := Compressed | Normal.

#[export] Instance Itype_eq_dec : EqDecision Itype.
Proof. solve_decision. Defined.

(* The decoded fields; the ones a format does not set are not initialised. *)
(* @src include/core/decoder.hpp 161-163 DecodedInsn *)
Record operands := mkOperands { o_rd : Z; o_rs1 : Z; o_rs2 : Z; o_rs3 : Z; o_imm : Z }.

(* The function pointer exec is determined by iname (Execute.v). *)
(* @src include/core/decoder.hpp 139-167 DecodedInsn *)
Record DecodedInsn := mkDecodedInsn {
  d_insn : Z;
  d_len : Ilen;
  d_iname : Iname;
  d_type : Itype;
  d_ops : operands;
  d_pc : Z;
}.
Definition d_rd (d : DecodedInsn) : Z := o_rd (d_ops d).
Definition d_rs1 (d : DecodedInsn) : Z := o_rs1 (d_ops d).
Definition d_rs2 (d : DecodedInsn) : Z := o_rs2 (d_ops d).
Definition d_rs3 (d : DecodedInsn) : Z := o_rs3 (d_ops d).
Definition d_imm (d : DecodedInsn) : Z := o_imm (d_ops d).

(* @src include/core/decoder.hpp 178-180 Decoder::is_compressed *)
Definition is_compressed (insn : Z) : bool := Z.land insn 3 <? 3.

(** ** Patterns *)

(* @src src/core/decoder.cpp 27-31 PatternData *)
Record PatternData := mkPattern { p_key : Z; p_mask : Z; p_shift : Z }.

(* The loop of parse_pattern over the characters. *)
(* @src src/core/decoder.cpp 35-45 parse_pattern *)
Fixpoint parse_chars (key mask shift : Z) (s : string) : Z * Z * Z :=
  match s with
  | EmptyString => (key, mask, shift)
  | String c s =>
      if Ascii.eqb c " " then parse_chars key mask shift s
      else parse_chars
             (Z.lor (u64 (Z.shiftl key 1)) (if Ascii.eqb c "1" then 1 else 0))
             (Z.lor (u64 (Z.shiftl mask 1)) (if Ascii.eqb c "?" then 0 else 1))
             (if Ascii.eqb c "?" then u64 (shift + 1) else 0) s
  end.

(* @src src/core/decoder.cpp 33-52 parse_pattern *)
Definition parse_pattern (pattern : string) : PatternData :=
  let '(key, mask, shift) := parse_chars 0 0 0 pattern in
  mkPattern (Z.shiftr key shift) (Z.shiftr mask shift) shift.

(* The test of INSTPAT. *)
(* @src src/core/decoder.cpp 63-67 INSTPAT *)
Definition pattern_matches (pat : PatternData) (insn : Z) : bool :=
  Z.land (Z.shiftr insn (p_shift pat)) (p_mask pat) =? p_key pat.

Definition entry : Type := string * Iname * Itype.

(* @src src/core/decoder.cpp 76-139 Decoder::decode *)
Definition patterns_I : list entry :=
  [ ("0000000 ????? ????? 000 ????? 01100 11", rv_add, Ity_R);
    ("??????? ????? ????? 000 ????? 00100 11", rv_addi, Ity_I);
    ("??????? ????? ????? 000 ????? 00110 11", rv_addiw, Ity_I);
    ("0000000 ????? ????? 000 ????? 01110 11", rv_addw, Ity_R);
    ("0000000 ????? ????? 111 ????? 01100 11", rv_and, Ity_R);
    ("??????? ????? ????? 111 ????? 00100 11", rv_andi, Ity_I);
    ("??????? ????? ????? ??? ????? 00101 11", rv_auipc, Ity_U);
    ("??????? ????? ????? 000 ????? 11000 11", rv_beq, Ity_B);
    ("??????? ????? ????? 101 ????? 11000 11", rv_bge, Ity_B);
    ("??????? ????? ????? 111 ????? 11000 11", rv_bgeu, Ity_B);
    ("??????? ????? ????? 100 ????? 11000 11", rv_blt, Ity_B);
    ("??????? ????? ????? 110 ????? 11000 11", rv_bltu, Ity_B);
    ("??????? ????? ????? 001 ????? 11000 11", rv_bne, Ity_B);
    ("??????? ????? ????? 000 ????? 00011 11", rv_fence, Ity_I);
    ("??????? ????? ????? 001 ????? 00011 11", rv_fence_i, Ity_I);
    ("??????? ????? ????? ??? ????? 11011 11", rv_jal, Ity_J);
    ("??????? ????? ????? 000 ????? 11001 11", rv_jalr, Ity_I);
    ("??????? ????? ????? 000 ????? 00000 11", rv_lb, Ity_I);
    ("??????? ????? ????? 100 ????? 00000 11", rv_lbu, Ity_I);
    ("??????? ????? ????? 011 ????? 00000 11", rv_ld, Ity_I);
    ("??????? ????? ????? 001 ????? 00000 11", rv_lh, Ity_I);
    ("??????? ????? ????? 101 ????? 00000 11", rv_lhu, Ity_I);
    ("??????? ????? ????? ??? ????? 01101 11", rv_lui, Ity_U);
    ("??????? ????? ????? 010 ????? 00000 11", rv_lw, Ity_I);
    ("??????? ????? ????? 110 ????? 00000 11", rv_lwu, Ity_I);
    ("0000000 ????? ????? 110 ????? 01100 11", rv_or, Ity_R);
    ("??????? ????? ????? 110 ????? 00100 11", rv_ori, Ity_I);
    ("??????? ????? ????? 000 ????? 01000 11", rv_sb, Ity_S);
    ("??????? ????? ????? 011 ????? 01000 11", rv_sd, Ity_S);
    ("??????? ????? ????? 001 ????? 01000 11", rv_sh, Ity_S);
    ("0000000 ????? ????? 001 ????? 01100 11", rv_sll, Ity_R);
    ("000000? ????? ????? 001 ????? 00100 11", rv_slli, Ity_I);
    ("0000000 ????? ????? 001 ????? 00110 11", rv_slliw, Ity_I);
    ("0000000 ????? ????? 001 ????? 01110 11", rv_sllw, Ity_R);
    ("0000000 ????? ????? 010 ????? 01100 11", rv_slt, Ity_R);
    ("??????? ????? ????? 010 ????? 00100 11", rv_slti, Ity_I);
    ("??????? ????? ????? 011 ????? 00100 11", rv_sltiu, Ity_I);
    ("0000000 ????? ????? 011 ????? 01100 11", rv_sltu, Ity_R);
    ("0100000 ????? ????? 101 ????? 01100 11", rv_sra, Ity_R);
    ("010000? ????? ????? 101 ????? 00100 11", rv_srai, Ity_I);
    ("0100000 ????? ????? 101 ????? 00110 11", rv_sraiw, Ity_I);
    ("0100000 ????? ????? 101 ????? 01110 11", rv_sraw, Ity_R);
    ("0000000 ????? ????? 101 ????? 01100 11", rv_srl, Ity_R);
    ("000000? ????? ????? 101 ????? 00100 11", rv_srli, Ity_I);
    ("0000000 ????? ????? 101 ????? 00110 11", rv_srliw, Ity_I);
    ("0000000 ????? ????? 101 ????? 01110 11", rv_srlw, Ity_R);
    ("0100000 ????? ????? 000 ????? 01100 11", rv_sub, Ity_R);
    ("0100000 ????? ????? 000 ????? 01110 11", rv_subw, Ity_R);
    ("??????? ????? ????? 010 ????? 01000 11", rv_sw, Ity_S);
    ("0000000 ????? ????? 100 ????? 01100 11", rv_xor, Ity_R);
    ("??????? ????? ????? 100 ????? 00100 11", rv_xori, Ity_I);
    ("??????? ????? ????? 011 ????? 11100 11", rv_csrrc, Ity_I);
    ("??????? ????? ????? 111 ????? 11100 11", rv_csrrci, Ity_I);
    ("??????? ????? ????? 010 ????? 11100 11", rv_csrrs, Ity_I);
    ("??????? ????? ????? 110 ????? 11100 11", rv_csrrsi, Ity_I);
    ("??????? ????? ????? 001 ????? 11100 11", rv_csrrw, Ity_I);
    ("??????? ????? ????? 101 ????? 11100 11", rv_csrrwi, Ity_I);
    ("0000000 00001 00000 000 00000 11100 11", rv_ebreak, Ity_N);
    ("0000000 00000 00000 000 00000 11100 11", rv_ecall, Ity_N);
    ("0011000 00010 00000 000 00000 11100 11", rv_mret, Ity_N);
    ("0001001 ????? ????? 000 00000 11100 11", rv_sfence_vma, Ity_R);
    ("0001000 00010 00000 000 00000 11100 11", rv_sret, Ity_N);
    ("0001000 00101 00000 000 00000 11100 11", rv_wfi, Ity_N) ].

(* @src src/core/decoder.cpp 141-154 Decoder::decode *)
Definition patterns_M : list entry :=
  [ ("0000001 ????? ????? 100 ????? 01100 11", rv_div, Ity_R);
    ("0000001 ????? ????? 101 ????? 01100 11", rv_divu, Ity_R);
    ("0000001 ????? ????? 101 ????? 01110 11", rv_divuw, Ity_R);
    ("0000001 ????? ????? 100 ????? 01110 11", rv_divw, Ity_R);
    ("0000001 ????? ????? 000 ????? 01100 11", rv_mul, Ity_R);
    ("0000001 ????? ????? 001 ????? 01100 11", rv_mulh, Ity_R);
    ("0000001 ????? ????? 010 ????? 01100 11", rv_mulhsu, Ity_R);
    ("0000001 ????? ????? 011 ????? 01100 11", rv_mulhu, Ity_R);
    ("0000001 ????? ????? 000 ????? 01110 11", rv_mulw, Ity_R);
    ("0000001 ????? ????? 110 ????? 01100 11", rv_rem, Ity_R);
    ("0000001 ????? ????? 111 ????? 01100 11", rv_remu, Ity_R);
    ("0000001 ????? ????? 111 ????? 01110 11", rv_remuw, Ity_R);
    ("0000001 ????? ????? 110 ????? 01110 11", rv_remw, Ity_R) ].

(* @src src/core/decoder.cpp 156-178 Decoder::decode *)
Definition patterns_A : list entry :=
  [ ("00010?? 00000 ????? 011 ????? 01011 11", rv_lr_d, Ity_R);
    ("00010?? 00000 ????? 010 ????? 01011 11", rv_lr_w, Ity_R);
    ("00011?? ????? ????? 011 ????? 01011 11", rv_sc_d, Ity_R);
    ("00011?? ????? ????? 010 ????? 01011 11", rv_sc_w, Ity_R);
    ("00000?? ????? ????? 011 ????? 01011 11", rv_amoadd_d, Ity_R);
    ("00000?? ????? ????? 010 ????? 01011 11", rv_amoadd_w, Ity_R);
    ("01100?? ????? ????? 011 ????? 01011 11", rv_amoand_d, Ity_R);
    ("01100?? ????? ????? 010 ????? 01011 11", rv_amoand_w, Ity_R);
    ("01000?? ????? ????? 011 ????? 01011 11", rv_amoor_d, Ity_R);
    ("01000?? ????? ????? 010 ????? 01011 11", rv_amoor_w, Ity_R);
    ("00100?? ????? ????? 011 ????? 01011 11", rv_amoxor_d, Ity_R);
    ("00100?? ????? ????? 010 ????? 01011 11", rv_amoxor_w, Ity_R);
    ("10100?? ????? ????? 011 ????? 01011 11", rv_amomax_d, Ity_R);
    ("10100?? ????? ????? 010 ????? 01011 11", rv_amomax_w, Ity_R);
    ("11100?? ????? ????? 011 ????? 01011 11", rv_amomaxu_d, Ity_R);
    ("11100?? ????? ????? 010 ????? 01011 11", rv_amomaxu_w, Ity_R);
    ("10000?? ????? ????? 011 ????? 01011 11", rv_amomin_d, Ity_R);
    ("10000?? ????? ????? 010 ????? 01011 11", rv_amomin_w, Ity_R);
    ("11000?? ????? ????? 011 ????? 01011 11", rv_amominu_d, Ity_R);
    ("11000?? ????? ????? 010 ????? 01011 11", rv_amominu_w, Ity_R);
    ("00001?? ????? ????? 011 ????? 01011 11", rv_amoswap_d, Ity_R);
    ("00001?? ????? ????? 010 ????? 01011 11", rv_amoswap_w, Ity_R) ].

(* @src src/core/decoder.cpp 180-210 Decoder::decode *)
Definition patterns_F : list entry :=
  [ ("??????? ????? ????? 010 ????? 00001 11", rv_flw, Ity_I);
    ("??????? ????? ????? 010 ????? 01001 11", rv_fsw, Ity_S);
    ("0000000 ????? ????? ??? ????? 10100 11", rv_fadd_s, Ity_R);
    ("0000100 ????? ????? ??? ????? 10100 11", rv_fsub_s, Ity_R);
    ("0001000 ????? ????? ??? ????? 10100 11", rv_fmul_s, Ity_R);
    ("0001100 ????? ????? ??? ????? 10100 11", rv_fdiv_s, Ity_R);
    ("0101100 00000 ????? ??? ????? 10100 11", rv_fsqrt_s, Ity_R);
    ("0010000 ????? ????? 000 ????? 10100 11", rv_fsgnj_s, Ity_R);
    ("0010000 ????? ????? 001 ????? 10100 11", rv_fsgnjn_s, Ity_R);
    ("0010000 ????? ????? 010 ????? 10100 11", rv_fsgnjx_s, Ity_R);
    ("0010100 ????? ????? 000 ????? 10100 11", rv_fmin_s, Ity_R);
    ("0010100 ????? ????? 001 ????? 10100 11", rv_fmax_s, Ity_R);
    ("1100000 00000 ????? ??? ????? 10100 11", rv_fcvt_w_s, Ity_R);
    ("1100000 00001 ????? ??? ????? 10100 11", rv_fcvt_wu_s, Ity_R);
    ("1100000 00010 ????? ??? ????? 10100 11", rv_fcvt_l_s, Ity_R);
    ("1100000 00011 ????? ??? ????? 10100 11", rv_fcvt_lu_s, Ity_R);
    ("1101000 00000 ????? ??? ????? 10100 11", rv_fcvt_s_w, Ity_R);
    ("1101000 00001 ????? ??? ????? 10100 11", rv_fcvt_s_wu, Ity_R);
    ("1101000 00010 ????? ??? ????? 10100 11", rv_fcvt_s_l, Ity_R);
    ("1101000 00011 ????? ??? ????? 10100 11", rv_fcvt_s_lu, Ity_R);
    ("1110000 00000 ????? 000 ????? 10100 11", rv_fmv_x_w, Ity_R);
    ("1111000 00000 ????? 000 ????? 10100 11", rv_fmv_w_x, Ity_R);
    ("1110000 00000 ????? 001 ????? 10100 11", rv_fclass_s, Ity_R);
    ("1010000 ????? ????? 010 ????? 10100 11", rv_feq_s, Ity_R);
    ("1010000 ????? ????? 001 ????? 10100 11", rv_flt_s, Ity_R);
    ("1010000 ????? ????? 000 ????? 10100 11", rv_fle_s, Ity_R);
    ("?????00 ????? ????? ??? ????? 10000 11", rv_fmadd_s, Ity_R4);
    ("?????00 ????? ????? ??? ????? 10001 11", rv_fmsub_s, Ity_R4);
    ("?????00 ????? ????? ??? ????? 10010 11", rv_fnmsub_s, Ity_R4);
    ("?????00 ????? ????? ??? ????? 10011 11", rv_fnmadd_s, Ity_R4) ].

(* @src src/core/decoder.cpp 212-247 Decoder::decode *)
Definition patterns_D : list entry :=
  [ ("??????? ????? ????? 011 ????? 00001 11", rv_fld, Ity_I);
    ("??????? ????? ????? 011 ????? 01001 11", rv_fsd, Ity_S);
    ("0000001 ????? ????? ??? ????? 10100 11", rv_fadd_d, Ity_R);
    ("0000101 ????? ????? ??? ????? 10100 11", rv_fsub_d, Ity_R);
    ("0001001 ????? ????? ??? ????? 10100 11", rv_fmul_d, Ity_R);
    ("0001101 ????? ????? ??? ????? 10100 11", rv_fdiv_d, Ity_R);
    ("0101101 00000 ????? ??? ????? 10100 11", rv_fsqrt_d, Ity_R);
    ("0010001 ????? ????? 000 ????? 10100 11", rv_fsgnj_d, Ity_R);
    ("0010001 ????? ????? 001 ????? 10100 11", rv_fsgnjn_d, Ity_R);
    ("0010001 ????? ????? 010 ????? 10100 11", rv_fsgnjx_d, Ity_R);
    ("0010101 ????? ????? 000 ????? 10100 11", rv_fmin_d, Ity_R);
    ("0010101 ????? ????? 001 ????? 10100 11", rv_fmax_d, Ity_R);
    ("1100001 00000 ????? ??? ????? 10100 11", rv_fcvt_w_d, Ity_R);
    ("1100001 00001 ????? ??? ????? 10100 11", rv_fcvt_wu_d, Ity_R);
    ("1100001 00010 ????? ??? ????? 10100 11", rv_fcvt_l_d, Ity_R);
    ("1100001 00011 ????? ??? ????? 10100 11", rv_fcvt_lu_d, Ity_R);
    ("1101001 00000 ????? ??? ????? 10100 11", rv_fcvt_d_w, Ity_R);
    ("1101001 00001 ????? ??? ????? 10100 11", rv_fcvt_d_wu, Ity_R);
    ("1101001 00010 ????? ??? ????? 10100 11", rv_fcvt_d_l, Ity_R);
    ("1101001 00011 ????? ??? ????? 10100 11", rv_fcvt_d_lu, Ity_R);
    ("0100000 00001 ????? ??? ????? 10100 11", rv_fcvt_s_d, Ity_R);
    ("0100001 00000 ????? ??? ????? 10100 11", rv_fcvt_d_s, Ity_R);
    ("1110001 00000 ????? 000 ????? 10100 11", rv_fmv_x_d, Ity_R);
    ("1111001 00000 ????? 000 ????? 10100 11", rv_fmv_d_x, Ity_R);
    ("1110001 00000 ????? 001 ????? 10100 11", rv_fclass_d, Ity_R);
    ("1010001 ????? ????? 010 ????? 10100 11", rv_feq_d, Ity_R);
    ("1010001 ????? ????? 001 ????? 10100 11", rv_flt_d, Ity_R);
    ("1010001 ????? ????? 000 ????? 10100 11", rv_fle_d, Ity_R);
    ("?????01 ????? ????? ??? ????? 10000 11", rv_fmadd_d, Ity_R4);
    ("?????01 ????? ????? ??? ????? 10001 11", rv_fmsub_d, Ity_R4);
    ("?????01 ????? ????? ??? ????? 10010 11", rv_fnmsub_d, Ity_R4);
    ("?????01 ????? ????? ??? ????? 10011 11", rv_fnmadd_d, Ity_R4);
    ("??????? ????? ????? ??? ????? ????? ??", rv_inv, Ity_N) ].

(* @src src/core/decoder.cpp 265-306 Decoder::decode *)
Definition patterns_C : list entry :=
  [ ("000 ?00000????? 01", rv_c_nop, Ity_CI);
    ("000 ??????????? 01", rv_c_addi, Ity_CI);
    ("001 ??????????? 01", rv_c_addiw, Ity_CI);
    ("010 ??????????? 01", rv_c_li, Ity_CI);
    ("011 ?00010????? 01", rv_c_addi16sp, Ity_CI);
    ("011 ??????????? 01", rv_c_lui, Ity_CI);
    ("100 ?00???????? 01", rv_c_srli, Ity_CB);
    ("100 ?01???????? 01", rv_c_srai, Ity_CB);
    ("100 ?10???????? 01", rv_c_andi, Ity_CB);
    ("100 011???00??? 01", rv_c_sub, Ity_CA);
    ("100 011???01??? 01", rv_c_xor, Ity_CA);
    ("100 011???10??? 01", rv_c_or, Ity_CA);
    ("100 011???11??? 01", rv_c_and, Ity_CA);
    ("100 111???00??? 01", rv_c_subw, Ity_CA);
    ("100 111???01??? 01", rv_c_addw, Ity_CA);
    ("101 ??????????? 01", rv_c_j, Ity_CJ);
    ("110 ??????????? 01", rv_c_beqz, Ity_CB);
    ("111 ??????????? 01", rv_c_bnez, Ity_CB);
    ("000 00000000000 00", rv_c_inv, Ity_N);
    ("000 ??????????? 00", rv_c_addi4spn, Ity_CIW);
    ("001 ??????????? 00", rv_c_fld, Ity_CL);
    ("010 ??????????? 00", rv_c_lw, Ity_CL);
    ("011 ??????????? 00", rv_c_ld, Ity_CL);
    ("101 ??????????? 00", rv_c_fsd, Ity_CS);
    ("110 ??????????? 00", rv_c_sw, Ity_CS);
    ("111 ??????????? 00", rv_c_sd, Ity_CS);
    ("000 ??????????? 10", rv_c_slli, Ity_CI);
    ("001 ??????????? 10", rv_c_fldsp, Ity_CI);
    ("010 ??????????? 10", rv_c_lwsp, Ity_CI);
    ("011 ??????????? 10", rv_c_ldsp, Ity_CI);
    ("100 0?????00000 10", rv_c_jr, Ity_CR);
    ("100 0?????????? 10", rv_c_mv, Ity_CR);
    ("100 10000000000 10", rv_c_ebreak, Ity_CR);
    ("100 1?????00000 10", rv_c_jalr, Ity_CR);
    ("100 1?????????? 10", rv_c_add, Ity_CR);
    ("101 ??????????? 10", rv_c_fsdsp, Ity_CSS);
    ("110 ??????????? 10", rv_c_swsp, Ity_CSS);
    ("111 ??????????? 10", rv_c_sdsp, Ity_CSS);
    ("??? ??????????? ??", rv_inv, Ity_N) ].

(* The tests of the first branch, in order. *)
Definition patterns_32 : list entry :=
  (patterns_I ++ patterns_M ++ patterns_A ++ patterns_F ++ patterns_D)%list.
(** ** Operands *)

(* @src src/core/decoder.cpp 314-339 Decoder::decode_operand_32 *)
Definition decode_operand_32 (u : operands) (i : Z) (type : Itype) : operands :=
  mkOperands (bits 32 i 11 7) (bits 32 i 19 15) (bits 32 i 24 20) (bits 32 i 31 27)
    match type with
    | Ity_I => u64 (sext (bits 32 i 31 20) 12)
    | Ity_U => u64 (Z.shiftl (sext (bits 32 i 31 12) 20) 12)
    | Ity_S => u64 (Z.lor (Z.shiftl (sext (bits 32 i 31 25) 7) 5) (bits 32 i 11 7))
    | Ity_J =>
        u64 (sext (Z.lor (Z.lor (Z.lor (Z.shiftl (bits 32 i 31 31) 20)
                                       (Z.shiftl (bits 32 i 19 12) 12))
                                (Z.shiftl (bits 32 i 20 20) 11))
                         (Z.shiftl (bits 32 i 30 21) 1)) 21)
    | Ity_B =>
        u64 (sext (Z.lor (Z.lor (Z.lor (Z.shiftl (bits 32 i 31 31) 12)
                                       (Z.shiftl (bits 32 i 7 7) 11))
                                (Z.shiftl (bits 32 i 30 25) 5))
                         (Z.shiftl (bits 32 i 11 8) 1)) 13)
    | _ => o_imm u
    end.

(* @src src/core/decoder.cpp 342-342 REG_C *)
Definition REG_C (x : Z) : Z := x + 8.

(** sext(bits(i, 12, 12) << 5 | bits(i, 6, 2), 6) *)
Definition imm_ci (i : Z) : Z :=
  u64 (sext (Z.lor (Z.shiftl (bits 32 i 12 12) 5) (bits 32 i 6 2)) 6).

(* The immediate of the CI format, by opcode and funct3. *)
(* @src src/core/decoder.cpp 352-391 Decoder::decode_operand_16 *)
Definition decode_imm_CI (i : Z) : Z :=
  let rd := bits 32 i 11 7 in
  let funct3 := bits 32 i 15 13 in
  let opcode := bits 32 i 1 0 in
  if opcode =? 1 then
    if (funct3 =? 0) || (funct3 =? 1) || (funct3 =? 2) then imm_ci i
    else if funct3 =? 3 then
      if rd =? 2 then
        u64 (sext (Z.lor (Z.lor (Z.lor (Z.lor (Z.shiftl (bits 32 i 12 12) 9)
                                              (Z.shiftl (bits 32 i 4 3) 7))
                                       (Z.shiftl (bits 32 i 5 5) 6))
                                (Z.shiftl (bits 32 i 2 2) 5))
                         (Z.shiftl (bits 32 i 6 6) 4)) 10)
      else if negb (rd =? 0) then
        u64 (sext (Z.lor (Z.shiftl (bits 32 i 12 12) 17) (Z.shiftl (bits 32 i 6 2) 12)) 18)
      else imm_ci i
    else imm_ci i
  else if opcode =? 2 then
    if funct3 =? 0 then Z.lor (Z.shiftl (bits 32 i 12 12) 5) (bits 32 i 6 2)
    else if funct3 =? 2 then
      Z.lor (Z.lor (Z.shiftl (bits 32 i 3 2) 6) (Z.shiftl (bits 32 i 12 12) 5))
            (Z.shiftl (bits 32 i 6 4) 2)
    else if (funct3 =? 3) || (funct3 =? 1) then
      Z.lor (Z.lor (Z.shiftl (bits 32 i 4 2) 6) (Z.shiftl (bits 32 i 12 12) 5))
            (Z.shiftl (bits 32 i 6 5) 3)
    else imm_ci i
  else imm_ci i.

(** The scaled offsets of the word and doubleword loads and stores. *)
Definition imm_lw (i : Z) : Z :=
  Z.lor (Z.lor (Z.shiftl (bits 32 i 5 5) 6) (Z.shiftl (bits 32 i 12 10) 3))
        (Z.shiftl (bits 32 i 6 6) 2).
Definition imm_ld (i : Z) : Z :=
  Z.lor (Z.shiftl (bits 32 i 6 5) 6) (Z.shiftl (bits 32 i 12 10) 3).

(* [None] is std::unreachable. *)
(* @src src/core/decoder.cpp 341-464 Decoder::decode_operand_16 *)
Definition decode_operand_16 (u : operands) (i : Z) (type : Itype) : option operands :=
  let funct3 := bits 32 i 15 13 in
  match type with
  | Ity_CR =>
      let r := bits 32 i 11 7 in
      Some (mkOperands r r (bits 32 i 6 2) (o_rs3 u) (o_imm u))
  | Ity_CI =>
      let r := bits 32 i 11 7 in
      Some (mkOperands r r (o_rs2 u) (o_rs3 u) (decode_imm_CI i))
  | Ity_CSS =>
      let imm :=
        if funct3 =? 6 then
          Z.lor (Z.shiftl (bits 32 i 8 7) 6) (Z.shiftl (bits 32 i 12 9) 2)
        else if (funct3 =? 7) || (funct3 =? 5) then
          Z.lor (Z.shiftl (bits 32 i 9 7) 6) (Z.shiftl (bits 32 i 12 10) 3)
        else o_imm u in
      Some (mkOperands (o_rd u) 2 (bits 32 i 6 2) (o_rs3 u) imm)
  | Ity_CIW =>
      Some (mkOperands (REG_C (bits 32 i 4 2)) 2 (o_rs2 u) (o_rs3 u)
        (Z.lor (Z.lor (Z.lor (Z.shiftl (bits 32 i 10 7) 6) (Z.shiftl (bits 32 i 12 11) 4))
                      (Z.shiftl (bits 32 i 5 5) 3))
               (Z.shiftl (bits 32 i 6 6) 2)))
  | Ity_CL =>
      let rd := REG_C (bits 32 i 4 2) in
      let rs1 := REG_C (bits 32 i 9 7) in
      if funct3 =? 2 then Some (mkOperands rd rs1 (o_rs2 u) (o_rs3 u) (imm_lw i))
      else if (funct3 =? 1) || (funct3 =? 3)
      then Some (mkOperands rd rs1 (o_rs2 u) (o_rs3 u) (imm_ld i))
      else None
  | Ity_CS =>
      let rs1 := REG_C (bits 32 i 9 7) in
      let rs2 := REG_C (bits 32 i 4 2) in
      if funct3 =? 6 then Some (mkOperands (o_rd u) rs1 rs2 (o_rs3 u) (imm_lw i))
      else if (funct3 =? 5) || (funct3 =? 7)
      then Some (mkOperands (o_rd u) rs1 rs2 (o_rs3 u) (imm_ld i))
      else None
  | Ity_CA =>
      let r := REG_C (bits 32 i 9 7) in
      Some (mkOperands r r (REG_C (bits 32 i 4 2)) (o_rs3 u) (o_imm u))
  | Ity_CB =>
      let r := REG_C (bits 32 i 9 7) in
      let imm :=
        if funct3 =? 4 then
          let raw := Z.lor (Z.shiftl (bits 32 i 12 12) 5) (bits 32 i 6 2) in
          if bits 32 i 11 10 =? 2 then u64 (sext raw 6) else raw
        else
          u64 (sext (Z.lor (Z.lor (Z.lor (Z.lor (Z.shiftl (bits 32 i 12 12) 8)
                                                (Z.shiftl (bits 32 i 6 5) 6))
                                         (Z.shiftl (bits 32 i 2 2) 5))
                                  (Z.shiftl (bits 32 i 11 10) 3))
                           (Z.shiftl (bits 32 i 4 3) 1)) 9) in
      Some (mkOperands r r (o_rs2 u) (o_rs3 u) imm)
  | Ity_CJ =>
      Some (mkOperands (o_rd u) (o_rs1 u) (o_rs2 u) (o_rs3 u)
        (u64 (sext (foldr Z.lor 0
           [ Z.shiftl (bits 32 i 12 12) 11; Z.shiftl (bits 32 i 11 11) 4;
             Z.shiftl (bits 32 i 10 9) 8; Z.shiftl (bits 32 i 8 8) 10;
             Z.shiftl (bits 32 i 7 7) 6; Z.shiftl (bits 32 i 6 6) 7;
             Z.shiftl (bits 32 i 5 3) 1; Z.shiftl (bits 32 i 2 2) 5 ]) 12)))
  | Ity_N => Some u
  | _ => None
  end.

(** ** Decoding *)

(* @src src/core/decoder.cpp 63-74 INSTPAT *)
Definition find_pattern (insn : Z) (table : list entry) : option (Iname * Itype) :=
  match List.find (fun e => pattern_matches (parse_pattern e.1.1) insn) table with
  | Some e => Some (e.1.2, e.2)
  | None => None
  end.

(* [u] stands for the indeterminate values of the fields the constructor leaves
   uninitialised; [None] is std::unreachable. *)
(* @src src/core/decoder.cpp 54-74 Decoder::decode *)
Definition decode (u : operands) (insn : Z) (len : Ilen) (pc : Z) : option DecodedInsn :=
  match len with
  | Normal =>
      match find_pattern insn patterns_32 with
      | Some (name, type) =>
          Some (mkDecodedInsn insn len name type (decode_operand_32 u insn type) pc)
      | None => None
      end
  | Compressed =>
      match find_pattern insn patterns_C with
      | Some (name, type) =>
          match decode_operand_16 u insn type with
          | Some ops => Some (mkDecodedInsn insn len name type ops pc)
          | None => None
          end
      | None => None
      end
  end.

Definition no_operands : operands := mkOperands 0 0 0 0 0.

(* addi a0, a1, -1;  jal ra, .-4;  c.addi a0, -1;  c.j .-2 *)
Example decode_small :
  decode no_operands 0xfff58513 Normal 0
    = Some (mkDecodedInsn 0xfff58513 Normal rv_addi Ity_I (mkOperands 10 11 31 31 (2^64 - 1)) 0) /\
  option_map (fun d => (d_iname d, d_imm d)) (decode no_operands 0xffdff0ef Normal 0)
    = Some (rv_jal, 2^64 - 4) /\
  option_map (fun d => (d_iname d, d_rd d, d_imm d)) (decode no_operands 0x157d Compressed 0)
    = Some (rv_c_addi, 10, 2^64 - 1) /\
  option_map (fun d => (d_iname d, d_imm d)) (decode no_operands 0xbffd Compressed 0)
    = Some (rv_c_j, 2^64 - 2).
Proof. vm_compute. repeat split. Qed.
(** ** Properties *)

(** A matching instruction has the key's bits wherever the mask is set. *)
Lemma pattern_bit pat i j :
  pattern_matches pat i = true -> 0 <= p_shift pat <= j ->
  Z.testbit (p_mask pat) (j - p_shift pat) = true ->
  Z.testbit i j = Z.testbit (p_key pat) (j - p_shift pat).
Proof.
  intros Hm Hj Hb. apply Z.eqb_eq in Hm.
  apply (f_equal (fun z => Z.testbit z (j - p_shift pat))) in Hm.
  rewrite Z.land_spec, Z.shiftr_spec, Hb, andb_true_r in Hm by lia.
  replace (j - p_shift pat + p_shift pat) with j in Hm by lia. done.
Qed.

(** A field that the mask covers has the value the key gives it. *)
Definition field_fixed (pat : PatternData) (hi lo : Z) : bool :=
  (0 <=? p_shift pat) && (p_shift pat <=? lo) &&
  (Z.land (Z.shiftr (p_mask pat) (lo - p_shift pat)) (Z.ones (hi - lo + 1)) =? Z.ones (hi - lo + 1)).
Definition field_value (pat : PatternData) (hi lo : Z) : Z :=
  Z.land (Z.shiftr (p_key pat) (lo - p_shift pat)) (Z.ones (hi - lo + 1)).

Lemma pattern_field pat i hi lo :
  pattern_matches pat i = true -> 0 <= lo <= hi -> hi < 32 -> field_fixed pat hi lo = true ->
  bits 32 i hi lo = field_value pat hi lo.
Proof.
  intros Hm Hl Hh Hf. unfold field_fixed in Hf. bool_hyps.
  apply Z.bits_inj'. intros j Hj. rewrite bits_testbit by lia. unfold field_value.
  rewrite Z.land_spec, Z.shiftr_spec by lia.
  destruct (Z.lt_ge_cases j (hi - lo + 1)).
  - rewrite Z.ones_spec_low, andb_true_r by lia.
    replace (j <? hi - lo + 1) with true by (symmetry; by apply Z.ltb_lt).
    match goal with H : Z.land (Z.shiftr (p_mask pat) _) _ = _ |- _ =>
      apply (f_equal (fun z => Z.testbit z j)) in H;
      rewrite Z.land_spec, Z.shiftr_spec, Z.ones_spec_low, andb_true_r in H by lia
    end.
    assert (j + lo - p_shift pat = j + (lo - p_shift pat)) as Ej by lia.
    rewrite (pattern_bit pat) by (done || lia || (by rewrite Ej)).
    by rewrite Ej.
  - rewrite Z.ones_spec_high, andb_false_r by lia.
    by replace (j <? hi - lo + 1) with false by (symmetry; by apply Z.ltb_ge).
Qed.
(** *** Every instruction decodes *)

Definition parsed (e : entry) : PatternData := parse_pattern e.1.1.

(** The compressed formats that leave the switch by [std::unreachable] have a
    funct3 fixed by their patterns. *)
Definition entry_reachable (e : entry) : bool :=
  match e.2 with
  | Ity_CL => field_fixed (parsed e) 15 13 &&
      existsb (Z.eqb (field_value (parsed e) 15 13)) [1; 2; 3]
  | Ity_CS => field_fixed (parsed e) 15 13 &&
      existsb (Z.eqb (field_value (parsed e) 15 13)) [5; 6; 7]
  | Ity_CR | Ity_CI | Ity_CSS | Ity_CIW | Ity_CA | Ity_CB | Ity_CJ | Ity_N => true
  | _ => false
  end.

Lemma patterns_C_reachable : forallb entry_reachable patterns_C = true.
Proof. by vm_compute. Qed.

Lemma find_pattern_inv insn table name type :
  find_pattern insn table = Some (name, type) ->
  exists e, In e table /\ e.1.2 = name /\ e.2 = type /\ pattern_matches (parsed e) insn = true.
Proof.
  unfold find_pattern. destruct (List.find _ _) as [e|] eqn:E; [|done].
  intros [= <- <-]. apply find_some in E as [Hin Hm]. by exists e.
Qed.

(** The last pattern of each table matches everything. *)
Lemma find_pattern_total insn table text name type :
  fits 32 insn -> In (text, name, type) table ->
  p_mask (parse_pattern text) = 0 -> p_key (parse_pattern text) = 0 ->
  exists name type, find_pattern insn table = Some (name, type).
Proof.
  intros Hi Hin Hm Hk. unfold find_pattern.
  destruct (List.find _ _) as [e|] eqn:E; [by eauto|].
  eapply find_none in E; [|exact Hin]. simpl in E.
  unfold pattern_matches in E. rewrite Hm, Hk, Z.land_0_r in E. done.
Qed.

Lemma lookup_In {A} (l : list A) i x : l !! i = Some x -> In x l.
Proof. intros H. apply list_elem_of_In. by eapply list_elem_of_lookup_2. Qed.

Lemma catch_all_C : In ("??? ??????????? ??", rv_inv, Ity_N) patterns_C.
Proof. apply (lookup_In _ 38). by vm_compute. Qed.
Lemma catch_all_32 :
  In ("??????? ????? ????? ??? ????? ????? ??", rv_inv, Ity_N) patterns_32.
Proof. apply (lookup_In _ 160). by vm_compute. Qed.

Lemma decode_operand_16_reachable u insn e :
  In e patterns_C -> pattern_matches (parsed e) insn = true ->
  exists o, decode_operand_16 u insn e.2 = Some o.
Proof.
  intros Hin Hm. pose proof patterns_C_reachable as Hr.
  rewrite forallb_forall in Hr. specialize (Hr e Hin). unfold entry_reachable in Hr.
  destruct e.2; try done; cbn [decode_operand_16]; cbv zeta; try (eexists; reflexivity).
  all: apply andb_true_iff in Hr as [Hf Hr];
    rewrite (pattern_field _ insn 15 13 Hm ltac:(lia) ltac:(lia) Hf);
    apply existsb_exists in Hr as (v & Hv & Ev); apply Z.eqb_eq in Ev; rewrite Ev;
    repeat destruct Hv as [<-|Hv]; try done; by eexists.
Qed.

Lemma decode_returns u insn len pc :
  fits 32 insn ->
  exists d, decode u insn len pc = Some d /\ d_insn d = insn /\ d_len d = len /\ d_pc d = pc.
Proof.
  intros Hi. unfold decode. destruct len.
  - destruct (find_pattern_total insn patterns_C "??? ??????????? ??" rv_inv Ity_N)
      as (name & type & E); [done| |done|done|].
    { exact catch_all_C. }
    rewrite E. apply find_pattern_inv in E as (e & Hin & <- & <- & Hm).
    destruct (decode_operand_16_reachable u insn e Hin Hm) as [o ->]. by eexists.
  - destruct (find_pattern_total insn patterns_32 "??????? ????? ????? ??? ????? ????? ??"
      rv_inv Ity_N) as (name & type & E); [done| |done|done|].
    { exact catch_all_32. }
    rewrite E. by eexists.
Qed.

(** C36. [Decoder::decode] returns for every instruction word of either length: it
    never reaches [std::unreachable], and it keeps the word, the length and the
    address. *)
Theorem decode_total u insn len pc :
  fits 32 insn ->
  exists d, decode u insn len pc = Some d /\ d_insn d = insn /\ d_len d = len /\ d_pc d = pc.
Proof. apply decode_returns. Qed.

Lemma decode_total_witness :
  exists d, decode no_operands 0x00a58533 Normal 0x80000000 = Some d /\
    d_insn d = 0x00a58533 /\ d_len d = Normal /\ d_pc d = 0x80000000.
Proof. apply (decode_total no_operands 0x00a58533 Normal 0x80000000). split; done. Defined.

(** *** The 32-bit patterns do not overlap *)

(** The masks meet on bits where the keys differ, so no word matches both. *)
Definition patterns_conflict (p q : PatternData) : bool :=
  (0 <=? p_shift p) && (0 <=? p_shift q) &&
  nz (Z.land (Z.land (Z.shiftl (p_mask p) (p_shift p)) (Z.shiftl (p_mask q) (p_shift q)))
        (Z.lxor (Z.shiftl (p_key p) (p_shift p)) (Z.shiftl (p_key q) (p_shift q)))).

Fixpoint pairwise {A} (f : A -> A -> bool) (l : list A) : bool :=
  match l with
  | [] => true
  | x :: l => forallb (f x) l && pairwise f l
  end.

Lemma pairwise_nth {A} (f : A -> A -> bool) l : pairwise f l = true ->
  forall i j x y, (i < j)%nat -> l !! i = Some x -> l !! j = Some y -> f x y = true.
Proof.
  induction l as [|a l IH]; intros Hp i j x y Hij Hi Hj; [done|].
  simpl in Hp. apply andb_true_iff in Hp as [Ha Hp].
  destruct i as [|i], j as [|j]; try lia; simpl in *.
  - simplify_eq. rewrite forallb_forall in Ha. apply Ha.
    apply list_elem_of_In. by eapply list_elem_of_lookup_2.
  - eapply IH; [done| |done|done]. lia.
Qed.

Lemma patterns_conflict_spec p q insn :
  patterns_conflict p q = true -> pattern_matches p insn = true ->
  pattern_matches q insn = true -> False.
Proof.
  intros Hc Hp Hq. unfold patterns_conflict in Hc. bool_hyps.
  match goal with H : nz _ = true |- _ => apply nz_true in H; apply H end.
  apply Z.bits_inj'. intros j Hj. rewrite Z.bits_0, !Z.land_spec, Z.lxor_spec.
  rewrite !Z.shiftl_spec by lia.
  destruct (Z.testbit (p_mask p) (j - p_shift p)) eqn:Ep; [|done].
  destruct (Z.testbit (p_mask q) (j - p_shift q)) eqn:Eq; [|done].
  assert (p_shift p <= j /\ p_shift q <= j) as [].
  { split; apply Z.nlt_ge; intros ?.
    - by rewrite Z.testbit_neg_r in Ep by lia.
    - by rewrite Z.testbit_neg_r in Eq by lia. }
  simpl. rewrite <- (pattern_bit p insn j), <- (pattern_bit q insn j) by (done || lia).
  apply xorb_nilpotent.
Qed.

Lemma conflict_unique (table : list entry) insn i j e1 e2 :
  pairwise patterns_conflict (map parsed table) = true ->
  table !! i = Some e1 -> table !! j = Some e2 ->
  pattern_matches (parse_pattern e1.1.1) insn = true ->
  pattern_matches (parse_pattern e2.1.1) insn = true -> i = j.
Proof.
  intros Hp Hi Hj H1 H2. pose proof (pairwise_nth _ _ Hp) as Hc.
  assert (forall k e, table !! k = Some e -> map parsed table !! k = Some (parsed e)) as Hl.
  { intros k e Hk. by rewrite list_lookup_fmap, Hk. }
  destruct (Nat.lt_trichotomy i j) as [Hlt|[->|Hlt]]; [exfalso|done|exfalso].
  - by eapply (patterns_conflict_spec (parsed e1) (parsed e2)); [eapply Hc; eauto|..].
  - by eapply (patterns_conflict_spec (parsed e2) (parsed e1)); [eapply Hc; eauto|..].
Qed.

Definition valid_patterns_32 : list entry := removelast patterns_32.

Lemma valid_patterns_conflict :
  pairwise patterns_conflict (map parsed valid_patterns_32) = true.
Proof. by vm_compute. Qed.

Lemma patterns_32_split :
  patterns_32 = (valid_patterns_32 ++
    [("??????? ????? ????? ??? ????? ????? ??", rv_inv, Ity_N)])%list.
Proof. by vm_compute. Qed.

Lemma find_app {A} (f : A -> bool) l1 l2 :
  List.find f (l1 ++ l2)%list = match List.find f l1 with Some x => Some x | None => List.find f l2 end.
Proof. induction l1 as [|x l IH]; simpl; [done|]. by destruct (f x). Qed.

(** A 32-bit word is decoded as the one pattern it matches, whatever the order of
    the table: the patterns do not overlap, and a word that matches none of them is
    an invalid instruction. *)
Theorem decode_unique_32 u insn pc d :
  fits 32 insn -> decode u insn Normal pc = Some d ->
  (exists e, In e valid_patterns_32 /\ pattern_matches (parse_pattern e.1.1) insn = true /\
     d_iname d = e.1.2 /\ d_type d = e.2 /\
     forall e', In e' valid_patterns_32 ->
       pattern_matches (parse_pattern e'.1.1) insn = true -> e' = e) \/
  ((forall e, In e valid_patterns_32 -> pattern_matches (parse_pattern e.1.1) insn = false) /\
   d_iname d = rv_inv).
Proof.
  intros Hi. unfold decode, find_pattern. rewrite patterns_32_split, find_app.
  match goal with |- context [match List.find ?f ?l with _ => _ end] =>
    destruct (List.find f l) as [e|] eqn:Ef end.
  - intros [= <-]. left. apply find_some in Ef as [Hin Hm]. exists e.
    split_and!; try done. intros e' Hin' Hm'.
    apply list_elem_of_In, list_elem_of_lookup_1 in Hin as [i He], Hin' as [j He'].
    pose proof (conflict_unique valid_patterns_32 insn i j e e' valid_patterns_conflict He He' Hm Hm')
      as <-.
    assert (Some e' = Some e) as [= ->] by (etrans; [symmetry; exact He'|exact He]). done.
  - assert (pattern_matches (parse_pattern "??????? ????? ????? ??? ????? ????? ??") insn = true)
      as Ec.
    { unfold pattern_matches.
      change (p_mask (parse_pattern "??????? ????? ????? ??? ????? ????? ??")) with 0.
      by rewrite Z.land_0_r. }
    match goal with |- context [List.find ?f [?c]] =>
      change (List.find f [c]) with (if f c then Some c else None) end.
    cbv beta. cbn [fst]. rewrite Ec.
    intros [= <-]. right. split; [|done]. intros e Hin. by apply (find_none _ _ Ef).
Qed.

Lemma decode_unique_32_witness :
  let d := mkDecodedInsn 0x00a58533 Normal rv_add Ity_R (decode_operand_32 no_operands 0x00a58533 Ity_R)
             0x80000000 in
  (exists e, In e valid_patterns_32 /\ pattern_matches (parse_pattern e.1.1) 0x00a58533 = true /\
     d_iname d = e.1.2 /\ d_type d = e.2 /\
     forall e', In e' valid_patterns_32 ->
       pattern_matches (parse_pattern e'.1.1) 0x00a58533 = true -> e' = e) \/
  ((forall e, In e valid_patterns_32 -> pattern_matches (parse_pattern e.1.1) 0x00a58533 = false) /\
   d_iname d = rv_inv).
Proof.
  apply (decode_unique_32 no_operands 0x00a58533 0x80000000); [split; done|vm_compute; reflexivity].
Defined.

(** *** Operand fields *)

Lemma bits_reg i hi lo : 0 <= lo <= 27 -> hi = lo + 4 -> fits 5 (bits 32 i hi lo).
Proof. intros ? ->. replace 5 with (lo + 4 - lo + 1) by lia. apply bits_fits; lia. Qed.

Lemma REG_C_reg i hi lo : 0 <= lo <= 29 -> hi = lo + 2 -> fits 5 (REG_C (bits 32 i hi lo)).
Proof.
  intros ? ->. assert (fits 3 (bits 32 i (lo + 2) lo)) as [].
  { replace 3 with (lo + 2 - lo + 1) by lia. apply bits_fits; lia. }
  unfold fits, REG_C. lia.
Qed.

Lemma shifted_bits_fits i hi lo n w :
  0 <= lo <= hi -> hi < 32 -> 0 <= n -> hi - lo + 1 + n <= w -> fits w (Z.shiftl (bits 32 i hi lo) n).
Proof.
  intros. pose proof (bits_fits 32 i hi lo ltac:(lia) ltac:(lia)) as Hb. unfold fits in *.
  rewrite Z.shiftl_mul_pow2 by lia.
  pose proof (Z.pow_le_mono_r 2 (hi - lo + 1 + n) w). pose proof (Z.pow_pos_nonneg 2 n).
  rewrite (Z.pow_add_r 2 (hi - lo + 1) n) in * by lia. nia.
Qed.

(** The operand fields are in range: indices name one of the 32 registers. *)
Definition operands_ok (o : operands) : Prop :=
  fits 5 (o_rd o) /\ fits 5 (o_rs1 o) /\ fits 5 (o_rs2 o) /\ fits 5 (o_rs3 o) /\ fits 64 (o_imm o).

Ltac imm_fits := repeat first
  [ apply uwrap_fits; lia | apply fits_lor; [lia| |] | apply shifted_bits_fits; lia
  | apply (fits_le 5); [lia|apply bits_reg; lia] | case_test | assumption ].

Lemma decode_operand_32_ok u i type : operands_ok u -> operands_ok (decode_operand_32 u i type).
Proof.
  intros (? & ? & ? & ? & ?). refine (conj _ (conj _ (conj _ (conj _ _)))); simpl;
    try (apply bits_reg; lia).
  destruct type; imm_fits.
Qed.

Lemma decode_imm_CI_fits i : fits 64 (decode_imm_CI i).
Proof. unfold decode_imm_CI, imm_ci. cbv zeta. imm_fits. Qed.

Lemma decode_operand_16_ok u i type o :
  operands_ok u -> decode_operand_16 u i type = Some o -> operands_ok o.
Proof.
  intros (? & ? & ? & ? & ?). assert (fits 5 2) by by split.
  pose proof (decode_imm_CI_fits i).
  assert (fits 64 (imm_lw i)) by (unfold imm_lw; imm_fits).
  assert (fits 64 (imm_ld i)) by (unfold imm_ld; imm_fits).
  unfold decode_operand_16. cbv zeta.
  destruct type; try done; try (repeat case_test; try done);
    intros [= <-]; refine (conj _ (conj _ (conj _ (conj _ _)))); cbn [o_rd o_rs1 o_rs2 o_rs3 o_imm];
    first [assumption | apply bits_reg; lia | apply REG_C_reg; lia | by imm_fits].
Qed.

Lemma decode_ok u insn len pc d :
  operands_ok u -> decode u insn len pc = Some d ->
  operands_ok (d_ops d) /\ d_insn d = insn /\ d_pc d = pc /\ d_len d = len.
Proof.
  intros Hu. unfold decode. destruct len.
  - destruct (find_pattern _ _) as [[name type]|]; [|done].
    destruct (decode_operand_16 u insn type) as [o|] eqn:E; [|done]. intros [= <-].
    split; [by eapply decode_operand_16_ok|done].
  - destruct (find_pattern _ _) as [[name type]|]; [|done]. intros [= <-].
    split; [by apply decode_operand_32_ok|done].
Qed.

(** *** Immediates

    The immediate formats of the instruction set, bit by bit: the position in the
    instruction word of bit [j] of the immediate ([None] for a zero bit). *)
Definition imm_source (type : Itype) (j : Z) : option Z :=
  match type with
  | Ity_I => Some (if j <? 11 then 20 + j else 31)
  | Ity_S => Some (if j <? 5 then 7 + j else if j <? 11 then 20 + j else 31)
  | Ity_B => if j =? 0 then None
             else Some (if j <? 5 then 7 + j else if j <? 11 then 20 + j
                        else if j =? 11 then 7 else 31)
  | Ity_U => if j <? 12 then None else Some (if j <? 31 then j else 31)
  | Ity_J => if j =? 0 then None
             else Some (if j <? 11 then 20 + j else if j =? 11 then 20
                        else if j <? 20 then j else 31)
  | _ => None
  end.

Lemma bits_shl_testbit i hi lo n j : 0 <= lo <= hi -> hi < 32 -> 0 <= n -> 0 <= j ->
  Z.testbit (Z.shiftl (bits 32 i hi lo) n) j
  = (n <=? j) && (j <? n + (hi - lo + 1)) && Z.testbit i (j - n + lo).
Proof.
  intros. rewrite Z.shiftl_spec by lia. destruct (Z.leb_spec n j).
  - rewrite bits_testbit by lia. simpl.
    by replace (j - n <? hi - lo + 1) with (j <? n + (hi - lo + 1))
      by (destruct (Z.ltb_spec j (n + (hi - lo + 1))), (Z.ltb_spec (j - n) (hi - lo + 1)); lia || done).
  - by rewrite Z.testbit_neg_r by lia.
Qed.

(** Compares two bit expressions by splitting on where [j] lies. *)
Ltac split_ltb :=
  repeat match goal with
  | |- context [?a <? ?b] => destruct (Z.ltb_spec a b); try (exfalso; lia)
  | |- context [?a <=? ?b] => destruct (Z.leb_spec a b); try (exfalso; lia)
  | |- context [?a =? ?b] => destruct (Z.eqb_spec a b); try (exfalso; lia)
  end.

Ltac bit_cases :=
  rewrite ?uwrap_spec, ?sext_testbit, ?Z.lor_spec by lia;
  rewrite ?bits_shl_testbit, ?bits_testbit by lia;
  split_ltb; cbn [andb orb]; rewrite ?orb_false_r; try lia; try done; try (f_equal; lia).

(** The immediates are those of the instruction formats: each of the 64 bits of
    the operand is the bit of the word that the format tables assign to it. *)
Theorem decode_imm_bits u i type j :
  0 <= j < 64 -> In type [Ity_I; Ity_S; Ity_B; Ity_U; Ity_J] ->
  Z.testbit (o_imm (decode_operand_32 u i type)) j =
    match imm_source type j with Some k => Z.testbit i k | None => false end.
Proof.
  intros Hj Ht. repeat destruct Ht as [<-|Ht]; [..|done]; cbn [decode_operand_32 o_imm imm_source].
  - bit_cases.
  - rewrite uwrap_spec, Z.lor_spec, Z.shiftl_spec by lia.
    destruct (Z.lt_ge_cases j 5).
    + rewrite (Z.testbit_neg_r _ (j - 5)) by lia. bit_cases.
    + bit_cases.
  - bit_cases.
  - rewrite uwrap_spec, Z.shiftl_spec by lia.
    destruct (Z.lt_ge_cases j 12).
    + rewrite (Z.testbit_neg_r _ (j - 12)) by lia. bit_cases.
    + bit_cases.
  - bit_cases.
Qed.

Lemma decode_imm_bits_witness :
  Z.testbit (o_imm (decode_operand_32 no_operands 0xffdff0ef Ity_J)) 11 = true.
Proof.
  rewrite (decode_imm_bits no_operands 0xffdff0ef Ity_J 11);
    [reflexivity | split; [discriminate|reflexivity] | simpl; tauto].
Defined.

(** *** Branch and jump targets stay even *)

Definition is_jump_type (len : Ilen) (type : Itype) : bool :=
  match len, type with
  | Normal, (Ity_B | Ity_J) => true
  | Compressed, Ity_CJ => true
  | _, _ => false
  end.

Lemma even_lor x y : Z.testbit x 0 = false -> Z.testbit y 0 = false ->
  Z.testbit (Z.lor x y) 0 = false.
Proof. intros Hx Hy. by rewrite Z.lor_spec, Hx, Hy. Qed.
Lemma even_shl x n : 0 < n -> Z.testbit (Z.shiftl x n) 0 = false.
Proof. intros. rewrite Z.shiftl_spec by lia. apply Z.testbit_neg_r. lia. Qed.
Lemma even_sext x n : 0 < n < 64 -> Z.testbit x 0 = false ->
  Z.testbit (u64 (sext x n)) 0 = false.
Proof.
  intros ? Hx. rewrite uwrap_spec, sext_testbit by lia. by rewrite Z.min_l, Hx by lia.
Qed.

Ltac even_tac := repeat first [ apply even_sext; [lia|] | apply even_lor | apply even_shl; lia | done ].

Lemma jump_imm_even_32 u i type : is_jump_type Normal type = true ->
  Z.testbit (o_imm (decode_operand_32 u i type)) 0 = false.
Proof. destruct type; try done; intros _; cbn [decode_operand_32 o_imm]; even_tac. Qed.

Lemma jump_imm_even_16 u i type o : decode_operand_16 u i type = Some o ->
  type = Ity_CJ \/ (type = Ity_CB /\ bits 32 i 15 13 <> 4) ->
  Z.testbit (o_imm o) 0 = false.
Proof.
  intros E [->|[-> Hf]]; simpl in E.
  - injection E as <-. cbn [o_imm]. apply even_sext; [lia|]. cbn [foldr]. even_tac.
  - destruct (Z.eqb_spec (bits 32 i 15 13) 4); [done|]. injection E as <-. cbn [o_imm]. even_tac.
Qed.
