(* ===== verification/Mmu.v ===== *)
(** * The memory management unit (include/core/mmu.hpp)

    Translation with the direct-mapped TLBs and the Sv39 page walk, aligned and
    byte-wise accesses, the store probe, instruction fetch and the flushes.  The
    walk is structural on the level (the code's [i] counts down from 2 and a
    pointer below level 0 is a page fault). *)

From stdpp Require Import gmap.
From S2P Require Import Prelude Bits Hart HartInv Machine Bus Decoder.

(* @src include/core/mmu.hpp 29-33 MMU::PGSHIFT, MMU::AccessType *)
Definition PGSHIFT : Z := 12.
Definition PGSIZE : Z := Z.shiftl 1 PGSHIFT.
Definition PGMASK : Z := PGSIZE - 1.
Inductive AccessType : Set := Fetch | Load | Store.

#[export] Instance AccessType_eq_dec : EqDecision AccessType.
Proof. solve_decision. Defined.

(* @src include/core/mmu.hpp 207-222 MMU::PTE_V *)
Definition PTE_V : Z := Z.shiftl 1 0.
Definition PTE_R : Z := Z.shiftl 1 1.
Definition PTE_W : Z := Z.shiftl 1 2.
Definition PTE_X : Z := Z.shiftl 1 3.
Definition PTE_U : Z := Z.shiftl 1 4.
Definition PTE_A : Z := Z.shiftl 1 6.
Definition PTE_D : Z := Z.shiftl 1 7.
Definition PTE_PERM_MASK : Z := Z.lor (Z.lor (Z.lor PTE_R PTE_W) PTE_X) PTE_U.
Definition LEVELS : nat := 3.
Definition PTESIZE : Z := 8.
Definition VPNBITS : Z := 9.
Definition TLB_ENTRIES : Z := 128.

(* TLBEntry itlb_[TLB_ENTRIES]{}: all fields zero. *)
(* @src include/core/mmu.hpp 227-228 MMU::itlb_ *)
Definition TLBEntry_zero : TLBEntry := mkTLBEntry 0 0 0 false false.
Definition MMU_init : MMU :=
  mkMMU (replicate 128 TLBEntry_zero) (replicate 128 TLBEntry_zero) 0 false.

(* @src include/core/mmu.hpp 187-190 MMU::tlb_flush_all *)
Definition tlb_flush_all (u : MMU) : MMU :=
  mkMMU (map (fun _ => TLBEntry_zero) (itlb_ u)) (map (fun _ => TLBEntry_zero) (dtlb_ u))
    (reservation_address u) (reservation_valid u).

Definition invalidate (e : TLBEntry) : TLBEntry :=
  mkTLBEntry (tlb_vpn e) (tlb_ppn e) (tlb_perm e) false (tlb_dirty e).

Definition tlb_at (tlb : list TLBEntry) (idx : Z) : TLBEntry :=
  nth (Z.to_nat idx) tlb TLBEntry_zero.

(* @src include/core/mmu.hpp 192-201 MMU::tlb_flush_vaddr *)
Definition tlb_flush_vaddr (vaddr : Z) (u : MMU) : MMU :=
  let vpn := Z.shiftr vaddr PGSHIFT in
  let idx := Z.land vpn (TLB_ENTRIES - 1) in
  let flush tlb :=
    let e := tlb_at tlb idx in
    if tlb_valid e && (tlb_vpn e =? vpn) then <[Z.to_nat idx := invalidate e]> tlb else tlb in
  mkMMU (flush (itlb_ u)) (flush (dtlb_ u)) (reservation_address u) (reservation_valid u).

(* @src include/core/mmu.hpp 230-233 MMU::may_cross_page *)
Definition may_cross_page (pc : Z) : bool := Z.land pc (PGSIZE - 1) =? PGSIZE - 2.

(* @src include/core/mmu.hpp 235-248 MMU::raise_page_fault *)
Definition page_fault_cause (type : AccessType) : TrapCause :=
  match type with
  | Fetch => InstructionPageFault
  | Load => LoadPageFault
  | Store => StoreAMOPageFault
  end.

(* @src include/core/mmu.hpp 250-264 MMU::raise_access_fault *)
Definition access_fault_cause (type : AccessType) : TrapCause :=
  match type with
  | Fetch => InstructionAccessFault
  | Load => LoadAccessFault
  | Store => StoreAMOAccessFault
  end.

(** ** Permission tests

    The TLB keeps the permission bits at their place in the PTE, and both paths
    test them the same way. *)

(* @src include/core/mmu.hpp 302-308 MMU::translate *)
Definition user_allowed (priv : Z) (type : AccessType) (sum : bool) (perm : Z) : bool :=
  if nz (Z.land perm PTE_U)
  then negb ((priv =? PrivS) && ((if decide (type = Fetch) then true else false) || negb sum))
  else negb (priv =? PrivU).

(* @src include/core/mmu.hpp 310-317 MMU::translate *)
Definition type_allowed (type : AccessType) (mxr : bool) (perm : Z) : bool :=
  match type with
  | Fetch => nz (Z.land perm PTE_X)
  | Load => nz (Z.land perm PTE_R) || (mxr && nz (Z.land perm PTE_X))
  | Store => nz (Z.land perm PTE_W)
  end.

Section Mmu.
Context {D : Type} `{Platform D}.
Abbreviation cpu := (M (mach D) exn).

(* @src include/core/hart.hpp 83-90 Trap::raise_exception *)
Definition raise_exception {A} (pc : Z) (cause : TrapCause) (tval : Z) : cpu A :=
  throw (ETrap (mkTrap pc cause tval)).

(* @src include/core/mmu.hpp 235-248 MMU::raise_page_fault *)
Definition raise_page_fault {A} (pc vaddr : Z) (type : AccessType) : cpu A :=
  raise_exception pc (page_fault_cause type) vaddr.

(* @src include/core/mmu.hpp 250-264 MMU::raise_access_fault *)
Definition raise_access_fault {A} (pc vaddr : Z) (type : AccessType) : cpu A :=
  raise_exception pc (access_fault_cause type) vaddr.

(** *** Translation *)

Definition tlb_of (type : AccessType) (u : MMU) : list TLBEntry :=
  if decide (type = Fetch) then itlb_ u else dtlb_ u.

(* entry->vpn = vpn; ... *)
(* @src include/core/mmu.hpp 426-430 MMU::translate *)
Definition tlb_fill (type : AccessType) (idx vpn final_ppn pte : Z) (u : MMU) : MMU :=
  let e := mkTLBEntry vpn final_ppn (Z.land pte PTE_PERM_MASK) true (nz (Z.land pte PTE_D)) in
  if decide (type = Fetch)
  then mkMMU (<[Z.to_nat idx := e]> (itlb_ u)) (dtlb_ u)
         (reservation_address u) (reservation_valid u)
  else mkMMU (itlb_ u) (<[Z.to_nat idx := e]> (dtlb_ u))
         (reservation_address u) (reservation_valid u).

(* The physical page of a leaf at level i. *)
(* @src include/core/mmu.hpp 413-424 MMU::translate *)
Definition leaf_ppn (i : nat) (vaddr pte_ppn : Z) : Z :=
  match i with
  | O => pte_ppn
  | S _ =>
      let vpn_mask := Z.shiftl 1 (Z.of_nat i * VPNBITS) - 1 in
      let vpn_low := Z.land (Z.shiftr vaddr PGSHIFT) vpn_mask in
      Z.lor (andn pte_ppn vpn_mask) vpn_low
  end.

(* The part of the loop body after the PTE has been found to be a leaf. *)
(* @src include/core/mmu.hpp 370-433 MMU::translate *)
Definition walk_leaf (pc vaddr : Z) (type : AccessType) (priv : Z) (sum mxr adue : bool)
    (idx vpn : Z) (i : nat) (pte_addr pte : Z) : cpu Z :=
  let pte_ppn := Z.land (Z.shiftr pte 10) (Z.shiftl 1 44 - 1) in
  if match i with O => false | S _ =>
       nz (Z.land pte_ppn (Z.shiftl 1 (Z.of_nat i * VPNBITS) - 1)) end
  then raise_page_fault pc vaddr type
  else if negb (user_allowed priv type sum pte) then raise_page_fault pc vaddr type
  else if negb (type_allowed type mxr pte) then raise_page_fault pc vaddr type
  else
    (if negb (nz (Z.land pte PTE_A)) ||
        ((if decide (type = Store) then true else false) && negb (nz (Z.land pte PTE_D)))
     then
       if negb adue then raise_page_fault pc vaddr type
       else
         let new_pte := Z.lor pte PTE_A in
         let new_pte := if decide (type = Store) then Z.lor new_pte PTE_D else new_pte in
         let! ok := state (bus_write 8 pte_addr new_pte) in
         if negb ok then raise_access_fault pc vaddr type else ret tt
     else ret tt) ;;;
    let final_ppn := leaf_ppn i vaddr pte_ppn in
    modify (upd_mmu (tlb_fill type idx vpn final_ppn pte)) ;;;
    ret (Z.lor (u64 (Z.shiftl final_ppn PGSHIFT)) (Z.land vaddr PGMASK)).

(* The loop: [i] is the level, [a] the table's address. *)
(* @src include/core/mmu.hpp 336-368 MMU::translate *)
Fixpoint walk (pc vaddr : Z) (type : AccessType) (priv : Z) (sum mxr adue : bool)
    (idx vpn : Z) (i : nat) (a : Z) : cpu Z :=
  let vpn_i := Z.land (Z.shiftr vaddr (PGSHIFT + Z.of_nat i * VPNBITS)) (Z.shiftl 1 VPNBITS - 1) in
  let pte_addr := u64 (a + vpn_i * PTESIZE) in
  let! pte_opt := state (bus_read 8 pte_addr) in
  match pte_opt with
  | None => raise_access_fault pc vaddr type
  | Some pte =>
      let pte_ppn := Z.land (Z.shiftr pte 10) (Z.shiftl 1 44 - 1) in
      if negb (nz (Z.land pte PTE_V)) ||
         (negb (nz (Z.land pte PTE_R)) && nz (Z.land pte PTE_W))
      then raise_page_fault pc vaddr type
      else if nz (Z.shiftr pte 54) then raise_page_fault pc vaddr type
      else if nz (Z.land pte PTE_R) || nz (Z.land pte PTE_X)
      then walk_leaf pc vaddr type priv sum mxr adue idx vpn i pte_addr pte
      else if nz (Z.land pte (Z.lor (Z.lor PTE_D PTE_A) PTE_U))
      then raise_page_fault pc vaddr type
      else
        match i with
        | O => raise_page_fault pc vaddr type
        | S i => walk pc vaddr type priv sum mxr adue idx vpn i (u64 (Z.shiftl pte_ppn PGSHIFT))
        end
  end.

(* The test of a TLB entry: the physical address if it may be used. *)
(* @src include/core/mmu.hpp 301-326 MMU::translate *)
Definition tlb_lookup (e : TLBEntry) (type : AccessType) (priv : Z) (sum mxr : bool)
    (vpn vaddr : Z) : option Z :=
  if tlb_valid e && (tlb_vpn e =? vpn) then
    if negb (user_allowed priv type sum (tlb_perm e)) then None
    else if negb (type_allowed type mxr (tlb_perm e)) then None
    else if (if decide (type = Store) then true else false) && negb (tlb_dirty e) then None
    else Some (Z.lor (u64 (Z.shiftl (tlb_ppn e) PGSHIFT)) (Z.land vaddr PGMASK))
  else None.

(* @src include/core/mmu.hpp 266-274 MMU::translate *)
Definition effective_priv (h : Hart) (type : AccessType) : Z :=
  let mstatus := read_own h MSTATUS_ADDRESS in
  if negb (if decide (type = Fetch) then true else false) && nz (Z.land mstatus MSTATUS_MPRV)
  then Z.shiftr (Z.land mstatus MSTATUS_MPP) MPP_SHIFT
  else priv h.

(* static_cast<int64_t>(vaddr << 25) >> 25 *)
(* @src include/core/mmu.hpp 288-292 MMU::translate *)
Definition canonical (vaddr : Z) : bool :=
  u64 (Z.shiftr (s64 (u64 (Z.shiftl vaddr (64 - 39)))) (64 - 39)) =? vaddr.

(* @src include/core/mmu.hpp 266-334 MMU::translate *)
Definition translate (pc vaddr : Z) (type : AccessType) : cpu Z :=
  let! h := gets hart in
  let mstatus := read_own h MSTATUS_ADDRESS in
  let priv := effective_priv h type in
  if priv =? PrivM then ret vaddr
  else
    let satp := read_own h SATP_ADDRESS in
    let mode := Z.shiftr (Z.land satp SATP_MODE) SATP_MODE_SHIFT in
    if mode =? SATP_Bare then ret vaddr
    else if negb (mode =? SATP_Sv39) then throw ETerminate
    else if negb (canonical vaddr) then raise_page_fault pc vaddr type
    else
      let sum := nz (Z.land mstatus MSTATUS_SUM) in
      let mxr := nz (Z.land mstatus MSTATUS_MXR) in
      let vpn := Z.shiftr vaddr PGSHIFT in
      let idx := Z.land vpn (TLB_ENTRIES - 1) in
      let! entry := gets (fun m => tlb_at (tlb_of type (mmu m)) idx) in
      match tlb_lookup entry type priv sum mxr vpn vaddr with
      | Some paddr => ret paddr
      | None =>
          let ppn := Z.land satp SATP_PPN in
          let adue := nz (Z.land (read_own h MENVCFG_ADDRESS) MENVCFG_ADUE) in
          walk pc vaddr type priv sum mxr adue idx vpn (LEVELS - 1)
            (u64 (Z.shiftl ppn PGSHIFT))
      end.

(** *** Accesses *)

(** [memcpy] between a value and its bytes. *)
Fixpoint bytes_value (bytes : list Z) : Z :=
  match bytes with
  | [] => 0
  | b :: bytes => b + 256 * bytes_value bytes
  end.
Definition value_byte (value i : Z) : Z := Z.land (Z.shiftr value (8 * i)) 0xFF.

(* One iteration of the first loop of an unaligned access. *)
(* @src include/core/mmu.hpp 68-74 MMU::read *)
Definition translate_byte (pc addr : Z) (type : AccessType) (i : Z) : cpu Z :=
  let vaddr := u64 (addr + i) in
  let! paddr := translate pc vaddr type in
  let! ok := gets (accessible paddr) in
  if negb ok then raise_access_fault pc addr type else ret paddr.

(* @src include/core/mmu.hpp 46-90 MMU::read *)
Definition mmu_read (n : nat) (pc addr : Z) (is_amo : bool) : cpu Z :=
  let atype := if is_amo then Store else Load in
  if addr mod Z.of_nat n =? 0 then
    let! paddr := translate pc addr atype in
    let! v := state (bus_read n paddr) in
    match v with
    | None => raise_access_fault pc addr atype
    | Some v => ret v
    end
  else
    let! paddrs := mapm (translate_byte pc addr atype) (seqZ 0 (Z.of_nat n)) in
    let! bytes := mapm (fun paddr =>
      let! v := state (bus_read 1 paddr) in
      match v with
      | None => raise_access_fault pc addr atype
      | Some v => ret v
      end) paddrs in
    ret (bytes_value bytes).

(* @src include/core/mmu.hpp 92-130 MMU::write *)
Definition mmu_write (n : nat) (pc addr value : Z) : cpu unit :=
  if addr mod Z.of_nat n =? 0 then
    let! paddr := translate pc addr Store in
    let! res := state (bus_write n paddr value) in
    if negb res then raise_exception pc StoreAMOAccessFault addr else ret tt
  else
    let! paddrs := mapm (translate_byte pc addr Store) (seqZ 0 (Z.of_nat n)) in
    mapm (fun '(i, paddr) =>
      let! res := state (bus_write 1 paddr (value_byte value i)) in
      if negb res then raise_exception pc StoreAMOAccessFault addr else ret tt)
      (zip (seqZ 0 (Z.of_nat n)) paddrs) ;;;
    ret tt.

(* @src include/core/mmu.hpp 132-141 MMU::probe_store *)
Definition probe_store (pc addr : Z) : cpu unit :=
  let! paddr := translate pc addr Store in
  let! ok := gets (accessible paddr) in
  if negb ok then raise_exception pc StoreAMOAccessFault addr else ret tt.

(* @src include/core/mmu.hpp 143-185 MMU::ifetch *)
Definition ifetch_at (pc : Z) : cpu (Z * Ilen) :=
  if negb (may_cross_page pc) then
    let! paddr := translate pc pc Fetch in
    let! v := state (bus_read 4 paddr) in
    match v with
    | None => raise_exception pc InstructionAccessFault pc
    | Some insn =>
        if is_compressed insn then ret (Z.land insn 0xFFFF, Compressed)
        else ret (insn, Normal)
    end
  else
    let! paddr := translate pc pc Fetch in
    let! v := state (bus_read 2 paddr) in
    match v with
    | None => raise_exception pc InstructionAccessFault pc
    | Some insn =>
        if is_compressed insn then ret (insn, Compressed)
        else
          let! paddr := translate pc (u64 (pc + 2)) Fetch in
          let! v := state (bus_read 2 paddr) in
          match v with
          | None => raise_exception pc InstructionAccessFault (u64 (pc + 2))
          | Some hi => ret (Z.lor (Z.land insn 0xFFFF) (Z.shiftl hi 16), Normal)
          end
    end.
Definition ifetch : cpu (Z * Ilen) :=
  let! pc := gets (fun m => pc (hart m)) in ifetch_at pc.
End Mmu.
