(* ===== verification/MmuSpec.v ===== *)
(** * What translation and memory accesses leave alone, and how they fail

    [mem_frame] is the effect of a memory access on the machine apart from the
    data: registers, program counter, privilege, every CSR but mip and the LR/SC
    reservation are kept.  Every failure is a trap of the access' kind. *)

From stdpp Require Import gmap.
From S2P Require Import Prelude Bits Hart HartInv Machine Bus Decoder Mmu.

(** ** The frame of a memory access *)

Record mem_frame {D} `{Platform D} (m m' : mach D) : Prop := {
  mf_pc : pc (hart m') = pc (hart m);
  mf_gprs : gprs (hart m') = gprs (hart m);
  mf_fprs : fprs (hart m') = fprs (hart m);
  mf_priv : priv (hart m') = priv (hart m);
  mf_csr : forall a, a <> MIP_ADDRESS -> raw (hart m') a = raw (hart m) a;
  mf_mip : fits 64 (raw (hart m) MIP_ADDRESS) ->
    sub (raw (hart m) MIP_ADDRESS) MIP_read_mask ->
    fits 64 (raw (hart m') MIP_ADDRESS) /\ sub (raw (hart m') MIP_ADDRESS) MIP_read_mask;
  mf_icp : interrupt_check_pending (hart m') = interrupt_check_pending (hart m);
  mf_is : increase_suppressed (hart m') = increase_suppressed (hart m);
  mf_res : reservation_address (mmu m') = reservation_address (mmu m) /\
    reservation_valid (mmu m') = reservation_valid (mmu m);
  mf_tlb : length (itlb_ (mmu m')) = length (itlb_ (mmu m)) /\
    length (dtlb_ (mmu m')) = length (dtlb_ (mmu m));
  mf_dram : dram_wf (dram_ m) -> dram_wf (dram_ m') /\ size_ (dram_ m') = size_ (dram_ m);
  mf_flags : softfloat_exceptionFlags m' = softfloat_exceptionFlags m;
  mf_rm : softfloat_roundingMode m' = softfloat_roundingMode m;
  mf_devs : dram_wf (dram_ m) -> devs_ok (devs m) -> devs_ok (devs m');
}.

#[export] Instance mem_frame_preorder {D} `{Platform D} : PreOrder (@mem_frame D _).
Proof.
  split.
  - intros m. split; auto.
  - intros m1 m2 m3 [] []. split; try congruence.
    + intros a Ha. by rewrite mf_csr1, mf_csr0.
    + intros F S. destruct (mf_mip0 F S). auto.
    + destruct mf_res0, mf_res1. split; congruence.
    + destruct mf_tlb0, mf_tlb1. split; congruence.
    + intros F. destruct (mf_dram0 F) as [F1 E1]. destruct (mf_dram1 F1).
      split; [done|congruence].
    + intros F O. destruct (mf_dram0 F). auto.
Qed.

Lemma device_mem_frame {D} `{Platform D} (m m' : mach D) : device_frame m m' -> mem_frame m m'.
Proof. intros []. split; auto; by rewrite df_mmu. Qed.

Lemma mem_frame_legal {D} `{Platform D} (m m' : mach D) :
  mem_frame m m' -> csr_legal (hart m) -> csr_legal (hart m').
Proof.
  intros [] Hh a. destruct (Z.eq_dec a MIP_ADDRESS) as [->|Ha].
  - pose proof (csr_legal_at CMIP MIP_ADDRESS (hart m) eq_refl Hh) as [F S].
    split; apply mf_mip0; done.
  - rewrite mf_csr0 by done. apply Hh.
Qed.

(** Proves [framed R c] by following the structure of [c]. *)
Ltac frame_step :=
  lazymatch goal with
  | |- framed _ (bind _ _) => refine (framed_bind _ _ _ _ _); [|intros ?]
  | |- framed _ (ret _) => refine (framed_ret _ _)
  | |- framed _ (throw _) => refine (framed_throw _ _)
  | |- framed _ (raise_exception _ _ _) => refine (framed_throw _ _)
  | |- framed _ (raise_page_fault _ _ _) => refine (framed_throw _ _)
  | |- framed _ (raise_access_fault _ _ _) => refine (framed_throw _ _)
  | |- framed _ (gets _) => refine (framed_gets _ _)
  | |- framed _ (when _ _) => refine (framed_when _ _ _ _)
  | |- framed _ (mapm _ _) => refine (framed_mapm _ _ _ _); intros ?
  | |- framed _ (let _ := _ in _) => cbv zeta
  | |- framed _ (if ?b then _ else _) => destruct b
  | |- framed _ (match ?x with _ => _ end) => destruct x
  end.

Section Frames.
Context {D : Type} `{PlatformLaws D}.

Lemma bus_read_mem_frame n a : framed mem_frame (E := exn) (state (bus_read (D := D) n a)).
Proof. apply framed_state. intros m. apply device_mem_frame, bus_read_frame. Qed.
Lemma bus_write_mem_frame n a v : framed mem_frame (E := exn) (state (bus_write (D := D) n a v)).
Proof. apply framed_state. intros m. apply device_mem_frame, bus_write_frame. Qed.

Lemma tlb_fill_frame type idx vpn ppn pte (m : mach D) :
  mem_frame m (upd_mmu (tlb_fill type idx vpn ppn pte) m).
Proof.
  unfold tlb_fill. destruct (decide _); split; simpl; auto; by rewrite length_insert.
Qed.

Lemma walk_leaf_frame pc v t p sum mxr adue idx vpn i a pte :
  framed mem_frame (walk_leaf (D := D) pc v t p sum mxr adue idx vpn i a pte).
Proof.
  unfold walk_leaf. cbv zeta. repeat (frame_step || apply bus_write_mem_frame).
  all: apply framed_modify; intros; apply tlb_fill_frame.
Qed.

Lemma walk_frame pc v t p sum mxr adue idx vpn i a :
  framed mem_frame (walk (D := D) pc v t p sum mxr adue idx vpn i a).
Proof.
  revert a. induction i as [|i IH]; intros a; cbn [walk]; cbv zeta;
    repeat (frame_step || apply bus_read_mem_frame || apply walk_leaf_frame || apply IH).
Qed.

Lemma translate_frame pc v t : framed mem_frame (translate (D := D) pc v t).
Proof. unfold translate. cbv zeta. repeat (frame_step || apply walk_frame). Qed.

Lemma translate_byte_frame pc a t i : framed mem_frame (translate_byte (D := D) pc a t i).
Proof. unfold translate_byte. cbv zeta. repeat (frame_step || apply translate_frame). Qed.

Ltac mem_framed := repeat (frame_step || apply bus_read_mem_frame || apply bus_write_mem_frame
  || apply translate_frame || apply translate_byte_frame).

Lemma mmu_read_frame n pc a amo : framed mem_frame (mmu_read (D := D) n pc a amo).
Proof. unfold mmu_read. cbv zeta. mem_framed. Qed.
Lemma mmu_write_frame n pc a v : framed mem_frame (mmu_write (D := D) n pc a v).
Proof. unfold mmu_write. mem_framed. Qed.
Lemma probe_store_frame pc a : framed mem_frame (probe_store (D := D) pc a).
Proof. unfold probe_store. mem_framed. Qed.
Lemma ifetch_frame : framed mem_frame (ifetch (D := D)).
Proof. unfold ifetch, ifetch_at. mem_framed. Qed.
End Frames.

(** ** Well-formed machines *)

Record hart_ok (h : Hart) : Prop := {
  hk_csr : csr_legal h;
  hk_pc : fits 64 (pc h);
  hk_even : Z.testbit (pc h) 0 = false;
  hk_gprs : length (gprs h) = 32%nat /\ Forall (fits 64) (gprs h);
  hk_fprs : length (fprs h) = 32%nat /\ Forall (fits 64) (fprs h);
  hk_priv : fits 2 (priv h);
}.

Record mach_ok {D} `{Platform D} (m : mach D) : Prop := {
  mk_hart : hart_ok (hart m);
  mk_dram : dram_wf (dram_ m);
  mk_tlb : length (itlb_ (mmu m)) = 128%nat /\ length (dtlb_ (mmu m)) = 128%nat;
  mk_devs : devs_ok (devs m);
}.

Lemma mem_frame_hart_ok {D} `{Platform D} (m m' : mach D) :
  mem_frame m m' -> hart_ok (hart m) -> hart_ok (hart m').
Proof.
  intros Hf []. pose proof (mem_frame_legal m m' Hf). destruct Hf.
  split; try congruence; auto.
Qed.

Lemma mem_frame_ok {D} `{Platform D} (m m' : mach D) : mem_frame m m' -> mach_ok m -> mach_ok m'.
Proof.
  intros Hf [Hh Hd [T1 T2] Ho]. pose proof (mem_frame_hart_ok m m' Hf Hh).
  pose proof (mf_dram m m' Hf Hd) as [? _]. pose proof (mf_tlb m m' Hf) as [].
  split; [done|done|split; congruence|by apply (mf_devs m m')].
Qed.

(** ** How accesses fail *)

(** A trap raised by the access of kind [type] at one of the [n] bytes from
    [addr], by the instruction at [pc]. *)
Definition mem_trap (pc addr n : Z) (type : AccessType) (e : exn) : Prop :=
  exists cause i, e = ETrap (mkTrap pc cause (u64 (addr + i))) /\ 0 <= i < n /\
    (cause = page_fault_cause type \/ cause = access_fault_cause type).

Lemma mem_trap_0 pc addr n type cause : fits 64 addr -> 0 < n ->
  cause = page_fault_cause type \/ cause = access_fault_cause type ->
  mem_trap pc addr n type (ETrap (mkTrap pc cause addr)).
Proof.
  intros Ha Hn Hc. exists cause, 0. rewrite Z.add_0_r, uwrap_id by done. done.
Qed.

Lemma mem_trap_sub pc addr i n type e : 0 <= i < n ->
  mem_trap pc (u64 (addr + i)) 1 type e -> mem_trap pc addr n type e.
Proof.
  intros Hi (c & j & -> & Hj & Hc). exists c, i. split_and!; try lia; [|done].
  replace j with 0 by lia. by rewrite Z.add_0_r, uwrap_idemp.
Qed.

Section Faults.
Context {D : Type} `{PlatformLaws D}.
Abbreviation cpu := (M (mach D) exn).
Abbreviation ok := (@mach_ok D _).

Lemma framed_ok {A} (c : cpu A) : framed mem_frame c -> forall m, ok m -> ok (snd (c m)).
Proof. intros Hc m. by apply mem_frame_ok. Qed.

(** The bus keeps the machine well formed; the values read are in range. *)
Lemma spec_bus_read (X : exn -> Prop) n a :
  spec ok X (state (bus_read n a))
    (fun v => forall x, v = Some x -> fits (8 * Z.of_nat n) x).
Proof.
  apply spec_state. intros m Hm. split.
  - eapply mem_frame_ok; [|exact Hm]. apply device_mem_frame, bus_read_frame.
  - intros x Hx. eapply bus_read_fits; [apply Hm|exact Hx].
Qed.
Lemma spec_bus_write (X : exn -> Prop) n a v : spec ok X (state (bus_write n a v)) (fun _ => True).
Proof.
  apply spec_state. intros m Hm. split; [|done].
  eapply mem_frame_ok; [|exact Hm]. apply device_mem_frame, bus_write_frame.
Qed.

Lemma spec_page_fault I {A} pc v t X (V : A -> Prop) :
  (forall e, mem_trap pc v 1 t e -> X e) -> fits 64 v ->
  spec (S := mach D) I X (raise_page_fault pc v t) V.
Proof. intros HX Hv. apply spec_throw, HX, mem_trap_0; [done|lia|by left]. Qed.
Lemma spec_access_fault I {A} pc v t X (V : A -> Prop) :
  (forall e, mem_trap pc v 1 t e -> X e) -> fits 64 v ->
  spec (S := mach D) I X (raise_access_fault pc v t) V.
Proof. intros HX Hv. apply spec_throw, HX, mem_trap_0; [done|lia|by right]. Qed.
End Faults.

Section Outcomes.
Context {D : Type} `{PlatformLaws D}.
Abbreviation cpu := (M (mach D) exn).
Abbreviation ok := (@mach_ok D _).
Variables (pc v : Z) (t : AccessType).
Hypothesis Hv : fits 64 v.

Ltac faults := first [ apply spec_page_fault; [done|exact Hv] | apply spec_access_fault; [done|exact Hv] ].

Ltac fault_case := match goal with |- spec _ _ (if ?b then _ else _) _ => destruct b eqn:?; [faults|] end.

Lemma paddr_fits ppn : fits 64 (Z.lor (u64 (Z.shiftl ppn PGSHIFT)) (Z.land v PGMASK)).
Proof. fits_tac. Qed.

Lemma spec_walk_leaf p sum mxr adue idx vpn i a pte :
  spec ok (mem_trap pc v 1 t) (walk_leaf pc v t p sum mxr adue idx vpn i a pte) (fits 64).
Proof.
  unfold walk_leaf. cbv zeta. do 3 fault_case.
  apply (spec_bind _ _ _ _ (fun _ => True)).
  - match goal with |- spec _ _ (if ?b then _ else _) _ => destruct b end; [|by apply spec_ret].
    fault_case.
    eapply spec_bind; [apply spec_bus_write|]. intros b _.
    fault_case. by apply spec_ret.
  - intros _ _. apply (spec_bind _ _ _ _ (fun _ => True)).
    + apply spec_modify; [|done]. intros m. apply mem_frame_ok, tlb_fill_frame.
    + intros _ _. apply spec_ret, paddr_fits.
Qed.

Lemma spec_walk p sum mxr adue idx vpn i a :
  spec ok (mem_trap pc v 1 t) (walk pc v t p sum mxr adue idx vpn i a) (fits 64).
Proof.
  revert a. induction i as [|i IH]; intros a; cbn [walk]; cbv zeta;
    (eapply spec_bind; [apply spec_bus_read|]; intros [pte|] Hpte; [|faults]);
    repeat (case_match; [first [faults|apply spec_walk_leaf]|]).
  - faults.
  - apply IH.
Qed.

Lemma spec_translate : spec ok (mem_trap pc v 1 t) (translate pc v t) (fits 64).
Proof.
  unfold translate.
  apply (spec_bind _ _ _ _ csr_legal); [apply spec_gets; intros m Hm; apply Hm|].
  intros h Hh. cbv zeta. case_match; [by apply spec_ret|].
  case_match; [by apply spec_ret|].
  pose proof (csr_legal_at CSATP SATP_ADDRESS h eq_refl Hh) as [_ Hmode].
  change (read_own h SATP_ADDRESS) with (raw h SATP_ADDRESS) in *.
  unfold legal, satp_mode in Hmode.
  case_match eqn:E.
  { destruct Hmode as [Em|Em]; rewrite Em in *; done. }
  case_match; [faults|].
  apply (spec_bind _ _ _ _ (fun _ => True)); [by apply spec_gets|]. intros e _.
  destruct (tlb_lookup _ _ _ _ _ _ _) as [pa|] eqn:El; [|apply spec_walk].
  apply spec_ret. unfold tlb_lookup in El. repeat case_match; try done;
    injection El as <-; apply paddr_fits.
Qed.
End Outcomes.

Section AccessOutcomes.
Context {D : Type} `{PlatformLaws D}.
Abbreviation ok := (@mach_ok D _).

(** Weakens the exceptions of a computation. *)
Lemma spec_exn (I : mach D -> Prop) (X X' : exn -> Prop) {A} (c : M (mach D) exn A) V :
  spec I X c V -> (forall e, X e -> X' e) -> spec I X' c V.
Proof.
  intros Hc HX m Hm. specialize (Hc m Hm). destruct (c m) as [[a|e] m']; destruct Hc; auto.
Qed.

Lemma mem_trap_wide pc a n t e : 0 < n -> fits 64 a -> mem_trap pc a 1 t e -> mem_trap pc a n t e.
Proof.
  intros Hn Ha (c & i & -> & Hi & Hc). exists c, i. split_and!; try lia; done.
Qed.

Lemma spec_translate_byte pc a n t i : fits 64 a -> 0 <= i < n ->
  spec ok (mem_trap pc a n t) (translate_byte pc a t i) (fits 64).
Proof.
  intros Ha Hi. unfold translate_byte. cbv zeta.
  eapply spec_bind.
  - eapply spec_exn; [apply spec_translate, uwrap_fits; lia|]. intros e. by apply mem_trap_sub.
  - intros p Hp. apply (spec_bind _ _ _ _ (fun _ => True)); [by apply spec_gets|].
    intros b _. destruct b; simpl; [by apply spec_ret|].
    apply spec_access_fault; [|done]. intros e. apply mem_trap_wide; [lia|done].
Qed.

Lemma spec_seq_translate pc a n t : fits 64 a ->
  spec ok (mem_trap pc a (Z.of_nat n) t) (mapm (translate_byte pc a t) (seqZ 0 (Z.of_nat n)))
    (fun ps => length ps = n /\ Forall (fits 64) ps).
Proof.
  intros Ha. eapply spec_weaken.
  - apply spec_mapm. intros i Hi. apply spec_translate_byte; [done|].
    apply list_elem_of_In, elem_of_seqZ in Hi. lia.
  - intros ps [Hl Hf]. rewrite length_seqZ in Hl. split; [lia|done].
Qed.

Lemma bytes_value_fits bs : Forall (fits 8) bs -> fits (8 * Z.of_nat (length bs)) (bytes_value bs).
Proof.
  induction 1 as [|b bs Hb _ IH]; [by split|]. unfold fits in *. cbn [bytes_value length].
  rewrite Nat2Z.inj_succ, Z.mul_succ_r, Z.pow_add_r by lia. lia.
Qed.

Lemma spec_access_at {A} pc addr n t (V : A -> Prop) : 0 < n -> fits 64 addr ->
  spec ok (mem_trap pc addr n t) (raise_access_fault pc addr t) V.
Proof.
  intros. apply spec_access_fault; [|done]. intros e. by apply mem_trap_wide.
Qed.

Lemma spec_translate_at pc addr n t : 0 < n -> fits 64 addr ->
  spec ok (mem_trap pc addr n t) (translate pc addr t) (fits 64).
Proof.
  intros. eapply spec_exn; [by apply spec_translate|]. intros e. by apply mem_trap_wide.
Qed.

Lemma spec_mmu_read n pc addr (is_amo : bool) : (0 < n)%nat -> fits 64 addr ->
  spec ok (mem_trap pc addr (Z.of_nat n) (if is_amo then Store else Load))
    (mmu_read n pc addr is_amo) (fits (8 * Z.of_nat n)).
Proof.
  intros Hn Ha. unfold mmu_read. set (t := if is_amo then Store else Load). cbv zeta.
  case_match.
  - eapply spec_bind; [apply spec_translate_at; [lia|done]|].
    intros p Hp. eapply spec_bind; [apply spec_bus_read|].
    intros [v|] Hv; [|apply spec_access_at; [lia|done]]. by apply spec_ret, Hv.
  - eapply spec_bind; [by apply spec_seq_translate|]. intros ps [Hl Hps].
    eapply spec_bind.
    { apply (spec_mapm _ _ _ _ (fits 8)). intros p Hp.
      eapply spec_bind; [apply spec_bus_read|].
      intros [v|] Hv; [|apply spec_access_at; [lia|done]]. by apply spec_ret, Hv. }
    intros bs [Hbl Hbs]. apply spec_ret. rewrite <- Hl, <- Hbl. by apply bytes_value_fits.
Qed.

Lemma spec_mmu_write n pc addr v : (0 < n)%nat -> fits 64 addr ->
  spec ok (mem_trap pc addr (Z.of_nat n) Store) (mmu_write n pc addr v) (fun _ => True).
Proof.
  intros Hn Ha. unfold mmu_write. case_match.
  - eapply spec_bind; [apply spec_translate_at; [lia|done]|].
    intros p Hp. eapply spec_bind; [apply spec_bus_write|].
    intros [|] _; [by apply spec_ret|apply (spec_access_at pc addr); [lia|done]].
  - eapply spec_bind; [by apply spec_seq_translate|]. intros ps [Hl Hps].
    eapply spec_bind; [|intros; by apply spec_ret].
    apply (spec_mapm _ _ _ _ (fun _ => True)). intros [i p] _.
    eapply spec_bind; [apply spec_bus_write|].
    intros [|] _; [by apply spec_ret|apply (spec_access_at pc addr); [lia|done]].
Qed.

Lemma spec_probe_store pc addr : fits 64 addr ->
  spec ok (mem_trap pc addr 1 Store) (probe_store pc addr) (fun _ => True).
Proof.
  intros Ha. unfold probe_store. eapply spec_bind; [by apply spec_translate|].
  intros p Hp. apply (spec_bind _ _ _ _ (fun _ => True)); [by apply spec_gets|].
  intros [|] _; [by apply spec_ret|apply (spec_access_at pc addr); [lia|done]].
Qed.

(** A fetch returns a 32-bit word or raises an instruction fault for one of the
    four bytes at the pc. *)
Lemma spec_ifetch_at pc : fits 64 pc ->
  spec ok (mem_trap pc pc 4 Fetch) (ifetch_at pc) (fun r => fits 32 (fst r)).
Proof.
  intros Hp. unfold ifetch_at.
  assert (forall n x, (n = 2%nat \/ n = 4%nat) -> fits (8 * Z.of_nat n) x -> fits 32 x) as Hw.
  { intros n x [-> | ->] Hx; (eapply fits_le; [|exact Hx]); lia. }
  assert (mem_trap pc pc 4 Fetch (ETrap (mkTrap pc InstructionAccessFault pc))) as Hacc.
  { apply mem_trap_0; [done|lia|by right]. }
  case_match.
  - eapply spec_bind; [apply spec_translate_at; [lia|done]|]. intros p _.
    eapply spec_bind; [apply spec_bus_read|]. intros [insn|] Hi; [|by apply spec_throw].
    specialize (Hi _ eq_refl). case_match; apply spec_ret; simpl.
    + apply fits_land_r; [lia|by split].
    + by eapply (Hw 4%nat); [right|].
  - eapply spec_bind; [apply spec_translate_at; [lia|done]|]. intros p _.
    eapply spec_bind; [apply spec_bus_read|]. intros [insn|] Hi; [|by apply spec_throw].
    specialize (Hi _ eq_refl). case_match; [apply spec_ret; simpl; by eapply (Hw 2%nat); [left|]|].
    eapply spec_bind.
    { eapply spec_exn; [apply spec_translate, uwrap_fits; lia|].
      intros e. apply (mem_trap_sub pc pc 2 4). lia. }
    intros p' _. eapply spec_bind; [apply spec_bus_read|].
    intros [hi|] Hhi; [|apply spec_throw; exists InstructionAccessFault, 2;
      split; [done|split; [lia|by right]]].
    specialize (Hhi _ eq_refl). apply spec_ret. simpl.
    apply fits_lor; [lia|apply fits_land_r; [lia|by split]|].
    unfold fits in *. rewrite Z.shiftl_mul_pow2 by lia. simpl in *. lia.
Qed.

(** C15. A load (or the load half of an AMO) by the instruction at [pc] returns a
    value of the access size or raises a page or access fault of its own kind,
    with the pc of the instruction and the address of one of its bytes; it never
    reaches [std::terminate] or [std::unreachable], and it leaves the registers,
    the pc, the privilege, the CSRs (but mip) and the reservation alone. *)
Theorem mmu_read_spec n pc addr (is_amo : bool) (m : mach D) :
  (0 < n)%nat -> fits 64 addr -> mach_ok m ->
  match mmu_read n pc addr is_amo m with
  | (Ok v, m') => mem_frame m m' /\ mach_ok m' /\ fits (8 * Z.of_nat n) v
  | (Throw e, m') => mem_frame m m' /\ mach_ok m' /\
      mem_trap pc addr (Z.of_nat n) (if is_amo then Store else Load) e
  end.
Proof.
  intros Hn Ha Hm. pose proof (spec_mmu_read n pc addr is_amo Hn Ha m Hm) as Hs.
  pose proof (mmu_read_frame n pc addr is_amo m) as Hf.
  by destruct (mmu_read n pc addr is_amo m) as [[v|e] m'].
Qed.

(** C16. The same for a store: it returns or raises a store/AMO fault, with the
    same frame. *)
Theorem mmu_write_spec n pc addr value (m : mach D) :
  (0 < n)%nat -> fits 64 addr -> mach_ok m ->
  match mmu_write n pc addr value m with
  | (Ok _, m') => mem_frame m m' /\ mach_ok m'
  | (Throw e, m') => mem_frame m m' /\ mach_ok m' /\ mem_trap pc addr (Z.of_nat n) Store e
  end.
Proof.
  intros Hn Ha Hm. pose proof (spec_mmu_write n pc addr value Hn Ha m Hm) as Hs.
  pose proof (mmu_write_frame n pc addr value m) as Hf.
  destruct (mmu_write n pc addr value m) as [[v|e] m']; [|done]. by destruct Hs.
Qed.
End AccessOutcomes.

(** ** A machine without devices

    The smallest platform: it satisfies the laws, and the concrete runs below and
    in the later files use it. *)
#[export] Instance no_devices : Platform unit := {
  devices_ := [];
  clint_get_mtime m := (0, m);
  clint_tick m := m;
  guest_shutdown _ := false;
  process_dead _ := false;
  devs_ok _ := True;
}.

#[export] Instance no_devices_laws : PlatformLaws unit.
Proof.
  split.
  - intros d off n m Hd. inversion Hd.
  - intros d off n v m Hd. inversion Hd.
  - intros d m Hd. inversion Hd.
  - intros m. apply device_frame_refl.
  - intros m. apply device_frame_refl.
  - intros m. by split.
Qed.

Definition small_machine : mach unit :=
  mkMach (Hart_init DRAM_BASE) MMU_init (Dram_init 0x10000) 0 0 tt.

Lemma Hart_init_ok pc0 : fits 64 pc0 -> Z.testbit pc0 0 = false -> hart_ok (Hart_init pc0).
Proof.
  intros Hp He. split; [apply Hart_init_legal|done|done|..].
  - split; [done|]. cbn [Hart_init gprs]. apply Forall_replicate. by split.
  - split; [done|]. cbn [Hart_init fprs]. apply Forall_replicate. by split.
  - by split.
Qed.

Lemma Dram_init_wf size : 0 <= size <= 2 ^ 64 - DRAM_BASE -> dram_wf (Dram_init size).
Proof. split; [apply map_Forall_empty|done]. Qed.

Lemma small_machine_ok : mach_ok small_machine.
Proof.
  split; [apply Hart_init_ok; [by split|done]| |done|done].
  apply Dram_init_wf. unfold DRAM_BASE. lia.
Qed.

(** A load from DRAM in M-mode, and one from an address nobody owns. *)
Lemma mmu_read_spec_witness :
  match mmu_read 8 DRAM_BASE 0x80000100 false small_machine with
  | (Ok v, m') => mem_frame small_machine m' /\ mach_ok m' /\ fits (8 * Z.of_nat 8) v
  | (Throw e, m') => mem_frame small_machine m' /\ mach_ok m' /\
      mem_trap DRAM_BASE 0x80000100 (Z.of_nat 8) Load e
  end.
Proof.
  apply (mmu_read_spec 8 DRAM_BASE 0x80000100 false small_machine);
    [lia | by split | apply small_machine_ok].
Defined.

Lemma mmu_write_spec_witness :
  match mmu_write 4 DRAM_BASE 0x1000 7 small_machine with
  | (Ok _, m') => mem_frame small_machine m' /\ mach_ok m'
  | (Throw e, m') => mem_frame small_machine m' /\ mach_ok m' /\
      mem_trap DRAM_BASE 0x1000 (Z.of_nat 4) Store e
  end.
Proof.
  apply (mmu_write_spec 4 DRAM_BASE 0x1000 7 small_machine);
    [lia | by split | apply small_machine_ok].
Defined.

(** Concrete runs: a store is read back, also at an unaligned address; an access to
    a hole faults with the address. *)
Example small_runs :
  fst ((mmu_write 8 DRAM_BASE 0x80000103 0x1122334455667788 ;;;
        mmu_read 8 DRAM_BASE 0x80000103 false) small_machine) = Ok 0x1122334455667788 /\
  fst (mmu_read 4 DRAM_BASE 0x1000 false small_machine)
    = Throw (ETrap (mkTrap DRAM_BASE LoadAccessFault 0x1000)) /\
  fst (mmu_write 2 DRAM_BASE 0x8000FFFF 1 small_machine)
    = Throw (ETrap (mkTrap DRAM_BASE StoreAMOAccessFault 0x8000FFFF)).
Proof. vm_compute. repeat split. Qed.
