(* ===== verification/TlbSpec.v ===== *)
(** * The TLB is transparent

    [pt_walk] is the Sv39 page-table lookup as a pure function of DRAM.  A TLB is
    coherent when each valid entry agrees with the tables; then the cached
    translation is the uncached one, and translation keeps the TLB coherent although
    it updates accessed and dirty bits in the tables. *)

From stdpp Require Import gmap.
From S2P Require Import Prelude Bits Hart HartInv Machine Bus Decoder Mmu MmuSpec.

(** ** The page-table lookup *)

Inductive pt_result : Type :=
  | PtOutside                                  (* a PTE that is not in DRAM *)
  | PtFault
  | PtLeaf (level : nat) (pte_addr pte : Z).

Definition pte_ppn (pte : Z) : Z := Z.land (Z.shiftr pte 10) (Z.shiftl 1 44 - 1).
Definition pte_invalid (pte : Z) : bool :=
  negb (nz (Z.land pte PTE_V)) || (negb (nz (Z.land pte PTE_R)) && nz (Z.land pte PTE_W)).
Definition pte_leaf (pte : Z) : bool := nz (Z.land pte PTE_R) || nz (Z.land pte PTE_X).
Definition pte_misaligned (i : nat) (pte : Z) : bool :=
  match i with
  | O => false
  | S _ => nz (Z.land (pte_ppn pte) (Z.shiftl 1 (Z.of_nat i * VPNBITS) - 1))
  end.
Definition pte_slot (vpn : Z) (i : nat) (a : Z) : Z :=
  u64 (a + Z.land (Z.shiftr vpn (Z.of_nat i * VPNBITS)) (Z.shiftl 1 VPNBITS - 1) * PTESIZE).

Fixpoint pt_walk (dr : Dram) (vpn : Z) (i : nat) (a : Z) : pt_result :=
  let pte_addr := pte_slot vpn i a in
  if negb (is_valid_addr dr pte_addr 8) then PtOutside
  else
    let pte := read 8 pte_addr dr in
    if pte_invalid pte then PtFault
    else if nz (Z.shiftr pte 54) then PtFault
    else if pte_leaf pte then
      if pte_misaligned i pte then PtFault else PtLeaf i pte_addr pte
    else if nz (Z.land pte (Z.lor (Z.lor PTE_D PTE_A) PTE_U)) then PtFault
    else
      match i with
      | O => PtFault
      | S i => pt_walk dr vpn i (u64 (Z.shiftl (pte_ppn pte) PGSHIFT))
      end.

(** The table root of a hart. *)
Definition pt_root (h : Hart) : Z :=
  u64 (Z.shiftl (Z.land (read_own h SATP_ADDRESS) SATP_PPN) PGSHIFT).

(** A valid entry is a cached leaf: accessed, with the leaf's permissions and page;
    an entry marked dirty has a dirty leaf. *)
Definition entry_coherent (dr : Dram) (root : Z) (e : TLBEntry) : Prop :=
  tlb_valid e = true ->
  exists i pa pte, pt_walk dr (tlb_vpn e) (LEVELS - 1) root = PtLeaf i pa pte /\
    tlb_perm e = Z.land pte PTE_PERM_MASK /\ nz (Z.land pte PTE_A) = true /\
    (tlb_dirty e = true -> nz (Z.land pte PTE_D) = true) /\
    tlb_ppn e = leaf_ppn i (Z.shiftl (tlb_vpn e) PGSHIFT) (pte_ppn pte).

Definition tlb_coherent {D} (m : mach D) : Prop :=
  Forall (entry_coherent (dram_ m) (pt_root (hart m))) (itlb_ (mmu m)) /\
  Forall (entry_coherent (dram_ m) (pt_root (hart m))) (dtlb_ (mmu m)).

(** ** Bits of a PTE *)

Lemma perm_bit pte b : Z.land PTE_PERM_MASK b = b ->
  Z.land (Z.land pte PTE_PERM_MASK) b = Z.land pte b.
Proof. intros E. by rewrite <- Z.land_assoc, E. Qed.

Lemma allowed_perm pte priv t sum mxr :
  user_allowed priv t sum (Z.land pte PTE_PERM_MASK) = user_allowed priv t sum pte /\
  type_allowed t mxr (Z.land pte PTE_PERM_MASK) = type_allowed t mxr pte.
Proof.
  unfold user_allowed, type_allowed. by rewrite !perm_bit by done.
Qed.

(** Setting A and D changes nothing else. *)
Definition ad_bits (b : Z) : Prop := b = PTE_A \/ b = Z.lor PTE_A PTE_D.

Lemma lor_land_other pte b x : Z.land b x = 0 -> Z.land (Z.lor pte b) x = Z.land pte x.
Proof. intros E. by rewrite Z.land_lor_distr_l, E, Z.lor_0_r. Qed.
Lemma lor_shiftr_low pte b n : Z.shiftr b n = 0 -> Z.shiftr (Z.lor pte b) n = Z.shiftr pte n.
Proof. intros E. by rewrite Z.shiftr_lor, E, Z.lor_0_r. Qed.
Lemma nz_land_mono pte b x : nz (Z.land pte x) = true -> nz (Z.land (Z.lor pte b) x) = true.
Proof.
  rewrite !nz_true, Z.land_lor_distr_l. intros H E. apply Z.lor_eq_0_iff in E. tauto.
Qed.

Lemma ad_same pte b : ad_bits b ->
  pte_invalid (Z.lor pte b) = pte_invalid pte /\ pte_leaf (Z.lor pte b) = pte_leaf pte /\
  pte_ppn (Z.lor pte b) = pte_ppn pte /\ Z.shiftr (Z.lor pte b) 54 = Z.shiftr pte 54 /\
  Z.land (Z.lor pte b) PTE_PERM_MASK = Z.land pte PTE_PERM_MASK /\
  nz (Z.land (Z.lor pte b) PTE_A) = true.
Proof.
  intros Hb. unfold pte_invalid, pte_leaf, pte_ppn.
  split_and!; try (destruct Hb as [-> | ->]; rewrite ?lor_land_other, ?lor_shiftr_low by done; done).
  rewrite Z.lor_comm. apply nz_land_mono. by destruct Hb as [-> | ->].
Qed.

(** ** Updating a leaf *)

Lemma pte_slot_aligned vpn i a : a mod 8 = 0 -> pte_slot vpn i a mod 8 = 0.
Proof. intros Ha. unfold pte_slot, uwrap, PTESIZE. lia. Qed.
Lemma table_aligned ppn : u64 (Z.shiftl ppn PGSHIFT) mod 8 = 0.
Proof. rewrite Z.shiftl_mul_pow2 by done. unfold uwrap, PGSHIFT. lia. Qed.
Lemma pte_slot_fits vpn i a : fits 64 (pte_slot vpn i a).
Proof. apply uwrap_fits. lia. Qed.

Lemma pt_walk_read dr vpn i a i' pa pte :
  pt_walk dr vpn i a = PtLeaf i' pa pte -> pte = read 8 pa dr.
Proof.
  revert a. induction i as [|i IH]; intros a; cbn [pt_walk]; cbv zeta;
    repeat case_match; try done; try (by intros [= <- <- <-]). apply IH.
Qed.

Section Update.
Variables (dr : Dram) (pa pte b : Z).
Hypothesis Hdr : dram_wf dr.
Hypothesis Hpa : fits 64 pa /\ pa mod 8 = 0 /\ is_valid_addr dr pa 8 = true.
Hypothesis Hpte : pte = read 8 pa dr.
Hypothesis Hleaf : pte_leaf pte = true.
Hypothesis Hb : ad_bits b.
Abbreviation dr' := (write 8 pa (Z.lor pte b) dr).

Lemma updated_fits : fits 64 (Z.lor pte b).
Proof.
  apply fits_lor; [lia|rewrite Hpte; apply (read_fits 8); done|].
  by destruct Hb as [-> | ->].
Qed.

Lemma slot_read s : fits 64 s -> s mod 8 = 0 -> is_valid_addr dr s 8 = true ->
  read 8 s dr' = if s =? pa then Z.lor pte b else read 8 s dr.
Proof.
  intros Hs Hm Hv. destruct Hpa as (F & A & V).
  destruct (read_write_eq dr 8 8 pa s (Z.lor pte b)) as [Es Eo];
    [done..|apply updated_fits|lia|lia|].
  destruct (Z.eqb_spec s pa) as [->|Hne]; [done|]. apply Eo. lia.
Qed.

Lemma pt_walk_update vpn i a : a mod 8 = 0 ->
  pt_walk dr' vpn i a =
    match pt_walk dr vpn i a with
    | PtLeaf i' pa' pte' => PtLeaf i' pa' (if pa' =? pa then Z.lor pte b else pte')
    | r => r
    end.
Proof.
  destruct (ad_same pte b Hb) as (E1 & E2 & E3 & E4 & _).
  revert a. induction i as [|i IH]; intros a Ha; cbn [pt_walk]; cbv zeta;
    rewrite is_valid_addr_write;
    (destruct (is_valid_addr dr (pte_slot vpn _ a) 8) eqn:Ev; cbn [negb]; [|done]);
    rewrite slot_read by (done || apply pte_slot_fits || by apply pte_slot_aligned);
    (match goal with |- context [?s =? pa] => destruct (Z.eqb_spec s pa) as [Ee|Hne] end;
     [rewrite Ee, <- Hpte, E1, E4, E2, Hleaf|]);
    (match goal with |- context [pte_invalid ?x] => destruct (pte_invalid x) end; [done|]);
    (match goal with |- context [nz (Z.shiftr ?x 54)] => destruct (nz (Z.shiftr x 54)) end;
     [done|]).
  - cbn [pte_misaligned]. by rewrite Z.eqb_refl.
  - destruct (pte_leaf (read _ _ _)); [|by destruct (nz _)]. cbn [pte_misaligned].
    by rewrite (proj2 (Z.eqb_neq _ _) Hne).
  - unfold pte_misaligned. rewrite E3. destruct (nz _); [done|]. by rewrite Z.eqb_refl.
  - destruct (pte_leaf (read _ _ _)).
    + destruct (pte_misaligned _ _); [done|]. by rewrite (proj2 (Z.eqb_neq _ _) Hne).
    + destruct (nz _); [done|]. apply IH, table_aligned.
Qed.

Lemma entry_coherent_update root e : root mod 8 = 0 ->
  entry_coherent dr root e -> entry_coherent dr' root e.
Proof.
  intros Hr He Hv. destruct (He Hv) as (i & p & v & Ew & Hp & Ha & Hd & Hn).
  rewrite pt_walk_update, Ew by done. do 3 eexists. split; [done|].
  destruct (Z.eqb_spec p pa) as [->|_]; [|done].
  pose proof (pt_walk_read _ _ _ _ _ _ _ Ew) as Ev. rewrite <- Hpte in Ev. subst v.
  destruct (ad_same pte b Hb) as (_ & _ & E3 & _ & E5 & E6).
  rewrite E3, E5. split_and!; try done. intros. apply nz_land_mono. auto.
Qed.
End Update.

(** ** The walk of the code *)

Lemma leaf_ppn_vpn i vaddr ppn :
  leaf_ppn i (Z.shiftl (Z.shiftr vaddr PGSHIFT) PGSHIFT) ppn = leaf_ppn i vaddr ppn.
Proof.
  unfold leaf_ppn. destruct i; [done|]. cbv zeta.
  by rewrite Z.shiftr_shiftl_l, Z.sub_diag, Z.shiftl_0_r by done.
Qed.

Section Walk.
Context {D : Type} `{Platform D}.
Variables (pc vaddr : Z) (t : AccessType) (p : Z) (sum mxr adue : bool) (idx : Z).
Abbreviation vpn := (Z.shiftr vaddr PGSHIFT).

(** The code's loop follows [pt_walk] while the tables are in DRAM. *)
Lemma walk_pt i a (m : mach D) :
  match pt_walk (dram_ m) vpn i a with
  | PtOutside => True
  | PtFault => walk pc vaddr t p sum mxr adue idx vpn i a m
      = (Throw (ETrap (mkTrap pc (page_fault_cause t) vaddr)), m)
  | PtLeaf i' pa pte =>
      walk pc vaddr t p sum mxr adue idx vpn i a m
        = walk_leaf pc vaddr t p sum mxr adue idx vpn i' pa pte m /\
      pte = read 8 pa (dram_ m) /\ is_valid_addr (dram_ m) pa 8 = true /\
      fits 64 pa /\ pte_leaf pte = true /\ pte_misaligned i' pte = false /\
      (a mod 8 = 0 -> pa mod 8 = 0)
  end.
Proof.
  assert (forall j, Z.shiftr vaddr (PGSHIFT + Z.of_nat j * VPNBITS)
    = Z.shiftr vpn (Z.of_nat j * VPNBITS)) as Es.
  { intros j. rewrite Z.shiftr_shiftr; [done|]. unfold VPNBITS. lia. }
  revert a. induction i as [|i IH]; intros a; cbn [pt_walk walk]; cbv zeta;
    rewrite Es;
    (match goal with |- context [pte_slot ?v ?j a] =>
       change (u64 (a + Z.land (Z.shiftr v (Z.of_nat j * VPNBITS)) (Z.shiftl 1 VPNBITS - 1)
         * PTESIZE)) with (pte_slot v j a) end);
    unfold bind, state, bus_read;
    (match goal with |- context [pte_slot ?v ?j a] =>
       pose proof (pte_slot_fits v j a); pose proof (pte_slot_aligned v j a);
       change (Z.of_nat 8) with 8;
       destruct (is_valid_addr (dram_ m) (pte_slot v j a) 8) eqn:Ev;
       cbn [negb]; [|done]; set (pte := read 8 (pte_slot v j a) (dram_ m)) end);
    unfold pte_invalid; (destruct (_ || _); [done|]); (destruct (nz (Z.shiftr pte 54)); [done|]);
    unfold pte_leaf at 1; (destruct (nz (Z.land pte PTE_R) || nz (Z.land pte PTE_X)) eqn:El).
  - done.
  - by destruct (nz (Z.land pte (Z.lor (Z.lor PTE_D PTE_A) PTE_U))).
  - destruct (pte_misaligned (S i) pte) eqn:Em; [|done].
    unfold walk_leaf. cbv zeta. unfold pte_misaligned, pte_ppn in Em. by rewrite Em.
  - destruct (nz (Z.land pte (Z.lor (Z.lor PTE_D PTE_A) PTE_U))); [done|]. fold (pte_ppn pte).
    specialize (IH (u64 (Z.shiftl (pte_ppn pte) PGSHIFT))).
    destruct (pt_walk _ _ _ _); [done|done|].
    destruct IH as (? & ? & ? & ? & ? & ? & Ha). split_and!; try done.
    intros _. apply Ha, table_aligned.
Qed.

(** A leaf that a coherent entry caches, and whose cached rights suffice, gives the
    cached translation and needs no update of the tables. *)
Lemma hit_walk e paddr (m : mach D) root :
  entry_coherent (dram_ m) root e -> tlb_lookup e t p sum mxr vpn vaddr = Some paddr ->
  exists m', walk pc vaddr t p sum mxr adue idx vpn (LEVELS - 1) root m = (Ok paddr, m').
Proof.
  unfold tlb_lookup. intros Hc Hl.
  destruct (tlb_valid e) eqn:Ev; [|done]. cbn [andb] in Hl.
  destruct (Z.eqb_spec (tlb_vpn e) vpn) as [Evpn|]; [|done].
  destruct (Hc Ev) as (i & pa & pte & Ew & Ep & Ea & Ed & En). rewrite Evpn in *.
  pose proof (walk_pt (LEVELS - 1) root m) as Hw. rewrite Ew in Hw.
  destruct Hw as (-> & _ & _ & _ & _ & Em & _).
  destruct (allowed_perm pte p t sum mxr) as [E1 E2]. rewrite Ep, E1, E2 in Hl.
  unfold walk_leaf. cbv zeta. fold (pte_ppn pte).
  assert (match i with O => false | S _ =>
       nz (Z.land (pte_ppn pte) (Z.shiftl 1 (Z.of_nat i * VPNBITS) - 1)) end = false) as -> by done.
  destruct (user_allowed p t sum pte); [|done]. destruct (type_allowed t mxr pte); [|done].
  cbn [negb] in *. rewrite Ea. cbn [negb orb].
  destruct (decide (t = Store)) as [->|]; cbn [andb] in *.
  - destruct (tlb_dirty e); [|done]. rewrite (Ed eq_refl). cbn [negb] in *.
    eexists. unfold bind, ret, modify. rewrite En, leaf_ppn_vpn in Hl. by injection Hl as <-.
  - eexists. unfold bind, ret, modify. rewrite En, leaf_ppn_vpn in Hl. by injection Hl as <-.
Qed.
End Walk.

(** ** Transparency *)

Section Transparent.
Context {D : Type} `{Platform D}.

(** Translation without a TLB: every access walks the tables. *)
Definition translate_walk (pc vaddr : Z) (type : AccessType) : M (mach D) exn Z :=
  let! h := gets hart in
  let mstatus := read_own h MSTATUS_ADDRESS in
  let priv := effective_priv h type in
  if priv =? PrivM then ret vaddr
  else
    let satp := read_own h SATP_ADDRESS in
    let mode := Z.shiftr (Z.land satp SATP_MODE) SATP_MODE_SHIFT in
    if mode =? SATP_Bare then ret vaddr
    else if negb (mode =? SATP_Sv39) then throw ETerminate
    else if negb (canonical vaddr) then raise_page_fault pc vaddr type
    else
      walk pc vaddr type priv (nz (Z.land mstatus MSTATUS_SUM)) (nz (Z.land mstatus MSTATUS_MXR))
        (nz (Z.land (read_own h MENVCFG_ADDRESS) MENVCFG_ADUE))
        (Z.land (Z.shiftr vaddr PGSHIFT) (TLB_ENTRIES - 1)) (Z.shiftr vaddr PGSHIFT)
        (LEVELS - 1) (pt_root h).

Lemma tlb_at_coherent dr root tlb i :
  Forall (entry_coherent dr root) tlb -> entry_coherent dr root (tlb_at tlb i).
Proof.
  intros Hf. unfold tlb_at. destruct (le_lt_dec (length tlb) (Z.to_nat i)).
  - by rewrite nth_overflow.
  - rewrite List.Forall_forall in Hf. by apply Hf, nth_In.
Qed.

Lemma translate_uncached pc vaddr t (m : mach D) : tlb_coherent m ->
  fst (translate pc vaddr t m) = fst (translate_walk pc vaddr t m).
Proof.
  intros [Hi Hd]. unfold translate, translate_walk. unfold bind at 1 3, gets at 1 3. cbv zeta.
  repeat (match goal with |- context [if ?b then _ else _] => destruct b; [done|] end).
  unfold bind at 1, gets at 1.
  set (e := tlb_at (tlb_of t (mmu m)) _).
  assert (entry_coherent (dram_ m) (pt_root (hart m)) e) as He.
  { apply tlb_at_coherent. unfold tlb_of. by case_decide. }
  destruct (tlb_lookup e t _ _ _ _ vaddr) as [paddr|] eqn:El; [|done].
  destruct (hit_walk pc vaddr t _ _ _ (nz (Z.land (read_own (hart m) MENVCFG_ADDRESS) MENVCFG_ADUE))
    (Z.land (Z.shiftr vaddr PGSHIFT) (TLB_ENTRIES - 1)) e paddr m _ He El) as [m' ->]. done.
Qed.

(** C8. The TLB is transparent: with a coherent TLB a translation has the outcome,
    address or fault, of a walk of the page tables. *)
Theorem tlb_transparent pc vaddr t (m : mach D) : tlb_coherent m ->
  fst (translate pc vaddr t m) = fst (translate_walk pc vaddr t m).
Proof. apply translate_uncached. Qed.

(** *** Translation keeps the TLB coherent *)

Lemma walk_leaf_cases pc vaddr t p sum mxr adue idx vpn i pa pte (m : mach D)
    (fill := upd_mmu (tlb_fill t idx vpn (leaf_ppn i vaddr (pte_ppn pte)) pte)) :
  is_valid_addr (dram_ m) pa 8 = true ->
  let m' := snd (walk_leaf pc vaddr t p sum mxr adue idx vpn i pa pte m) in
  m' = m \/ m' = fill m /\ nz (Z.land pte PTE_A) = true \/
  exists b, ad_bits b /\ m' = fill (upd_dram (write 8 pa (Z.lor pte b)) m).
Proof.
  intros Hv. unfold walk_leaf. cbv zeta. fold (pte_ppn pte). fold fill.
  do 3 (match goal with |- context [if ?b then raise_page_fault _ _ _ else _] =>
          destruct b; [by left|] end).
  destruct (negb (nz (Z.land pte PTE_A)) || _) eqn:Ea.
  - destruct adue; cbn [negb]; [|by left]. right. right. unfold bind, state, bus_write.
    change (Z.of_nat 8) with 8. rewrite Hv. cbn [negb ret].
    destruct (decide (t = Store)).
    + exists (Z.lor PTE_A PTE_D). rewrite Z.lor_assoc. split; [by right|done].
    + exists PTE_A. split; [by left|done].
  - right. left. bool_hyps. done.
Qed.

Lemma tlb_coherent_fill t idx e (m : mach D) :
  tlb_coherent m -> entry_coherent (dram_ m) (pt_root (hart m)) e ->
  tlb_coherent (upd_mmu (fun u => if decide (t = Fetch)
    then mkMMU (<[Z.to_nat idx := e]> (itlb_ u)) (dtlb_ u)
           (reservation_address u) (reservation_valid u)
    else mkMMU (itlb_ u) (<[Z.to_nat idx := e]> (dtlb_ u))
           (reservation_address u) (reservation_valid u)) m).
Proof.
  intros [Hi Hd] He. unfold tlb_coherent. cbn [mmu upd_mmu dram_ hart].
  case_decide; cbn [itlb_ dtlb_]; (split; [|]; try done; by apply Forall_insert).
Qed.

(** The cached leaf after the update of its A and D bits (if any). *)
Lemma filled_coherent dr root vaddr i pa pte pte' :
  pt_walk dr (Z.shiftr vaddr PGSHIFT) (LEVELS - 1) root = PtLeaf i pa pte' ->
  pte_ppn pte' = pte_ppn pte -> Z.land pte' PTE_PERM_MASK = Z.land pte PTE_PERM_MASK ->
  nz (Z.land pte' PTE_A) = true ->
  (nz (Z.land pte PTE_D) = true -> nz (Z.land pte' PTE_D) = true) ->
  entry_coherent dr root (mkTLBEntry (Z.shiftr vaddr PGSHIFT) (leaf_ppn i vaddr (pte_ppn pte))
    (Z.land pte PTE_PERM_MASK) true (nz (Z.land pte PTE_D))).
Proof.
  intros Ew En Ep Ea Ed _. cbn [tlb_vpn tlb_perm tlb_dirty tlb_ppn]. exists i, pa, pte'.
  by rewrite leaf_ppn_vpn, En, Ep.
Qed.

Lemma tlb_coherent_dram (f : Dram -> Dram) (m : mach D) :
  (forall e, entry_coherent (dram_ m) (pt_root (hart m)) e ->
     entry_coherent (f (dram_ m)) (pt_root (hart m)) e) ->
  tlb_coherent m -> tlb_coherent (upd_dram f m).
Proof. intros Hf [Hi Hd]. split; eapply Forall_impl; eauto. Qed.

(** What a translation changes: the TLB, and accessed and dirty bits of the leaf it uses. *)
Definition translation_effect (vaddr : Z) (m m' : mach D) : Prop :=
  tlb_coherent m' /\ hart m' = hart m /\ devs m' = devs m /\
  (dram_ m' = dram_ m \/ exists i pa pte b, ad_bits b /\
     pt_walk (dram_ m) (Z.shiftr vaddr PGSHIFT) (LEVELS - 1) (pt_root (hart m)) = PtLeaf i pa pte /\
     pte = read 8 pa (dram_ m) /\ is_valid_addr (dram_ m) pa 8 = true /\ fits 64 pa /\ pa mod 8 = 0 /\
     pte_leaf pte = true /\ dram_ m' = write 8 pa (Z.lor pte b) (dram_ m)).

Lemma translate_changes pc vaddr t (m : mach D) :
  dram_wf (dram_ m) -> tlb_coherent m ->
  pt_walk (dram_ m) (Z.shiftr vaddr PGSHIFT) (LEVELS - 1) (pt_root (hart m)) <> PtOutside ->
  translation_effect vaddr m (snd (translate pc vaddr t m)).
Proof.
  intros Hdr Hc Hin. assert (translation_effect vaddr m m) as Hsame by (by split_and!; auto).
  unfold translate. unfold bind at 1, gets at 1. cbv zeta.
  repeat (match goal with |- context [if ?b then _ else _] => destruct b; [exact Hsame|] end).
  unfold bind at 1, gets at 1. destruct (tlb_lookup _ _ _ _ _ _ _); [exact Hsame|].
  fold (pt_root (hart m)). set (idx := Z.land _ (TLB_ENTRIES - 1)).
  set (vpn := Z.shiftr vaddr PGSHIFT) in *.
  pose proof (walk_pt pc vaddr t (effective_priv (hart m) t)
    (nz (Z.land (read_own (hart m) MSTATUS_ADDRESS) MSTATUS_SUM))
    (nz (Z.land (read_own (hart m) MSTATUS_ADDRESS) MSTATUS_MXR))
    (nz (Z.land (read_own (hart m) MENVCFG_ADDRESS) MENVCFG_ADUE)) idx
    (LEVELS - 1) (pt_root (hart m)) m) as Hw. fold vpn in Hw.
  destruct (pt_walk (dram_ m) vpn (LEVELS - 1) (pt_root (hart m))) as [| |i pa pte] eqn:Ew;
    [done|by rewrite Hw|].
  destruct Hw as (-> & Hpte & Hv & Hf & Hl & _ & Hal). specialize (Hal (table_aligned _)).
  destruct (walk_leaf_cases pc vaddr t (effective_priv (hart m) t)
    (nz (Z.land (read_own (hart m) MSTATUS_ADDRESS) MSTATUS_SUM))
    (nz (Z.land (read_own (hart m) MSTATUS_ADDRESS) MSTATUS_MXR))
    (nz (Z.land (read_own (hart m) MENVCFG_ADDRESS) MENVCFG_ADUE)) idx vpn i pa pte m Hv)
    as [->|[[-> Ha]|(b & Hb & ->)]]; [done| |]; (split; [apply tlb_coherent_fill|]).
  - done.
  - by eapply filled_coherent.
  - unfold tlb_fill. by auto.
  - apply tlb_coherent_dram; [|done]. intros e.
    apply entry_coherent_update; try done. apply table_aligned.
  - destruct (ad_same pte b Hb) as (_ & _ & E3 & _ & E5 & E6).
    eapply (filled_coherent _ _ _ _ pa pte (Z.lor pte b)); try done.
    + cbn [dram_ upd_dram hart]. fold vpn.
      rewrite pt_walk_update, Ew by (done || apply table_aligned). by rewrite Z.eqb_refl.
    + apply nz_land_mono.
  - split; [done|]. split; [done|]. right. by exists i, pa, pte, b.
Qed.

(** C9. Translation keeps the TLB coherent, in particular when it fills an entry
    and when it sets accessed and dirty bits in a table that other entries cache
    (the tables being in DRAM). *)
Theorem translate_coherent pc vaddr t (m : mach D) :
  dram_wf (dram_ m) -> tlb_coherent m ->
  pt_walk (dram_ m) (Z.shiftr vaddr PGSHIFT) (LEVELS - 1) (pt_root (hart m)) <> PtOutside ->
  tlb_coherent (snd (translate pc vaddr t m)).
Proof. intros Hdr Hc Hin. by apply (translate_changes pc vaddr t m). Qed.
End Transparent.

Lemma tlb_coherent_flush {D} (m : mach D) : tlb_coherent (upd_mmu tlb_flush_all m).
Proof. split; apply Forall_map, Forall_true; intros e He; done. Qed.

(** ** A concrete table

    Supervisor mode, a gigapage that maps 0x40000000 to 0x80000000 with D clear, and
    the first page of it in the data TLB. *)
Definition giga_pte : Z := Z.lor (Z.shiftl 0x80000 10) 0x4F.
Definition giga_entry : TLBEntry := mkTLBEntry 0x40000 0x80000 0xE true false.
Definition giga_machine : mach unit :=
  mkMach
    (set_priv PrivS (set_raw MENVCFG_ADDRESS MENVCFG_ADUE
       (set_raw SATP_ADDRESS (Z.lor (Z.shiftl 8 60) 0x80001) (Hart_init DRAM_BASE))))
    (mkMMU (replicate 128 TLBEntry_zero) (<[0%nat := giga_entry]> (replicate 128 TLBEntry_zero))
       0 false)
    (write 8 0x80001008 giga_pte (Dram_init 0x10000)) 0 0 tt.

Lemma giga_wf : dram_wf (dram_ giga_machine).
Proof. apply write_wf, Dram_init_wf. unfold DRAM_BASE. lia. Qed.

Lemma giga_coherent : tlb_coherent giga_machine.
Proof.
  assert (forall n, Forall (entry_coherent (dram_ giga_machine) (pt_root (hart giga_machine)))
    (replicate n TLBEntry_zero)) as Hz by (intros n; apply Forall_replicate; done).
  split; [apply Hz|]. apply Forall_insert; [apply Hz|]. intros _.
  exists 2%nat, 0x80001008, giga_pte. vm_compute. repeat split; discriminate.
Qed.

Lemma tlb_transparent_witness :
  fst (translate DRAM_BASE 0x40000123 Load giga_machine)
    = fst (translate_walk DRAM_BASE 0x40000123 Load giga_machine) /\
  fst (translate DRAM_BASE 0x40000123 Load giga_machine) = Ok 0x80000123.
Proof.
  split; [apply (tlb_transparent DRAM_BASE 0x40000123 Load giga_machine), giga_coherent|].
  vm_compute. reflexivity.
Defined.

(** A store to another page of the gigapage sets D in the table. *)
Lemma translate_coherent_witness :
  tlb_coherent (snd (translate DRAM_BASE 0x40001000 Store giga_machine)).
Proof.
  apply (translate_coherent DRAM_BASE 0x40001000 Store giga_machine);
    [ apply giga_wf | apply giga_coherent | vm_compute; discriminate ].
Defined.

Example giga_runs :
  fst (translate DRAM_BASE 0x40001000 Store giga_machine) = Ok 0x80001000 /\
  read 8 0x80001008 (dram_ (snd (translate DRAM_BASE 0x40001000 Store giga_machine)))
    = Z.lor giga_pte PTE_D /\
  fst (translate DRAM_BASE 0x80000000 Load giga_machine)
    = Throw (ETrap (mkTrap DRAM_BASE LoadPageFault 0x80000000)).
Proof. vm_compute. repeat split. Qed.
