(* ===== verification/CsrAccess.v ===== *)
(** * Checked CSR accesses (CSR::read_checked, CSR::write_checked and overrides)

    Virtual calls on [csrs\[addr\]] are dispatches on [csr_class_at addr].  Here are
    the accesses that reach out of the hart (satp flushes the TLBs, time and
    stimecmp reach the CLINT) and the checked accesses the CSR instructions make. *)

From stdpp Require Import gmap.
From S2P Require Import Prelude Bits Hart HartInv Machine Bus Decoder Mmu MmuSpec.

Section CsrAccess.
Context {D : Type} `{Platform D}.
Abbreviation cpu := (M (mach D) exn).

(* @src src/core/hart.cpp 332-337 TIME::read_unchecked *)
Definition TIME_read_unchecked : cpu Z := state clint_get_mtime.

(* @src src/core/hart.cpp 325-330 STIMECMP::write_unchecked *)
Definition STIMECMP_write_unchecked (v : Z) : cpu unit :=
  modify (upd_hart (set_raw STIMECMP_ADDRESS v)) ;;; modify clint_tick.

(* @src src/core/hart.cpp 81-91 SATP::write_unchecked *)
Definition SATP_write_unchecked (v : Z) : cpu unit :=
  let! flush := state (fun m =>
    let '(h, flush) := SATP_write v (hart m) in (flush, upd_hart (fun _ => h) m)) in
  when flush (modify (upd_mmu tlb_flush_all)).

(** The virtual call [csrs\[addr\]->read_unchecked()]. *)
(* @src include/core/hart.hpp 214-216 CSR::read_unchecked *)
Definition read_unchecked (addr : Z) : cpu Z :=
  match csr_class_at addr with
  | CTIME => TIME_read_unchecked
  | _ => gets (fun m => read_hart (hart m) addr)
  end.

(** The virtual call [csrs\[addr\]->write_unchecked(v)]. *)
(* @src include/core/hart.hpp 218-218 CSR::write_unchecked *)
Definition write_unchecked (addr v : Z) : cpu unit :=
  match csr_class_at addr with
  | CSATP => SATP_write_unchecked v
  | CSTIMECMP => STIMECMP_write_unchecked v
  | _ => modify (upd_hart (write_hart addr v))
  end.

(* The test both accessors start with. *)
Definition check_access (addr pc insn : Z) : cpu unit :=
  let! perm := gets (fun m => check_permissions (hart m) addr) in
  match perm with
  | None => throw ETerminate
  | Some false => raise_exception pc IllegalInstruction insn
  | Some true => ret tt
  end.

(* @src src/core/hart.cpp 28-34 CSR::read_checked *)
Definition CSR_read_checked (addr pc insn : Z) : cpu Z :=
  check_access addr pc insn ;;; read_unchecked addr.

(* @src src/core/hart.cpp 36-42 CSR::write_checked *)
Definition CSR_write_checked (addr pc insn v : Z) : cpu unit :=
  check_access addr pc insn ;;; write_unchecked addr v.

(* @src src/core/hart.cpp 44-50 UnimplementedCSR::read_checked *)
Definition Unimplemented_read_checked (pc insn : Z) : cpu Z :=
  raise_exception pc IllegalInstruction insn.

(* @src src/core/hart.cpp 52-58 UnimplementedCSR::write_checked *)
Definition Unimplemented_write_checked (pc insn : Z) : cpu unit :=
  raise_exception pc IllegalInstruction insn.

(* @src src/core/hart.cpp 60-64 ConstCSR::write_checked *)
Definition Const_write_checked (pc insn : Z) : cpu unit :=
  raise_exception pc IllegalInstruction insn.

(* @src include/core/hart.hpp 717-720 MINSTRET::write_checked *)
Definition MINSTRET_write_checked (pc insn v : Z) : cpu unit :=
  CSR_write_checked MINSTRET_ADDRESS pc insn v ;;;
  modify (upd_hart (set_increase_suppressed true)).

(* FFLAGS, FRM and FCSR have the same body. *)
(* @src include/core/hart.hpp 1262-1267 FFLAGS::write_checked *)
Definition FP_write_checked (addr pc insn v : Z) : cpu unit :=
  CSR_write_checked addr pc insn v ;;;
  modify (upd_hart (fun h => MSTATUS_write (Z.lor (MSTATUS_read h) MSTATUS_FS) h)).

(* @src include/core/hart.hpp 220-220 CSR::read_checked *)
Definition read_checked (addr pc insn : Z) : cpu Z :=
  match csr_class_at addr with
  | CUnimplemented => Unimplemented_read_checked pc insn
  | _ => CSR_read_checked addr pc insn
  end.

(* @src include/core/hart.hpp 222-222 CSR::write_checked *)
Definition write_checked (addr pc insn v : Z) : cpu unit :=
  match csr_class_at addr with
  | CUnimplemented => Unimplemented_write_checked pc insn
  | CMVENDORID | CMARCHID | CMIMPID | CMHARTID | CMCONFIGPTR
  | CCYCLE | CTIME | CINSTRET | CHPMCOUNTERN => Const_write_checked pc insn
  | CMINSTRET => MINSTRET_write_checked pc insn v
  | CFFLAGS | CFRM | CFCSR => FP_write_checked addr pc insn v
  | _ => CSR_write_checked addr pc insn v
  end.
End CsrAccess.

(** ** The frame of a CSR access *)

Record csr_frame {D} `{Platform D} (m m' : mach D) : Prop := {
  cf_pc : pc (hart m') = pc (hart m);
  cf_gprs : gprs (hart m') = gprs (hart m);
  cf_fprs : fprs (hart m') = fprs (hart m);
  cf_priv : priv (hart m') = priv (hart m);
  cf_icp : interrupt_check_pending (hart m') = interrupt_check_pending (hart m);
  cf_res : reservation_address (mmu m') = reservation_address (mmu m) /\
    reservation_valid (mmu m') = reservation_valid (mmu m);
  cf_tlb : length (itlb_ (mmu m')) = length (itlb_ (mmu m)) /\
    length (dtlb_ (mmu m')) = length (dtlb_ (mmu m));
  cf_dram : dram_wf (dram_ m) -> dram_wf (dram_ m') /\ size_ (dram_ m') = size_ (dram_ m);
  cf_flags : softfloat_exceptionFlags m' = softfloat_exceptionFlags m;
  cf_rm : softfloat_roundingMode m' = softfloat_roundingMode m;
  cf_devs : dram_wf (dram_ m) -> devs_ok (devs m) -> devs_ok (devs m');
}.

#[export] Instance csr_frame_preorder {D} `{Platform D} : PreOrder (@csr_frame D _).
Proof.
  split.
  - intros m. split; auto.
  - intros m1 m2 m3 [] []. split; try congruence.
    + destruct cf_res0, cf_res1. split; congruence.
    + destruct cf_tlb0, cf_tlb1. split; congruence.
    + intros F. destruct (cf_dram0 F) as [F1 E1]. destruct (cf_dram1 F1).
      split; [done|congruence].
    + intros F O. destruct (cf_dram0 F). auto.
Qed.

Lemma device_csr_frame {D} `{Platform D} (m m' : mach D) : device_frame m m' -> csr_frame m m'.
Proof. intros []. split; auto; by rewrite df_mmu. Qed.

Lemma csr_frame_ok {D} `{Platform D} (m m' : mach D) :
  csr_frame m m' -> csr_legal (hart m') -> mach_ok m -> mach_ok m'.
Proof.
  intros Hf Hl [[] Hd [T1 T2] Ho]. destruct Hf as [? ? ? ? _ _ [] Hdr _ _ Hdv].
  split; [split; first [exact Hl|congruence]|by apply Hdr|split; congruence|auto].
Qed.

(** Updates of CSR values only. *)
Definition csr_only (h h' : Hart) : Prop :=
  pc h' = pc h /\ gprs h' = gprs h /\ fprs h' = fprs h /\ priv h' = priv h /\
  interrupt_check_pending h' = interrupt_check_pending h.

Lemma upd_hart_csr_frame {D} `{Platform D} f (m : mach D) :
  csr_only (hart m) (f (hart m)) -> csr_frame m (upd_hart f m).
Proof. intros (? & ? & ? & ? & ?). split; auto. Qed.

Lemma write_hart_only addr v h : csr_only h (write_hart addr v h).
Proof. unfold write_hart. destruct (csr_class_at addr); done. Qed.

Section Laws.
Context {D : Type} `{PlatformLaws D}.
Abbreviation ok := (@mach_ok D _).

Lemma SATP_write_only v h : csr_only h (fst (SATP_write v h)).
Proof. unfold SATP_write. case_match; done. Qed.

Lemma tlb_flush_frame (m : mach D) : csr_frame m (upd_mmu tlb_flush_all m).
Proof. split; auto. simpl. by rewrite !length_map. Qed.

Lemma SATP_write_unchecked_frame v : framed csr_frame (SATP_write_unchecked (D := D) v).
Proof.
  unfold SATP_write_unchecked. refine (framed_bind _ _ _ _ _).
  - refine (framed_state _ _ _). intros m. pose proof (SATP_write_only v (hart m)).
    destruct (SATP_write v (hart m)) as [h b]. by apply upd_hart_csr_frame.
  - intros b. refine (framed_when _ _ _ _). refine (framed_modify _ _ _).
    intros m. apply tlb_flush_frame.
Qed.

Lemma STIMECMP_write_unchecked_frame v : framed csr_frame (STIMECMP_write_unchecked (D := D) v).
Proof.
  unfold STIMECMP_write_unchecked. refine (framed_bind _ _ _ _ _).
  - refine (framed_modify _ _ _). intros m. by apply upd_hart_csr_frame.
  - intros _. refine (framed_modify _ _ _). intros m. apply device_csr_frame, clint_tick_frame.
Qed.

Lemma write_unchecked_frame addr v : framed csr_frame (write_unchecked (D := D) addr v).
Proof.
  unfold write_unchecked.
  assert (framed csr_frame (E := exn) (modify (upd_hart (D := D) (write_hart addr v)))).
  { refine (framed_modify _ _ _). intros m. apply upd_hart_csr_frame, write_hart_only. }
  destruct (csr_class_at addr); auto using SATP_write_unchecked_frame,
    STIMECMP_write_unchecked_frame.
Qed.

Lemma check_access_frame addr pc insn : framed csr_frame (check_access (D := D) addr pc insn).
Proof. unfold check_access. repeat frame_step. Qed.

Lemma read_checked_frame addr pc insn : framed csr_frame (read_checked (D := D) addr pc insn).
Proof.
  unfold read_checked, CSR_read_checked, Unimplemented_read_checked, read_unchecked,
    TIME_read_unchecked.
  assert (framed csr_frame (E := exn) (state (clint_get_mtime (D := D)))) as Ht.
  { refine (framed_state _ _ _). intros m. apply device_csr_frame, clint_mtime_frame. }
  repeat (frame_step || apply check_access_frame || exact Ht).
Qed.

Lemma write_checked_frame addr pc insn v :
  framed csr_frame (write_checked (D := D) addr pc insn v).
Proof.
  assert (forall a, framed csr_frame (CSR_write_checked (D := D) a pc insn v)) as Hw.
  { intros a. unfold CSR_write_checked.
    repeat (frame_step || apply check_access_frame || apply write_unchecked_frame). }
  assert (framed csr_frame (FP_write_checked (D := D) addr pc insn v)) as Hfp.
  { unfold FP_write_checked. refine (framed_bind _ _ _ _ _); [apply Hw|]. intros _.
    refine (framed_modify _ _ _). intros m. by apply upd_hart_csr_frame. }
  assert (framed csr_frame (MINSTRET_write_checked (D := D) pc insn v)) as Hmi.
  { unfold MINSTRET_write_checked. refine (framed_bind _ _ _ _ _); [apply Hw|]. intros _.
    refine (framed_modify _ _ _). intros m. by apply upd_hart_csr_frame. }
  unfold write_checked, Unimplemented_write_checked, Const_write_checked, raise_exception.
  destruct (csr_class_at addr); auto; refine (framed_throw _ _).
Qed.

(** The hart stays legal through every access. *)
Lemma write_unchecked_legal addr v (m : mach D) : fits 64 v -> csr_legal (hart m) ->
  csr_legal (hart (snd (write_unchecked addr v m))).
Proof.
  intros Hv Hh. unfold write_unchecked. destruct (csr_class_at addr) eqn:E;
    try (apply write_hart_legal; [done|by rewrite E|done]).
  - unfold SATP_write_unchecked, bind, state.
    pose proof (SATP_write_legal v (hart m)) as Hl.
    destruct (SATP_write v (hart m)) as [h b]. destruct b; simpl; by apply Hl.
  - unfold STIMECMP_write_unchecked. simpl.
    eapply device_frame_legal; [apply clint_tick_frame|]. simpl.
    apply (csr_legal_set_at CSTIMECMP); done.
Qed.

(** *** Outcomes *)

Definition illegal_trap (pc insn : Z) (e : exn) : Prop :=
  e = ETrap (mkTrap pc IllegalInstruction insn).

(** Only the counters ask for the availability of a counter, at their own
    addresses, so the test is always defined. *)
Lemma user_counter_range addr :
  csr_class_at addr = CCYCLE \/ csr_class_at addr = CINSTRET \/
    csr_class_at addr = CHPMCOUNTERN ->
  0xC00 <= addr <= 0xC1F.
Proof.
  unfold csr_class_at. destruct (find _ _) as [o|] eqn:E; [|by intros [?|[?|?]]].
  apply find_some in E as [Hin Ha]. apply Z.eqb_eq in Ha. subst addr.
  assert (Forall (fun o => (o.1.2 = CCYCLE \/ o.1.2 = CINSTRET \/ o.1.2 = CHPMCOUNTERN) ->
    0xC00 <= o.1.1 <= 0xC1F) csr_objects) as HF.
  { apply (bool_decide_unpack _). by vm_compute. }
  rewrite List.Forall_forall in HF. by apply HF.
Qed.

Lemma user_counter_total h addr : 0xC00 <= addr <= 0xC1F ->
  exists b, UserCounter_check_permissions h addr = Some b.
Proof.
  intros Ha. unfold UserCounter_check_permissions, hpm_available_to_supervisor_and_user,
    hpm_available_to_user.
  replace (addr =? 0x14D) with false by (symmetry; apply Z.eqb_neq; lia).
  replace ((addr <? 0xC00) || (0xC1F <? addr)) with false
    by (symmetry; apply orb_false_iff; split; apply Z.ltb_ge; lia).
  repeat case_match; by eexists.
Qed.

Lemma check_permissions_total h addr : exists b, check_permissions h addr = Some b.
Proof.
  unfold check_permissions, TIME_check_permissions. destruct (csr_class_at addr) eqn:E;
    try (by eexists).
  all: apply user_counter_total; first [by apply user_counter_range; eauto | by vm_compute].
Qed.

Lemma spec_check_access addr pc insn :
  spec ok (illegal_trap pc insn) (check_access addr pc insn) (fun _ => True).
Proof.
  unfold check_access. apply (spec_bind _ _ _ _ (fun p => exists b, p = Some b)).
  - apply spec_gets. intros m _. apply check_permissions_total.
  - intros p [[] ->]; [by apply spec_ret|by apply spec_throw].
Qed.

Lemma read_own_fits h addr : csr_legal h -> fits 64 (read_own h addr).
Proof.
  intros Hh. unfold read_own. pose proof (fun a => csr_legal_fits h a Hh) as Hr.
  assert (forall a, fits 64 (Z.land (raw h a) 31) /\ fits 64 (Z.land (raw h a) 7)) as Hl.
  { intros a. split; apply fits_land_l; auto; lia. }
  destruct (csr_class_at addr); try apply Hr; try (by split);
    try (apply fits_land_l; [lia|apply Hr]).
  - apply SSTATUS_read_fits.
  - unfold SIP_read, MIP_read. fits_tac.
  - unfold SIE_read, MIE_read. fits_tac.
  - unfold FCSR_read. apply fits_lor; [lia|apply Hl|].
    assert (fits 3 (FRM_read h)) as [].
    { unfold FRM_read. change 7 with (Z.ones 3). rewrite Z.land_ones by lia.
      apply (uwrap_fits 3). lia. }
    unfold fits. rewrite Z.shiftl_mul_pow2 by lia. lia.
Qed.

Lemma read_hart_fits h addr : csr_legal h -> fits 64 (read_hart h addr).
Proof. intros Hh. unfold read_hart. destruct (csr_class_at addr); by apply read_own_fits. Qed.

Lemma spec_read_checked addr pc insn :
  spec ok (illegal_trap pc insn) (read_checked addr pc insn) (fits 64).
Proof.
  unfold read_checked.
  assert (spec ok (illegal_trap pc insn) (CSR_read_checked addr pc insn) (fits 64)) as Hr.
  { eapply spec_bind; [apply spec_check_access|]. intros _ _. unfold read_unchecked.
    assert (spec ok (illegal_trap pc insn)
      (gets (fun m : mach D => read_hart (hart m) addr)) (fits 64)).
    { apply spec_gets. intros m Hm. apply read_hart_fits, Hm. }
    destruct (csr_class_at addr); try done.
    intros m Hm. unfold TIME_read_unchecked, state.
    pose proof (clint_mtime_frame m) as Hf. pose proof (clint_mtime_fits m) as Hv.
    destruct (clint_get_mtime m) as [v m']. split; [|exact Hv].
    by apply (mem_frame_ok m), Hm; apply device_mem_frame. }
  destruct (csr_class_at addr); first [by apply spec_throw|exact Hr].
Qed.

Lemma write_unchecked_returns addr v (m : mach D) :
  exists m', write_unchecked addr v m = (Ok tt, m').
Proof.
  unfold write_unchecked, SATP_write_unchecked, STIMECMP_write_unchecked, bind, state.
  destruct (csr_class_at addr); try by eexists.
  destruct (SATP_write v (hart m)) as [h []]; by eexists.
Qed.

Lemma spec_CSR_write_checked addr pc insn v : fits 64 v ->
  spec ok (illegal_trap pc insn) (CSR_write_checked addr pc insn v) (fun _ => True).
Proof.
  intros Hv. eapply spec_bind; [apply spec_check_access|]. intros _ _ m Hm.
  pose proof (write_unchecked_legal addr v m Hv (hk_csr _ (mk_hart _ Hm))) as Hl.
  pose proof (write_unchecked_frame addr v m) as Hf.
  destruct (write_unchecked_returns addr v m) as [m' E]. rewrite E in *. split; [|done]. by eapply csr_frame_ok.
Qed.

Lemma spec_upd_hart_csr X f : (forall h, csr_only h (f h)) ->
  (forall h, csr_legal h -> csr_legal (f h)) ->
  spec (E := exn) ok X (modify (upd_hart f)) (fun _ => True).
Proof.
  intros Ho Hl. apply spec_modify; [|done]. intros m Hm.
  eapply csr_frame_ok; [by apply upd_hart_csr_frame| |done]. apply Hl, Hm.
Qed.

Lemma set_fs_dirty_legal h : csr_legal h ->
  csr_legal (MSTATUS_write (Z.lor (MSTATUS_read h) MSTATUS_FS) h).
Proof. intros Hh. apply MSTATUS_write_legal; [|done]. fits_tac. Qed.

Lemma spec_write_checked addr pc insn v : fits 64 v ->
  spec ok (illegal_trap pc insn) (write_checked addr pc insn v) (fun _ => True).
Proof.
  intros Hv. unfold write_checked.
  assert (forall a, spec ok (illegal_trap pc insn) (CSR_write_checked a pc insn v) (fun _ => True))
    as Hw by (intros; by apply spec_CSR_write_checked).
  assert (spec ok (illegal_trap pc insn) (FP_write_checked addr pc insn v) (fun _ => True)) as Hfp.
  { eapply spec_bind; [apply Hw|]. intros _ _. apply spec_upd_hart_csr; [done|].
    apply set_fs_dirty_legal. }
  assert (spec ok (illegal_trap pc insn) (MINSTRET_write_checked pc insn v) (fun _ => True)) as Hm.
  { eapply spec_bind; [apply Hw|]. intros _ _. by apply spec_upd_hart_csr. }
  destruct (csr_class_at addr); first [by apply spec_throw|exact Hfp|exact Hm|apply Hw].
Qed.
End Laws.

(** ** Access rights *)

(** The address of a CSR encodes its lowest privilege level (bits 9:8) and whether
    it is read-only (bits 11:10 = 3). *)
Definition csr_addr_priv (addr : Z) : Z := Z.land (Z.shiftr addr 8) 3.
Definition csr_addr_ro (addr : Z) : bool := Z.land (Z.shiftr addr 10) 3 =? 3.

(** The classes whose checked write raises. *)
Definition class_ro (c : csr_class) : bool :=
  match c with
  | CMVENDORID | CMARCHID | CMIMPID | CMHARTID | CMCONFIGPTR
  | CCYCLE | CTIME | CINSTRET | CHPMCOUNTERN => true
  | _ => false
  end.

Lemma csr_objects_rights :
  Forall (fun o => min_priv o.1.2 = csr_addr_priv o.1.1 /\ class_ro o.1.2 = csr_addr_ro o.1.1)
    csr_objects.
Proof. apply (bool_decide_unpack _). by vm_compute. Qed.

Lemma class_rights addr : csr_class_at addr <> CUnimplemented ->
  min_priv (csr_class_at addr) = csr_addr_priv addr /\
  class_ro (csr_class_at addr) = csr_addr_ro addr.
Proof.
  unfold csr_class_at. destruct (find _ _) as [o|] eqn:E; [|done]. intros _.
  apply find_some in E as [Hin Ha]. apply Z.eqb_eq in Ha. subst addr.
  pose proof csr_objects_rights as HF. rewrite List.Forall_forall in HF. by apply HF.
Qed.

Lemma check_permissions_priv h addr :
  0 <= priv h -> check_permissions h addr = Some true -> min_priv (csr_class_at addr) <= priv h.
Proof.
  intros Hp. unfold check_permissions, SATP_check_permissions, STIMECMP_check_permissions,
    FP_check_permissions, CSR_check_permissions.
  destruct (csr_class_at addr) eqn:E; try (intros [= Hl%Z.leb_le]; exact Hl);
    try (intros _; exact Hp); try (case_match; [done|]; intros [= Hl%Z.leb_le]; exact Hl).
  intros Ht. simpl. destruct (Z.eqb_spec (priv h) PrivM) as [->|]; [done|].
  destruct (Z.eqb_spec (priv h) PrivU) as [|Hu]; [done|]. unfold PrivU, PrivS in *. lia.
Qed.

Section Rights.
Context {D : Type} `{PlatformLaws D}.

Lemma check_access_inv addr pc insn (m m' : mach D) r :
  check_access addr pc insn m = (r, m') ->
  m' = m /\ (r = Ok tt /\ check_permissions (hart m) addr = Some true \/
             r = Throw (ETrap (mkTrap pc IllegalInstruction insn))).
Proof.
  unfold check_access, bind, gets. destruct (check_permissions_total (hart m) addr) as [[] ->];
    intros [= <- <-]; auto.
Qed.

Lemma read_checked_inv addr pc insn (m m' : mach D) r :
  read_checked addr pc insn m = (r, m') ->
  (exists v, r = Ok v) /\ check_permissions (hart m) addr = Some true /\
    csr_class_at addr <> CUnimplemented \/
  m' = m /\ r = Throw (ETrap (mkTrap pc IllegalInstruction insn)).
Proof.
  unfold read_checked, CSR_read_checked, Unimplemented_read_checked.
  destruct (decide (csr_class_at addr = CUnimplemented)) as [->|Hc].
  { intros [= <- <-]. auto. }
  assert (bind (check_access addr pc insn) (fun _ => read_unchecked addr) m = (r, m') ->
    (exists v, r = Ok v) /\ check_permissions (hart m) addr = Some true \/
    m' = m /\ r = Throw (ETrap (mkTrap pc IllegalInstruction insn))) as Hi.
  { unfold bind. destruct (check_access addr pc insn m) as [r1 m1] eqn:E1.
    apply check_access_inv in E1 as [-> [[-> Hp]| ->]]; [|intros [= <- <-]; auto].
    unfold read_unchecked, TIME_read_unchecked, gets, state.
    destruct (csr_class_at addr); try (intros [= <- <-]; eauto).
    destruct (clint_get_mtime m). intros [= <- <-]. eauto. }
  intros E. assert (csr_class_at addr <> CUnimplemented) by done.
  destruct (csr_class_at addr); try done; destruct (Hi E) as [[? ?]|?]; auto.
Qed.

(** Writes that raise have not changed anything; writes that return were allowed. *)
Lemma CSR_write_checked_inv addr pc insn v (m m' : mach D) r :
  CSR_write_checked addr pc insn v m = (r, m') ->
  r = Ok tt /\ check_permissions (hart m) addr = Some true \/
  m' = m /\ r = Throw (ETrap (mkTrap pc IllegalInstruction insn)).
Proof.
  unfold CSR_write_checked, bind at 1. destruct (check_access addr pc insn m) as [r1 m1] eqn:E1.
  apply check_access_inv in E1 as [-> [[-> Hp]| ->]]; [|intros [= <- <-]; auto].
  intros E. left. split; [|done].
  unfold write_unchecked, SATP_write_unchecked, STIMECMP_write_unchecked, bind, state, modify in E.
  destruct (csr_class_at addr); try (by injection E as <- <-).
  destruct (SATP_write v (hart m)) as [h []]; by injection E as <- <-.
Qed.

Lemma write_checked_inv addr pc insn v (m m' : mach D) r :
  write_checked addr pc insn v m = (r, m') ->
  r = Ok tt /\ check_permissions (hart m) addr = Some true /\
    csr_class_at addr <> CUnimplemented /\ class_ro (csr_class_at addr) = false \/
  m' = m /\ r = Throw (ETrap (mkTrap pc IllegalInstruction insn)).
Proof.
  assert (forall a (f : mach D -> mach D),
    bind (CSR_write_checked a pc insn v) (fun _ => modify f) m = (r, m') ->
    r = Ok tt /\ check_permissions (hart m) a = Some true \/
    m' = m /\ r = Throw (ETrap (mkTrap pc IllegalInstruction insn))) as Hb.
  { intros a f. unfold bind. destruct (CSR_write_checked a pc insn v m) as [r1 m1] eqn:E1.
    apply CSR_write_checked_inv in E1 as [[-> Hp]|[-> ->]]; intros [= <- <-]; auto. }
  unfold write_checked, Unimplemented_write_checked, Const_write_checked,
    MINSTRET_write_checked, FP_write_checked, raise_exception, throw.
  destruct (csr_class_at addr) eqn:Ec;
    try (intros [= <- <-]; by right);
    try (intros [[-> Hp]|?]%CSR_write_checked_inv; [left|right]; done).
  - intros [[-> Hp]|?]%Hb; [left|by right]. split_and!; try done.
    destruct (check_permissions_total (hart m) addr) as [b Eb].
    unfold check_permissions in *. rewrite Ec in *. done.
  - intros [[-> Hp]|?]%Hb; [left|by right]. done.
  - intros [[-> Hp]|?]%Hb; [left|by right]. done.
  - intros [[-> Hp]|?]%Hb; [left|by right]. done.
Qed.

(** C17. The privilege encoded in a CSR's address is enforced: a checked access
    that succeeds was made at that level or above, and a checked write never
    succeeds on a read-only address. *)
Theorem csr_access_rights addr pc insn v (m : mach D) :
  0 <= priv (hart m) ->
  (forall x m', read_checked addr pc insn m = (Ok x, m') ->
     csr_addr_priv addr <= priv (hart m)) /\
  (forall m', write_checked addr pc insn v m = (Ok tt, m') ->
     csr_addr_priv addr <= priv (hart m) /\ csr_addr_ro addr = false).
Proof.
  intros Hp. split.
  - intros x m' [(_ & Hc & Hu)|[_ ?]]%read_checked_inv; [|done].
    destruct (class_rights addr Hu) as [<- _]. by apply check_permissions_priv.
  - intros m' [(_ & Hc & Hu & Hr)|[_ ?]]%write_checked_inv; [|done].
    destruct (class_rights addr Hu) as [<- <-]. split; [by apply check_permissions_priv|done].
Qed.

(** A CSR access that is refused raises an illegal-instruction trap with the
    instruction word, and the machine is exactly as it was before. *)
Theorem csr_access_refused addr pc insn v (m m' : mach D) e :
  (read_checked addr pc insn m = (Throw e, m') \/
   write_checked addr pc insn v m = (Throw e, m')) ->
  m' = m /\ e = ETrap (mkTrap pc IllegalInstruction insn).
Proof.
  intros [[[[? ?] _]|[-> ?]]%read_checked_inv|[[? _]|[-> ?]]%write_checked_inv]; by simplify_eq.
Qed.

(** Writing satp with an unsupported mode (or its current value) does nothing
    at all; otherwise the value is stored and no TLB entry stays valid. *)
Theorem satp_write_spec v (m : mach D) :
  let m' := snd (write_unchecked SATP_ADDRESS v m) in
  if negb (raw (hart m) SATP_ADDRESS =? v) && ((satp_mode v =? 0) || (satp_mode v =? 8))
  then raw (hart m') SATP_ADDRESS = v /\
       Forall (fun e => tlb_valid e = false) (itlb_ (mmu m')) /\
       Forall (fun e => tlb_valid e = false) (dtlb_ (mmu m')) /\
       dram_ m' = dram_ m /\ devs m' = devs m
  else m' = m.
Proof.
  cbv zeta. change (write_unchecked SATP_ADDRESS v) with (SATP_write_unchecked (D := D) v).
  unfold SATP_write_unchecked, SATP_write, bind, state. cbv zeta.
  change SATP_Bare with 0. change SATP_Sv39 with 8.
  destruct (negb _ && _); cbn [when modify snd upd_hart upd_mmu hart mmu dram_ devs].
  - split_and!; try done; [apply raw_set_raw_eq|..];
      apply List.Forall_forall; intros e (x & <- & _)%in_map_iff; done.
  - unfold upd_hart. by destruct m.
Qed.
End Rights.

Lemma csr_access_rights_witness :
  (forall x m', read_checked 0x300 0 0 small_machine = (Ok x, m') -> csr_addr_priv 0x300 <= 3) /\
  (forall m', write_checked 0x300 0 0 8 small_machine = (Ok tt, m') ->
     csr_addr_priv 0x300 <= 3 /\ csr_addr_ro 0x300 = false).
Proof. apply (csr_access_rights 0x300 0 0 8 small_machine). discriminate. Defined.

(** A write to mhartid is refused. *)
Lemma csr_access_refused_witness :
  small_machine = small_machine /\
  ETrap (mkTrap 0x80000000 IllegalInstruction 0xF1401073)
    = ETrap (mkTrap 0x80000000 IllegalInstruction 0xF1401073).
Proof.
  apply (csr_access_refused 0xF14 0x80000000 0xF1401073 0 small_machine small_machine).
  right. reflexivity.
Defined.
