(* ===== verification/Execute.v ===== *)
(** * Execution of the integer instructions (src/core/execute.cpp)

    One definition per [IMPL]: RV64I, Zicsr and the privileged instructions, M, A
    and the integer part of C.  [d] is the decoded instruction, [R] and [W] read
    and write the integer registers ([W] converts to the 64-bit register type). *)

From stdpp Require Import gmap.
From S2P Require Import Prelude Bits Hart HartInv Machine Bus Decoder Mmu MmuSpec CsrAccess.

Section Exec.
Context {D : Type} `{Platform D}.
Abbreviation cpu := (M (mach D) exn).
Variable d : DecodedInsn.

(* @src src/core/execute.cpp 27-37 EXTRACT_OPRAND *)
Definition csr_number : Z := Z.land (d_imm d) 0xFFF.

(* R[idx] and R.write(idx, v) *)
(* @src include/core/hart.hpp 130-145 RegisterFile *)
Definition R (idx : Z) : cpu Z := gets (fun m => RegisterFile_read (gprs (hart m)) idx).
Definition W (idx v : Z) : cpu unit :=
  modify (upd_hart (fun h => set_gprs (RegisterFile_write (gprs h) idx (u64 v)) h)).

Definition set_hart_pc (v : Z) : cpu unit := modify (upd_hart (set_pc (u64 v))).
Definition set_check_pending : cpu unit :=
  modify (upd_hart (set_interrupt_check_pending true)).

Abbreviation rd := (d_rd d).
Abbreviation rs1 := (d_rs1 d).
Abbreviation rs2 := (d_rs2 d).
Abbreviation imm := (d_imm d).
Abbreviation pc := (d_pc d).
Abbreviation csr := csr_number.

(** Shapes shared by many instructions: [R.write(rd, f(R\[rs1\], R\[rs2\]))], the
    immediate form, and a conditional branch. *)
Definition op_rr (f : Z -> Z -> Z) : cpu unit :=
  let! a := R rs1 in let! b := R rs2 in W rd (f a b).
Definition op_ri (f : Z -> Z -> Z) : cpu unit :=
  let! a := R rs1 in W rd (f a imm).
Definition branch (f : Z -> Z -> bool) : cpu unit :=
  let! a := R rs1 in let! b := R rs2 in when (f a b) (set_hart_pc (pc + imm)).
(** A load of [n] bytes at [R\[rs1\] + imm]. *)
Definition load (n : nat) (f : Z -> Z) : cpu unit :=
  let! a := R rs1 in let! v := mmu_read n pc (u64 (a + imm)) false in W rd (f v).
Definition store (n : nat) : cpu unit :=
  let! a := R rs1 in let! b := R rs2 in
  mmu_write n pc (u64 (a + imm)) (uwrap (8 * Z.of_nat n) b).

(* @src src/core/execute.cpp 94-94 exec_inv *)
Definition exec_inv : cpu unit := raise_exception pc IllegalInstruction (d_insn d).
(* @src src/core/execute.cpp 95-95 exec_c_inv *)
Definition exec_c_inv : cpu unit := exec_inv.

(** ** RV64I *)

(* @src src/core/execute.cpp 98-98 exec_add *)
Definition exec_add : cpu unit :=
  op_rr (fun a b => a + b).

(* @src src/core/execute.cpp 99-99 exec_addi *)
Definition exec_addi : cpu unit :=
  op_ri (fun a i => a + i).

(* @src src/core/execute.cpp 100-100 exec_addiw *)
Definition exec_addiw : cpu unit :=
  op_ri (fun a i => sext (bits 64 (a + i) 31 0) 32).

(* @src src/core/execute.cpp 101-101 exec_addw *)
Definition exec_addw : cpu unit :=
  op_rr (fun a b => sext (bits 64 (a + b) 31 0) 32).

(* @src src/core/execute.cpp 102-102 exec_and *)
Definition exec_and : cpu unit :=
  op_rr Z.land.

(* @src src/core/execute.cpp 103-103 exec_andi *)
Definition exec_andi : cpu unit :=
  op_ri Z.land.

(* @src src/core/execute.cpp 104-104 exec_auipc *)
Definition exec_auipc : cpu unit :=
  W rd (pc + imm).

(* @src src/core/execute.cpp 105-108 exec_beq *)
Definition exec_beq : cpu unit :=
  branch (fun a b => a =? b).

(* @src src/core/execute.cpp 109-112 exec_bge *)
Definition exec_bge : cpu unit :=
  branch (fun a b => s64 b <=? s64 a).

(* @src src/core/execute.cpp 113-116 exec_bgeu *)
Definition exec_bgeu : cpu unit :=
  branch (fun a b => b <=? a).

(* @src src/core/execute.cpp 117-120 exec_blt *)
Definition exec_blt : cpu unit :=
  branch (fun a b => s64 a <? s64 b).

(* @src src/core/execute.cpp 121-124 exec_bltu *)
Definition exec_bltu : cpu unit :=
  branch (fun a b => a <? b).

(* @src src/core/execute.cpp 125-128 exec_bne *)
Definition exec_bne : cpu unit :=
  branch (fun a b => negb (a =? b)).

(* @src src/core/execute.cpp 129-129 exec_fence *)
Definition exec_fence : cpu unit :=
  ret tt.

(* @src src/core/execute.cpp 130-130 exec_fence_i *)
Definition exec_fence_i : cpu unit :=
  ret tt.

(* @src src/core/execute.cpp 131-135 exec_jal *)
Definition exec_jal : cpu unit :=
  let npc := u64 (pc + imm) in
  W rd (pc + 4) ;;; set_hart_pc npc.

(* @src src/core/execute.cpp 136-140 exec_jalr *)
Definition exec_jalr : cpu unit :=
  let t := u64 (pc + 4) in
  let! a := R rs1 in
  set_hart_pc (andn (u64 (a + imm)) 1) ;;; W rd t.

(* @src src/core/execute.cpp 141-144 exec_lb *)
Definition exec_lb : cpu unit :=
  load 1 (fun v => sext v 8).

(* @src src/core/execute.cpp 145-148 exec_lbu *)
Definition exec_lbu : cpu unit :=
  load 1 (fun v => v).

(* @src src/core/execute.cpp 149-152 exec_ld *)
Definition exec_ld : cpu unit :=
  load 8 (fun v => v).

(* @src src/core/execute.cpp 153-156 exec_lh *)
Definition exec_lh : cpu unit :=
  load 2 (fun v => sext v 16).

(* @src src/core/execute.cpp 157-160 exec_lhu *)
Definition exec_lhu : cpu unit :=
  load 2 (fun v => v).

(* @src src/core/execute.cpp 161-161 exec_lui *)
Definition exec_lui : cpu unit :=
  W rd (sext (u64 (Z.shiftl (bits 64 imm 31 12) 12)) 32).

(* @src src/core/execute.cpp 162-165 exec_lw *)
Definition exec_lw : cpu unit :=
  load 4 (fun v => sext v 32).

(* @src src/core/execute.cpp 166-169 exec_lwu *)
Definition exec_lwu : cpu unit :=
  load 4 (fun v => v).

(* @src src/core/execute.cpp 170-170 exec_or *)
Definition exec_or : cpu unit :=
  op_rr Z.lor.

(* @src src/core/execute.cpp 171-171 exec_ori *)
Definition exec_ori : cpu unit :=
  op_ri Z.lor.

(* @src src/core/execute.cpp 172-172 exec_sb *)
Definition exec_sb : cpu unit :=
  store 1.

(* @src src/core/execute.cpp 173-173 exec_sd *)
Definition exec_sd : cpu unit :=
  store 8.

(* @src src/core/execute.cpp 174-174 exec_sh *)
Definition exec_sh : cpu unit :=
  store 2.

(* @src src/core/execute.cpp 175-175 exec_sll *)
Definition exec_sll : cpu unit :=
  op_rr (fun a b => u64 (Z.shiftl a (bits 64 b 5 0))).

(* @src src/core/execute.cpp 176-176 exec_slli *)
Definition exec_slli : cpu unit :=
  op_ri (fun a i => u64 (Z.shiftl a (bits 64 i 5 0))).

(* @src src/core/execute.cpp 177-177 exec_slliw *)
Definition exec_slliw : cpu unit :=
  op_ri (fun a i => sext (u64 (Z.shiftl (bits 64 a 31 0) (bits 64 i 4 0))) 32).

(* @src src/core/execute.cpp 178-180 exec_sllw *)
Definition exec_sllw : cpu unit :=
  op_rr (fun a b => sext (u32 (Z.shiftl (bits 64 a 31 0) (bits 64 b 4 0))) 32).

(* @src src/core/execute.cpp 181-182 exec_slt *)
Definition exec_slt : cpu unit :=
  op_rr (fun a b => b2z (s64 a <? s64 b)).

(* @src src/core/execute.cpp 183-184 exec_slti *)
Definition exec_slti : cpu unit :=
  op_ri (fun a i => b2z (s64 a <? s64 i)).

(* @src src/core/execute.cpp 185-185 exec_sltiu *)
Definition exec_sltiu : cpu unit :=
  op_ri (fun a i => b2z (a <? i)).

(* @src src/core/execute.cpp 186-186 exec_sltu *)
Definition exec_sltu : cpu unit :=
  op_rr (fun a b => b2z (a <? b)).

(* @src src/core/execute.cpp 187-187 exec_sra *)
Definition exec_sra : cpu unit :=
  op_rr (fun a b => Z.shiftr (s64 a) (bits 64 b 5 0)).

(* @src src/core/execute.cpp 188-188 exec_srai *)
Definition exec_srai : cpu unit :=
  op_ri (fun a i => Z.shiftr (s64 a) (bits 64 i 5 0)).

(* @src src/core/execute.cpp 189-191 exec_sraiw *)
Definition exec_sraiw : cpu unit :=
  op_ri (fun a i => sext (Z.shiftr (s32 (bits 64 a 31 0)) (bits 64 i 4 0)) 32).

(* @src src/core/execute.cpp 192-194 exec_sraw *)
Definition exec_sraw : cpu unit :=
  op_rr (fun a b => sext (Z.shiftr (s32 (bits 64 a 31 0)) (bits 64 b 4 0)) 32).

(* @src src/core/execute.cpp 195-195 exec_srl *)
Definition exec_srl : cpu unit :=
  op_rr (fun a b => Z.shiftr a (bits 64 b 5 0)).

(* @src src/core/execute.cpp 196-196 exec_srli *)
Definition exec_srli : cpu unit :=
  op_ri (fun a i => Z.shiftr a (bits 64 i 5 0)).

(* @src src/core/execute.cpp 197-197 exec_srliw *)
Definition exec_srliw : cpu unit :=
  op_ri (fun a i => sext (Z.shiftr (bits 64 a 31 0) (bits 64 i 4 0)) 32).

(* @src src/core/execute.cpp 198-198 exec_srlw *)
Definition exec_srlw : cpu unit :=
  op_rr (fun a b => sext (Z.shiftr (bits 64 a 31 0) (bits 64 b 4 0)) 32).

(* @src src/core/execute.cpp 199-199 exec_sub *)
Definition exec_sub : cpu unit :=
  op_rr (fun a b => a - b).

(* @src src/core/execute.cpp 200-200 exec_subw *)
Definition exec_subw : cpu unit :=
  op_rr (fun a b => sext (bits 64 (a - b) 31 0) 32).

(* @src src/core/execute.cpp 201-201 exec_sw *)
Definition exec_sw : cpu unit :=
  let! a := R rs1 in let! b := R rs2 in
  mmu_write 4 pc (u64 (a + imm)) (bits 64 b 31 0).

(* @src src/core/execute.cpp 202-202 exec_xor *)
Definition exec_xor : cpu unit :=
  op_rr Z.lxor.

(* @src src/core/execute.cpp 203-203 exec_xori *)
Definition exec_xori : cpu unit :=
  op_ri Z.lxor.

(** ** Zicsr and privileged instructions *)

(* @src src/core/execute.cpp 206-212 exec_csrrc *)
Definition exec_csrrc : cpu unit :=
  set_check_pending ;;;
  let! t := read_checked csr pc (d_insn d) in
  let! a := R rs1 in
  when (negb (rs1 =? 0)) (write_checked csr pc (d_insn d) (andn t a)) ;;;
  W rd t.

(* @src src/core/execute.cpp 213-220 exec_csrrci *)
Definition exec_csrrci : cpu unit :=
  set_check_pending ;;;
  let zimm := bits 32 (d_insn d) 19 15 in
  let! t := read_checked csr pc (d_insn d) in
  when (negb (zimm =? 0)) (write_checked csr pc (d_insn d) (andn t zimm)) ;;;
  W rd t.

(* @src src/core/execute.cpp 221-227 exec_csrrs *)
Definition exec_csrrs : cpu unit :=
  set_check_pending ;;;
  let! t := read_checked csr pc (d_insn d) in
  let! a := R rs1 in
  when (negb (rs1 =? 0)) (write_checked csr pc (d_insn d) (Z.lor t a)) ;;;
  W rd t.

(* @src src/core/execute.cpp 228-235 exec_csrrsi *)
Definition exec_csrrsi : cpu unit :=
  set_check_pending ;;;
  let zimm := bits 32 (d_insn d) 19 15 in
  let! t := read_checked csr pc (d_insn d) in
  when (negb (zimm =? 0)) (write_checked csr pc (d_insn d) (Z.lor t zimm)) ;;;
  W rd t.

(* @src src/core/execute.cpp 236-245 exec_csrrw *)
Definition exec_csrrw : cpu unit :=
  set_check_pending ;;;
  if negb (rd =? 0) then
    let! t := read_checked csr pc (d_insn d) in
    let! a := R rs1 in
    write_checked csr pc (d_insn d) a ;;;
    W rd t
  else
    let! a := R rs1 in
    write_checked csr pc (d_insn d) a.

(* @src src/core/execute.cpp 246-252 exec_csrrwi *)
Definition exec_csrrwi : cpu unit :=
  set_check_pending ;;;
  let zimm := bits 32 (d_insn d) 19 15 in
  when (negb (rd =? 0)) (let! t := read_checked csr pc (d_insn d) in W rd t) ;;;
  write_checked csr pc (d_insn d) zimm.

(* @src src/core/execute.cpp 253-253 exec_ebreak *)
Definition exec_ebreak : cpu unit :=
  raise_exception pc Breakpoint pc.

(* @src src/core/execute.cpp 254-267 exec_ecall *)
Definition exec_ecall : cpu unit :=
  let! p := gets (fun m => priv (hart m)) in
  if p =? PrivM then raise_exception pc EnvironmentCallFromM 0
  else if p =? PrivS then raise_exception pc EnvironmentCallFromS 0
  else if p =? PrivU then raise_exception pc EnvironmentCallFromU 0
  else throw ETerminate.

(* @src src/core/execute.cpp 268-292 exec_mret *)
Definition exec_mret : cpu unit :=
  set_check_pending ;;;
  let! h := gets hart in
  if negb (priv h =? PrivM) then raise_exception pc IllegalInstruction (d_insn d)
  else
    let mstatus := read_own h MSTATUS_ADDRESS in
    set_hart_pc (read_own h MEPC_ADDRESS) ;;;
    let new_priv := Z.shiftr (Z.land mstatus MSTATUS_MPP) MPP_SHIFT in
    modify (upd_hart (set_priv new_priv)) ;;;
    let mstatus := if negb (new_priv =? PrivM) then andn mstatus MSTATUS_MPRV else mstatus in
    let mstatus := if nz (Z.land mstatus MSTATUS_MPIE)
                   then Z.lor mstatus MSTATUS_MIE else andn mstatus MSTATUS_MIE in
    let mstatus := Z.lor mstatus MSTATUS_MPIE in
    let mstatus := andn mstatus MSTATUS_MPP in
    write_unchecked MSTATUS_ADDRESS mstatus.

(* @src src/core/execute.cpp 293-304 exec_sfence_vma *)
Definition exec_sfence_vma : cpu unit :=
  let! h := gets hart in
  if (priv h =? PrivU) ||
     ((priv h =? PrivS) && nz (Z.land (read_own h MSTATUS_ADDRESS) MSTATUS_TVM))
  then raise_exception pc IllegalInstruction (d_insn d)
  else if rs1 =? 0 then modify (upd_mmu tlb_flush_all)
  else let! a := R rs1 in modify (upd_mmu (tlb_flush_vaddr a)).

(* @src src/core/execute.cpp 305-337 exec_sret *)
Definition exec_sret : cpu unit :=
  set_check_pending ;;;
  let! h := gets hart in
  if (priv h =? PrivU) ||
     ((priv h =? PrivS) && nz (Z.land (read_own h MSTATUS_ADDRESS) MSTATUS_TSR))
  then raise_exception pc IllegalInstruction (d_insn d)
  else
    let sstatus := read_own h SSTATUS_ADDRESS in
    set_hart_pc (read_own h SEPC_ADDRESS) ;;;
    let new_priv := Z.shiftr (Z.land sstatus MSTATUS_SPP) SPP_SHIFT in
    modify (upd_hart (set_priv new_priv)) ;;;
    let sstatus := if nz (Z.land sstatus MSTATUS_SPIE)
                   then Z.lor sstatus MSTATUS_SIE else andn sstatus MSTATUS_SIE in
    let sstatus := Z.lor sstatus MSTATUS_SPIE in
    let sstatus := andn sstatus MSTATUS_SPP in
    write_unchecked SSTATUS_ADDRESS sstatus ;;;
    when (negb (new_priv =? PrivM))
      (let! mstatus := gets (fun m => read_own (hart m) MSTATUS_ADDRESS) in
       write_unchecked MSTATUS_ADDRESS (andn mstatus MSTATUS_MPRV)).

(* @src src/core/execute.cpp 338-354 exec_wfi *)
Definition exec_wfi : cpu unit :=
  set_check_pending ;;;
  let! h := gets hart in
  if (priv h =? PrivU) ||
     ((priv h <? PrivM) && nz (Z.land (read_own h MSTATUS_ADDRESS) MSTATUS_TW))
  then raise_exception pc IllegalInstruction (d_insn d)
  else if has_pending_enabled_interrupt h then ret tt
  else if read_own h MIE_ADDRESS =? 0 then ret tt
  else throw EWfi.

(** ** RV64M *)

(* @src src/core/execute.cpp 357-366 exec_div *)
Definition exec_div : cpu unit :=
  op_rr (fun a b =>
    if s64 b =? 0 then 2 ^ 64 - 1
    else if (s64 a =? - 2 ^ 63) && (s64 b =? -1) then s64 a
    else Z.quot (s64 a) (s64 b)).

(* @src src/core/execute.cpp 367-372 exec_divu *)
Definition exec_divu : cpu unit :=
  op_rr (fun a b => if b =? 0 then 2 ^ 64 - 1 else a / b).

(* @src src/core/execute.cpp 373-380 exec_divuw *)
Definition exec_divuw : cpu unit :=
  op_rr (fun a b =>
    let v1 := bits 64 a 31 0 in
    let v2 := bits 64 b 31 0 in
    if v2 =? 0 then 2 ^ 64 - 1 else sext (v1 / v2) 32).

(* @src src/core/execute.cpp 381-390 exec_divw *)
Definition exec_divw : cpu unit :=
  op_rr (fun a b =>
    let v1 := s32 (bits 64 a 31 0) in
    let v2 := s32 (bits 64 b 31 0) in
    if v2 =? 0 then 2 ^ 64 - 1
    else if (v1 =? - 2 ^ 31) && (v2 =? -1) then sext v1 32
    else sext (Z.quot v1 v2) 32).

(* @src src/core/execute.cpp 391-391 exec_mul *)
Definition exec_mul : cpu unit :=
  op_rr (fun a b => a * b).

(* @src src/core/execute.cpp 392-394 exec_mulh *)
Definition exec_mulh : cpu unit :=
  op_rr (fun a b => s64 (Z.shiftr (s64 a * s64 b) 64)).

(* @src src/core/execute.cpp 395-397 exec_mulhsu *)
Definition exec_mulhsu : cpu unit :=
  op_rr (fun a b => s64 (Z.shiftr (uwrap 128 (uwrap 128 (s64 a) * b)) 64)).

(* @src src/core/execute.cpp 398-399 exec_mulhu *)
Definition exec_mulhu : cpu unit :=
  op_rr (fun a b => u64 (Z.shiftr (uwrap 128 (a * b)) 64)).

(* @src src/core/execute.cpp 400-400 exec_mulw *)
Definition exec_mulw : cpu unit :=
  op_rr (fun a b => sext (bits 64 (a * b) 31 0) 32).

(* @src src/core/execute.cpp 401-410 exec_rem *)
Definition exec_rem : cpu unit :=
  op_rr (fun a b =>
    if s64 b =? 0 then s64 a
    else if (s64 a =? - 2 ^ 63) && (s64 b =? -1) then 0
    else Z.rem (s64 a) (s64 b)).

(* @src src/core/execute.cpp 411-416 exec_remu *)
Definition exec_remu : cpu unit :=
  op_rr (fun a b => if b =? 0 then a else a mod b).

(* @src src/core/execute.cpp 417-424 exec_remuw *)
Definition exec_remuw : cpu unit :=
  op_rr (fun a b =>
    let v1 := bits 64 a 31 0 in
    let v2 := bits 64 b 31 0 in
    if v2 =? 0 then sext v1 32 else sext (v1 mod v2) 32).

(* @src src/core/execute.cpp 425-434 exec_remw *)
Definition exec_remw : cpu unit :=
  op_rr (fun a b =>
    let v1 := s32 (bits 64 a 31 0) in
    let v2 := s32 (bits 64 b 31 0) in
    if v2 =? 0 then sext v1 32
    else if (v1 =? - 2 ^ 31) && (v2 =? -1) then 0
    else sext (Z.rem v1 v2) 32).

(** ** RV64A *)

(* mmu->reservation_address = addr; mmu->reservation_valid = true; *)
Definition set_reservation (addr : Z) (u : MMU) : MMU :=
  mkMMU (itlb_ u) (dtlb_ u) addr true.
Definition clear_reservation (u : MMU) : MMU :=
  mkMMU (itlb_ u) (dtlb_ u) (reservation_address u) false.

(** The read-modify-write of the AMOs: the old value goes to [rd].  The signed
    sums of amoadd wrap (the code's signed addition). *)
Definition amo_d (f : Z -> Z -> Z) : cpu unit :=
  let! addr := R rs1 in
  if negb (Z.land addr 7 =? 0) then raise_exception pc StoreAMOAccessFault addr
  else
    let! t := mmu_read 8 pc addr true in
    let! b := R rs2 in
    mmu_write 8 pc addr (u64 (f t b)) ;;;
    W rd t.
Definition amo_w (f : Z -> Z -> Z) : cpu unit :=
  let! addr := R rs1 in
  if negb (Z.land addr 3 =? 0) then raise_exception pc StoreAMOAccessFault addr
  else
    let! t := mmu_read 4 pc addr true in
    let! b := R rs2 in
    mmu_write 4 pc addr (u32 (f t b)) ;;;
    W rd (sext t 32).

(* @src src/core/execute.cpp 442-450 exec_lr_d *)
Definition exec_lr_d : cpu unit :=
  let! addr := R rs1 in
  if negb (Z.land addr 7 =? 0) then raise_exception pc LoadAccessFault addr
  else
    let! v := mmu_read 8 pc addr false in
    W rd v ;;; modify (upd_mmu (set_reservation addr)).

(* @src src/core/execute.cpp 451-459 exec_lr_w *)
Definition exec_lr_w : cpu unit :=
  let! addr := R rs1 in
  if negb (Z.land addr 3 =? 0) then raise_exception pc LoadAccessFault addr
  else
    let! v := mmu_read 4 pc addr false in
    W rd (sext v 32) ;;; modify (upd_mmu (set_reservation addr)).

(* @src src/core/execute.cpp 460-475 exec_sc_d *)
Definition exec_sc_d : cpu unit :=
  let! addr := R rs1 in
  if negb (Z.land addr 7 =? 0) then raise_exception pc StoreAMOAccessFault addr
  else
    probe_store pc addr ;;;
    let! u := gets mmu in
    (if reservation_valid u && (reservation_address u =? addr) then
       let! b := R rs2 in mmu_write 8 pc addr b ;;; W rd 0
     else W rd 1) ;;;
    modify (upd_mmu clear_reservation).

(* @src src/core/execute.cpp 476-488 exec_sc_w *)
Definition exec_sc_w : cpu unit :=
  let! addr := R rs1 in
  if negb (Z.land addr 3 =? 0) then raise_exception pc StoreAMOAccessFault addr
  else
    probe_store pc addr ;;;
    let! u := gets mmu in
    (if reservation_valid u && (reservation_address u =? addr) then
       let! b := R rs2 in mmu_write 4 pc addr (u32 b) ;;; W rd 0
     else W rd 1) ;;;
    modify (upd_mmu clear_reservation).

(* @src src/core/execute.cpp 489-497 exec_amoadd_d *)
Definition exec_amoadd_d : cpu unit :=
  amo_d (fun t b => s64 t + s64 b).

(* @src src/core/execute.cpp 498-506 exec_amoadd_w *)
Definition exec_amoadd_w : cpu unit :=
  amo_w (fun t b => s32 t + s32 b).

(* @src src/core/execute.cpp 507-515 exec_amoand_d *)
Definition exec_amoand_d : cpu unit :=
  amo_d (fun t b => Z.land (s64 t) (s64 b)).

(* @src src/core/execute.cpp 516-524 exec_amoand_w *)
Definition exec_amoand_w : cpu unit :=
  amo_w (fun t b => Z.land (s32 t) (s32 b)).

(* @src src/core/execute.cpp 525-533 exec_amoor_d *)
Definition exec_amoor_d : cpu unit :=
  amo_d (fun t b => Z.lor (s64 t) (s64 b)).

(* @src src/core/execute.cpp 534-542 exec_amoor_w *)
Definition exec_amoor_w : cpu unit :=
  amo_w (fun t b => Z.lor (s32 t) (s32 b)).

(* @src src/core/execute.cpp 543-551 exec_amoxor_d *)
Definition exec_amoxor_d : cpu unit :=
  amo_d (fun t b => Z.lxor (s64 t) (s64 b)).

(* @src src/core/execute.cpp 552-560 exec_amoxor_w *)
Definition exec_amoxor_w : cpu unit :=
  amo_w (fun t b => Z.lxor (s32 t) (s32 b)).

(* @src src/core/execute.cpp 561-570 exec_amomax_d *)
Definition exec_amomax_d : cpu unit :=
  amo_d (fun t b => Z.max (s64 t) (s64 b)).

(* @src src/core/execute.cpp 571-580 exec_amomax_w *)
Definition exec_amomax_w : cpu unit :=
  amo_w (fun t b => Z.max (s32 t) (s32 b)).

(* @src src/core/execute.cpp 581-588 exec_amomaxu_d *)
Definition exec_amomaxu_d : cpu unit :=
  amo_d (fun t b => Z.max t b).

(* @src src/core/execute.cpp 589-598 exec_amomaxu_w *)
Definition exec_amomaxu_w : cpu unit :=
  amo_w (fun t b => Z.max (u32 t) (u32 b)).

(* @src src/core/execute.cpp 599-608 exec_amomin_d *)
Definition exec_amomin_d : cpu unit :=
  amo_d (fun t b => Z.min (s64 t) (s64 b)).

(* @src src/core/execute.cpp 609-618 exec_amomin_w *)
Definition exec_amomin_w : cpu unit :=
  amo_w (fun t b => Z.min (s32 t) (s32 b)).

(* @src src/core/execute.cpp 619-626 exec_amominu_d *)
Definition exec_amominu_d : cpu unit :=
  amo_d (fun t b => Z.min t b).

(* @src src/core/execute.cpp 627-636 exec_amominu_w *)
Definition exec_amominu_w : cpu unit :=
  amo_w (fun t b => Z.min (u32 t) (u32 b)).

(* @src src/core/execute.cpp 637-644 exec_amoswap_d *)
Definition exec_amoswap_d : cpu unit :=
  amo_d (fun _ b => b).

(* @src src/core/execute.cpp 645-652 exec_amoswap_w *)
Definition exec_amoswap_w : cpu unit :=
  amo_w (fun _ b => b).

(** ** RV64C, integer part *)

Definition op_cc (f : Z -> Z -> Z) : cpu unit :=
  let! a := R rd in let! b := R rs2 in W rd (f a b).

(* @src src/core/execute.cpp 1102-1102 exec_c_nop *)
Definition exec_c_nop : cpu unit :=
  ret tt.

(* @src src/core/execute.cpp 1103-1103 exec_c_addi *)
Definition exec_c_addi : cpu unit :=
  let! a := R rd in W rd (a + imm).

(* @src src/core/execute.cpp 1104-1104 exec_c_addiw *)
Definition exec_c_addiw : cpu unit :=
  let! a := R rd in W rd (sext (bits 64 (a + imm) 31 0) 32).

(* @src src/core/execute.cpp 1105-1105 exec_c_li *)
Definition exec_c_li : cpu unit :=
  W rd imm.

(* @src src/core/execute.cpp 1106-1111 exec_c_addi16sp *)
Definition exec_c_addi16sp : cpu unit :=
  if imm =? 0 then raise_exception pc IllegalInstruction (d_insn d)
  else let! a := R 2 in W 2 (a + imm).

(* @src src/core/execute.cpp 1112-1117 exec_c_lui *)
Definition exec_c_lui : cpu unit :=
  if (rd =? 2) || (imm =? 0) then raise_exception pc IllegalInstruction (d_insn d)
  else W rd imm.

(* @src src/core/execute.cpp 1118-1118 exec_c_srli *)
Definition exec_c_srli : cpu unit :=
  let! a := R rd in W rd (Z.shiftr a imm).

(* @src src/core/execute.cpp 1119-1119 exec_c_srai *)
Definition exec_c_srai : cpu unit :=
  let! a := R rd in W rd (Z.shiftr (s64 a) imm).

(* @src src/core/execute.cpp 1120-1120 exec_c_andi *)
Definition exec_c_andi : cpu unit :=
  let! a := R rd in W rd (Z.land a imm).

(* @src src/core/execute.cpp 1121-1121 exec_c_sub *)
Definition exec_c_sub : cpu unit :=
  op_cc (fun a b => a - b).

(* @src src/core/execute.cpp 1122-1122 exec_c_xor *)
Definition exec_c_xor : cpu unit :=
  op_cc Z.lxor.

(* @src src/core/execute.cpp 1123-1123 exec_c_or *)
Definition exec_c_or : cpu unit :=
  op_cc Z.lor.

(* @src src/core/execute.cpp 1124-1124 exec_c_and *)
Definition exec_c_and : cpu unit :=
  op_cc Z.land.

(* @src src/core/execute.cpp 1125-1125 exec_c_subw *)
Definition exec_c_subw : cpu unit :=
  op_cc (fun a b => sext (bits 64 (a - b) 31 0) 32).

(* @src src/core/execute.cpp 1126-1126 exec_c_addw *)
Definition exec_c_addw : cpu unit :=
  op_cc (fun a b => sext (bits 64 (a + b) 31 0) 32).

(* @src src/core/execute.cpp 1127-1127 exec_c_j *)
Definition exec_c_j : cpu unit :=
  set_hart_pc (pc + imm).

(* @src src/core/execute.cpp 1128-1131 exec_c_beqz *)
Definition exec_c_beqz : cpu unit :=
  let! a := R rs1 in when (a =? 0) (set_hart_pc (pc + imm)).

(* @src src/core/execute.cpp 1132-1135 exec_c_bnez *)
Definition exec_c_bnez : cpu unit :=
  let! a := R rs1 in when (negb (a =? 0)) (set_hart_pc (pc + imm)).

(* @src src/core/execute.cpp 1136-1141 exec_c_addi4spn *)
Definition exec_c_addi4spn : cpu unit :=
  if imm =? 0 then raise_exception pc IllegalInstruction (d_insn d)
  else let! a := R 2 in W rd (a + imm).

(* @src src/core/execute.cpp 1147-1150 exec_c_lw *)
Definition exec_c_lw : cpu unit :=
  load 4 (fun v => sext v 32).

(* @src src/core/execute.cpp 1151-1154 exec_c_ld *)
Definition exec_c_ld : cpu unit :=
  load 8 (fun v => v).

(* @src src/core/execute.cpp 1159-1159 exec_c_sw *)
Definition exec_c_sw : cpu unit :=
  let! a := R rs1 in let! b := R rs2 in
  mmu_write 4 pc (u64 (a + imm)) (bits 64 b 31 0).

(* @src src/core/execute.cpp 1160-1160 exec_c_sd *)
Definition exec_c_sd : cpu unit :=
  store 8.

(* @src src/core/execute.cpp 1161-1161 exec_c_slli *)
Definition exec_c_slli : cpu unit :=
  let! a := R rd in W rd (u64 (Z.shiftl a imm)).

(* @src src/core/execute.cpp 1167-1174 exec_c_lwsp *)
Definition exec_c_lwsp : cpu unit :=
  if rd =? 0 then raise_exception pc IllegalInstruction (d_insn d)
  else
    let! a := R 2 in
    let! v := mmu_read 4 pc (u64 (a + imm)) false in W rd (sext v 32).

(* @src src/core/execute.cpp 1175-1182 exec_c_ldsp *)
Definition exec_c_ldsp : cpu unit :=
  if rd =? 0 then raise_exception pc IllegalInstruction (d_insn d)
  else
    let! a := R 2 in
    let! v := mmu_read 8 pc (u64 (a + imm)) false in W rd v.

(* @src src/core/execute.cpp 1183-1188 exec_c_jr *)
Definition exec_c_jr : cpu unit :=
  if rs1 =? 0 then raise_exception pc IllegalInstruction (d_insn d)
  else let! a := R rs1 in set_hart_pc (andn a 1).

(* @src src/core/execute.cpp 1189-1194 exec_c_mv *)
Definition exec_c_mv : cpu unit :=
  if rs2 =? 0 then raise_exception pc IllegalInstruction (d_insn d)
  else let! b := R rs2 in W rd b.

(* @src src/core/execute.cpp 1195-1195 exec_c_ebreak *)
Definition exec_c_ebreak : cpu unit :=
  exec_ebreak.

(* @src src/core/execute.cpp 1196-1204 exec_c_jalr *)
Definition exec_c_jalr : cpu unit :=
  if rs1 =? 0 then raise_exception pc IllegalInstruction (d_insn d)
  else
    let t := u64 (pc + 2) in
    let! a := R rs1 in
    set_hart_pc (andn a 1) ;;; W 1 t.

(* @src src/core/execute.cpp 1205-1205 exec_c_add *)
Definition exec_c_add : cpu unit :=
  op_cc (fun a b => a + b).

(* @src src/core/execute.cpp 1210-1210 exec_c_swsp *)
Definition exec_c_swsp : cpu unit :=
  let! a := R 2 in let! b := R rs2 in
  mmu_write 4 pc (u64 (a + imm)) (bits 64 b 31 0).

(* @src src/core/execute.cpp 1211-1211 exec_c_sdsp *)
Definition exec_c_sdsp : cpu unit :=
  let! a := R 2 in let! b := R rs2 in
  mmu_write 8 pc (u64 (a + imm)) b.
End Exec.
