(* ===== verification/ExecFloat.v ===== *)
(** * Execution of the floating-point instructions (src/core/execute.cpp)

    The F and D extensions and their compressed loads and stores.  The arithmetic
    is Berkeley SoftFloat, a library outside the repository: [SoftFloat] lists the
    entry points the code calls.  An operation takes the rounding mode and its
    operands and gives the result with the exception flags it raises; the library
    accumulates them in [softfloat_exceptionFlags].  [SoftFloatLaws] is what the
    library documents of the results: their widths, and that the flags are the five
    IEEE ones. *)

From stdpp Require Import gmap.
From S2P Require Import Prelude Bits Hart HartInv Machine Bus Decoder Mmu MmuSpec CsrAccess.
From S2P Require Import Execute.

(** The entry points for one format. *)
Record float_ops := {
  sf_add : Z -> Z -> Z -> Z * Z;
  sf_sub : Z -> Z -> Z -> Z * Z;
  sf_mul : Z -> Z -> Z -> Z * Z;
  sf_div : Z -> Z -> Z -> Z * Z;
  sf_sqrt : Z -> Z -> Z * Z;
  sf_mulAdd : Z -> Z -> Z -> Z -> Z * Z;
  sf_eq : Z -> Z -> bool * Z;
  sf_lt : Z -> Z -> bool * Z;
  sf_le : Z -> Z -> bool * Z;
  sf_lt_quiet : Z -> Z -> bool * Z;
  sf_isSignalingNaN : Z -> bool;
  sf_to_i32 : Z -> bool -> Z -> Z * Z;
  sf_to_ui32 : Z -> bool -> Z -> Z * Z;
  sf_to_i64 : Z -> bool -> Z -> Z * Z;
  sf_to_ui64 : Z -> bool -> Z -> Z * Z;
  sf_of_i32 : Z -> Z -> Z * Z;
  sf_of_ui32 : Z -> Z -> Z * Z;
  sf_of_i64 : Z -> Z -> Z * Z;
  sf_of_ui64 : Z -> Z -> Z * Z;
  (** The macros of internals.h and specialize.h. *)
  sf_sign : Z -> bool;
  sf_exp : Z -> Z;
  sf_frac : Z -> Z;
  sf_isNaN : Z -> bool;
  sf_isSigNaN : Z -> bool;
}.

Class SoftFloat := {
  f32 : float_ops;
  f64 : float_ops;
  f64_to_f32 : Z -> Z -> Z * Z;
  f32_to_f64 : Z -> Z -> Z * Z;
}.

(** A result of [w] bits with flags among the five of fflags. *)
Definition sf_result (w : Z) (r : Z * Z) : Prop := fits w (fst r) /\ fits 5 (snd r).
Definition sf_int_result (lo hi : Z) (r : Z * Z) : Prop := lo <= fst r < hi /\ fits 5 (snd r).

Record float_ops_laws (w : Z) (f : float_ops) : Prop := {
  sl_add : forall rm a b, sf_result w (sf_add f rm a b);
  sl_sub : forall rm a b, sf_result w (sf_sub f rm a b);
  sl_mul : forall rm a b, sf_result w (sf_mul f rm a b);
  sl_div : forall rm a b, sf_result w (sf_div f rm a b);
  sl_sqrt : forall rm a, sf_result w (sf_sqrt f rm a);
  sl_mulAdd : forall rm a b c, sf_result w (sf_mulAdd f rm a b c);
  sl_eq : forall a b, fits 5 (snd (sf_eq f a b));
  sl_lt : forall a b, fits 5 (snd (sf_lt f a b));
  sl_le : forall a b, fits 5 (snd (sf_le f a b));
  sl_lt_quiet : forall a b, fits 5 (snd (sf_lt_quiet f a b));
  sl_to_i32 : forall rm e a, sf_int_result (- 2 ^ 31) (2 ^ 31) (sf_to_i32 f rm e a);
  sl_to_ui32 : forall rm e a, sf_int_result 0 (2 ^ 32) (sf_to_ui32 f rm e a);
  sl_to_i64 : forall rm e a, sf_int_result (- 2 ^ 63) (2 ^ 63) (sf_to_i64 f rm e a);
  sl_to_ui64 : forall rm e a, sf_int_result 0 (2 ^ 64) (sf_to_ui64 f rm e a);
  sl_of_i32 : forall rm a, sf_result w (sf_of_i32 f rm a);
  sl_of_ui32 : forall rm a, sf_result w (sf_of_ui32 f rm a);
  sl_of_i64 : forall rm a, sf_result w (sf_of_i64 f rm a);
  sl_of_ui64 : forall rm a, sf_result w (sf_of_ui64 f rm a);
}.

Class SoftFloatLaws `{SoftFloat} := {
  f32_laws : float_ops_laws 32 f32;
  f64_laws : float_ops_laws 64 f64;
  f64_to_f32_law : forall rm a, sf_result 32 (f64_to_f32 rm a);
  f32_to_f64_law : forall rm a, sf_result 64 (f32_to_f64 rm a);
}.

(** ** The helpers of common/float.hpp and common/float.cpp *)

(* @src include/common/float.hpp 41-55 f32_isNegative, f64_isNegative, f32_neg, f64_neg, f32_isNaN, f64_isNaN *)
Definition f32_isNegative (x : Z) : bool := nz (Z.land x F32_SIGN).
Definition f64_isNegative (x : Z) : bool := nz (Z.land x F64_SIGN).
Definition f32_neg (x : Z) : Z := Z.lxor x F32_SIGN.
Definition f64_neg (x : Z) : Z := Z.lxor x F64_SIGN.
Definition f32_isNaN (x : Z) : bool :=
  (Z.land (Z.lnot x) 0x7F800000 =? 0) && nz (Z.land x 0x007FFFFF).
Definition f64_isNaN (x : Z) : bool :=
  (Z.land (Z.lnot x) 0x7FF0000000000000 =? 0) && nz (Z.land x 0x000FFFFFFFFFFFFF).

(** The ten classes as a bit set, from the predicates of a value. *)
Definition class_bits (sign infOrNaN subnormalOrZero fracZero isNaN isSNaN : bool) : Z :=
  Z.lor (Z.shiftl (b2z (sign && infOrNaN && fracZero)) 0)
  (Z.lor (Z.shiftl (b2z (sign && negb infOrNaN && negb subnormalOrZero)) 1)
  (Z.lor (Z.shiftl (b2z (sign && subnormalOrZero && negb fracZero)) 2)
  (Z.lor (Z.shiftl (b2z (sign && subnormalOrZero && fracZero)) 3)
  (Z.lor (Z.shiftl (b2z (negb sign && infOrNaN && fracZero)) 7)
  (Z.lor (Z.shiftl (b2z (negb sign && negb infOrNaN && negb subnormalOrZero)) 6)
  (Z.lor (Z.shiftl (b2z (negb sign && subnormalOrZero && negb fracZero)) 5)
  (Z.lor (Z.shiftl (b2z (negb sign && subnormalOrZero && fracZero)) 4)
  (Z.lor (Z.shiftl (b2z (isNaN && isSNaN)) 8)
         (Z.shiftl (b2z (isNaN && negb isSNaN)) 9))))))))).

(* @src src/common/float.cpp 28-51 f32_classify *)
Definition f32_classify `{SoftFloat} (a : Z) : Z :=
  class_bits (sf_sign f32 a) (sf_exp f32 a =? 0xFF) (sf_exp f32 a =? 0)
    (sf_frac f32 a =? 0) (sf_isNaN f32 a) (sf_isSigNaN f32 a).

(* @src src/common/float.cpp 53-76 f64_classify *)
Definition f64_classify `{SoftFloat} (a : Z) : Z :=
  class_bits (sf_sign f64 a) (sf_exp f64 a =? 0x7FF) (sf_exp f64 a =? 0)
    (sf_frac f64 a =? 0) (sf_isNaN f64 a) (sf_isSigNaN f64 a).

Section ExecFloat.
Context {D : Type} `{Platform D} `{SoftFloat}.
Abbreviation cpu := (M (mach D) exn).
Variable d : DecodedInsn.

Abbreviation rd := (d_rd d).
Abbreviation rs1 := (d_rs1 d).
Abbreviation rs2 := (d_rs2 d).
Abbreviation rs3 := (d_rs3 d).
Abbreviation imm := (d_imm d).
Abbreviation pc := (d_pc d).

(** Registers: [F\[r\].read_32()], [F\[r\].read_64()] and the two assignments. *)
(* @src include/core/hart.hpp 105-128 FPR *)
Definition F64 (r : Z) : cpu Z := gets (fun m => nth (Z.to_nat r) (fprs (hart m)) 0).
Definition F32 (r : Z) : cpu Z := gets (fun m => FPR_read_32 (nth (Z.to_nat r) (fprs (hart m)) 0)).
Definition set_F64 (r v : Z) : cpu unit :=
  modify (upd_hart (fun h => set_fprs (<[Z.to_nat r := v]> (fprs h)) h)).
Definition set_F32 (r v : Z) : cpu unit := set_F64 r (FPR_write_32 v).

(** A call into the library under the current rounding mode. *)
Definition sf {A} (op : Z -> A * Z) : cpu A :=
  state (fun m => let '(v, fl) := op (softfloat_roundingMode m) in
                  (v, set_exceptionFlags (Z.lor (softfloat_exceptionFlags m) fl) m)).

(* The assert aborts the process. *)
(* @src src/core/execute.cpp 49-55 fp_inst_prep *)
Definition fp_inst_prep : cpu unit :=
  let! fl := gets softfloat_exceptionFlags in
  if negb (fl =? 0) then throw ETerminate
  else
    let! mstatus := gets (fun m => read_own (hart m) MSTATUS_ADDRESS) in
    if negb (nz (Z.land mstatus MSTATUS_FS))
    then raise_exception pc IllegalInstruction (d_insn d) else ret tt.

(* @src src/core/execute.cpp 57-67 fp_setup_rm *)
Definition fp_setup_rm : cpu unit :=
  let rm := bits 32 (d_insn d) 14 12 in
  let! rm := (if rm =? FRM_DYN then gets (fun m => read_own (hart m) FRM_ADDRESS) else ret rm) in
  if FRM_RMM <? rm then raise_exception pc IllegalInstruction (d_insn d)
  else modify (set_roundingMode rm).

(* @src src/core/execute.cpp 69-73 fp_set_dirty *)
Definition fp_set_dirty : cpu unit :=
  let! v := gets (fun m => read_own (hart m) MSTATUS_ADDRESS) in
  write_unchecked MSTATUS_ADDRESS (Z.lor v MSTATUS_FS).

(* @src src/core/execute.cpp 75-85 fp_update_exception_flags *)
Definition fp_update_exception_flags : cpu unit :=
  let! fl := gets softfloat_exceptionFlags in
  when (nz fl)
    (fp_set_dirty ;;;
     let! v := gets (fun m => read_own (hart m) FFLAGS_ADDRESS) in
     write_unchecked FFLAGS_ADDRESS (Z.lor v fl) ;;;
     modify (set_exceptionFlags 0)).

(* @src src/core/execute.cpp 87-90 fp_inst_end *)
Definition fp_inst_end : cpu unit := fp_set_dirty ;;; fp_update_exception_flags.

(** Shapes shared by the instructions of both formats. *)
Definition fp_arith (op : cpu unit) : cpu unit :=
  fp_inst_prep ;;; fp_setup_rm ;;; op ;;; fp_inst_end.
Definition fp_to_int (op : cpu unit) : cpu unit :=
  fp_inst_prep ;;; fp_setup_rm ;;; op ;;; fp_update_exception_flags.

(* fflags->write_unchecked(v | NV) *)
Definition raise_NV : cpu unit :=
  let! v := gets (fun m => read_own (hart m) FFLAGS_ADDRESS) in
  write_unchecked FFLAGS_ADDRESS (Z.lor v FFLAGS_NV).

(** [a || (b && c)] where the tests call the library, with C++'s short circuit. *)
Definition lt_or_eq_neg (ops : float_ops) (isNeg : Z -> bool) (x y : Z) : cpu bool :=
  let! lt := sf (fun _ => sf_lt_quiet ops x y) in
  if lt then ret true
  else
    let! eq := sf (fun _ => sf_eq ops x y) in
    ret (eq && isNeg x).

(** ** RV64F *)

(* @src src/core/execute.cpp 655-660 exec_flw *)
Definition exec_flw : cpu unit :=
  fp_inst_prep ;;;
  let! a := R rs1 in
  let! v := mmu_read 4 pc (u64 (a + imm)) false in
  set_F32 rd v ;;; fp_set_dirty.

(* @src src/core/execute.cpp 661-665 exec_fsw *)
Definition exec_fsw : cpu unit :=
  fp_inst_prep ;;;
  let! a := R rs1 in let! v := F64 rs2 in
  mmu_write 4 pc (u64 (a + imm)) (u32 v).

(* @src src/core/execute.cpp 666-671 exec_fadd_s *)
Definition exec_fadd_s : cpu unit :=
  fp_arith (let! a := F32 rs1 in let! b := F32 rs2 in
    let! v := sf (fun rm => sf_add f32 rm a b) in set_F32 rd v).

(* @src src/core/execute.cpp 672-677 exec_fsub_s *)
Definition exec_fsub_s : cpu unit :=
  fp_arith (let! a := F32 rs1 in let! b := F32 rs2 in
    let! v := sf (fun rm => sf_sub f32 rm a b) in set_F32 rd v).

(* @src src/core/execute.cpp 678-683 exec_fmul_s *)
Definition exec_fmul_s : cpu unit :=
  fp_arith (let! a := F32 rs1 in let! b := F32 rs2 in
    let! v := sf (fun rm => sf_mul f32 rm a b) in set_F32 rd v).

(* @src src/core/execute.cpp 684-689 exec_fdiv_s *)
Definition exec_fdiv_s : cpu unit :=
  fp_arith (let! a := F32 rs1 in let! b := F32 rs2 in
    let! v := sf (fun rm => sf_div f32 rm a b) in set_F32 rd v).

(* @src src/core/execute.cpp 690-695 exec_fsqrt_s *)
Definition exec_fsqrt_s : cpu unit :=
  fp_arith (let! a := F32 rs1 in
    let! v := sf (fun rm => sf_sqrt f32 rm a) in set_F32 rd v).

(* @src src/core/execute.cpp 696-702 exec_fsgnj_s *)
Definition exec_fsgnj_s : cpu unit :=
  fp_inst_prep ;;;
  let! f1 := F32 rs1 in let! f2 := F32 rs2 in
  set_F32 rd (Z.lor (andn f1 F32_SIGN) (Z.land f2 F32_SIGN)) ;;;
  fp_set_dirty.

(* @src src/core/execute.cpp 703-709 exec_fsgnjn_s *)
Definition exec_fsgnjn_s : cpu unit :=
  fp_inst_prep ;;;
  let! f1 := F32 rs1 in let! f2 := F32 rs2 in
  set_F32 rd (Z.lor (andn f1 F32_SIGN) (andn F32_SIGN f2)) ;;;
  fp_set_dirty.

(* @src src/core/execute.cpp 710-716 exec_fsgnjx_s *)
Definition exec_fsgnjx_s : cpu unit :=
  fp_inst_prep ;;;
  let! f1 := F32 rs1 in let! f2 := F32 rs2 in
  set_F32 rd (Z.lxor f1 (Z.land f2 F32_SIGN)) ;;;
  fp_set_dirty.

(* @src src/core/execute.cpp 717-740 exec_fmin_s *)
Definition exec_fmin_s : cpu unit :=
  fp_inst_prep ;;;
  let! f1 := F32 rs1 in let! f2 := F32 rs2 in
  when (sf_isSignalingNaN f32 f1 || sf_isSignalingNaN f32 f2) raise_NV ;;;
  let! smaller := lt_or_eq_neg f32 f32_isNegative f1 f2 in
  (if f32_isNaN f1 && f32_isNaN f2 then set_F32 rd F32_DEFAULT_NAN
   else if smaller || f32_isNaN f2 then set_F32 rd f1
   else set_F32 rd f2) ;;;
  fp_inst_end.

(* @src src/core/execute.cpp 741-764 exec_fmax_s *)
Definition exec_fmax_s : cpu unit :=
  fp_inst_prep ;;;
  let! f1 := F32 rs1 in let! f2 := F32 rs2 in
  when (sf_isSignalingNaN f32 f1 || sf_isSignalingNaN f32 f2) raise_NV ;;;
  let! greater := lt_or_eq_neg f32 f32_isNegative f2 f1 in
  (if f32_isNaN f1 && f32_isNaN f2 then set_F32 rd F32_DEFAULT_NAN
   else if greater || f32_isNaN f2 then set_F32 rd f1
   else set_F32 rd f2) ;;;
  fp_inst_end.

(* @src src/core/execute.cpp 765-771 exec_fcvt_w_s *)
Definition exec_fcvt_w_s : cpu unit :=
  fp_to_int (let! a := F32 rs1 in
    let! v := sf (fun rm => sf_to_i32 f32 rm true a) in W rd v).

(* @src src/core/execute.cpp 772-778 exec_fcvt_wu_s *)
Definition exec_fcvt_wu_s : cpu unit :=
  fp_to_int (let! a := F32 rs1 in
    let! v := sf (fun rm => sf_to_ui32 f32 rm true a) in W rd (s32 v)).

(* @src src/core/execute.cpp 779-784 exec_fcvt_l_s *)
Definition exec_fcvt_l_s : cpu unit :=
  fp_to_int (let! a := F32 rs1 in
    let! v := sf (fun rm => sf_to_i64 f32 rm true a) in W rd v).

(* @src src/core/execute.cpp 785-790 exec_fcvt_lu_s *)
Definition exec_fcvt_lu_s : cpu unit :=
  fp_to_int (let! a := F32 rs1 in
    let! v := sf (fun rm => sf_to_ui64 f32 rm true a) in W rd v).

(* @src src/core/execute.cpp 791-796 exec_fcvt_s_w *)
Definition exec_fcvt_s_w : cpu unit :=
  fp_arith (let! a := R rs1 in
    let! v := sf (fun rm => sf_of_i32 f32 rm (s32 a)) in set_F32 rd v).

(* @src src/core/execute.cpp 797-802 exec_fcvt_s_wu *)
Definition exec_fcvt_s_wu : cpu unit :=
  fp_arith (let! a := R rs1 in
    let! v := sf (fun rm => sf_of_ui32 f32 rm (u32 a)) in set_F32 rd v).

(* @src src/core/execute.cpp 803-808 exec_fcvt_s_l *)
Definition exec_fcvt_s_l : cpu unit :=
  fp_arith (let! a := R rs1 in
    let! v := sf (fun rm => sf_of_i64 f32 rm (s64 a)) in set_F32 rd v).

(* @src src/core/execute.cpp 809-814 exec_fcvt_s_lu *)
Definition exec_fcvt_s_lu : cpu unit :=
  fp_arith (let! a := R rs1 in
    let! v := sf (fun rm => sf_of_ui64 f32 rm a) in set_F32 rd v).

(* @src src/core/execute.cpp 815-819 exec_fmv_x_w *)
Definition exec_fmv_x_w : cpu unit :=
  fp_inst_prep ;;; let! a := F64 rs1 in W rd (s32 (u32 a)).

(* @src src/core/execute.cpp 820-824 exec_fmv_w_x *)
Definition exec_fmv_w_x : cpu unit :=
  fp_inst_prep ;;; let! a := R rs1 in set_F32 rd (u32 (s32 a)) ;;; fp_set_dirty.

(* @src src/core/execute.cpp 825-829 exec_fclass_s *)
Definition exec_fclass_s : cpu unit :=
  fp_inst_prep ;;; let! a := F32 rs1 in W rd (s32 (f32_classify a)).

(* @src src/core/execute.cpp 830-834 exec_feq_s *)
Definition exec_feq_s : cpu unit :=
  fp_inst_prep ;;;
  let! a := F32 rs1 in let! b := F32 rs2 in
  let! v := sf (fun _ => sf_eq f32 a b) in
  W rd (b2z v) ;;; fp_update_exception_flags.

(* @src src/core/execute.cpp 835-839 exec_flt_s *)
Definition exec_flt_s : cpu unit :=
  fp_inst_prep ;;;
  let! a := F32 rs1 in let! b := F32 rs2 in
  let! v := sf (fun _ => sf_lt f32 a b) in
  W rd (b2z v) ;;; fp_update_exception_flags.

(* @src src/core/execute.cpp 840-844 exec_fle_s *)
Definition exec_fle_s : cpu unit :=
  fp_inst_prep ;;;
  let! a := F32 rs1 in let! b := F32 rs2 in
  let! v := sf (fun _ => sf_le f32 a b) in
  W rd (b2z v) ;;; fp_update_exception_flags.

(* @src src/core/execute.cpp 845-850 exec_fmadd_s *)
Definition exec_fmadd_s : cpu unit :=
  fp_arith (let! a := F32 rs1 in let! b := F32 rs2 in let! c := F32 rs3 in
    let! v := sf (fun rm => sf_mulAdd f32 rm a b c) in set_F32 rd v).

(* @src src/core/execute.cpp 851-857 exec_fmsub_s *)
Definition exec_fmsub_s : cpu unit :=
  fp_arith (let! a := F32 rs1 in let! b := F32 rs2 in let! c := F32 rs3 in
    let! v := sf (fun rm => sf_mulAdd f32 rm a b (f32_neg c)) in set_F32 rd v).

(* @src src/core/execute.cpp 858-864 exec_fnmsub_s *)
Definition exec_fnmsub_s : cpu unit :=
  fp_arith (let! a := F32 rs1 in let! b := F32 rs2 in let! c := F32 rs3 in
    let! v := sf (fun rm => sf_mulAdd f32 rm (f32_neg a) b c) in set_F32 rd v).

(* @src src/core/execute.cpp 865-871 exec_fnmadd_s *)
Definition exec_fnmadd_s : cpu unit :=
  fp_arith (let! a := F32 rs1 in let! b := F32 rs2 in let! c := F32 rs3 in
    let! v := sf (fun rm => sf_mulAdd f32 rm (f32_neg a) b (f32_neg c)) in set_F32 rd v).

(** ** RV64D *)

(* @src src/core/execute.cpp 874-879 exec_fld *)
Definition exec_fld : cpu unit :=
  fp_inst_prep ;;;
  let! a := R rs1 in
  let! v := mmu_read 8 pc (u64 (a + imm)) false in
  set_F64 rd v ;;; fp_set_dirty.

(* @src src/core/execute.cpp 880-883 exec_fsd *)
Definition exec_fsd : cpu unit :=
  fp_inst_prep ;;;
  let! a := R rs1 in let! v := F64 rs2 in
  mmu_write 8 pc (u64 (a + imm)) v.

(* @src src/core/execute.cpp 884-889 exec_fadd_d *)
Definition exec_fadd_d : cpu unit :=
  fp_arith (let! a := F64 rs1 in let! b := F64 rs2 in
    let! v := sf (fun rm => sf_add f64 rm a b) in set_F64 rd v).

(* @src src/core/execute.cpp 890-895 exec_fsub_d *)
Definition exec_fsub_d : cpu unit :=
  fp_arith (let! a := F64 rs1 in let! b := F64 rs2 in
    let! v := sf (fun rm => sf_sub f64 rm a b) in set_F64 rd v).

(* @src src/core/execute.cpp 896-901 exec_fmul_d *)
Definition exec_fmul_d : cpu unit :=
  fp_arith (let! a := F64 rs1 in let! b := F64 rs2 in
    let! v := sf (fun rm => sf_mul f64 rm a b) in set_F64 rd v).

(* @src src/core/execute.cpp 902-907 exec_fdiv_d *)
Definition exec_fdiv_d : cpu unit :=
  fp_arith (let! a := F64 rs1 in let! b := F64 rs2 in
    let! v := sf (fun rm => sf_div f64 rm a b) in set_F64 rd v).

(* @src src/core/execute.cpp 908-913 exec_fsqrt_d *)
Definition exec_fsqrt_d : cpu unit :=
  fp_arith (let! a := F64 rs1 in
    let! v := sf (fun rm => sf_sqrt f64 rm a) in set_F64 rd v).

(* @src src/core/execute.cpp 914-920 exec_fsgnj_d *)
Definition exec_fsgnj_d : cpu unit :=
  fp_inst_prep ;;;
  let! f1 := F64 rs1 in let! f2 := F64 rs2 in
  set_F64 rd (Z.lor (andn f1 F64_SIGN) (Z.land f2 F64_SIGN)) ;;;
  fp_set_dirty.

(* @src src/core/execute.cpp 921-927 exec_fsgnjn_d *)
Definition exec_fsgnjn_d : cpu unit :=
  fp_inst_prep ;;;
  let! f1 := F64 rs1 in let! f2 := F64 rs2 in
  set_F64 rd (Z.lor (andn f1 F64_SIGN) (andn F64_SIGN f2)) ;;;
  fp_set_dirty.

(* @src src/core/execute.cpp 928-934 exec_fsgnjx_d *)
Definition exec_fsgnjx_d : cpu unit :=
  fp_inst_prep ;;;
  let! f1 := F64 rs1 in let! f2 := F64 rs2 in
  set_F64 rd (Z.lxor f1 (Z.land f2 F64_SIGN)) ;;;
  fp_set_dirty.

(* @src src/core/execute.cpp 935-958 exec_fmin_d *)
Definition exec_fmin_d : cpu unit :=
  fp_inst_prep ;;;
  let! f1 := F64 rs1 in let! f2 := F64 rs2 in
  when (sf_isSignalingNaN f64 f1 || sf_isSignalingNaN f64 f2) raise_NV ;;;
  let! smaller := lt_or_eq_neg f64 f64_isNegative f1 f2 in
  (if f64_isNaN f1 && f64_isNaN f2 then set_F64 rd F64_DEFAULT_NAN
   else if smaller || f64_isNaN f2 then set_F64 rd f1
   else set_F64 rd f2) ;;;
  fp_inst_end.

(* @src src/core/execute.cpp 959-982 exec_fmax_d *)
Definition exec_fmax_d : cpu unit :=
  fp_inst_prep ;;;
  let! f1 := F64 rs1 in let! f2 := F64 rs2 in
  when (sf_isSignalingNaN f64 f1 || sf_isSignalingNaN f64 f2) raise_NV ;;;
  let! greater := lt_or_eq_neg f64 f64_isNegative f2 f1 in
  (if f64_isNaN f1 && f64_isNaN f2 then set_F64 rd F64_DEFAULT_NAN
   else if greater || f64_isNaN f2 then set_F64 rd f1
   else set_F64 rd f2) ;;;
  fp_inst_end.

(* @src src/core/execute.cpp 983-989 exec_fcvt_w_d *)
Definition exec_fcvt_w_d : cpu unit :=
  fp_to_int (let! a := F64 rs1 in
    let! v := sf (fun rm => sf_to_i32 f64 rm true a) in W rd v).

(* @src src/core/execute.cpp 990-996 exec_fcvt_wu_d *)
Definition exec_fcvt_wu_d : cpu unit :=
  fp_to_int (let! a := F64 rs1 in
    let! v := sf (fun rm => sf_to_ui32 f64 rm true a) in W rd (s32 v)).

(* @src src/core/execute.cpp 997-1002 exec_fcvt_l_d *)
Definition exec_fcvt_l_d : cpu unit :=
  fp_to_int (let! a := F64 rs1 in
    let! v := sf (fun rm => sf_to_i64 f64 rm true a) in W rd v).

(* @src src/core/execute.cpp 1003-1008 exec_fcvt_lu_d *)
Definition exec_fcvt_lu_d : cpu unit :=
  fp_to_int (let! a := F64 rs1 in
    let! v := sf (fun rm => sf_to_ui64 f64 rm true a) in W rd v).

(* @src src/core/execute.cpp 1009-1014 exec_fcvt_d_w *)
Definition exec_fcvt_d_w : cpu unit :=
  fp_arith (let! a := R rs1 in
    let! v := sf (fun rm => sf_of_i32 f64 rm (s32 a)) in set_F64 rd v).

(* @src src/core/execute.cpp 1015-1020 exec_fcvt_d_wu *)
Definition exec_fcvt_d_wu : cpu unit :=
  fp_arith (let! a := R rs1 in
    let! v := sf (fun rm => sf_of_ui32 f64 rm (u32 a)) in set_F64 rd v).

(* @src src/core/execute.cpp 1021-1026 exec_fcvt_d_l *)
Definition exec_fcvt_d_l : cpu unit :=
  fp_arith (let! a := R rs1 in
    let! v := sf (fun rm => sf_of_i64 f64 rm (s64 a)) in set_F64 rd v).

(* @src src/core/execute.cpp 1027-1032 exec_fcvt_d_lu *)
Definition exec_fcvt_d_lu : cpu unit :=
  fp_arith (let! a := R rs1 in
    let! v := sf (fun rm => sf_of_ui64 f64 rm a) in set_F64 rd v).

(* @src src/core/execute.cpp 1033-1038 exec_fcvt_s_d *)
Definition exec_fcvt_s_d : cpu unit :=
  fp_arith (let! a := F64 rs1 in
    let! v := sf (fun rm => f64_to_f32 rm a) in set_F32 rd v).

(* @src src/core/execute.cpp 1039-1044 exec_fcvt_d_s *)
Definition exec_fcvt_d_s : cpu unit :=
  fp_arith (let! a := F32 rs1 in
    let! v := sf (fun rm => f32_to_f64 rm a) in set_F64 rd v).

(* @src src/core/execute.cpp 1045-1048 exec_fmv_x_d *)
Definition exec_fmv_x_d : cpu unit :=
  fp_inst_prep ;;; let! a := F64 rs1 in W rd a.

(* @src src/core/execute.cpp 1049-1053 exec_fmv_d_x *)
Definition exec_fmv_d_x : cpu unit :=
  fp_inst_prep ;;; let! a := R rs1 in set_F64 rd a ;;; fp_set_dirty.

(* @src src/core/execute.cpp 1054-1057 exec_fclass_d *)
Definition exec_fclass_d : cpu unit :=
  fp_inst_prep ;;; let! a := F64 rs1 in W rd (f64_classify a).

(* @src src/core/execute.cpp 1058-1062 exec_feq_d *)
Definition exec_feq_d : cpu unit :=
  fp_inst_prep ;;;
  let! a := F64 rs1 in let! b := F64 rs2 in
  let! v := sf (fun _ => sf_eq f64 a b) in
  W rd (b2z v) ;;; fp_update_exception_flags.

(* @src src/core/execute.cpp 1063-1067 exec_flt_d *)
Definition exec_flt_d : cpu unit :=
  fp_inst_prep ;;;
  let! a := F64 rs1 in let! b := F64 rs2 in
  let! v := sf (fun _ => sf_lt f64 a b) in
  W rd (b2z v) ;;; fp_update_exception_flags.

(* @src src/core/execute.cpp 1068-1072 exec_fle_d *)
Definition exec_fle_d : cpu unit :=
  fp_inst_prep ;;;
  let! a := F64 rs1 in let! b := F64 rs2 in
  let! v := sf (fun _ => sf_le f64 a b) in
  W rd (b2z v) ;;; fp_update_exception_flags.

(* @src src/core/execute.cpp 1073-1078 exec_fmadd_d *)
Definition exec_fmadd_d : cpu unit :=
  fp_arith (let! a := F64 rs1 in let! b := F64 rs2 in let! c := F64 rs3 in
    let! v := sf (fun rm => sf_mulAdd f64 rm a b c) in set_F64 rd v).

(* @src src/core/execute.cpp 1079-1085 exec_fmsub_d *)
Definition exec_fmsub_d : cpu unit :=
  fp_arith (let! a := F64 rs1 in let! b := F64 rs2 in let! c := F64 rs3 in
    let! v := sf (fun rm => sf_mulAdd f64 rm a b (f64_neg c)) in set_F64 rd v).

(* @src src/core/execute.cpp 1086-1092 exec_fnmsub_d *)
Definition exec_fnmsub_d : cpu unit :=
  fp_arith (let! a := F64 rs1 in let! b := F64 rs2 in let! c := F64 rs3 in
    let! v := sf (fun rm => sf_mulAdd f64 rm (f64_neg a) b c) in set_F64 rd v).

(* @src src/core/execute.cpp 1093-1099 exec_fnmadd_d *)
Definition exec_fnmadd_d : cpu unit :=
  fp_arith (let! a := F64 rs1 in let! b := F64 rs2 in let! c := F64 rs3 in
    let! v := sf (fun rm => sf_mulAdd f64 rm (f64_neg a) b (f64_neg c)) in set_F64 rd v).

(** ** Compressed loads and stores *)

(* @src src/core/execute.cpp 1142-1146 exec_c_fld *)
Definition exec_c_fld : cpu unit :=
  fp_inst_prep ;;;
  let! a := R rs1 in
  let! v := mmu_read 8 pc (u64 (a + imm)) false in set_F64 rd v.

(* @src src/core/execute.cpp 1155-1158 exec_c_fsd *)
Definition exec_c_fsd : cpu unit :=
  fp_inst_prep ;;;
  let! a := R rs1 in let! v := F64 rs2 in
  mmu_write 8 pc (u64 (a + imm)) v.

(* @src src/core/execute.cpp 1162-1166 exec_c_fldsp *)
Definition exec_c_fldsp : cpu unit :=
  fp_inst_prep ;;;
  let! a := R 2 in
  let! v := mmu_read 8 pc (u64 (a + imm)) false in set_F64 rd v.

(* @src src/core/execute.cpp 1206-1209 exec_c_fsdsp *)
Definition exec_c_fsdsp : cpu unit :=
  fp_inst_prep ;;;
  let! a := R 2 in let! v := F64 rs2 in
  mmu_write 8 pc (u64 (a + imm)) v.
End ExecFloat.

(** A library that returns zero everywhere: it shows that the laws can hold, and
    the concrete runs of the integer instructions use it. *)
Definition zero_ops : float_ops :=
  {| sf_add _ _ _ := (0, 0); sf_sub _ _ _ := (0, 0); sf_mul _ _ _ := (0, 0);
     sf_div _ _ _ := (0, 0); sf_sqrt _ _ := (0, 0); sf_mulAdd _ _ _ _ := (0, 0);
     sf_eq _ _ := (false, 0); sf_lt _ _ := (false, 0); sf_le _ _ := (false, 0);
     sf_lt_quiet _ _ := (false, 0); sf_isSignalingNaN _ := false;
     sf_to_i32 _ _ _ := (0, 0); sf_to_ui32 _ _ _ := (0, 0);
     sf_to_i64 _ _ _ := (0, 0); sf_to_ui64 _ _ _ := (0, 0);
     sf_of_i32 _ _ := (0, 0); sf_of_ui32 _ _ := (0, 0);
     sf_of_i64 _ _ := (0, 0); sf_of_ui64 _ _ := (0, 0);
     sf_sign _ := false; sf_exp _ := 0; sf_frac _ := 0; sf_isNaN _ := false;
     sf_isSigNaN _ := false |}.
Definition zero_softfloat : SoftFloat :=
  {| f32 := zero_ops; f64 := zero_ops; f64_to_f32 _ _ := (0, 0); f32_to_f64 _ _ := (0, 0) |}.

Lemma zero_ops_laws w : 0 <= w -> float_ops_laws w zero_ops.
Proof.
  intros Hw. assert (0 < 2 ^ w) by (by apply Z.pow_pos_nonneg).
  split; intros; unfold sf_result, sf_int_result, fits; simpl; lia.
Qed.

#[export] Instance zero_softfloat_laws : @SoftFloatLaws zero_softfloat.
Proof.
  split; [by apply zero_ops_laws|by apply zero_ops_laws|..];
    intros; unfold sf_result, fits; simpl; lia.
Qed.
