(* ===== verification/Dispatch.v ===== *)
(** * Dispatch of a decoded instruction

    The decoder stores the address of [exec_<name>] with the name; calling the
    decoded instruction is a dispatch on the name. *)

From stdpp Require Import gmap.
From S2P Require Import Prelude Bits Hart HartInv Machine Bus Decoder Mmu MmuSpec CsrAccess.
From S2P Require Import Execute ExecFloat.

(* @src include/core/decoder.hpp 142-147 DecodedInsn::operator() *)
Definition exec_insn {D : Type} `{Platform D} `{SoftFloat} (d : DecodedInsn) :
    M (mach D) exn unit :=
  match d_iname d with
  | rv_add => exec_add d
  | rv_addi => exec_addi d
  | rv_addiw => exec_addiw d
  | rv_addw => exec_addw d
  | rv_and => exec_and d
  | rv_andi => exec_andi d
  | rv_auipc => exec_auipc d
  | rv_beq => exec_beq d
  | rv_bge => exec_bge d
  | rv_bgeu => exec_bgeu d
  | rv_blt => exec_blt d
  | rv_bltu => exec_bltu d
  | rv_bne => exec_bne d
  | rv_fence => exec_fence
  | rv_fence_i => exec_fence_i
  | rv_jal => exec_jal d
  | rv_jalr => exec_jalr d
  | rv_lb => exec_lb d
  | rv_lbu => exec_lbu d
  | rv_ld => exec_ld d
  | rv_lh => exec_lh d
  | rv_lhu => exec_lhu d
  | rv_lui => exec_lui d
  | rv_lw => exec_lw d
  | rv_lwu => exec_lwu d
  | rv_or => exec_or d
  | rv_ori => exec_ori d
  | rv_sb => exec_sb d
  | rv_sd => exec_sd d
  | rv_sh => exec_sh d
  | rv_sw => exec_sw d
  | rv_sll => exec_sll d
  | rv_slli => exec_slli d
  | rv_slliw => exec_slliw d
  | rv_sllw => exec_sllw d
  | rv_slt => exec_slt d
  | rv_slti => exec_slti d
  | rv_sltiu => exec_sltiu d
  | rv_sltu => exec_sltu d
  | rv_sra => exec_sra d
  | rv_srai => exec_srai d
  | rv_sraiw => exec_sraiw d
  | rv_sraw => exec_sraw d
  | rv_srl => exec_srl d
  | rv_srli => exec_srli d
  | rv_srliw => exec_srliw d
  | rv_srlw => exec_srlw d
  | rv_sub => exec_sub d
  | rv_subw => exec_subw d
  | rv_xor => exec_xor d
  | rv_xori => exec_xori d
  | rv_csrrc => exec_csrrc d
  | rv_csrrci => exec_csrrci d
  | rv_csrrs => exec_csrrs d
  | rv_csrrsi => exec_csrrsi d
  | rv_csrrw => exec_csrrw d
  | rv_csrrwi => exec_csrrwi d
  | rv_ebreak => exec_ebreak d
  | rv_ecall => exec_ecall d
  | rv_mret => exec_mret d
  | rv_sret => exec_sret d
  | rv_wfi => exec_wfi d
  | rv_sfence_vma => exec_sfence_vma d
  | rv_mul => exec_mul d
  | rv_mulh => exec_mulh d
  | rv_mulhsu => exec_mulhsu d
  | rv_mulhu => exec_mulhu d
  | rv_mulw => exec_mulw d
  | rv_div => exec_div d
  | rv_divu => exec_divu d
  | rv_divuw => exec_divuw d
  | rv_divw => exec_divw d
  | rv_rem => exec_rem d
  | rv_remu => exec_remu d
  | rv_remuw => exec_remuw d
  | rv_remw => exec_remw d
  | rv_lr_d => exec_lr_d d
  | rv_lr_w => exec_lr_w d
  | rv_sc_d => exec_sc_d d
  | rv_sc_w => exec_sc_w d
  | rv_amoadd_d => exec_amoadd_d d
  | rv_amoadd_w => exec_amoadd_w d
  | rv_amoand_d => exec_amoand_d d
  | rv_amoand_w => exec_amoand_w d
  | rv_amoor_d => exec_amoor_d d
  | rv_amoor_w => exec_amoor_w d
  | rv_amoxor_d => exec_amoxor_d d
  | rv_amoxor_w => exec_amoxor_w d
  | rv_amomax_d => exec_amomax_d d
  | rv_amomax_w => exec_amomax_w d
  | rv_amomaxu_d => exec_amomaxu_d d
  | rv_amomaxu_w => exec_amomaxu_w d
  | rv_amomin_d => exec_amomin_d d
  | rv_amomin_w => exec_amomin_w d
  | rv_amominu_d => exec_amominu_d d
  | rv_amominu_w => exec_amominu_w d
  | rv_amoswap_d => exec_amoswap_d d
  | rv_amoswap_w => exec_amoswap_w d
  | rv_flw => exec_flw d
  | rv_fsw => exec_fsw d
  | rv_fadd_s => exec_fadd_s d
  | rv_fsub_s => exec_fsub_s d
  | rv_fmul_s => exec_fmul_s d
  | rv_fdiv_s => exec_fdiv_s d
  | rv_fsqrt_s => exec_fsqrt_s d
  | rv_fsgnj_s => exec_fsgnj_s d
  | rv_fsgnjn_s => exec_fsgnjn_s d
  | rv_fsgnjx_s => exec_fsgnjx_s d
  | rv_fmin_s => exec_fmin_s d
  | rv_fmax_s => exec_fmax_s d
  | rv_fclass_s => exec_fclass_s d
  | rv_feq_s => exec_feq_s d
  | rv_flt_s => exec_flt_s d
  | rv_fle_s => exec_fle_s d
  | rv_fmadd_s => exec_fmadd_s d
  | rv_fmsub_s => exec_fmsub_s d
  | rv_fnmsub_s => exec_fnmsub_s d
  | rv_fnmadd_s => exec_fnmadd_s d
  | rv_fcvt_w_s => exec_fcvt_w_s d
  | rv_fcvt_wu_s => exec_fcvt_wu_s d
  | rv_fcvt_l_s => exec_fcvt_l_s d
  | rv_fcvt_lu_s => exec_fcvt_lu_s d
  | rv_fcvt_s_w => exec_fcvt_s_w d
  | rv_fcvt_s_wu => exec_fcvt_s_wu d
  | rv_fcvt_s_l => exec_fcvt_s_l d
  | rv_fcvt_s_lu => exec_fcvt_s_lu d
  | rv_fmv_x_w => exec_fmv_x_w d
  | rv_fmv_w_x => exec_fmv_w_x d
  | rv_fld => exec_fld d
  | rv_fsd => exec_fsd d
  | rv_fadd_d => exec_fadd_d d
  | rv_fsub_d => exec_fsub_d d
  | rv_fmul_d => exec_fmul_d d
  | rv_fdiv_d => exec_fdiv_d d
  | rv_fsqrt_d => exec_fsqrt_d d
  | rv_fsgnj_d => exec_fsgnj_d d
  | rv_fsgnjn_d => exec_fsgnjn_d d
  | rv_fsgnjx_d => exec_fsgnjx_d d
  | rv_fmin_d => exec_fmin_d d
  | rv_fmax_d => exec_fmax_d d
  | rv_fclass_d => exec_fclass_d d
  | rv_feq_d => exec_feq_d d
  | rv_flt_d => exec_flt_d d
  | rv_fle_d => exec_fle_d d
  | rv_fmadd_d => exec_fmadd_d d
  | rv_fmsub_d => exec_fmsub_d d
  | rv_fnmsub_d => exec_fnmsub_d d
  | rv_fnmadd_d => exec_fnmadd_d d
  | rv_fcvt_w_d => exec_fcvt_w_d d
  | rv_fcvt_wu_d => exec_fcvt_wu_d d
  | rv_fcvt_l_d => exec_fcvt_l_d d
  | rv_fcvt_lu_d => exec_fcvt_lu_d d
  | rv_fcvt_d_w => exec_fcvt_d_w d
  | rv_fcvt_d_wu => exec_fcvt_d_wu d
  | rv_fcvt_d_l => exec_fcvt_d_l d
  | rv_fcvt_d_lu => exec_fcvt_d_lu d
  | rv_fcvt_s_d => exec_fcvt_s_d d
  | rv_fcvt_d_s => exec_fcvt_d_s d
  | rv_fmv_x_d => exec_fmv_x_d d
  | rv_fmv_d_x => exec_fmv_d_x d
  | rv_c_nop => exec_c_nop
  | rv_c_addi => exec_c_addi d
  | rv_c_addiw => exec_c_addiw d
  | rv_c_li => exec_c_li d
  | rv_c_addi16sp => exec_c_addi16sp d
  | rv_c_lui => exec_c_lui d
  | rv_c_srli => exec_c_srli d
  | rv_c_srai => exec_c_srai d
  | rv_c_andi => exec_c_andi d
  | rv_c_sub => exec_c_sub d
  | rv_c_xor => exec_c_xor d
  | rv_c_or => exec_c_or d
  | rv_c_and => exec_c_and d
  | rv_c_subw => exec_c_subw d
  | rv_c_addw => exec_c_addw d
  | rv_c_j => exec_c_j d
  | rv_c_beqz => exec_c_beqz d
  | rv_c_bnez => exec_c_bnez d
  | rv_c_addi4spn => exec_c_addi4spn d
  | rv_c_fld => exec_c_fld d
  | rv_c_lw => exec_c_lw d
  | rv_c_ld => exec_c_ld d
  | rv_c_fsd => exec_c_fsd d
  | rv_c_sw => exec_c_sw d
  | rv_c_sd => exec_c_sd d
  | rv_c_slli => exec_c_slli d
  | rv_c_fldsp => exec_c_fldsp d
  | rv_c_lwsp => exec_c_lwsp d
  | rv_c_ldsp => exec_c_ldsp d
  | rv_c_jr => exec_c_jr d
  | rv_c_mv => exec_c_mv d
  | rv_c_ebreak => exec_c_ebreak d
  | rv_c_jalr => exec_c_jalr d
  | rv_c_add => exec_c_add d
  | rv_c_fsdsp => exec_c_fsdsp d
  | rv_c_swsp => exec_c_swsp d
  | rv_c_sdsp => exec_c_sdsp d
  | rv_c_inv => exec_c_inv d
  | rv_inv => exec_inv d
  end.
