(* ===== verification/ExecSpec.v ===== *)
(** * Every instruction keeps the machine well formed

    [exec_safe]: from a well-formed machine, a decoded instruction returns, stalls
    (WFI) or raises a synchronous trap of its own pc; the machine stays well formed
    (CSRs legal, registers in range, the pc even) and the SoftFloat flags are clear
    again, so the assertion of the floating-point instructions never fails. *)

From stdpp Require Import gmap.
From S2P Require Import Prelude Bits Hart HartInv Machine Bus Decoder Mmu MmuSpec CsrAccess.
From S2P Require Import Execute ExecFloat Dispatch.

(** What may leave an instruction. *)
Definition exec_exn (d : DecodedInsn) (e : exn) : Prop :=
  match e with
  | ETrap t => trap_pc t = d_pc d /\ fits 64 (trap_tval t) /\
      is_interrupt (trap_cause t) = false /\ trap_cause t <> TrapCause_None
  | EWfi => True
  | _ => False
  end.

(** The names whose immediate is added to the pc. *)
Definition jump_iname (n : Iname) : bool :=
  match n with
  | rv_beq | rv_bge | rv_bgeu | rv_blt | rv_bltu | rv_bne | rv_jal
  | rv_c_j | rv_c_beqz | rv_c_bnez => true
  | _ => false
  end.

(** What decoding gives (with the program counter of a well-formed hart). *)
Record decoded_ok (d : DecodedInsn) : Prop := {
  dk_ops : operands_ok (d_ops d);
  dk_insn : fits 32 (d_insn d);
  dk_pc : fits 64 (d_pc d);
  dk_even : Z.testbit (d_pc d) 0 = false;
  dk_jump : jump_iname (d_iname d) = true -> Z.testbit (d_imm d) 0 = false;
}.

Lemma mem_trap_exec d a n t e : fits 64 a -> mem_trap (d_pc d) a n t e -> exec_exn d e.
Proof.
  intros Ha (c & i & -> & Hi & Hc). simpl. split_and!; [done|apply uwrap_fits; lia| |].
  - destruct Hc as [->| ->]; destruct t; done.
  - destruct Hc as [->| ->]; destruct t; done.
Qed.

Lemma illegal_trap_exec d e : fits 32 (d_insn d) -> illegal_trap (d_pc d) (d_insn d) e -> exec_exn d e.
Proof.
  intros Hi ->. simpl. split_and!; try done. eapply fits_le; [|exact Hi]. lia.
Qed.

Lemma even_add x y : Z.testbit x 0 = false -> Z.testbit y 0 = false ->
  Z.testbit (u64 (x + y)) 0 = false.
Proof.
  rewrite uwrap_spec by lia. rewrite !Z.bit0_odd, Z.odd_add. intros -> ->. done.
Qed.
Lemma even_andn x : Z.testbit (u64 (andn x 1)) 0 = false.
Proof. rewrite uwrap_spec by lia. unfold andn. rewrite Z.ldiff_spec. simpl. apply andb_false_r. Qed.

Section Primitives.
Context {D : Type} `{PlatformLaws D}.
Abbreviation cpu := (M (mach D) exn).

(** Between instructions no SoftFloat flag is pending; inside a floating-point
    instruction the five flags may be. *)
Definition ok0 (m : mach D) : Prop := mach_ok m /\ softfloat_exceptionFlags m = 0.
Definition ok5 (m : mach D) : Prop := mach_ok m /\ fits 5 (softfloat_exceptionFlags m).

Lemma spec_ok0 (X : exn -> Prop) {A} (c : cpu A) V :
  stable softfloat_exceptionFlags c -> spec mach_ok X c V -> spec ok0 X c V.
Proof.
  intros Hs Hc m [Hm Hf]. specialize (Hc m Hm). specialize (Hs m).
  destruct (c m) as [[a|e] m']; simpl in *; destruct Hc; (split; [split; [done|congruence]|done]).
Qed.
Lemma spec_ok5 (X : exn -> Prop) {A} (c : cpu A) V :
  stable softfloat_exceptionFlags c -> spec mach_ok X c V -> spec ok5 X c V.
Proof.
  intros Hs Hc m [Hm Hf]. specialize (Hc m Hm). specialize (Hs m).
  destruct (c m) as [[a|e] m']; simpl in *; destruct Hc; (split; [split; [done|congruence]|done]).
Qed.

Lemma hart_ok_gprs h v : length v = 32%nat -> Forall (fits 64) v -> hart_ok h ->
  hart_ok (set_gprs v h).
Proof. intros Hl Hf []. by split. Qed.
Lemma hart_ok_fprs h v : length v = 32%nat -> Forall (fits 64) v -> hart_ok h ->
  hart_ok (set_fprs v h).
Proof. intros Hl Hf []. by split. Qed.
Lemma hart_ok_pc h v : fits 64 v -> Z.testbit v 0 = false -> hart_ok h -> hart_ok (set_pc v h).
Proof. intros Hl Hf []. by split. Qed.
Lemma hart_ok_priv h v : fits 2 v -> hart_ok h -> hart_ok (set_priv v h).
Proof. intros Hl []. by split. Qed.
Lemma hart_ok_icp h b : hart_ok h -> hart_ok (set_interrupt_check_pending b h).
Proof. intros []. by split. Qed.

(** A hart update that keeps the hart well formed. *)
Lemma spec_upd_hart (I : mach D -> Prop) (X : exn -> Prop) f :
  (I = ok0 \/ I = ok5) -> (forall h, hart_ok h -> hart_ok (f h)) ->
  spec I X (modify (upd_hart f)) (fun _ => True).
Proof.
  intros HI Hf. apply spec_modify; [|done]. intros m Hm.
  destruct HI as [-> | ->]; destruct Hm as [[Hh ? ? ?] ?];
    (split; [split; [by apply Hf|done|done|done]|done]).
Qed.

Lemma RegisterFile_read_fits rf i : Forall (fits 64) rf -> fits 64 (RegisterFile_read rf i).
Proof.
  intros Hf. unfold RegisterFile_read. case_match; [|by split].
  destruct (le_lt_dec (length rf) (Z.to_nat i)).
  - rewrite nth_overflow by done. by split.
  - rewrite List.Forall_forall in Hf. by apply Hf, nth_In.
Qed.

Lemma spec_R (I : mach D -> Prop) X i : (I = ok0 \/ I = ok5) -> spec I X (R i) (fits 64).
Proof.
  intros HI. apply spec_gets. intros m Hm.
  apply RegisterFile_read_fits. destruct HI as [-> | ->]; apply Hm.
Qed.

Lemma spec_W (I : mach D -> Prop) X i v : (I = ok0 \/ I = ok5) -> spec I X (W i v) (fun _ => True).
Proof.
  intros HI. apply spec_upd_hart; [done|]. intros h Hh. destruct (hk_gprs h Hh) as [Hl Hf].
  unfold RegisterFile_write. case_match; [|by apply hart_ok_gprs].
  apply hart_ok_gprs; [by rewrite length_insert| |done].
  apply Forall_insert; [done|]. apply uwrap_fits. lia.
Qed.

Lemma spec_set_hart_pc X v : Z.testbit (u64 v) 0 = false ->
  spec ok0 X (set_hart_pc v) (fun _ => True).
Proof.
  intros He. apply spec_upd_hart; [by left|]. intros h. apply hart_ok_pc; [|done].
  apply uwrap_fits. lia.
Qed.

Lemma spec_check_pending X : spec ok0 X set_check_pending (fun _ => True).
Proof. apply spec_upd_hart; [by left|]. intros h. apply hart_ok_icp. Qed.

Lemma spec_upd_mmu (X : exn -> Prop) f :
  (forall u, length (itlb_ (f u)) = length (itlb_ u) /\ length (dtlb_ (f u)) = length (dtlb_ u)) ->
  spec ok0 X (modify (upd_mmu f)) (fun _ => True).
Proof.
  intros Hf. apply spec_modify; [|done]. intros m [[Hh Hd [T1 T2] Ho] Hfl].
  destruct (Hf (mmu m)) as [E1 E2]. split; [|done]. split; [done|done| |done].
  simpl. split; congruence.
Qed.

Lemma stable_flags_mem {A} (c : cpu A) : framed mem_frame c -> stable softfloat_exceptionFlags c.
Proof. apply framed_stable. intros m m' []. done. Qed.
Lemma stable_flags_csr {A} (c : cpu A) : framed csr_frame c -> stable softfloat_exceptionFlags c.
Proof. apply framed_stable. intros m m' []. done. Qed.

Lemma spec_wunchecked (I : mach D -> Prop) (X : exn -> Prop) a v : (I = ok0 \/ I = ok5) -> fits 64 v ->
  spec I X (write_unchecked a v) (fun _ => True).
Proof.
  intros HI Hv.
  assert (spec mach_ok X (write_unchecked (D := D) a v) (fun _ => True)) as Hs.
  { intros m Hm. pose proof (write_unchecked_legal a v m Hv (hk_csr _ (mk_hart _ Hm))) as Hl.
    pose proof (write_unchecked_frame a v m) as Hf.
    destruct (write_unchecked_returns a v m) as [m' E]. rewrite E in *.
    split; [|done]. by eapply csr_frame_ok. }
  destruct HI as [-> | ->]; [apply spec_ok0|apply spec_ok5]; try done;
    apply stable_flags_csr, write_unchecked_frame.
Qed.

Section Insn.
Variable d : DecodedInsn.
Hypothesis Hd : decoded_ok d.
Abbreviation X := (exec_exn d).

Lemma spec_read n a amo : (0 < n)%nat -> fits 64 a ->
  spec ok0 X (mmu_read n (d_pc d) a amo) (fits (8 * Z.of_nat n)).
Proof.
  intros. apply spec_ok0; [apply stable_flags_mem, mmu_read_frame|].
  eapply spec_exn; [by apply spec_mmu_read|]. intros e. by apply mem_trap_exec.
Qed.
Lemma spec_write n a v : (0 < n)%nat -> fits 64 a ->
  spec ok0 X (mmu_write n (d_pc d) a v) (fun _ => True).
Proof.
  intros. apply spec_ok0; [apply stable_flags_mem, mmu_write_frame|].
  eapply spec_exn; [by apply spec_mmu_write|]. intros e. by apply mem_trap_exec.
Qed.
Lemma spec_probe a : fits 64 a -> spec ok0 X (probe_store (d_pc d) a) (fun _ => True).
Proof.
  intros. apply spec_ok0; [apply stable_flags_mem, probe_store_frame|].
  eapply spec_exn; [by apply spec_probe_store|]. intros e. by apply mem_trap_exec.
Qed.
Lemma spec_rchecked a : spec ok0 X (read_checked a (d_pc d) (d_insn d)) (fits 64).
Proof.
  apply spec_ok0; [apply stable_flags_csr, read_checked_frame|].
  eapply spec_exn; [by apply spec_read_checked|]. intros e. apply illegal_trap_exec, Hd.
Qed.
Lemma spec_wchecked a v : fits 64 v ->
  spec ok0 X (write_checked a (d_pc d) (d_insn d) v) (fun _ => True).
Proof.
  intros. apply spec_ok0; [apply stable_flags_csr, write_checked_frame|].
  eapply spec_exn; [by apply spec_write_checked|]. intros e. apply illegal_trap_exec, Hd.
Qed.
Lemma spec_raise (I : mach D -> Prop) {A} cause tval (V : A -> Prop) : fits 64 tval ->
  is_interrupt cause = false -> cause <> TrapCause_None ->
  spec I X (raise_exception (d_pc d) cause tval) V.
Proof. intros. by apply spec_throw. Qed.
Lemma insn_fits64 : fits 64 (d_insn d).
Proof. eapply fits_le; [|apply Hd]. lia. Qed.
End Insn.
End Primitives.

Lemma spec_gets_hart {D} `{Platform D} (X : exn -> Prop) : spec (ok0 (D := D)) X (gets hart) hart_ok.
Proof. apply spec_gets. intros m [Hm _]. apply Hm. Qed.
Lemma spec_gets_own {D} `{Platform D} (I : mach D -> Prop) (X : exn -> Prop) a : (I = ok0 \/ I = ok5) ->
  spec I X (gets (fun m => read_own (hart m) a)) (fits 64).
Proof.
  intros HI. apply spec_gets. intros m Hm. apply read_own_fits.
  destruct HI as [-> | ->]; apply Hm.
Qed.
Lemma spec_gets_any {D A} (I : mach D -> Prop) (X : exn -> Prop) (f : mach D -> A) :
  spec I X (gets f) (fun _ => True).
Proof. by apply spec_gets. Qed.

Lemma mpp_fits x : fits 2 (Z.shiftr (Z.land x MSTATUS_MPP) MPP_SHIFT).
Proof.
  rewrite Z.shiftr_land. change (Z.shiftr MSTATUS_MPP MPP_SHIFT) with (Z.ones 2).
  rewrite Z.land_ones by lia. apply (uwrap_fits 2). lia.
Qed.
Lemma spp_fits x : fits 2 (Z.shiftr (Z.land x MSTATUS_SPP) SPP_SHIFT).
Proof.
  rewrite Z.shiftr_land. change (Z.shiftr MSTATUS_SPP SPP_SHIFT) with (Z.ones 1).
  rewrite Z.land_ones by lia. apply (fits_le 1); [lia|]. apply (uwrap_fits 1). lia.
Qed.

Lemma epc_even h a : csr_legal h -> csr_class_at a = CMEPC \/ csr_class_at a = CSEPC ->
  Z.testbit (u64 (read_own h a)) 0 = false.
Proof.
  intros Hh Hc. rewrite uwrap_spec by lia.
  assert (read_own h a = EPC_read h a) as ->.
  { unfold read_own. by destruct Hc as [-> | ->]. }
  unfold EPC_read. rewrite Z.land_spec. change (Z.testbit EPC_mask 0) with false.
  by rewrite !andb_false_r.
Qed.

(** Range conditions of the operands of a primitive. *)
Ltac range_tac :=
  lazymatch goal with
  | |- fits 64 (uwrap _ _) => apply uwrap_fits; lia
  | |- fits 64 (andn _ _) => apply fits_andn; [lia|]; range_tac
  | |- fits 64 (Z.lor _ _) => apply fits_lor; [lia| |]; range_tac
  | |- fits 64 (bits 32 _ _ _) => apply (fits_le 5); [lia|]; apply bits_reg; lia
  | |- fits 64 0 => by split
  | |- fits 64 MSTATUS_FS => by split
  | |- fits 64 FFLAGS_NV => by split
  | |- fits 64 (d_pc _) => match goal with Hd : decoded_ok _ |- _ => apply Hd end
  | |- fits 64 (d_insn _) => match goal with Hd : decoded_ok _ |- _ => apply (insn_fits64 _ Hd) end
  | |- _ => assumption
  end.

Ltac even_pc Hd :=
  first [ apply even_andn
        | apply even_add; [apply Hd | apply Hd; match goal with E : d_iname _ = _ |- _ => by rewrite E end]
        | rewrite uwrap_idemp; even_pc Hd ].

Ltac spec_prim Hd :=
  lazymatch goal with
  | |- spec _ _ (R _) _ => apply spec_R; (by left)
  | |- spec _ _ (W _ _) _ => apply spec_W; (by left)
  | |- spec _ _ (set_hart_pc _) _ => apply spec_set_hart_pc; even_pc Hd
  | |- spec _ _ set_check_pending _ => apply spec_check_pending
  | |- spec _ _ (mmu_read _ _ _ _) _ => apply spec_read; [lia|range_tac]
  | |- spec _ _ (mmu_write _ _ _ _) _ => apply spec_write; [lia|range_tac]
  | |- spec _ _ (probe_store _ _) _ => apply spec_probe; range_tac
  | |- spec _ _ (read_checked _ _ _) _ => apply (spec_rchecked _ Hd)
  | |- spec _ _ (write_checked _ _ _ _) _ => apply (spec_wchecked _ Hd); range_tac
  | |- spec _ _ (write_unchecked _ _) _ => apply spec_wunchecked; [by left|range_tac]
  | |- spec _ _ (raise_exception _ _ _) _ => apply spec_raise; [range_tac|done|done]
  | |- spec _ _ (ret _) _ => by apply spec_ret
  end.

(** Proves a specification by following the structure of the computation. *)
Ltac spec_go Hd :=
  lazymatch goal with
  | |- spec _ _ (bind (gets hart) _) _ =>
      eapply spec_bind; [apply spec_gets_hart|]; intros ? ?; spec_go Hd
  | |- spec _ _ (bind (gets (fun m => read_own (hart m) ?a)) _) _ =>
      eapply spec_bind; [apply (spec_gets_own _ _ a); by left|]; intros ? ?; spec_go Hd
  | |- spec _ _ (bind (gets _) _) _ =>
      eapply spec_bind; [apply spec_gets_any|]; intros ? ?; spec_go Hd
  | |- spec _ _ (bind (when _ _) _) _ =>
      apply (spec_bind _ _ _ _ (fun _ => True)); [spec_go Hd|]; [..|intros ? ?; spec_go Hd]
  | |- spec _ _ (bind _ _) _ =>
      eapply spec_bind; [spec_go Hd|]; [..|intros ? ?; spec_go Hd]
  | |- spec _ _ (when _ _) _ => apply spec_when; [done|]; spec_go Hd
  | |- spec _ _ (let _ := _ in _) _ => cbv zeta; spec_go Hd
  | |- spec _ _ (if ?b then _ else _) _ => destruct b eqn:?; spec_go Hd
  | |- _ => try (spec_prim Hd)
  end.

Section Integer.
Context {D : Type} `{PlatformLaws D}.
Variable d : DecodedInsn.
Hypothesis Hd : decoded_ok d.
Abbreviation safe c := (spec (ok0 (D := D)) (exec_exn d) c (fun _ => True)).

Lemma safe_op_rr f : safe (op_rr d f).
Proof. unfold op_rr. spec_go Hd. Qed.
Lemma safe_op_ri f : safe (op_ri d f).
Proof. unfold op_ri. spec_go Hd. Qed.
Lemma safe_op_cc f : safe (op_cc d f).
Proof. unfold op_cc. spec_go Hd. Qed.
Lemma safe_branch f : jump_iname (d_iname d) = true -> safe (branch d f).
Proof.
  intros Hj. unfold branch. spec_go Hd. apply spec_set_hart_pc, even_add; [apply Hd|].
  by apply Hd.
Qed.
Lemma safe_load n f : (0 < n)%nat -> safe (load d n f).
Proof. intros. unfold load. spec_go Hd. Qed.
Lemma safe_store n : (0 < n)%nat -> safe (store d n).
Proof. intros. unfold store. spec_go Hd. Qed.
Lemma safe_amo_d f : safe (amo_d d f).
Proof. unfold amo_d. spec_go Hd. Qed.
Lemma safe_amo_w f : safe (amo_w d f).
Proof. unfold amo_w. spec_go Hd. Qed.
Lemma safe_sc_d : safe (exec_sc_d d).
Proof. unfold exec_sc_d. spec_go Hd; by apply spec_upd_mmu. Qed.
Lemma safe_sc_w : safe (exec_sc_w d).
Proof. unfold exec_sc_w. spec_go Hd; by apply spec_upd_mmu. Qed.
Lemma safe_lr_d : safe (exec_lr_d d).
Proof. unfold exec_lr_d. spec_go Hd; by apply spec_upd_mmu. Qed.
Lemma safe_lr_w : safe (exec_lr_w d).
Proof. unfold exec_lr_w. spec_go Hd; by apply spec_upd_mmu. Qed.

(** *** Zicsr and privileged instructions *)

Lemma safe_csr : safe (exec_csrrc d) /\ safe (exec_csrrci d) /\ safe (exec_csrrs d) /\
  safe (exec_csrrsi d) /\ safe (exec_csrrw d) /\ safe (exec_csrrwi d).
Proof.
  unfold exec_csrrc, exec_csrrci, exec_csrrs, exec_csrrsi, exec_csrrw, exec_csrrwi.
  split_and!; spec_go Hd.
Qed.

Lemma spec_upd_hart0 (X : exn -> Prop) f : (forall h, hart_ok h -> hart_ok (f h)) ->
  spec (ok0 (D := D)) X (modify (upd_hart f)) (fun _ => True).
Proof. apply spec_upd_hart. by left. Qed.

(** The status values written by the returns. *)
Ltac status_fits Hh := let Hf := fresh in
  pose proof (fun a => read_own_fits _ a (hk_csr _ Hh)) as Hf;
  repeat first [ apply fits_andn; [lia|] | apply fits_lor; [lia| |] | apply Hf | case_match ];
  try (by split).

Lemma safe_mret : safe (exec_mret d).
Proof.
  unfold exec_mret. spec_go Hd.
  all: match goal with Hh : hart_ok _ |- _ =>
    first [ apply spec_set_hart_pc, epc_even; [apply Hh|by left]
          | apply spec_upd_hart0; intros h'; apply hart_ok_priv, mpp_fits
          | apply spec_wunchecked; [by left|]; status_fits Hh ] end.
Qed.

Lemma safe_sret : safe (exec_sret d).
Proof.
  unfold exec_sret. spec_go Hd.
  all: match goal with Hh : hart_ok _ |- _ =>
    first [ apply spec_set_hart_pc, epc_even; [apply Hh|by right]
          | apply spec_upd_hart0; intros h'; apply hart_ok_priv, spp_fits
          | apply spec_wunchecked; [by left|]; status_fits Hh ] end.
Qed.

Lemma safe_sfence_vma : safe (exec_sfence_vma d).
Proof.
  unfold exec_sfence_vma. spec_go Hd.
  - apply spec_upd_mmu. intros u. simpl. by rewrite !length_map.
  - apply spec_upd_mmu. intros u. simpl. split; case_match; by rewrite ?length_insert.
Qed.

Lemma safe_wfi : safe (exec_wfi d).
Proof. unfold exec_wfi. spec_go Hd. by apply spec_throw. Qed.

Lemma safe_ebreak : safe (exec_ebreak d).
Proof. unfold exec_ebreak. spec_go Hd. Qed.

(** The switch of ecall has no case for the reserved level 2. *)
Lemma safe_ecall (m : mach D) : ok0 m -> priv (hart m) <> 2 ->
  match exec_ecall d m with (Ok _, _) => False | (Throw e, m') => m' = m /\ exec_exn d e end.
Proof.
  intros [Hm _] Hp. pose proof (hk_priv _ (mk_hart _ Hm)) as [].
  unfold exec_ecall, bind, gets, raise_exception, throw, PrivM, PrivS, PrivU.
  destruct (Z.eqb_spec (priv (hart m)) 3); [by repeat split|].
  destruct (Z.eqb_spec (priv (hart m)) 1); [by repeat split|].
  destruct (Z.eqb_spec (priv (hart m)) 0); [by repeat split|]. lia.
Qed.

(** *** Jumps and compressed instructions *)

Lemma safe_jal : d_iname d = rv_jal -> safe (exec_jal d).
Proof. intros E. unfold exec_jal. spec_go Hd. Qed.
Lemma safe_jalr : safe (exec_jalr d).
Proof. unfold exec_jalr. spec_go Hd. Qed.
Lemma safe_c_branches : jump_iname (d_iname d) = true ->
  safe (exec_c_j d) /\ safe (exec_c_beqz d) /\ safe (exec_c_bnez d).
Proof.
  intros Hj. unfold exec_c_j, exec_c_beqz, exec_c_bnez. split_and!; spec_go Hd;
    (apply spec_set_hart_pc, even_add; [apply Hd|by apply Hd]).
Qed.
Lemma safe_c_jumps : safe (exec_c_jr d) /\ safe (exec_c_jalr d).
Proof. unfold exec_c_jr, exec_c_jalr. split; spec_go Hd. Qed.
Lemma safe_c_alu : safe (exec_c_addi d) /\ safe (exec_c_addiw d) /\ safe (exec_c_li d) /\
  safe (exec_c_addi16sp d) /\ safe (exec_c_lui d) /\ safe (exec_c_srli d) /\
  safe (exec_c_srai d) /\ safe (exec_c_andi d) /\ safe (exec_c_addi4spn d) /\
  safe (exec_c_slli d) /\ safe (exec_c_mv d).
Proof.
  unfold exec_c_addi, exec_c_addiw, exec_c_li, exec_c_addi16sp, exec_c_lui, exec_c_srli,
    exec_c_srai, exec_c_andi, exec_c_addi4spn, exec_c_slli, exec_c_mv.
  split_and!; spec_go Hd.
Qed.
Lemma safe_c_mem : safe (exec_c_sw d) /\ safe (exec_c_lwsp d) /\ safe (exec_c_ldsp d) /\
  safe (exec_c_swsp d) /\ safe (exec_c_sdsp d) /\ safe (exec_sw d).
Proof.
  unfold exec_c_sw, exec_c_lwsp, exec_c_ldsp, exec_c_swsp, exec_c_sdsp, exec_sw.
  split_and!; spec_go Hd.
Qed.
End Integer.
