(* ===== verification/ExecFloatSpec.v ===== *)
(** * The floating-point instructions keep the machine well formed

    The SoftFloat flags are clear before and after every instruction: what an
    operation raises is moved to fflags by the end of the instruction. *)

From stdpp Require Import gmap.
From S2P Require Import Prelude Bits Hart HartInv Machine Bus Decoder Mmu MmuSpec CsrAccess.
From S2P Require Import Execute ExecFloat Dispatch ExecSpec.

Section FloatSpec.
Context {D : Type} `{PlatformLaws D} `{SoftFloatLaws}.
Abbreviation cpu := (M (mach D) exn).
Abbreviation NX := (fun _ : exn => False).

(** [tail c]: from a state with flags pending, [c] returns with the flags clear. *)
Definition tail {A} (c : cpu A) : Prop :=
  forall m, ok5 m -> match c m with (Ok _, m') => ok0 m' | (Throw _, _) => False end.

Lemma tail_bind {A B} (c : cpu A) (k : A -> cpu B) V :
  spec ok5 NX c V -> (forall a, V a -> tail (k a)) -> tail (bind c k).
Proof.
  intros Hc Hk m Hm. specialize (Hc m Hm). unfold bind.
  destruct (c m) as [[a|e] m']; [|by destruct Hc]. destruct Hc. by apply (Hk a).
Qed.

Lemma ok0_ok5 (m : mach D) : ok0 m -> ok5 m.
Proof. intros [Hm E]. split; [done|]. rewrite E. by split. Qed.

Lemma spec_tail X (c : cpu unit) : tail c -> spec ok0 X c (fun _ => True).
Proof.
  intros Hc m Hm. specialize (Hc m (ok0_ok5 m Hm)). by destruct (c m) as [[a|e] m'].
Qed.

(** *** Registers *)

Lemma spec_F64 (I : mach D -> Prop) X r : (I = ok0 \/ I = ok5) -> spec I X (F64 r) (fits 64).
Proof.
  intros HI. apply spec_gets. intros m Hm.
  assert (hart_ok (hart m)) as Hh by (destruct HI as [-> | ->]; apply Hm).
  destruct (hk_fprs _ Hh) as [Hl Hf].
  destruct (le_lt_dec (length (fprs (hart m))) (Z.to_nat r)).
  - rewrite nth_overflow by done. by split.
  - rewrite List.Forall_forall in Hf. by apply Hf, nth_In.
Qed.

Lemma spec_F32 X r : spec ok5 X (F32 (D := D) r) (fits 32).
Proof.
  apply spec_gets. intros m Hm. unfold FPR_read_32, unbox_f32.
  case_match; [apply uwrap_fits; lia|by split].
Qed.

Lemma spec_set_F64 (I : mach D -> Prop) X r v : (I = ok0 \/ I = ok5) -> fits 64 v ->
  spec I X (set_F64 r v) (fun _ => True).
Proof.
  intros HI Hv. apply spec_upd_hart; [done|]. intros h Hh. destruct (hk_fprs h Hh) as [Hl Hf].
  apply hart_ok_fprs; [by rewrite length_insert| |done]. by apply Forall_insert.
Qed.

Lemma spec_set_F32 (I : mach D -> Prop) X r v : (I = ok0 \/ I = ok5) -> fits 32 v ->
  spec I X (set_F32 r v) (fun _ => True).
Proof.
  intros HI Hv. apply spec_set_F64; [done|]. unfold FPR_write_32, box_f32.
  apply fits_lor; [lia| |by split]. eapply fits_le; [|exact Hv]. lia.
Qed.

(** *** Calls and the epilogue *)

Lemma spec_sf {A} (op : Z -> A * Z) (V : A -> Prop) :
  (forall rm, V (fst (op rm)) /\ fits 5 (snd (op rm))) -> spec ok5 NX (sf (D := D) op) V.
Proof.
  intros Hop m [Hm Hf]. unfold sf, state. destruct (Hop (softfloat_roundingMode m)) as [Hv Hfl].
  destruct (op (softfloat_roundingMode m)) as [v fl]. split; [|done].
  split; [|by apply fits_lor]. by destruct Hm.
Qed.

Lemma spec_set_dirty (I : mach D -> Prop) X : (I = ok0 \/ I = ok5) ->
  spec I X fp_set_dirty (fun _ => True).
Proof.
  intros HI. eapply spec_bind; [by apply (spec_gets_own _ _ MSTATUS_ADDRESS)|].
  intros v Hv. apply spec_wunchecked; [done|]. apply fits_lor; [lia|done|by split].
Qed.

Lemma spec_NV : spec ok5 NX (raise_NV (D := D)) (fun _ => True).
Proof.
  eapply spec_bind; [apply (spec_gets_own _ _ FFLAGS_ADDRESS); by right|].
  intros v Hv. apply spec_wunchecked; [by right|]. apply fits_lor; [lia|done|by split].
Qed.

Lemma tail_update : tail fp_update_exception_flags.
Proof.
  intros m Hm. unfold fp_update_exception_flags. change (bind (gets ?f) ?k m) with (k (f m) m).
  cbv beta. destruct (nz (softfloat_exceptionFlags m)) eqn:E; cbn [when].
  - assert (fits 64 (softfloat_exceptionFlags m)) as Hfl by (eapply fits_le; [|apply Hm]; lia).
    generalize dependent (softfloat_exceptionFlags m). intros fl _ Hfl. revert m Hm.
    change (tail (fp_set_dirty ;;;
      let! v := gets (fun m => read_own (hart m) FFLAGS_ADDRESS) in
      write_unchecked FFLAGS_ADDRESS (Z.lor v fl) ;;; modify (set_exceptionFlags 0))).
    eapply tail_bind; [apply spec_set_dirty; by right|]. intros _ _.
    eapply tail_bind; [apply (spec_gets_own _ _ FFLAGS_ADDRESS); by right|]. intros v Hv.
    eapply tail_bind; [apply spec_wunchecked; [by right|]; by apply fits_lor|].
    intros _ _ m [Hm _]. simpl. split; [|done]. by destruct Hm.
  - simpl. split; [apply Hm|]. by apply nz_false.
Qed.

Lemma tail_end : tail fp_inst_end.
Proof. eapply tail_bind; [apply spec_set_dirty; by right|]. intros _ _. apply tail_update. Qed.

Lemma spec_lt_or_eq ops w isNeg x y : float_ops_laws w ops ->
  spec ok5 NX (lt_or_eq_neg (D := D) ops isNeg x y) (fun _ => True).
Proof.
  intros Hl. eapply spec_bind; [apply (spec_sf _ (fun _ => True)); split; [done|apply Hl]|].
  intros lt _. case_match; [by apply spec_ret|].
  eapply spec_bind; [apply (spec_sf _ (fun _ => True)); split; [done|apply Hl]|].
  intros eq _. by apply spec_ret.
Qed.
End FloatSpec.

(** Follows a computation that ends with the epilogue. *)
Ltac float_fits :=
  unfold sf_result, sf_int_result in *;
  first [ assumption | by split | apply uwrap_fits; lia
        | (eapply fits_le; [|eassumption]; lia) ].
Ltac float_prim laws :=
  lazymatch goal with
  | |- spec _ _ (F64 _) _ => apply spec_F64; by right
  | |- spec _ _ (F32 _) _ => apply spec_F32
  | |- spec _ _ (R _) _ => apply spec_R; by right
  | |- spec _ _ (W _ _) _ => apply spec_W; by right
  | |- spec _ _ (set_F64 _ _) _ => apply spec_set_F64; [by right|float_fits]
  | |- spec _ _ (set_F32 _ _) _ => apply spec_set_F32; [by right|float_fits]
  | |- spec _ _ (sf _) _ => apply spec_sf; intros; first [apply laws | split; [exact I|apply laws]]
  | |- spec _ _ raise_NV _ => apply spec_NV
  | |- spec _ _ (lt_or_eq_neg _ _ _ _) _ => eapply spec_lt_or_eq, laws
  | |- spec _ _ (if ?b then _ else _) _ => destruct b; float_prim laws
  | |- spec _ _ (when _ _) _ => apply spec_when; [done|float_prim laws]
  | |- spec _ _ (bind _ _) _ => eapply spec_bind; [float_prim laws|]; intros ? ?; cbv beta in *; float_prim laws
  end.
Ltac float_tail laws :=
  lazymatch goal with
  | |- tail fp_inst_end => apply tail_end
  | |- tail fp_update_exception_flags => apply tail_update
  | |- tail (bind (when _ _) _) =>
      apply (tail_bind _ _ (fun _ => True)); [float_prim laws|]; intros ? ?; float_tail laws
  | |- tail (bind _ _) =>
      eapply tail_bind; [float_prim laws|]; intros ? ?; cbv beta in *; float_tail laws
  end.

Section FloatInsns.
Context {D : Type} `{PlatformLaws D} `{SoftFloatLaws}.
Variable d : DecodedInsn.
Hypothesis Hd : decoded_ok d.
Abbreviation safe c := (spec (ok0 (D := D)) (exec_exn d) c (fun _ => True)).

(** The assertion of the prologue holds. *)
Lemma safe_prep : safe (fp_inst_prep d).
Proof.
  intros m Hm. unfold fp_inst_prep, bind, gets. rewrite (proj2 Hm).
  change (negb (0 =? 0)) with false. cbv beta iota.
  destruct (negb _); [|done]. split; [done|]. apply (illegal_trap_exec d); [apply Hd|done].
Qed.

Lemma safe_setup_rm : safe (fp_setup_rm d).
Proof.
  unfold fp_setup_rm. cbv zeta. eapply spec_bind.
  { case_match; [apply spec_gets_any|by apply spec_ret]. }
  intros rm _. case_match; [apply spec_raise; [apply (insn_fits64 d Hd)|done|done]|].
  apply spec_modify; [|done]. intros m [[] ?]. by split.
Qed.

(** The two frames of the arithmetic instructions. *)
Lemma safe_fp_arith (op : M (mach D) exn unit) :
  spec ok5 (fun _ => False) op (fun _ => True) -> safe (fp_arith d op).
Proof.
  intros Hop. eapply spec_bind; [apply safe_prep|]. intros _ _.
  eapply spec_bind; [apply safe_setup_rm|]. intros _ _. apply spec_tail.
  eapply tail_bind; [exact Hop|]. intros _ _. apply tail_end.
Qed.
Lemma safe_fp_to_int (op : M (mach D) exn unit) :
  spec ok5 (fun _ => False) op (fun _ => True) -> safe (fp_to_int d op).
Proof.
  intros Hop. eapply spec_bind; [apply safe_prep|]. intros _ _.
  eapply spec_bind; [apply safe_setup_rm|]. intros _ _. apply spec_tail.
  eapply tail_bind; [exact Hop|]. intros _ _. apply tail_update.
Qed.

Lemma safe_arith_s : safe (exec_fadd_s d) /\ safe (exec_fsub_s d) /\ safe (exec_fmul_s d) /\
  safe (exec_fdiv_s d) /\ safe (exec_fsqrt_s d) /\ safe (exec_fmadd_s d) /\
  safe (exec_fmsub_s d) /\ safe (exec_fnmsub_s d) /\ safe (exec_fnmadd_s d).
Proof. split_and!; apply safe_fp_arith; float_prim f32_laws. Qed.

Lemma safe_arith_d : safe (exec_fadd_d d) /\
  safe (exec_fsub_d d) /\
  safe (exec_fmul_d d) /\
  safe (exec_fdiv_d d) /\
  safe (exec_fsqrt_d d) /\
  safe (exec_fmadd_d d) /\
  safe (exec_fmsub_d d) /\
  safe (exec_fnmsub_d d) /\
  safe (exec_fnmadd_d d).
Proof. split_and!; apply safe_fp_arith; float_prim f64_laws. Qed.

(** Conversions. *)
Lemma safe_to_int_s : safe (exec_fcvt_w_s d) /\
  safe (exec_fcvt_wu_s d) /\
  safe (exec_fcvt_l_s d) /\
  safe (exec_fcvt_lu_s d).
Proof.
  split_and!; apply safe_fp_to_int; (eapply spec_bind; [apply spec_F32|]; intros a Ha;
    eapply spec_bind; [apply (spec_sf _ (fun _ => True)); split; [done|apply f32_laws]|];
    intros v _; apply spec_W; by right).
Qed.
Lemma safe_to_int_d : safe (exec_fcvt_w_d d) /\
  safe (exec_fcvt_wu_d d) /\
  safe (exec_fcvt_l_d d) /\
  safe (exec_fcvt_lu_d d).
Proof.
  split_and!; apply safe_fp_to_int; (eapply spec_bind; [apply spec_F64; by right|]; intros a Ha;
    eapply spec_bind; [apply (spec_sf _ (fun _ => True)); split; [done|apply f64_laws]|];
    intros v _; apply spec_W; by right).
Qed.
Lemma safe_of_int_s : safe (exec_fcvt_s_w d) /\
  safe (exec_fcvt_s_wu d) /\
  safe (exec_fcvt_s_l d) /\
  safe (exec_fcvt_s_lu d).
Proof. split_and!; apply safe_fp_arith; float_prim f32_laws. Qed.
Lemma safe_of_int_d : safe (exec_fcvt_d_w d) /\
  safe (exec_fcvt_d_wu d) /\
  safe (exec_fcvt_d_l d) /\
  safe (exec_fcvt_d_lu d).
Proof. split_and!; apply safe_fp_arith; float_prim f64_laws. Qed.
Lemma safe_fcvt_formats : safe (exec_fcvt_s_d d) /\ safe (exec_fcvt_d_s d).
Proof.
  split; apply safe_fp_arith.
  - float_prim f64_to_f32_law.
  - float_prim f32_to_f64_law.
Qed.

(** Comparisons, minimum and maximum. *)
Ltac after_prep := eapply spec_bind; [apply safe_prep|]; intros _ _.
Lemma safe_compare : safe (exec_feq_s d) /\
  safe (exec_flt_s d) /\
  safe (exec_fle_s d) /\
  safe (exec_feq_d d) /\
  safe (exec_flt_d d) /\
  safe (exec_fle_d d).
Proof.
  split_and!; after_prep; apply spec_tail;
    (eapply tail_bind; [first [apply spec_F32|apply spec_F64; by right]|]; intros a Ha;
     eapply tail_bind; [first [apply spec_F32|apply spec_F64; by right]|]; intros b Hb;
     eapply tail_bind; [apply (spec_sf _ (fun _ => True)); split; [done|];
       first [apply f32_laws|apply f64_laws]|]; intros v _;
     eapply tail_bind; [apply spec_W; by right|]; intros _ _; apply tail_update).
Qed.
Lemma safe_minmax_s : safe (exec_fmin_s d) /\ safe (exec_fmax_s d).
Proof. split; after_prep; apply spec_tail; float_tail f32_laws. Qed.
Lemma safe_minmax_d : safe (exec_fmin_d d) /\ safe (exec_fmax_d d).
Proof. split; after_prep; apply spec_tail; float_tail f64_laws. Qed.

(** Loads, stores, moves and sign injection raise no flag. *)
Ltac move_go :=
  lazymatch goal with
  | |- spec _ _ (bind (F64 _) _) _ => eapply spec_bind; [apply spec_F64; by left|]; intros ? ?; move_go
  | |- spec _ _ (bind (F32 _) _) _ =>
      eapply (spec_bind _ _ _ _ (fits 32)); [|intros ? ?; move_go];
      apply spec_gets; intros; unfold FPR_read_32, unbox_f32; case_match; [apply uwrap_fits; lia|by split]
  | |- spec _ _ (bind (set_F64 _ _) _) _ =>
      eapply spec_bind; [apply spec_set_F64; [by left|fits_tac]|]; intros ? ?; move_go
  | |- spec _ _ (bind (set_F32 _ _) _) _ =>
      eapply spec_bind; [apply spec_set_F32; [by left|fits_tac]|]; intros ? ?; move_go
  | |- spec _ _ (bind (R _) _) _ => eapply spec_bind; [apply spec_R; by left|]; intros ? ?; move_go
  | |- spec _ _ (bind (mmu_read _ _ _ _) _) _ =>
      eapply spec_bind; [apply (spec_read d); [lia|apply uwrap_fits; lia]|]; intros ? ?; move_go
  | |- spec _ _ (mmu_write _ _ _ _) _ => apply (spec_write d); [lia|apply uwrap_fits; lia]
  | |- spec _ _ fp_set_dirty _ => apply spec_set_dirty; by left
  | |- spec _ _ (set_F64 _ _) _ => apply spec_set_F64; [by left|fits_tac]
  | |- spec _ _ (W _ _) _ => apply spec_W; by left
  end.
Lemma safe_moves : safe (exec_flw d) /\
  safe (exec_fsw d) /\
  safe (exec_fld d) /\
  safe (exec_fsd d) /\
  safe (exec_fsgnj_s d) /\
  safe (exec_fsgnjn_s d) /\
  safe (exec_fsgnjx_s d) /\
  safe (exec_fsgnj_d d) /\
  safe (exec_fsgnjn_d d) /\
  safe (exec_fsgnjx_d d) /\
  safe (exec_fmv_x_w d) /\
  safe (exec_fmv_w_x d) /\
  safe (exec_fmv_x_d d) /\
  safe (exec_fmv_d_x d) /\
  safe (exec_fclass_s d) /\
  safe (exec_fclass_d d) /\
  safe (exec_c_fld d) /\
  safe (exec_c_fsd d) /\
  safe (exec_c_fldsp d) /\
  safe (exec_c_fsdsp d).
Proof.
  split_and!; (eapply spec_bind; [apply safe_prep|]); intros _ _; move_go.
Qed.
End FloatInsns.
