(* ===== verification/ExecSafe.v ===== *)
(** * Safety of instruction execution and of decoding

    Puts the instruction lemmas together: [exec_safe] for every instruction, the
    link from the decoder to its hypotheses, and the independence of execution from
    the operand fields the decoder leaves uninitialised. *)

From stdpp Require Import gmap.
From S2P Require Import Prelude Bits Hart HartInv Machine Bus Decoder Mmu MmuSpec CsrAccess.
From S2P Require Import Execute ExecFloat Dispatch ExecSpec ExecFloatSpec.

Section Safe.
Context {D : Type} `{PlatformLaws D} `{SoftFloatLaws}.

(** The lemmas about single instructions, as hypotheses matched by name. *)
Ltac pose_safe d Hd :=
  pose proof (safe_csr (D := D) d Hd); pose proof (safe_c_jumps (D := D) d Hd);
  pose proof (safe_c_alu (D := D) d Hd); pose proof (safe_c_mem (D := D) d Hd);
  pose proof (safe_arith_s (D := D) d Hd); pose proof (safe_arith_d (D := D) d Hd);
  pose proof (safe_to_int_s (D := D) d Hd); pose proof (safe_to_int_d (D := D) d Hd);
  pose proof (safe_of_int_s (D := D) d Hd); pose proof (safe_of_int_d (D := D) d Hd);
  pose proof (safe_fcvt_formats (D := D) d Hd); pose proof (safe_compare (D := D) d Hd);
  pose proof (safe_minmax_s (D := D) d Hd); pose proof (safe_minmax_d (D := D) d Hd);
  pose proof (safe_moves (D := D) d Hd);
  pose proof (safe_lr_d (D := D) d); pose proof (safe_lr_w (D := D) d);
  pose proof (safe_sc_d (D := D) d); pose proof (safe_sc_w (D := D) d);
  pose proof (safe_mret (D := D) d Hd); pose proof (safe_sret (D := D) d Hd);
  pose proof (safe_wfi (D := D) d Hd); pose proof (safe_sfence_vma (D := D) d Hd);
  pose proof (safe_ebreak (D := D) d Hd); pose proof (safe_jalr (D := D) d);
  destruct_and?.

(** An instruction given by one of the shared shapes. *)
Ltac by_shape d Hd :=
  lazymatch goal with
  | |- spec _ _ (op_rr _ _) _ => apply (safe_op_rr d)
  | |- spec _ _ (op_ri _ _) _ => apply (safe_op_ri d)
  | |- spec _ _ (op_cc _ _) _ => apply (safe_op_cc d)
  | |- spec _ _ (load _ _ _) _ => apply (safe_load d); lia
  | |- spec _ _ (store _ _) _ => apply (safe_store d); lia
  | |- spec _ _ (amo_d _ _) _ => apply (safe_amo_d d)
  | |- spec _ _ (amo_w _ _) _ => apply (safe_amo_w d)
  | |- spec _ _ (branch _ _) _ => apply (safe_branch d Hd)
  | |- spec _ _ (ret _) _ => by apply spec_ret
  | |- spec _ _ (W _ _) _ => apply spec_W; by left
  | |- spec _ _ (raise_exception _ _ _) _ =>
      apply (spec_raise d); [apply (insn_fits64 d Hd)|done|done]
  | |- spec _ _ (exec_inv _) _ => unfold exec_inv; by_shape d Hd
  | |- spec _ _ (exec_ebreak _) _ => apply (safe_ebreak d Hd)
  end.
Ltac head_of t := lazymatch t with ?f _ => head_of f | _ => t end.
Ltac by_name d Hd :=
  first
    [ match goal with H : spec _ _ ?c _ |- spec _ _ ?c _ => exact H end
    | match goal with |- spec _ _ ?e _ => let h := head_of e in unfold h end; by_shape d Hd ].

Lemma spec_exec_insn d : decoded_ok d -> d_iname d <> rv_ecall ->
  spec (ok0 (D := D)) (exec_exn d) (exec_insn d) (fun _ => True).
Proof.
  intros Hd Hne. pose_safe d Hd.
  pose proof (safe_jal (D := D) d Hd) as Hjal. pose proof (safe_c_branches (D := D) d Hd) as Hcb.
  unfold exec_insn. destruct (d_iname d) eqn:E; try (exfalso; exact (Hne eq_refl));
    try by_name d Hd.
  all: first [ by rewrite E | exact (Hjal eq_refl)
             | destruct (Hcb eq_refl) as (? & ? & ?); by_name d Hd ].
Qed.
End Safe.

(** ** Operand fields that an instruction reads *)

Definition uses_rd (n : Iname) : bool :=
  match n with
  | rv_c_fsdsp | rv_c_swsp | rv_c_sdsp | rv_c_fsd | rv_c_sw | rv_c_sd | rv_c_j
  | rv_inv | rv_c_inv | rv_c_nop | rv_c_ebreak => false
  | _ => true
  end.
Definition uses_rs1 (n : Iname) : bool :=
  match n with rv_c_j | rv_inv | rv_c_inv | rv_c_nop | rv_c_ebreak => false | _ => true end.
Definition uses_rs2 (n : Iname) : bool :=
  match n with
  | rv_c_j | rv_inv | rv_c_inv | rv_c_nop | rv_c_ebreak
  | rv_c_addi | rv_c_addiw | rv_c_li | rv_c_addi16sp | rv_c_lui | rv_c_slli | rv_c_fldsp
  | rv_c_lwsp | rv_c_ldsp | rv_c_addi4spn | rv_c_fld | rv_c_lw | rv_c_ld
  | rv_c_srli | rv_c_srai | rv_c_andi | rv_c_beqz | rv_c_bnez => false
  | _ => true
  end.
Definition uses_rs3 (n : Iname) : bool :=
  match n with
  | rv_fmadd_s | rv_fmsub_s | rv_fnmsub_s | rv_fnmadd_s
  | rv_fmadd_d | rv_fmsub_d | rv_fnmsub_d | rv_fnmadd_d => true
  | _ => false
  end.
Definition uses_imm (n : Iname) : bool :=
  match n with
  | rv_addi | rv_addiw | rv_andi | rv_auipc | rv_beq | rv_bge | rv_bgeu | rv_blt | rv_bltu
  | rv_bne | rv_jal | rv_jalr | rv_lb | rv_lbu | rv_ld | rv_lh | rv_lhu | rv_lui | rv_lw
  | rv_lwu | rv_ori | rv_sb | rv_sd | rv_sh | rv_sw | rv_slli | rv_slliw | rv_slti | rv_sltiu
  | rv_srai | rv_sraiw | rv_srli | rv_srliw | rv_xori
  | rv_csrrc | rv_csrrci | rv_csrrs | rv_csrrsi | rv_csrrw | rv_csrrwi
  | rv_flw | rv_fsw | rv_fld | rv_fsd
  | rv_c_addi | rv_c_addiw | rv_c_li | rv_c_addi16sp | rv_c_lui | rv_c_srli | rv_c_srai
  | rv_c_andi | rv_c_j | rv_c_beqz | rv_c_bnez | rv_c_addi4spn | rv_c_fld | rv_c_lw | rv_c_ld
  | rv_c_fsd | rv_c_sw | rv_c_sd | rv_c_slli | rv_c_fldsp | rv_c_lwsp | rv_c_ldsp
  | rv_c_fsdsp | rv_c_swsp | rv_c_sdsp => true
  | _ => false
  end.

(** Two operand records that agree on what [n] reads. *)
Definition same_used (n : Iname) (o o' : operands) : Prop :=
  (uses_rd n = true -> o_rd o = o_rd o') /\ (uses_rs1 n = true -> o_rs1 o = o_rs1 o') /\
  (uses_rs2 n = true -> o_rs2 o = o_rs2 o') /\ (uses_rs3 n = true -> o_rs3 o = o_rs3 o') /\
  (uses_imm n = true -> o_imm o = o_imm o').

Lemma exec_same_used {D} `{Platform D} `{SoftFloat} insn len n t o o' pc :
  same_used n o o' ->
  exec_insn (D := D) (mkDecodedInsn insn len n t o pc) = exec_insn (mkDecodedInsn insn len n t o' pc).
Proof.
  destruct o as [a1 a2 a3 a4 a5], o' as [b1 b2 b3 b4 b5]. intros (H1 & H2 & H3 & H4 & H5).
  cbn [o_rd o_rs1 o_rs2 o_rs3 o_imm] in *.
  destruct n; cbn [uses_rd uses_rs1 uses_rs2 uses_rs3 uses_imm] in *;
    try (specialize (H1 eq_refl); subst a1); try (specialize (H2 eq_refl); subst a2);
    try (specialize (H3 eq_refl); subst a3); try (specialize (H4 eq_refl); subst a4);
    try (specialize (H5 eq_refl); subst a5); reflexivity.
Qed.

(** The fields each format sets, checked against the tables. *)
Definition sets_imm_32 (t : Itype) : bool :=
  match t with Ity_I | Ity_U | Ity_S | Ity_J | Ity_B => true | _ => false end.
Definition sets_16 (t : Itype) : bool * bool * bool * bool :=
  match t with
  | Ity_CR => (true, true, true, false)
  | Ity_CI => (true, true, false, true)
  | Ity_CSS => (false, true, true, true)
  | Ity_CIW => (true, true, false, true)
  | Ity_CL => (true, true, false, true)
  | Ity_CS => (false, true, true, true)
  | Ity_CA => (true, true, true, false)
  | Ity_CB => (true, true, false, true)
  | Ity_CJ => (false, false, false, true)
  | _ => (false, false, false, false)
  end.
Definition entry_covered_16 (e : entry) : bool :=
  let '(rd, rs1, rs2, imm) := sets_16 e.2 in
  let n := e.1.2 in
  implb (uses_rd n) rd && implb (uses_rs1 n) rs1 && implb (uses_rs2 n) rs2 &&
  negb (uses_rs3 n) && implb (uses_imm n) imm &&
  (* C.SWSP, C.SDSP and C.FSDSP fix the funct3 that selects their immediate *)
  match e.2 with
  | Ity_CSS => field_fixed (parsed e) 15 13 &&
      existsb (Z.eqb (field_value (parsed e) 15 13)) [5; 6; 7]
  | _ => true
  end.

Lemma entries_covered_32 :
  forallb (fun e : entry => implb (uses_imm e.1.2) (sets_imm_32 e.2)) patterns_32 = true.
Proof. by vm_compute. Qed.
Lemma entries_covered_16 : forallb entry_covered_16 patterns_C = true.
Proof. by vm_compute. Qed.

Lemma same_used_32 u u' insn e : In e patterns_32 ->
  same_used e.1.2 (decode_operand_32 u insn e.2) (decode_operand_32 u' insn e.2).
Proof.
  intros Hin. pose proof entries_covered_32 as Hc. rewrite forallb_forall in Hc.
  specialize (Hc e Hin). simpl in Hc.
  split_and!; try done. intros Hu. rewrite Hu in Hc. simpl in Hc.
  unfold decode_operand_32. cbn [o_imm]. by destruct e.2.
Qed.

Lemma same_used_16 u u' insn e o o' : In e patterns_C -> pattern_matches (parsed e) insn = true ->
  decode_operand_16 u insn e.2 = Some o -> decode_operand_16 u' insn e.2 = Some o' ->
  same_used e.1.2 o o'.
Proof.
  intros Hin Hm. pose proof entries_covered_16 as Hc. rewrite forallb_forall in Hc.
  specialize (Hc e Hin). unfold entry_covered_16 in Hc.
  destruct e.2 eqn:Et; cbn [sets_16 decode_operand_16] in *; try done;
    intros Ho Ho';
    try (repeat case_match; try done);
    try (injection Ho as <-; injection Ho' as <-);
    bool_hyps; unfold same_used; cbn [o_rd o_rs1 o_rs2 o_rs3 o_imm];
    split_and!; intros Hu; rewrite Hu in *; try done.
  (* the immediate of CSS when funct3 is none of the three *)
  all: match goal with Hf : field_fixed _ 15 13 = true |- _ =>
      rewrite (pattern_field _ insn 15 13 Hm ltac:(lia) ltac:(lia) Hf) in * end;
    match goal with He : existsb _ _ = true |- _ =>
      apply existsb_exists in He as (w & Hw & Ew); apply Z.eqb_eq in Ew; rewrite Ew in * end;
    repeat destruct Hw as [<-|Hw]; done.
Qed.

Lemma exec_uninit_eq {D} `{Platform D} `{SoftFloat} u u' insn len pc d d' (m : mach D) :
  decode u insn len pc = Some d -> decode u' insn len pc = Some d' ->
  exec_insn d m = exec_insn d' m.
Proof.
  intros Hd Hd'. cut (exec_insn (D := D) d = exec_insn d'); [by intros ->|].
  unfold decode in *. destruct len.
  - destruct (find_pattern insn patterns_C) as [[name type]|] eqn:E; [|done].
    apply find_pattern_inv in E as (e & Hin & <- & <- & Hm).
    destruct (decode_operand_16 u insn e.2) as [o|] eqn:Eo; [|done].
    destruct (decode_operand_16 u' insn e.2) as [o'|] eqn:Eo'; [|done].
    injection Hd as <-. injection Hd' as <-. apply exec_same_used. by eapply same_used_16.
  - destruct (find_pattern insn patterns_32) as [[name type]|] eqn:E; [|done].
    apply find_pattern_inv in E as (e & Hin & <- & <- & Hm).
    injection Hd as <-. injection Hd' as <-. by apply exec_same_used, same_used_32.
Qed.

(** What a decoded instruction does never depends on an operand field that the
    decoder left uninitialised. *)
Theorem exec_uninit {D} `{Platform D} `{SoftFloat} u u' insn len pc d d' (m : mach D) :
  decode u insn len pc = Some d -> decode u' insn len pc = Some d' ->
  exec_insn d m = exec_insn d' m.
Proof. apply exec_uninit_eq. Qed.

Lemma decode_some u u' insn len pc d : decode u insn len pc = Some d ->
  exists d', decode u' insn len pc = Some d' /\ d_iname d = d_iname d' /\ d_pc d = d_pc d'.
Proof.
  unfold decode. destruct len.
  - destruct (find_pattern insn patterns_C) as [[name type]|] eqn:Ef; [|done].
    apply find_pattern_inv in Ef as (e & Hin & <- & <- & Hm).
    destruct (decode_operand_16_reachable u' insn e Hin Hm) as [o' ->].
    destruct (decode_operand_16 u insn e.2) as [o|]; [|done]. intros [= <-]. by eexists.
  - destruct (find_pattern insn patterns_32) as [[name type]|]; [|done]. intros [= <-]. by eexists.
Qed.

Definition Iname_ecall_dec (n : Iname) : {n = rv_ecall} + {n <> rv_ecall}.
Proof. destruct n; first [left; reflexivity | right; discriminate]. Defined.

(** ** From the decoder to the execution functions *)

Definition entry_jump_ok (len : Ilen) (e : entry) : bool :=
  implb (jump_iname e.1.2)
    match len, e.2 with
    | Normal, (Ity_B | Ity_J) => true
    | Compressed, Ity_CJ => true
    | Compressed, Ity_CB => field_fixed (parsed e) 15 13 && negb (field_value (parsed e) 15 13 =? 4)
    | _, _ => false
    end.

Lemma entries_jump_32 : forallb (entry_jump_ok Normal) patterns_32 = true.
Proof. by vm_compute. Qed.
Lemma entries_jump_16 : forallb (entry_jump_ok Compressed) patterns_C = true.
Proof. by vm_compute. Qed.

Lemma jump_even_32 u insn e : In e patterns_32 -> jump_iname e.1.2 = true ->
  Z.testbit (o_imm (decode_operand_32 u insn e.2)) 0 = false.
Proof.
  intros Hin Hj. pose proof entries_jump_32 as Hc. rewrite forallb_forall in Hc.
  specialize (Hc e Hin). unfold entry_jump_ok in Hc. rewrite Hj in Hc.
  apply jump_imm_even_32. by destruct e.2.
Qed.

Lemma jump_even_16 u insn e o : In e patterns_C -> pattern_matches (parsed e) insn = true ->
  jump_iname e.1.2 = true -> decode_operand_16 u insn e.2 = Some o ->
  Z.testbit (o_imm o) 0 = false.
Proof.
  intros Hin Hm Hj Ho. pose proof entries_jump_16 as Hc. rewrite forallb_forall in Hc.
  specialize (Hc e Hin). unfold entry_jump_ok in Hc. rewrite Hj in Hc.
  apply (jump_imm_even_16 u insn e.2 o Ho). destruct e.2; try done; [right|by left].
  simpl in Hc. bool_hyps. split; [done|].
  by rewrite (pattern_field _ insn 15 13 Hm ltac:(lia) ltac:(lia)).
Qed.

Lemma decode_decoded_ok u insn len pc d :
  operands_ok u -> fits 32 insn -> fits 64 pc -> Z.testbit pc 0 = false ->
  decode u insn len pc = Some d -> decoded_ok d.
Proof.
  intros Hu Hi Hp He E. destruct (decode_ok u insn len pc d Hu E) as (Ho & E1 & E2 & E3).
  split; [done|by rewrite E1|by rewrite E2|by rewrite E2|].
  unfold decode in E. destruct len.
  - destruct (find_pattern insn patterns_C) as [[name type]|] eqn:Ef; [|done].
    apply find_pattern_inv in Ef as (e & Hin & <- & <- & Hm).
    destruct (decode_operand_16 u insn e.2) as [o|] eqn:Eo; [|done]. injection E as <-.
    intros Hj. by eapply jump_even_16.
  - destruct (find_pattern insn patterns_32) as [[name type]|] eqn:Ef; [|done].
    apply find_pattern_inv in Ef as (e & Hin & <- & <- & Hm). injection E as <-.
    intros Hj. by apply jump_even_32.
Qed.

Lemma no_operands_ok : operands_ok no_operands.
Proof. by repeat split. Qed.

Section Theorems.
Context {D : Type} `{PlatformLaws D} `{SoftFloatLaws}.

Lemma exec_insn_safe d (m : mach D) :
  decoded_ok d -> ok0 m -> (d_iname d = rv_ecall -> priv (hart m) <> 2) ->
  match exec_insn d m with
  | (Ok _, m') => ok0 m'
  | (Throw e, m') => ok0 m' /\ exec_exn d e
  end.
Proof.
  intros Hd Hm Hp. destruct (Iname_ecall_dec (d_iname d)) as [E|E].
  - pose proof (safe_ecall d m Hm (Hp E)) as Hs. unfold exec_insn. rewrite E.
    destruct (exec_ecall d m) as [[[]|e] m']; [done|]. by destruct Hs as [-> ?].
  - pose proof (spec_exec_insn d Hd E m Hm) as Hs.
    destruct (exec_insn d m) as [[[]|e] m']; [|done]. by destruct Hs.
Qed.

Lemma exec_decoded_safe u insn len pc d (m : mach D) :
  fits 32 insn -> fits 64 pc -> Z.testbit pc 0 = false ->
  decode u insn len pc = Some d -> ok0 m ->
  (d_iname d = rv_ecall -> priv (hart m) <> 2) ->
  match exec_insn d m with
  | (Ok _, m') => ok0 m'
  | (Throw e, m') => ok0 m' /\ exec_exn d e
  end.
Proof.
  intros Hi Hp He E Hm Hec.
  destruct (decode_some u no_operands insn len pc d E) as (d' & E' & En & Epc).
  rewrite (exec_uninit_eq u no_operands insn len pc d d' m E E').
  assert (decoded_ok d') as Hd' by (eapply decode_decoded_ok; eauto using no_operands_ok).
  pose proof (exec_insn_safe d' m Hd' Hm) as Hs. rewrite <- En in Hs. specialize (Hs Hec).
  destruct (exec_insn d' m) as [[[]|e] m']; [done|].
  destruct Hs as [? Hx]. split; [done|]. unfold exec_exn in *. by rewrite Epc.
Qed.

(** C6. Whatever word is fetched, whatever the uninitialised fields hold, executing
    the decoded instruction from a well-formed machine returns, stalls on WFI or
    raises a synchronous trap with its own pc and a 64-bit value.  The machine
    stays well formed: every CSR legal, the registers in range, the pc even, no
    SoftFloat flag left pending.  The one instruction that needs more is ecall,
    whose switch does not cover the reserved privilege level 2. *)
Theorem exec_safe u insn len pc d (m : mach D) :
  fits 32 insn -> fits 64 pc -> Z.testbit pc 0 = false ->
  decode u insn len pc = Some d -> ok0 m ->
  (d_iname d = rv_ecall -> priv (hart m) <> 2) ->
  match exec_insn d m with
  | (Ok _, m') => ok0 m'
  | (Throw e, m') => ok0 m' /\ exec_exn d e
  end.
Proof. apply exec_decoded_safe. Qed.
End Theorems.

(** ** Concrete runs *)

Lemma small_machine_ok0 : ok0 small_machine.
Proof. split; [apply small_machine_ok|done]. Qed.

#[local] Existing Instance zero_softfloat.

(** c.addi a0, 1: the decoder leaves rs2 and rs3 unset. *)
Lemma exec_uninit_witness :
  exec_insn (mkDecodedInsn 0x0505 Compressed rv_c_addi Ity_CI (mkOperands 10 10 31 30 1) 0x80000000)
    small_machine =
  exec_insn (mkDecodedInsn 0x0505 Compressed rv_c_addi Ity_CI (mkOperands 10 10 5 6 1) 0x80000000)
    small_machine.
Proof.
  apply (exec_uninit (mkOperands 1 2 31 30 9) (mkOperands 3 4 5 6 7) 0x0505 Compressed 0x80000000);
    vm_compute; reflexivity.
Defined.

(** A load from an unmapped address, lw a0, 0(zero). *)
Lemma exec_safe_witness :
  let d := mkDecodedInsn 0x00002503 Normal rv_lw Ity_I (mkOperands 10 0 0 0 0) 0x80000000 in
  match exec_insn d small_machine with
  | (Ok _, m') => ok0 m'
  | (Throw e, m') => ok0 m' /\ exec_exn d e
  end.
Proof.
  apply (exec_safe no_operands 0x00002503 Normal 0x80000000);
    [ by split | by split | reflexivity | vm_compute; reflexivity | apply small_machine_ok0
    | discriminate ].
Defined.
