(* ===== verification/ExecPrecise.v ===== *)
(** * Precise traps

    An instruction that raises has not changed the architectural registers: the
    handler can repair the cause (map a page, emulate the access) and return to it.
    All instructions but csrrwi have this property; csrrwi writes [rd] before the
    write that may be refused. *)

From stdpp Require Import gmap.
From S2P Require Import Prelude Bits Hart HartInv Machine Bus Decoder Mmu MmuSpec CsrAccess.
From S2P Require Import Execute ExecFloat Dispatch ExecSpec ExecFloatSpec ExecSafe.

(** What an instruction that raises leaves alone: everything but memory (an
    unaligned store may be half done), the TLBs, mip and the re-check flag. *)
Record exc_frame {D} (m m' : mach D) : Prop := {
  ef_pc : pc (hart m') = pc (hart m);
  ef_gprs : gprs (hart m') = gprs (hart m);
  ef_fprs : fprs (hart m') = fprs (hart m);
  ef_priv : priv (hart m') = priv (hart m);
  ef_csr : forall a, a <> MIP_ADDRESS -> raw (hart m') a = raw (hart m) a;
  ef_res : reservation_address (mmu m') = reservation_address (mmu m) /\
    reservation_valid (mmu m') = reservation_valid (mmu m);
}.

#[export] Instance exc_frame_preorder {D} : PreOrder (@exc_frame D).
Proof.
  split.
  - intros m. split; auto.
  - intros m1 m2 m3 [] []. split; try congruence.
    + intros a Ha. by rewrite ef_csr1, ef_csr0.
    + destruct ef_res0, ef_res1. split; congruence.
Qed.

Section Rules.
Context {D : Type} `{PlatformLaws D}.
Abbreviation cpu := (M (mach D) exn).

Definition rprecise {A} (c : cpu A) : Prop :=
  forall m e m', c m = (Throw e, m') -> exc_frame m m'.

Lemma rprecise_framed {A} (c : cpu A) : framed exc_frame c -> rprecise c.
Proof. intros Hc m e m' E. specialize (Hc m). by rewrite E in Hc. Qed.
Lemma rprecise_nothrow {A} (c : cpu A) : nothrow c -> rprecise c.
Proof. intros Hc m e m' E. destruct (Hc m) as [a Ha]. by rewrite E in Ha. Qed.
Lemma rprecise_bind {A B} (c : cpu A) (k : A -> cpu B) :
  framed exc_frame c -> (forall a, rprecise (k a)) -> rprecise (bind c k).
Proof.
  intros Hc Hk m e m' E. specialize (Hc m). unfold bind in E.
  destruct (c m) as [[a|e1] m1]; simpl in *; [|by simplify_eq].
  etrans; [exact Hc|by eapply Hk].
Qed.
Lemma rprecise_bind_nothrow {A B} (c : cpu A) (k : A -> cpu B) :
  rprecise c -> (forall a, nothrow (k a)) -> rprecise (bind c k).
Proof.
  intros Hc Hk m e m' E. unfold bind in E.
  destruct (c m) as [[a|e1] m1] eqn:E2; [|simplify_eq; by eapply Hc].
  destruct (Hk a m1) as [b Hb]. by rewrite E in Hb.
Qed.

Lemma mem_exc_frame (m m' : mach D) : mem_frame m m' -> exc_frame m m'.
Proof. intros []. by split. Qed.
Lemma framed_mem_exc {A} (c : cpu A) : framed mem_frame c -> framed exc_frame c.
Proof. apply framed_mono, mem_exc_frame. Qed.

(** Accesses and tests that leave the registers alone. *)
Lemma exc_read n pc a amo : framed exc_frame (mmu_read (D := D) n pc a amo).
Proof. apply framed_mem_exc, mmu_read_frame. Qed.
Lemma exc_write n pc a v : framed exc_frame (mmu_write (D := D) n pc a v).
Proof. apply framed_mem_exc, mmu_write_frame. Qed.
Lemma exc_probe pc a : framed exc_frame (probe_store (D := D) pc a).
Proof. apply framed_mem_exc, probe_store_frame. Qed.
Lemma exc_rchecked a pc insn : framed exc_frame (read_checked (D := D) a pc insn).
Proof.
  apply framed_mem_exc. unfold read_checked, CSR_read_checked, Unimplemented_read_checked,
    read_unchecked, TIME_read_unchecked, check_access.
  assert (framed mem_frame (E := exn) (state (clint_get_mtime (D := D)))) as Ht.
  { refine (framed_state _ _ _). intros m. apply device_mem_frame, clint_mtime_frame. }
  destruct (csr_class_at a); repeat (frame_step || exact Ht).
Qed.
Lemma exc_check_pending : framed exc_frame (set_check_pending (D := D)).
Proof. intros m. by split. Qed.
Lemma exc_prep d : framed exc_frame (fp_inst_prep (D := D) d).
Proof. unfold fp_inst_prep. repeat frame_step. Qed.
Lemma exc_setup_rm d : framed exc_frame (fp_setup_rm (D := D) d).
Proof.
  unfold fp_setup_rm. repeat frame_step. intros m. by split.
Qed.
Lemma rprecise_wchecked a pc insn v : rprecise (write_checked (D := D) a pc insn v).
Proof.
  intros m e m' E. apply write_checked_inv in E as [[? _]|[-> _]]; [done|reflexivity].
Qed.

(** Computations that cannot raise. *)
Lemma nothrow_wunchecked a v : nothrow (write_unchecked (D := D) a v).
Proof. intros m. destruct (write_unchecked_returns a v m) as [m' ->]. by eexists. Qed.
Lemma nothrow_sf {A} (op : Z -> A * Z) : nothrow (sf (D := D) op).
Proof. intros m. unfold sf, state. destruct (op _). by eexists. Qed.
End Rules.

Ltac nothrow_go :=
  lazymatch goal with
  | |- nothrow (bind _ _) => apply nothrow_bind; [nothrow_go|intros ?; nothrow_go]
  | |- nothrow (ret _) => apply nothrow_ret
  | |- nothrow (gets _) => apply nothrow_gets
  | |- nothrow (modify _) => apply nothrow_modify
  | |- nothrow (when _ _) => apply nothrow_when; nothrow_go
  | |- nothrow (R _) => apply nothrow_gets
  | |- nothrow (F32 _) => apply nothrow_gets
  | |- nothrow (F64 _) => apply nothrow_gets
  | |- nothrow (W _ _) => apply nothrow_modify
  | |- nothrow (set_hart_pc _) => apply nothrow_modify
  | |- nothrow (set_F64 _ _) => apply nothrow_modify
  | |- nothrow (set_F32 _ _) => apply nothrow_modify
  | |- nothrow (write_unchecked _ _) => apply nothrow_wunchecked
  | |- nothrow (sf _) => apply nothrow_sf
  | |- nothrow (if ?b then _ else _) => destruct b; nothrow_go
  | |- nothrow (let _ := _ in _) => cbv zeta; nothrow_go
  | |- nothrow fp_inst_end => unfold fp_inst_end; nothrow_go
  | |- nothrow fp_set_dirty => unfold fp_set_dirty; nothrow_go
  | |- nothrow fp_update_exception_flags => unfold fp_update_exception_flags; nothrow_go
  | |- nothrow raise_NV => unfold raise_NV; nothrow_go
  | |- nothrow (lt_or_eq_neg _ _ _ _) => unfold lt_or_eq_neg; nothrow_go
  end.

Ltac exc_framed :=
  lazymatch goal with
  | |- framed _ (R _) => refine (framed_gets _ _)
  | |- framed _ (gets _) => refine (framed_gets _ _)
  | |- framed _ set_check_pending => apply exc_check_pending
  | |- framed _ (mmu_read _ _ _ _) => apply exc_read
  | |- framed _ (mmu_write _ _ _ _) => apply exc_write
  | |- framed _ (probe_store _ _) => apply exc_probe
  | |- framed _ (read_checked _ _ _) => apply exc_rchecked
  | |- framed _ (fp_inst_prep _) => apply exc_prep
  | |- framed _ (fp_setup_rm _) => apply exc_setup_rm
  | |- framed _ (F32 _) => refine (framed_gets _ _)
  | |- framed _ (F64 _) => refine (framed_gets _ _)
  end.

Ltac precise_go :=
  lazymatch goal with
  | |- rprecise (bind _ _) =>
      first [ apply rprecise_bind; [exc_framed|intros ?; precise_go]
            | apply rprecise_bind_nothrow; [precise_go|intros ?; nothrow_go] ]
  | |- rprecise (if ?b then _ else _) => destruct b; precise_go
  | |- rprecise (when ?b _) => destruct b; cbn [when]; precise_go
  | |- rprecise (let _ := _ in _) => cbv zeta; precise_go
  | |- rprecise (raise_exception _ _ _) => apply rprecise_framed; refine (framed_throw _ _)
  | |- rprecise (throw _) => apply rprecise_framed; refine (framed_throw _ _)
  | |- rprecise (write_checked _ _ _ _) => apply rprecise_wchecked
  | |- rprecise (mmu_write _ _ _ _) => apply rprecise_framed, exc_write
  | |- rprecise (op_rr _ _) => unfold op_rr; precise_go
  | |- rprecise (op_ri _ _) => unfold op_ri; precise_go
  | |- rprecise (op_cc _ _) => unfold op_cc; precise_go
  | |- rprecise (branch _ _) => unfold branch; precise_go
  | |- rprecise (load _ _ _) => unfold load; precise_go
  | |- rprecise (store _ _) => unfold store; precise_go
  | |- rprecise (amo_d _ _) => unfold amo_d; precise_go
  | |- rprecise (amo_w _ _) => unfold amo_w; precise_go
  | |- rprecise (fp_arith _ _) => unfold fp_arith; precise_go
  | |- rprecise (fp_to_int _ _) => unfold fp_to_int; precise_go
  | |- rprecise (exec_inv _) => unfold exec_inv; precise_go
  | |- rprecise (exec_ebreak _) => unfold exec_ebreak; precise_go
  | |- _ => apply rprecise_nothrow; nothrow_go
  end.

Section Precise.
Context {D : Type} `{PlatformLaws D} `{SoftFloat}.

Ltac head_of t := lazymatch t with ?f _ => head_of f | _ => t end.

Lemma rprecise_exec d : d_iname d <> rv_csrrwi -> rprecise (exec_insn (D := D) d).
Proof.
  intros Hne. unfold exec_insn. destruct (d_iname d); try (exfalso; exact (Hne eq_refl));
    match goal with |- rprecise ?e => let h := head_of e in unfold h end; precise_go.
Qed.

(** C7. Traps are precise: an instruction other than csrrwi that raises (a trap or
    the WFI stall) leaves every integer and floating-point register, the pc, the
    privilege, the CSRs (but mip) and the reservation as they were. *)
Theorem exec_precise d (m m' : mach D) e :
  d_iname d <> rv_csrrwi -> exec_insn d m = (Throw e, m') -> exc_frame m m'.
Proof. intros Hne E. by eapply rprecise_exec. Qed.
End Precise.

(** lw a0, 0(zero) from an unmapped address. *)
Lemma exec_precise_witness :
  exc_frame small_machine
    (snd (exec_insn (H0 := zero_softfloat)
       (mkDecodedInsn 0x00002503 Normal rv_lw Ity_I (mkOperands 10 0 0 0 0) 0x80000000)
       small_machine)).
Proof.
  eapply (exec_precise (H1 := zero_softfloat)
    (mkDecodedInsn 0x00002503 Normal rv_lw Ity_I (mkOperands 10 0 0 0 0) 0x80000000));
    [ discriminate | vm_compute; reflexivity ].
Defined.
