(* ===== verification/Engine.v ===== *)
(** * The execution engine (src/execution_engine.cpp)

    One iteration of the loop of [ExecutionEngine::cpu_thread] as a function, the
    WFI wait loop, and the interleaving of the CPU thread with the host thread as a
    step relation: the host ticks the devices and may ask for a shutdown at any time
    between two iterations (or two polls of the wait loop). *)

From stdpp Require Import gmap.
From S2P Require Import Prelude Bits Hart HartInv Trap Machine Bus Decoder Mmu MmuSpec CsrAccess.
From S2P Require Import Execute ExecFloat Dispatch ExecSpec ExecFloatSpec ExecSafe ExecPrecise.

(** How an iteration ends. *)
Inductive iteration_end : Set :=
  | Next            (* the loop goes on *)
  | Wait            (* a WFI: the wait loop is entered *)
  | HostException   (* catch (...): the thread stops *)
  | Terminated.     (* the process is gone: std::terminate, std::unreachable *)

(* @src include/core/decoder.hpp 132-135 Ilen *)
Definition ilen_bytes (len : Ilen) : Z := match len with Compressed => 2 | Normal => 4 end.

Section Engine.
Context {D : Type} `{Platform D} `{SoftFloat}.
Abbreviation cpu := (M (mach D) exn).
(** The indeterminate contents of the operand fields decode does not set. *)
Variable u : operands.

(* check_interrupts() throws the trap it selects. *)
Definition check_interrupts_throw : cpu unit :=
  fun m => match check_interrupts (hart m) with
           | (Some t, h) => (Throw (ETrap t), upd_hart (fun _ => h) m)
           | (None, h) => (Ok tt, upd_hart (fun _ => h) m)
           end.

Definition decode_or_die (insn : Z) (len : Ilen) (pc : Z) : cpu DecodedInsn :=
  match decode u insn len pc with
  | Some d => ret d
  | None => throw ETerminate
  end.

(* The body of the try block. *)
(* @src src/execution_engine.cpp 129-140 ExecutionEngine::cpu_thread *)
Definition cpu_body (i : Z) : cpu unit :=
  let! icp := gets (fun m => interrupt_check_pending (hart m)) in
  when ((Z.land i 0xFF =? 0) || icp) check_interrupts_throw ;;;
  let! (insn, ilen) := ifetch in
  let! pc := gets (fun m => pc (hart m)) in
  let! decoded_insn := decode_or_die insn ilen pc in
  set_hart_pc (pc + ilen_bytes ilen) ;;;
  exec_insn decoded_insn ;;;
  modify (upd_hart MINSTRET_advance).

(* mcycle_->advance(), the try block and its handlers. *)
(* @src src/execution_engine.cpp 127-174 ExecutionEngine::cpu_thread *)
Definition cpu_iteration (i : Z) (m : mach D) : iteration_end * mach D :=
  let m := upd_hart MCYCLE_advance m in
  match cpu_body i m with
  | (Ok _, m) => (Next, m)
  | (Throw EWfi, m) => (Wait, upd_hart MINSTRET_advance m)
  | (Throw (ETrap t), m) =>
      match handle_trap t (hart m) with
      | Some h => (Next, upd_hart (fun _ => h) m)
      | None => (Terminated, m)
      end
  | (Throw EHost, m) => (HostException, m)
  | (Throw ETerminate, m) => (Terminated, m)
  end.

(* One turn of the wait loop after the shutdown tests: [None] means keep waiting. *)
(* @src src/execution_engine.cpp 156-165 ExecutionEngine::cpu_thread *)
Definition wfi_poll (m : mach D) : option (iteration_end * mach D) :=
  if has_pending_enabled_interrupt (hart m) then
    Some match check_interrupts (hart m) with
         | (Some t, h) =>
             match handle_trap t h with
             | Some h => (Next, upd_hart (fun _ => h) m)
             | None => (Terminated, m)
             end
         | (None, h) => (Next, upd_hart (fun _ => h) m)
         end
  else None.

(** ** The two threads *)

Inductive phase : Set :=
  | Running           (* at the head of the for loop *)
  | Waiting           (* in the WFI loop *)
  | Stopped           (* the thread has ended *)
  | Died.             (* the process is gone *)

(* @src include/execution_engine.hpp 68-88 ExecutionEngine *)
Record engine := mkEngine {
  e_phase : phase;
  e_i : Z;                       (* uint16_t i *)
  e_mach : mach D;
  shutdown_from_guest_ : bool;   (* set by catch (...) *)
  shutdown_from_host_ : bool;
}.

Definition stop_requested (e : engine) : bool :=
  shutdown_from_guest_ e || guest_shutdown (devs (e_mach e)).

(* uint16_t i++ *)
Definition next_i (i : Z) : Z := uwrap 16 (i + 1).

(* A device call of the iteration may have ended the process: what the rest of the
   iteration does to the memory of a process that is gone is not looked at. *)
(* @src src/execution_engine.cpp 119-175 ExecutionEngine::cpu_thread *)
Definition cpu_step (e : engine) : engine :=
  match e_phase e with
  | Running =>
      if stop_requested e || ((e_i e =? 0) && shutdown_from_host_ e)
      then mkEngine Stopped (e_i e) (e_mach e) (shutdown_from_guest_ e) (shutdown_from_host_ e)
      else
        let '(r, m) := cpu_iteration (e_i e) (e_mach e) in
        match (if process_dead (devs m) then Terminated else r) with
        | Next =>
            mkEngine Running (next_i (e_i e)) m (shutdown_from_guest_ e) (shutdown_from_host_ e)
        | Wait =>
            mkEngine Waiting (e_i e) m (shutdown_from_guest_ e) (shutdown_from_host_ e)
        | HostException => mkEngine Stopped (e_i e) m true (shutdown_from_host_ e)
        | Terminated => mkEngine Died (e_i e) m (shutdown_from_guest_ e) (shutdown_from_host_ e)
        end
  | Waiting =>
      if stop_requested e || shutdown_from_host_ e
      then mkEngine Running (next_i (e_i e)) (e_mach e) (shutdown_from_guest_ e)
             (shutdown_from_host_ e)
      else
        match wfi_poll (e_mach e) with
        | None => e
        | Some (Terminated, m) =>
            mkEngine Died (e_i e) m (shutdown_from_guest_ e) (shutdown_from_host_ e)
        | Some (_, m) =>
            mkEngine Running (next_i (e_i e)) m (shutdown_from_guest_ e) (shutdown_from_host_ e)
        end
  | Stopped | Died => e
  end.

(* The host thread: bus_->tick_devices() of execute_until_halt. *)
(* @src src/execution_engine.cpp 67-95 ExecutionEngine::execute_until_halt *)
Definition host_tick (e : engine) : engine :=
  mkEngine (e_phase e) (e_i e) (tick_devices (e_mach e)) (shutdown_from_guest_ e)
    (shutdown_from_host_ e).

(* @src src/execution_engine.cpp 108-110 ExecutionEngine::request_shutdown_from_host *)
Definition request_shutdown_from_host (e : engine) : engine :=
  mkEngine (e_phase e) (e_i e) (e_mach e) (shutdown_from_guest_ e) true.

(** Nothing runs in a process that is gone. *)
Inductive step : engine -> engine -> Prop :=
  | step_cpu e : step e (cpu_step e)
  | step_tick e : e_phase e <> Died -> step e (host_tick e)
  | step_host e : e_phase e <> Died -> step e (request_shutdown_from_host e).

(* @src src/execution_engine.cpp 43-50 ExecutionEngine::execute_until_halt *)
Definition engine_init (m : mach D) : engine := mkEngine Running 0 m false false.
End Engine.
Arguments engine D : clear implicits.
