(* ===== verification/EngineSpec.v ===== *)
(** * What the execution engine guarantees

    Every reachable state of the two threads is well formed; the process can die
    only in an ecall executed at the reserved privilege level 2; interrupts are
    taken at the iterations that look for them; the wait loop of WFI ends when an
    enabled interrupt is pending; a shutdown request stops the thread within a
    bounded number of iterations. *)

From stdpp Require Import gmap.
From S2P Require Import Prelude Bits Hart HartInv Trap Machine Bus Decoder Mmu MmuSpec CsrAccess.
From S2P Require Import Execute ExecFloat Dispatch ExecSpec ExecFloatSpec ExecSafe ExecPrecise.
From S2P Require Import Engine.

(** ** The hart-level steps keep the hart well formed *)

Lemma MCYCLE_advance_ok h : hart_ok h -> hart_ok (MCYCLE_advance h).
Proof.
  intros Hh. pose proof (MCYCLE_advance_legal h (hk_csr h Hh)) as Hl.
  destruct Hh. split; [done|..]; unfold MCYCLE_advance; by case_match.
Qed.

Lemma MINSTRET_advance_ok h : hart_ok h -> hart_ok (MINSTRET_advance h).
Proof.
  intros Hh. pose proof (MINSTRET_advance_legal h (hk_csr h Hh)) as Hl.
  destruct Hh. split; [done|..]; unfold MINSTRET_advance; by case_match.
Qed.

Lemma handle_trap_ok t h :
  hart_ok h -> fits 64 (trap_pc t) -> fits 64 (trap_tval t) -> trap_cause t <> TrapCause_None ->
  exists h', handle_trap t h = Some h' /\ hart_ok h' /\ priv h' <> 2.
Proof.
  intros Hh Hp Ht Hc. pose proof (hk_csr h Hh) as Hl.
  assert (exists h', handle_trap t h = Some h' /\ exists level epc cause tval tvec bit,
    trap_effect t level epc cause tval tvec bit h h' /\ (level = PrivS \/ level = PrivM))
    as (h' & E & level & epc & cause & tval & tvec & bit & He & Hlev).
  { unfold handle_trap. destruct (decide _) as [?|_]; [done|]. cbv zeta.
    case_match; (eexists; split; [done|]); do 6 eexists; split;
      [by apply trap_to_S_spec|by left|apply trap_to_M_spec; try done; apply Hh|by right]. }
  exists h'. split; [done|]. pose proof (handle_trap_legal t h h' Hp Ht Hl E) as Hl'.
  destruct (vector_of_ok (raw h tvec) (trap_cause t) (csr_legal_fits h tvec Hl)) as [V1 V2].
  destruct He as [Ep _ _ _ Epc _ _ [Eg Ef]]. destruct Hh.
  split; [split|]; rewrite ?Epc, ?Eg, ?Ef, ?Ep; try done;
    destruct Hlev as [-> | ->]; unfold PrivS, PrivM; try split; lia.
Qed.

Lemma check_interrupts_ok h : hart_ok h -> hart_ok (snd (check_interrupts h)).
Proof. intros Hh. rewrite check_interrupts_eq. by apply hart_ok_icp. Qed.

(** ** One iteration *)

(** What may leave the try block: the WFI stall, or a trap at the pc the iteration
    started with. *)
Definition body_exn (pc : Z) (e : exn) : Prop :=
  match e with
  | ETrap t => trap_pc t = pc /\ fits 64 (trap_tval t) /\ trap_cause t <> TrapCause_None
  | EWfi => True
  | _ => False
  end.

Section Iteration.
Context {D : Type} `{PlatformLaws D} `{SoftFloatLaws}.
Variable u : operands.

Lemma ok0_upd_hart f (m : mach D) : ok0 m -> hart_ok (f (hart m)) -> ok0 (upd_hart f m).
Proof. intros [[] ?] ?. by split; [split|]. Qed.

Lemma ok0_mem_frame (m m' : mach D) : mem_frame m m' -> ok0 m -> ok0 m'.
Proof.
  intros Hf [Hm E]. split; [by eapply mem_frame_ok|]. by rewrite (mf_flags _ _ Hf).
Qed.

Lemma ecall_reserved d (m : mach D) : d_iname d = rv_ecall -> priv (hart m) = 2 ->
  exec_insn d m = (Throw ETerminate, m).
Proof. intros En Ep. unfold exec_insn, exec_ecall, bind, gets. by rewrite En, Ep. Qed.

(** From the fetch on. *)
Lemma fetch_exec_safe (m : mach D) : ok0 m ->
  match (let! (insn, ilen) := ifetch in
         let! pc := gets (fun m => pc (hart m)) in
         let! decoded_insn := decode_or_die u insn ilen pc in
         set_hart_pc (pc + ilen_bytes ilen) ;;;
         exec_insn decoded_insn ;;;
         modify (upd_hart MINSTRET_advance)) m with
  | (Ok _, m') => ok0 m'
  | (Throw e, m') => ok0 m' /\
      (body_exn (pc (hart m)) e \/ e = ETerminate /\ priv (hart m) = 2 /\ priv (hart m') = 2)
  end.
Proof.
  intros Hm. pose proof (mk_hart _ (proj1 Hm)) as Hh.
  pose proof (spec_ifetch_at (pc (hart m)) (hk_pc _ Hh) m (proj1 Hm)) as Hs.
  pose proof (ifetch_frame m) as Hf.
  unfold bind at 1. change (ifetch_at (pc (hart m)) m) with (ifetch m) in Hs.
  destruct (ifetch m) as [[[insn ilen]|e] m1]; simpl in Hf.
  2: { destruct Hs as [_ (c & i & -> & _ & Hc)]. split; [by eapply ok0_mem_frame|left].
       simpl. split_and!; [done|apply uwrap_fits; lia|]. by destruct Hc as [-> | ->]. }
  destruct Hs as [_ Hi]. simpl in Hi. pose proof (ok0_mem_frame _ _ Hf Hm) as Hm1.
  rewrite <- (mf_pc _ _ Hf), <- (mf_priv _ _ Hf). clear Hf Hm Hh m.
  pose proof (mk_hart _ (proj1 Hm1)) as Hh1.
  unfold bind at 1, gets. unfold bind at 1, decode_or_die.
  destruct (decode_returns u insn ilen (pc (hart m1)) Hi)
    as (d & Ed & _ & _ & Epc). rewrite Ed.
  cbn [ret]. unfold bind at 1, set_hart_pc, modify.
  set (m2 := upd_hart _ m1).
  assert (ok0 m2) as Hm2.
  { apply ok0_upd_hart; [done|]. apply hart_ok_pc; [apply uwrap_fits; lia| |done].
    apply even_add; [apply Hh1|]. by destruct ilen. }
  change (priv (hart m1)) with (priv (hart m2)).
  assert (d_iname d = rv_ecall /\ priv (hart m2) = 2 \/
    (d_iname d = rv_ecall -> priv (hart m2) <> 2)) as [[En Ep]|Hn].
  { destruct (Iname_ecall_dec (d_iname d)), (Z.eq_dec (priv (hart m2)) 2); tauto. }
  { unfold bind. rewrite (ecall_reserved d m2 En Ep). split; [done|by right]. }
  pose proof (exec_decoded_safe u insn ilen (pc (hart m1)) d m2 Hi (hk_pc _ Hh1) (hk_even _ Hh1)
    Ed Hm2 Hn) as Hs.
  unfold bind. destruct (exec_insn d m2) as [[[]|e] m3].
  - apply ok0_upd_hart; [done|]. apply MINSTRET_advance_ok, Hs.
  - destruct Hs as [Hm3 Hx]. split; [done|left]. unfold exec_exn in Hx. rewrite Epc in Hx.
    by destruct e; [destruct Hx as (? & ? & ? & ?)|..].
Qed.

Lemma cpu_body_safe i (m : mach D) : ok0 m ->
  match cpu_body u i m with
  | (Ok _, m') => ok0 m'
  | (Throw e, m') => ok0 m' /\
      (body_exn (pc (hart m)) e \/ e = ETerminate /\ priv (hart m) = 2 /\ priv (hart m') = 2)
  end.
Proof.
  intros Hm. unfold cpu_body. unfold bind at 1, gets at 1. unfold bind at 1.
  pose proof (mk_hart _ (proj1 Hm)) as Hh.
  destruct (_ || _); cbn [when]; [|apply (fetch_exec_safe m Hm)].
  unfold check_interrupts_throw. pose proof (check_interrupts_ok _ Hh) as Hc.
  destruct (check_interrupts (hart m)) as [[t|] h1] eqn:Ec; simpl in Hc.
  - destruct (check_interrupts_trap _ _ _ Ec) as (E1 & E2 & _ & E3).
    split; [by apply ok0_upd_hart|left]. simpl. rewrite E2. split_and!; [done|by split|done].
  - rewrite check_interrupts_eq in Ec. injection Ec as _ <-.
    apply (fetch_exec_safe (upd_hart (fun _ => set_interrupt_check_pending false (hart m)) m)).
    by apply ok0_upd_hart.
Qed.

Lemma cpu_iteration_ok i (m : mach D) : ok0 m ->
  match cpu_iteration u i m with
  | (Next, m') | (Wait, m') => ok0 m'
  | (HostException, _) => False
  | (Terminated, m') => ok0 m' /\ priv (hart m) = 2 /\ priv (hart m') = 2
  end.
Proof.
  intros Hm. unfold cpu_iteration. cbv zeta. set (m1 := upd_hart MCYCLE_advance m).
  assert (ok0 m1) as Hm1 by (apply ok0_upd_hart; [done|apply MCYCLE_advance_ok, Hm]).
  assert (priv (hart m1) = priv (hart m)) as Ep.
  { unfold m1, MCYCLE_advance. simpl. by case_match. }
  rewrite <- Ep. pose proof (cpu_body_safe i m1 Hm1) as Hb.
  destruct (cpu_body u i m1) as [[[]|e] m2]; [done|].
  destruct Hb as [Hm2 [He|(-> & ? & ?)]]; [|done]. destruct e as [t| | |]; try done.
  - destruct He as (Et & Hv & Hc).
    destruct (handle_trap_ok t (hart m2)) as (h & -> & Hh & _); [apply Hm2| |done|done|].
    + rewrite Et. apply Hm1.
    + by apply ok0_upd_hart.
  - apply ok0_upd_hart; [done|]. apply MINSTRET_advance_ok, Hm2.
Qed.

Lemma wfi_poll_ok (m : mach D) : ok0 m ->
  match wfi_poll m with
  | None => has_pending_enabled_interrupt (hart m) = false
  | Some (r, m') => r = Next /\ ok0 m' /\ has_pending_enabled_interrupt (hart m) = true
  end.
Proof.
  intros Hm. pose proof (mk_hart _ (proj1 Hm)) as Hh. unfold wfi_poll.
  destruct (has_pending_enabled_interrupt (hart m)); [|done].
  pose proof (check_interrupts_ok _ Hh) as Hc.
  destruct (check_interrupts (hart m)) as [[t|] h1] eqn:Ec; simpl in Hc.
  - destruct (check_interrupts_trap _ _ _ Ec) as (E1 & E2 & _ & E3).
    destruct (handle_trap_ok t h1) as (h & -> & Hh' & _); [done| | |done|].
    + rewrite E1. apply Hh.
    + by rewrite E2.
    + split_and!; [done|by apply ok0_upd_hart|done].
  - split_and!; [done|by apply ok0_upd_hart|done].
Qed.

(** One iteration of the CPU thread from a well-formed machine leaves it well
    formed, whatever the memory holds.  No host exception escapes; the process can
    be lost only when the hart runs at the reserved privilege level 2. *)
Theorem cpu_iteration_safe i (m : mach D) : ok0 m ->
  match cpu_iteration u i m with
  | (Next, m') | (Wait, m') => ok0 m'
  | (HostException, _) => False
  | (Terminated, m') => ok0 m' /\ priv (hart m) = 2 /\ priv (hart m') = 2
  end.
Proof. apply cpu_iteration_ok. Qed.

(** C12. An iteration that looks for interrupts (every 256th, or when one was
    flagged) takes the eligible interrupt of highest priority before any
    instruction: the hart is where [handle_trap] leaves it with the interrupted pc
    as return address, and nothing else has happened. *)
Theorem interrupt_taken i (m : mach D) n c :
  ok0 m -> Z.land i 0xFF = 0 \/ interrupt_check_pending (hart m) = true ->
  List.find (fun nc => eligible (MCYCLE_advance (hart m)) (fst nc)) interrupt_order = Some (n, c) ->
  exists h', cpu_iteration u i m = (Next, upd_hart (fun _ => h') m) /\
    handle_trap (mkTrap (pc (hart m)) c 0)
      (set_interrupt_check_pending false (MCYCLE_advance (hart m))) = Some h'.
Proof.
  intros Hm Hi Hf. pose proof (MCYCLE_advance_ok _ (mk_hart _ (proj1 Hm))) as Hh.
  set (h1 := MCYCLE_advance (hart m)) in *.
  assert (pc h1 = pc (hart m) /\ interrupt_check_pending h1 = interrupt_check_pending (hart m))
    as [Epc Ei] by (unfold h1, MCYCLE_advance; by case_match).
  pose proof (check_interrupts_eq h1) as Ec. rewrite Hf in Ec. cbn [option_map snd] in Ec.
  destruct (check_interrupts_trap _ _ _ Ec) as (_ & _ & _ & Hc).
  destruct (handle_trap_ok (mkTrap (pc h1) c 0) (set_interrupt_check_pending false h1))
    as (h' & E & _); [by apply hart_ok_icp|apply Hh|by split|done|].
  rewrite Epc in E. exists h'. split; [|done]. unfold cpu_iteration. cbv zeta.
  unfold cpu_body, bind at 1, gets at 1. cbn [hart upd_hart].
  change (MCYCLE_advance (hart m)) with h1. rewrite Ei.
  assert ((Z.land i 0xFF =? 0) || interrupt_check_pending (hart m) = true) as ->.
  { destruct Hi as [-> | ->]; [done|apply orb_true_r]. }
  unfold bind at 1, check_interrupts_throw. cbn [when hart upd_hart]. 
  change (MCYCLE_advance (hart m)) with h1. rewrite Ec, Epc. cbn [hart upd_hart].
  by rewrite E.
Qed.
End Iteration.

(** ** All interleavings of the two threads *)

Section Reachable.
Context {D : Type} `{PlatformLaws D} `{SoftFloatLaws}.
Variable u : operands.

(** Why the process can be gone: an ecall at the reserved privilege level 2, or a device
    call. *)
Definition died_why (m : mach D) : Prop := priv (hart m) = 2 \/ process_dead (devs m) = true.

(** What holds of every reachable state. *)
Record engine_ok (e : engine D) : Prop := {
  eo_mach : ok0 (e_mach e);
  eo_i : fits 16 (e_i e);
  eo_died : e_phase e = Died -> died_why (e_mach e);
  eo_guest : shutdown_from_guest_ e = false;
}.

Lemma cpu_step_ok e : engine_ok e -> engine_ok (cpu_step u e).
Proof.
  intros He. pose proof He as [Hm Hi _ Hg]. unfold cpu_step.
  assert (fits 16 (next_i (e_i e))) as Hi' by (apply uwrap_fits; lia).
  destruct (e_phase e) eqn:Ep; [| |done..].
  - case_match; [by split|]. pose proof (cpu_iteration_ok u (e_i e) (e_mach e) Hm) as Hc.
    destruct (cpu_iteration u (e_i e) (e_mach e)) as [r m'].
    assert (ok0 m') as Hm' by (destruct r; [done|done|done|apply Hc]).
    destruct (process_dead (devs m')) eqn:Ed; [by split; [..|right|]|].
    destruct r; try (by split). destruct Hc as (? & ? & ?). by split; [..|left|].
  - case_match; [by split|]. pose proof (wfi_poll_ok (e_mach e) Hm) as Hc.
    destruct (wfi_poll (e_mach e)) as [[r m']|]; [|done].
    destruct Hc as (-> & ? & _). by split.
Qed.

Lemma tick_keeps_mach (m : mach D) : ok0 m -> ok0 (tick_devices m).
Proof. apply ok0_mem_frame, device_mem_frame, tick_devices_frame. Qed.

Lemma step_ok e e' : step u e e' -> engine_ok e -> engine_ok e'.
Proof.
  intros Hs He. destruct Hs; [by apply cpu_step_ok|..]; destruct He as [Hm Hi Hd Hg]; split; try done.
  by apply tick_keeps_mach.
Qed.

Lemma reachable_ok m0 e : ok0 m0 -> rtc (step u) (engine_init m0) e -> engine_ok e.
Proof.
  intros Hm. apply (rtc_ind_r (fun e => engine_ok e)).
  - by split.
  - intros e1 e2 _ Hs He. by eapply step_ok.
Qed.

(** C18. However the CPU thread and the host thread interleave, every state that
    can be reached from a well-formed machine is well formed, no host exception
    has stopped the thread, and if the process is gone the hart was at the reserved
    privilege level 2 or a device call has ended it. *)
Theorem reachable_safe m0 e : ok0 m0 -> rtc (step u) (engine_init m0) e ->
  ok0 (e_mach e) /\ fits 16 (e_i e) /\ shutdown_from_guest_ e = false /\
  (e_phase e = Died -> priv (hart (e_mach e)) = 2 \/ process_dead (devs (e_mach e)) = true).
Proof. intros Hm Hr. by destruct (reachable_ok m0 e Hm Hr). Qed.

(** C39. The wait loop of WFI ends as soon as an interrupt that mie enables is
    pending, whether or not it can be taken, and not before (unless a shutdown is
    requested). *)
Theorem wfi_wakes e : ok0 (e_mach e) -> e_phase e = Waiting ->
  stop_requested e = false -> shutdown_from_host_ e = false ->
  (e_phase (cpu_step u e) = Running <-> Z.land (MIP_read (hart (e_mach e))) (MIE_read (hart (e_mach e))) <> 0).
Proof.
  intros Hm Ep Hg Hh. unfold cpu_step. rewrite Ep, Hg, Hh. cbn [orb].
  pose proof (wfi_poll_ok (e_mach e) Hm) as Hw. unfold has_pending_enabled_interrupt in Hw.
  destruct (wfi_poll (e_mach e)) as [[r m']|].
  - destruct Hw as (-> & _ & Hw%nz_true). done.
  - apply nz_false in Hw. rewrite Ep. split; [done|]. intros []. done.
Qed.

(** *** Shutdown *)

(** [n] steps of the CPU thread with any number of host steps in between. *)
Inductive run : nat -> engine D -> engine D -> Prop :=
  | run_0 e : run 0 e e
  | run_cpu n e e' : run n (cpu_step u e) e' -> run (S n) e e'
  | run_tick n e e' : run n (host_tick e) e' -> run n e e'
  | run_host n e e' : run n (request_shutdown_from_host e) e' -> run n e e'.

(** How many more CPU steps there can be after a host request: the request is seen
    when the 16-bit counter wraps, and every wait counts one more step. *)
Definition rank (e : engine D) : Z :=
  match e_phase e with
  | Running => 2 * ((65536 - e_i e) mod 65536) + 1
  | Waiting => 2 * ((65535 - e_i e) mod 65536) + 2
  | Stopped | Died => 0
  end.

Lemma rank_step e : shutdown_from_host_ e = true -> fits 16 (e_i e) ->
  shutdown_from_host_ (cpu_step u e) = true /\ fits 16 (e_i (cpu_step u e)) /\
  (rank (cpu_step u e) = 0 \/ rank (cpu_step u e) < rank e).
Proof.
  intros Hh Hi. unfold cpu_step.
  assert (fits 16 (next_i (e_i e))) as Hi' by (apply uwrap_fits; lia).
  unfold fits in Hi. unfold next_i, uwrap in *.
  destruct (e_phase e) eqn:Ep; rewrite ?Hh, ?andb_true_r.
  - destruct (stop_requested e || (e_i e =? 0)) eqn:Es; [by split_and!; [..|left]|].
    bool_hyps. destruct (cpu_iteration u (e_i e) (e_mach e)) as [r m'].
    destruct (if process_dead (devs m') then Terminated else r);
      (split_and!; [done|done|]); unfold rank; cbn [e_phase e_i]; rewrite ?Ep; lia.
  - rewrite orb_true_r. split_and!; [done|done|right]. unfold rank. cbn [e_phase e_i].
    rewrite Ep. lia.
  - split_and!; [done|done|left]. unfold rank. by rewrite Ep.
  - split_and!; [done|done|left]. unfold rank. by rewrite Ep.
Qed.

Lemma rank_bound e : fits 16 (e_i e) -> 0 <= rank e <= 131072.
Proof. unfold rank, fits. destruct (e_phase e); lia. Qed.

Lemma run_rank n e e' : run n e e' -> shutdown_from_host_ e = true -> fits 16 (e_i e) ->
  rank e' <= Z.max 0 (rank e - Z.of_nat n) /\ fits 16 (e_i e').
Proof.
  induction 1 as [e|n e e' Hr IH|n e e' Hr IH|n e e' Hr IH]; intros Hh Hi.
  - split; [|done]. pose proof (rank_bound e Hi). lia.
  - destruct (rank_step e Hh Hi) as (Hh' & Hi' & Hk). pose proof (rank_bound _ Hi).
    destruct (IH Hh' Hi'). split; [lia|done].
  - by apply IH.
  - by apply IH.
Qed.

(** After a shutdown request from the host the CPU thread ends (or the process
    does) within 2 * 65536 of its own steps, whatever the guest does and however
    the host's steps are interleaved; the request is never lost. *)
Theorem host_shutdown_stops n e e' : shutdown_from_host_ e = true -> fits 16 (e_i e) ->
  run n e e' -> 131072 <= Z.of_nat n -> e_phase e' = Stopped \/ e_phase e' = Died.
Proof.
  intros Hh Hi Hr Hn. destruct (run_rank n e e' Hr Hh Hi) as [Hk Hi'].
  pose proof (rank_bound e Hi). pose proof (rank_bound e' Hi').
  assert (rank e' = 0) as E by lia. unfold rank in E. destruct (e_phase e'); auto; lia.
Qed.

(** A shutdown requested by the guest (the test-finisher device) is obeyed before
    the next instruction: from the head of the loop at once, from the wait loop
    after leaving it. *)
Theorem guest_shutdown_stops e : stop_requested e = true ->
  match e_phase e with
  | Running => e_phase (cpu_step u e) = Stopped /\ e_mach (cpu_step u e) = e_mach e
  | Waiting => e_phase (cpu_step u (cpu_step u e)) = Stopped /\
               e_mach (cpu_step u (cpu_step u e)) = e_mach e
  | _ => cpu_step u e = e
  end.
Proof.
  intros Hs. unfold cpu_step. destruct (e_phase e) eqn:Ep; rewrite ?Hs; cbn [orb]; try done.
  cbn [e_phase]. change (stop_requested (mkEngine _ _ _ _ _)) with (stop_requested e).
  by rewrite Hs.
Qed.
End Reachable.

(** ** Concrete runs *)

#[local] Existing Instance zero_softfloat.

Lemma cpu_iteration_safe_witness :
  match cpu_iteration no_operands 0 small_machine with
  | (Next, m') | (Wait, m') => ok0 m'
  | (HostException, _) => False
  | (Terminated, m') => ok0 m' /\ priv (hart small_machine) = 2 /\ priv (hart m') = 2
  end.
Proof. apply (cpu_iteration_safe no_operands 0 small_machine), small_machine_ok0. Defined.

(** A machine in user mode with a timer interrupt pending. *)
Definition timer_machine : mach unit :=
  upd_hart (fun h => set_interrupt_pending MTIP true
    (write_hart MIE_ADDRESS MTIP (set_priv PrivU h))) small_machine.

Lemma timer_machine_ok0 : ok0 timer_machine.
Proof.
  destruct small_machine_ok0 as [[[] ? ? ?] ?]. split; [|done]. split; [|done|done|done].
  split; try done.
  apply set_interrupt_pending_legal, write_hart_legal; [by split|discriminate|done].
Qed.

Lemma interrupt_taken_witness :
  exists h', cpu_iteration no_operands 0 timer_machine = (Next, upd_hart (fun _ => h') timer_machine) /\
    handle_trap (mkTrap DRAM_BASE MachineTimerInterrupt 0)
      (set_interrupt_check_pending false (MCYCLE_advance (hart timer_machine))) = Some h'.
Proof.
  apply (interrupt_taken no_operands 0 timer_machine 7 MachineTimerInterrupt);
    [ apply timer_machine_ok0 | left; reflexivity | vm_compute; reflexivity ].
Defined.

Lemma reachable_safe_witness :
  let e := host_tick (cpu_step no_operands (engine_init small_machine)) in
  ok0 (e_mach e) /\ fits 16 (e_i e) /\ shutdown_from_guest_ e = false /\
  (e_phase e = Died -> priv (hart (e_mach e)) = 2 \/ process_dead (devs (e_mach e)) = true).
Proof.
  apply (reachable_safe no_operands small_machine); [apply small_machine_ok0|].
  eapply rtc_l; [apply step_cpu|]. eapply rtc_l; [apply step_tick; vm_compute; discriminate|]. apply rtc_refl.
Defined.

Lemma wfi_wakes_witness :
  e_phase (cpu_step no_operands (mkEngine Waiting 5 timer_machine false false)) = Running.
Proof.
  apply (wfi_wakes no_operands (mkEngine Waiting 5 timer_machine false false));
    [ apply timer_machine_ok0 | reflexivity | reflexivity | reflexivity | vm_compute; discriminate ].
Defined.

Lemma run_exists {D} `{Platform D} `{SoftFloat} u n (e : engine D) : exists e', run u n e e'.
Proof.
  revert e. induction n as [|n IH]; intros e; [by exists e; constructor|].
  destruct (IH (cpu_step u e)) as [e' He]. exists e'. by constructor.
Qed.

Lemma host_shutdown_stops_witness :
  exists e', run no_operands (Z.to_nat 131072) (request_shutdown_from_host (engine_init timer_machine)) e'
    /\ (e_phase e' = Stopped \/ e_phase e' = Died).
Proof.
  destruct (run_exists no_operands (Z.to_nat 131072)
    (request_shutdown_from_host (engine_init timer_machine))) as [e' Hr].
  exists e'. split; [exact Hr|].
  apply (host_shutdown_stops no_operands (Z.to_nat 131072)
    (request_shutdown_from_host (engine_init timer_machine)));
    [ reflexivity | split; reflexivity || discriminate | exact Hr | rewrite Z2Nat.id; lia ].
Defined.

Lemma guest_shutdown_stops_witness :
  e_phase (cpu_step no_operands (mkEngine Running 3 small_machine true false)) = Stopped.
Proof.
  apply (guest_shutdown_stops no_operands (mkEngine Running 3 small_machine true false)).
  reflexivity.
Defined.
