(* ===== verification/Runner.v ===== *)
(** * The host thread and the CPU thread (src/execution_engine.cpp)

    [ExecutionEngine::execute_until_halt], the start and the end of [cpu_thread], and the
    destructor's join, as the control points of two threads over the shared state of
    Engine.v: the handshake on the condition variable, the loop with its timeout, the
    device ticks and the update of the user interface. *)

From stdpp Require Import gmap.
From S2P Require Import Prelude Bits Hart HartInv Trap Machine Bus Decoder Mmu MmuSpec CsrAccess.
From S2P Require Import Execute ExecFloat Dispatch ExecSpec ExecFloatSpec ExecSafe ExecPrecise Engine EngineSpec.

(** What the engine uses of the user interface: one call of update, given what the host
    answers it. *)
(* @src include/ui/ui_backend.hpp 46-46 UIBackend::update *)
Class UiBackend (D : Type) := {
  ui_input : Type;
  ui_update : ui_input -> engine D -> engine D;
}.

(** ** Control points *)

(* The thread object cpu_thread_ holds. *)
Inductive thread_state : Set :=
  | NotCreated
  | Starting        (* created; cpu_thread_running_ not yet set *)
  | Looping         (* in the for loop of cpu_thread *)
  | Exited.         (* cpu_thread has returned *)

(* How execute_until_halt ended. *)
Inductive halt_result : Set := Returned | Rethrown.

Inductive host_pc : Set :=
  | HEntry          (* before the call *)
  | HWait           (* in cpu_cond_.wait *)
  | HTop            (* at the head of the while loop *)
  | HTime           (* the timeout test *)
  | HTick           (* bus_->tick_devices() *)
  | HUpdate         (* ui_backend_->update() *)
  | HExit           (* after the loop *)
  | HDone (r : halt_result)     (* has returned; the destructor waits for the thread *)
  | HJoined (r : halt_result)   (* the engine is destroyed *)
  | HTerminate.     (* std::terminate: a joinable std::thread was destroyed *)

#[export] Instance halt_result_eq_dec : EqDecision halt_result.
Proof. solve_decision. Defined.
#[export] Instance host_pc_eq_dec : EqDecision host_pc.
Proof. solve_decision. Defined.

Section Runner.
Context {D : Type} `{Platform D} `{SoftFloat} `{UiBackend D}.
Variable u : operands.
(** The argument of execute_until_halt, in milliseconds. *)
Variable timeout : Z.

(* @src include/execution_engine.hpp 74-88 ExecutionEngine *)
Record runner := mkRunner {
  r_eng : engine D;
  cpu_thread_ : thread_state;
  cpu_thread_running_ : bool;
  r_host : host_pc;
  start_time : Z;               (* nanoseconds of the steady clock *)
}.

(* Both shutdown flags, the thread and its running flag start out false; the constructor's
   shutdown_from_guest_(true) is reset by execute_until_halt before it is read. *)
(* @src src/execution_engine.cpp 21-34 ExecutionEngine::ExecutionEngine *)
Definition runner_init (m : mach D) : runner :=
  mkRunner (engine_init m) NotCreated false HEntry 0.

(** The catch-all handler is the only writer of cpu_thread_exception_ and of the engine's
    own shutdown flag. *)
Definition cpu_thread_exception_ (r : runner) : bool := shutdown_from_guest_ (r_eng r).

Definition at_host (p : host_pc) (r : runner) : runner :=
  mkRunner (r_eng r) (cpu_thread_ r) (cpu_thread_running_ r) p (start_time r).
Definition on_engine (f : engine D -> engine D) (r : runner) : runner :=
  mkRunner (f (r_eng r)) (cpu_thread_ r) (cpu_thread_running_ r) (r_host r) (start_time r).
Definition clear_guest_shutdown (e : engine D) : engine D :=
  mkEngine (e_phase e) (e_i e) (e_mach e) false (shutdown_from_host_ e).

(** *** The host thread *)

(* Up to the wait.  Assigning the new thread destroys the old std::thread, which nobody has
   joined. *)
(* @src src/execution_engine.cpp 43-50 ExecutionEngine::execute_until_halt *)
Definition host_enter (r : runner) : runner :=
  if cpu_thread_running_ r then at_host (HDone Returned) r
  else
    match cpu_thread_ r with
    | NotCreated =>
        mkRunner (clear_guest_shutdown (r_eng r)) Starting (cpu_thread_running_ r) HWait (start_time r)
    | _ => at_host HTerminate r
    end.

(* The predicate of the wait. *)
(* @src src/execution_engine.cpp 51-54 ExecutionEngine::execute_until_halt *)
Definition wake_up (r : runner) : bool :=
  cpu_thread_running_ r || stop_requested (r_eng r) || shutdown_from_host_ (r_eng r).

(* Waking up and reading the clock. *)
(* @src src/execution_engine.cpp 51-64 ExecutionEngine::execute_until_halt *)
Definition host_wake (now : Z) (r : runner) : runner :=
  if wake_up r then
    if negb (cpu_thread_running_ r) then at_host (HDone Returned) r
    else mkRunner (r_eng r) (cpu_thread_ r) (cpu_thread_running_ r) HTop now
  else r.

(* The durations are compared in nanoseconds of 64 bits. *)
(* @src src/execution_engine.cpp 65-86 ExecutionEngine::execute_until_halt *)
Definition timed_out (now : Z) (r : runner) : bool :=
  (0 <? timeout) && (swrap 64 (timeout * 1000000) <=? now - start_time r).

(* One step of the loop. *)
(* @src src/execution_engine.cpp 67-99 ExecutionEngine::execute_until_halt *)
Definition host_loop (now : Z) (input : ui_input) (r : runner) : runner :=
  match r_host r with
  | HTop => at_host (if cpu_thread_running_ r then HTime else HExit) r
  | HTime =>
      if timed_out now r then at_host HExit (on_engine request_shutdown_from_host r)
      else at_host HTick r
  | HTick => at_host HUpdate (on_engine host_tick r)
  | HUpdate => at_host HTop (on_engine (ui_update input) r)
  | HExit => at_host (HDone (if cpu_thread_exception_ r then Rethrown else Returned)) r
  | _ => r
  end.

(* The destructor, which the stack unwinding or the end of the scope runs. *)
(* @src src/execution_engine.cpp 36-41 ExecutionEngine::~ExecutionEngine *)
Definition host_join (res : halt_result) (r : runner) : runner :=
  match cpu_thread_ r with
  | NotCreated | Exited => at_host (HJoined res) r
  | _ => r
  end.

(* A step of the host thread, given the time and what the user interface sees. *)
(* @src src/execution_engine.cpp 36-99 ExecutionEngine::execute_until_halt *)
Definition host_step (now : Z) (input : ui_input) (r : runner) : runner :=
  match r_host r with
  | HEntry => host_enter r
  | HWait => host_wake now r
  | HDone res => host_join res r
  | HJoined _ | HTerminate => r
  | _ => host_loop now input r
  end.

(** *** The CPU thread *)

(* @src src/execution_engine.cpp 112-181 ExecutionEngine::cpu_thread *)
Definition thread_step (r : runner) : runner :=
  match cpu_thread_ r with
  | NotCreated | Exited => r
  | Starting => mkRunner (r_eng r) Looping true (r_host r) (start_time r)
  | Looping =>
      match e_phase (r_eng r) with
      | Stopped => mkRunner (r_eng r) Exited false (r_host r) (start_time r)
      | _ => on_engine (cpu_step u) r
      end
  end.

(** *** Schedules *)

(** A move of one of the threads. *)
Inductive move : Type :=
  | MCpu
  | MHost (now : Z) (input : ui_input).

(** The process is gone: nothing moves any more. *)
Definition gone (r : runner) : bool :=
  match e_phase (r_eng r), r_host r with
  | Died, _ | _, HTerminate => true
  | _, _ => false
  end.

Definition do_move (r : runner) (mv : move) : runner :=
  if gone r then r
  else match mv with
       | MCpu => thread_step r
       | MHost now input => host_step now input r
       end.
Definition schedule (mvs : list move) (r : runner) : runner := foldl do_move r mvs.

Definition is_cpu (mv : move) : bool := match mv with MCpu => true | _ => false end.
Definition cpu_moves (mvs : list move) : Z := Z.of_nat (length (List.filter is_cpu mvs)).
Definition host_moves (mvs : list move) : Z :=
  Z.of_nat (length (List.filter (fun mv => negb (is_cpu mv)) mvs)).
End Runner.
Arguments runner D : clear implicits.
