(* ===== verification/RunnerSpec.v ===== *)
(** * What execute_until_halt guarantees

    Whatever the interleaving of the host thread and the CPU thread: the handshake loses no
    wake-up, the call returns only when the CPU thread has ended or has been told to, the
    destructor waits for it, nothing is rethrown; and with a timeout the call returns and
    the engine is destroyed, whatever the guest does. *)

From stdpp Require Import gmap.
From S2P Require Import Prelude Bits Hart HartInv Trap Machine Bus Decoder Mmu MmuSpec CsrAccess.
From S2P Require Import Execute ExecFloat Dispatch ExecSpec ExecFloatSpec ExecSafe ExecPrecise Engine EngineSpec Runner.

(** What the engine relies on: the user interface acts on the machine as a device does, may
    ask for a shutdown, and leaves the CPU thread alone. *)
Class UiLaws (D : Type) `{PlatformLaws D} `{!UiBackend D} := {
  ui_keeps : forall input e, engine_ok e -> engine_ok (ui_update input e);
  ui_phase : forall input e, e_phase (ui_update input e) = e_phase e;
  ui_counter : forall input e, e_i (ui_update input e) = e_i e;
  ui_request : forall input e, shutdown_from_host_ e = true ->
    shutdown_from_host_ (ui_update input e) = true;
}.

Section RunnerSpec.
Context {D : Type} `{PlatformLaws D} `{SoftFloatLaws} `{!UiBackend D} `{!UiLaws D}.
Variable u : operands.
Variable timeout : Z.
Abbreviation run := (runner D).

(** ** The invariant *)

Definition in_loop (p : host_pc) : bool :=
  match p with HTop | HTime | HTick | HUpdate | HExit => true | _ => false end.
Definition left_loop (p : host_pc) : bool :=
  match p with HExit | HDone _ => true | _ => false end.

Record runner_ok (r : run) : Prop := {
  ro_eng : engine_ok (r_eng r);
  ro_running : cpu_thread_running_ r = match cpu_thread_ r with Looping => true | _ => false end;
  ro_entry : cpu_thread_ r = NotCreated <-> r_host r = HEntry;
  ro_fresh : cpu_thread_ r = NotCreated \/ cpu_thread_ r = Starting ->
    e_phase (r_eng r) = Running /\ stop_requested (r_eng r) = false /\
    shutdown_from_host_ (r_eng r) = false;
  ro_starting : cpu_thread_ r = Starting -> r_host r = HWait;
  ro_exited : cpu_thread_ r = Exited -> e_phase (r_eng r) = Stopped;
  ro_left : left_loop (r_host r) = true ->
    cpu_thread_ r = Exited \/ shutdown_from_host_ (r_eng r) = true;
  ro_wait : r_host r = HWait -> e_phase (r_eng r) = Stopped ->
    stop_requested (r_eng r) = true \/ shutdown_from_host_ (r_eng r) = true;
  ro_result : match r_host r with
              | HDone Rethrown | HJoined Rethrown | HTerminate => False
              | HJoined _ => cpu_thread_ r = Exited
              | _ => True
              end;
}.

Lemma runner_init_ok m : ok0 m -> guest_shutdown (devs m) = false -> runner_ok (runner_init m).
Proof. intros Hm Hg. by split. Qed.

(** The CPU thread keeps a host request. *)
Lemma cpu_step_request e : shutdown_from_host_ (cpu_step u e) = shutdown_from_host_ e.
Proof.
  unfold cpu_step. destruct (e_phase e); [| |done..].
  - case_match; [done|]. destruct (cpu_iteration _ _ _) as [r m]. by destruct (if process_dead _ then _ else r).
  - case_match; [done|]. by destruct (wfi_poll _) as [[[] m]|].
Qed.

(** The loop of the CPU thread only ends for a reason, which it leaves in place. *)
Lemma cpu_step_stopped e : engine_ok e -> e_phase e <> Stopped -> e_phase (cpu_step u e) = Stopped ->
  stop_requested (cpu_step u e) = true \/ shutdown_from_host_ (cpu_step u e) = true.
Proof.
  intros He Hn. unfold cpu_step. destruct (e_phase e) eqn:Ep; [| |done|congruence].
  - destruct (stop_requested e || _) eqn:Es.
    + intros _. apply orb_true_iff in Es as [Es|Es]; [by left|]. bool_hyps. by right.
    + pose proof (cpu_iteration_ok u (e_i e) (e_mach e) (eo_mach e He)) as Hc.
      destruct (cpu_iteration _ _ _) as [r m]. by destruct (process_dead _), r.
  - case_match; [done|]. destruct (wfi_poll _) as [[[] m]|]; cbn [e_phase]; congruence.
Qed.

Lemma thread_step_ok r : runner_ok r -> runner_ok (thread_step u r).
Proof.
  intros Hok. pose proof Hok as [He Hr Hn Hf Hs Hx Hd Hw Hz]. unfold thread_step.
  destruct (cpu_thread_ r) eqn:Et; [done| | |done].
  - destruct (Hf ltac:(by right)) as (Ep & _). pose proof (Hs eq_refl) as Eh.
    split; cbn [r_eng cpu_thread_ cpu_thread_running_ r_host]; rewrite ?Eh, ?Ep; try done; by intros [|].
  - assert (e_phase (r_eng r) <> Stopped -> runner_ok (on_engine (cpu_step u) r)) as Hgo.
    { intros Hne. split; cbn [on_engine r_eng cpu_thread_ cpu_thread_running_ r_host];
        rewrite ?Et, ?cpu_step_request; try done; try (by intros [|]).
      - by apply cpu_step_ok.
      - intros _. rewrite <- (cpu_step_request (r_eng r)). by apply cpu_step_stopped. }
    destruct (e_phase (r_eng r)) eqn:Ep; [by apply Hgo..| |by apply Hgo].
    split; cbn [r_eng cpu_thread_ cpu_thread_running_ r_host]; rewrite ?Ep; try done.
    + split; [done|]. intros E. by apply Hn in E.
    + by intros [|].
    + by left.
    + by destruct (r_host r) as [| | | | | | |[]|[]|].
Qed.

(** The wait ends as soon as the CPU thread has started, also when it has already ended. *)
Lemma wake_up_started r : runner_ok r -> r_host r = HWait ->
  wake_up r = match cpu_thread_ r with Starting => false | _ => true end.
Proof.
  intros [He Hr Hn Hf Hs Hx Hd Hw Hz] Eh. unfold wake_up. rewrite Hr.
  destruct (cpu_thread_ r) eqn:Et; [|by destruct (Hf ltac:(by right)) as (_ & -> & ->)|done|].
  - by rewrite (proj1 Hn eq_refl) in Eh.
  - by destruct (Hw Eh (Hx eq_refl)) as [-> | ->]; rewrite ?orb_true_r.
Qed.

(** Moving the host's control point. *)
Lemma at_host_ok p r : runner_ok r -> r_host r <> HEntry -> r_host r <> HWait -> p <> HEntry -> p <> HWait ->
  (left_loop p = true -> cpu_thread_ r = Exited \/ shutdown_from_host_ (r_eng r) = true) ->
  match p with
  | HDone Rethrown | HJoined Rethrown | HTerminate => False
  | HJoined _ => cpu_thread_ r = Exited
  | _ => True
  end -> runner_ok (at_host p r).
Proof.
  intros [He Hr Hn Hf Hs Hx Hd Hw Hz] N1 N2 P1 P2 HL HR.
  split; cbn [at_host r_eng cpu_thread_ cpu_thread_running_ r_host]; try done.
  - split; [|done]. intros E. by apply Hn in E.
  - intros E. by apply Hs in E.
Qed.

(** Host activity on the engine that the CPU thread does not see. *)
Lemma on_engine_ok f r : runner_ok r -> in_loop (r_host r) = true ->
  engine_ok (f (r_eng r)) -> e_phase (f (r_eng r)) = e_phase (r_eng r) ->
  (shutdown_from_host_ (r_eng r) = true -> shutdown_from_host_ (f (r_eng r)) = true) ->
  runner_ok (on_engine f r).
Proof.
  intros [He Hr Hn Hf Hs Hx Hd Hw Hz] Hl Hk Hp Hq.
  split; cbn [on_engine r_eng cpu_thread_ cpu_thread_running_ r_host]; rewrite ?Hp; try done.
  - intros [E|E]; [apply Hn in E|apply Hs in E]; by rewrite E in Hl.
  - intros E. destruct (Hd E); auto.
  - intros E. by rewrite E in Hl.
Qed.

Lemma host_enter_ok r : runner_ok r -> r_host r = HEntry -> runner_ok (host_enter r).
Proof.
  intros [He Hr Hn Hf Hs Hx Hd Hw Hz] Eh. apply Hn in Eh as Et. destruct (Hf ltac:(by left)) as (Ep & Eg & Eq).
  unfold host_enter. rewrite Hr, Et. unfold stop_requested in Eg. apply orb_false_iff in Eg as [_ Eg].
  split; cbn; try done; [by destruct He|by rewrite Ep].
Qed.

Lemma host_wake_ok now r : runner_ok r -> r_host r = HWait -> runner_ok (host_wake now r).
Proof.
  intros Hok Eh. pose proof Hok as [He Hr Hn Hf Hs Hx Hd Hw Hz]. unfold host_wake.
  rewrite (wake_up_started r Hok Eh), Hr. destruct (cpu_thread_ r) eqn:Et; [|done|..]; cbn [negb].
  - by rewrite (proj1 Hn eq_refl) in Eh.
  - split; cbn; rewrite ?Et; done.
  - split; cbn [at_host r_eng cpu_thread_ cpu_thread_running_ r_host]; rewrite ?Et; try done; try (by intros [|]).
    + by left.
Qed.

Lemma host_loop_ok now input r : runner_ok r -> in_loop (r_host r) = true ->
  e_phase (r_eng r) <> Died ->   runner_ok (host_loop timeout now input r).
Proof.
  intros Hok Hl Hnd. pose proof Hok as [He Hr Hn Hf Hs Hx Hd Hw Hz]. unfold host_loop.
  assert (r_host r <> HEntry /\ r_host r <> HWait) as [N1 N2] by (by split; intros E; rewrite E in Hl).
  destruct (r_host r) eqn:Eh; try done.
  - rewrite Hr. destruct (cpu_thread_ r) eqn:Et.
    + by rewrite (proj1 Hn eq_refl) in N1.
    + by rewrite (Hs eq_refl) in N2.
    + apply at_host_ok; by rewrite ?Eh.
    + apply at_host_ok; rewrite ?Eh; try done. by left.
  - destruct (timed_out timeout now r).
    + assert (runner_ok (on_engine request_shutdown_from_host r)) as Hq.
      { apply on_engine_ok; rewrite ?Eh; try done. by destruct He. }
      apply at_host_ok; cbn [on_engine r_host]; rewrite ?Eh; try done. intros _. by right.
    + apply at_host_ok; by rewrite ?Eh.
  - assert (runner_ok (on_engine host_tick r)) as Hq.
    { apply on_engine_ok; rewrite ?Eh; try done. destruct He as [Hm Hi Hdd Hg]. split; try done.
      by apply tick_keeps_mach. }
    apply at_host_ok; cbn [on_engine r_host]; rewrite ?Eh; done.
  - assert (runner_ok (on_engine (ui_update input) r)) as Hq.
    { apply on_engine_ok; rewrite ?Eh; try done; [by apply ui_keeps|apply ui_phase|apply ui_request]. }
    apply at_host_ok; cbn [on_engine r_host]; rewrite ?Eh; done.
  - unfold cpu_thread_exception_. rewrite (eo_guest _ He).
    by apply at_host_ok; rewrite ?Eh.
Qed.

Lemma host_step_ok now input r : runner_ok r -> e_phase (r_eng r) <> Died ->
  runner_ok (host_step timeout now input r).
Proof.
  intros Hok Hnd. unfold host_step. destruct (r_host r) eqn:Eh; try done.
  - by apply host_enter_ok.
  - by apply host_wake_ok.
  - apply host_loop_ok; by rewrite ?Eh.
  - apply host_loop_ok; by rewrite ?Eh.
  - apply host_loop_ok; by rewrite ?Eh.
  - apply host_loop_ok; by rewrite ?Eh.
  - apply host_loop_ok; by rewrite ?Eh.
  - unfold host_join. pose proof (ro_result r Hok) as Hz. rewrite Eh in Hz.
    destruct (cpu_thread_ r) eqn:Et; try done.
    + rewrite (proj1 (ro_entry r Hok) Et) in Eh. done.
    + apply at_host_ok; rewrite ?Eh; try done. by destruct r0.
Qed.

Lemma gone_false (r : run) : gone r = false -> e_phase (r_eng r) <> Died.
Proof. unfold gone. by destruct (e_phase (r_eng r)). Qed.

Lemma do_move_ok r mv : runner_ok r -> runner_ok (do_move u timeout r mv).
Proof.
  intros Hok. unfold do_move. destruct (gone r) eqn:Eg; [done|]. destruct mv.
  - by apply thread_step_ok.
  - apply host_step_ok; [done|by apply gone_false].
Qed.

Lemma schedule_ok mvs r : runner_ok r -> runner_ok (schedule u timeout mvs r).
Proof.
  revert r. induction mvs as [|mv mvs IH]; intros r Hok; [done|]. by apply IH, do_move_ok.
Qed.

(** C20. However the two threads of the program interleave, from the call of
    execute_until_halt to the end of the engine's destructor, whatever the clock shows and
    whatever the user does: the machine stays well formed; the host waits on the condition
    variable only while the CPU thread has not started, so no wake-up is lost; the call
    returns only once the CPU thread has ended or has been told to end, it never rethrows,
    and the destructor returns only when the thread has ended. *)
Theorem halt_safe m mvs : ok0 m -> guest_shutdown (devs m) = false ->
  let r := schedule u timeout mvs (runner_init m) in
  ok0 (e_mach (r_eng r)) /\
  (r_host r = HWait -> wake_up r = false -> cpu_thread_ r = Starting) /\
  (forall res, r_host r = HDone res -> res = Returned /\
     (cpu_thread_ r = Exited \/ shutdown_from_host_ (r_eng r) = true)) /\
  (forall res, r_host r = HJoined res -> res = Returned /\ cpu_thread_ r = Exited /\
     e_phase (r_eng r) = Stopped) /\
  r_host r <> HTerminate.
Proof.
  intros Hm Hg r. assert (runner_ok r) as Hok by (by apply schedule_ok, runner_init_ok).
  clearbody r. pose proof Hok as [He Hr Hn Hf Hs Hx Hd Hw Hz].
  split; [apply He|]. split; [|split; [|split]].
  - intros Eh. rewrite (wake_up_started r Hok Eh). by destruct (cpu_thread_ r).
  - intros res Eh. rewrite Eh in Hz, Hd. split; [by destruct res|]. by apply Hd.
  - intros res Eh. rewrite Eh in Hz. destruct res; [|done]. auto.
  - intros Eh. by rewrite Eh in Hz.
Qed.

(** ** Termination *)

Lemma schedule_cons mv mvs r : schedule u timeout (mv :: mvs) r =
  schedule u timeout mvs (if gone r then r else match mv with
                          | MCpu => thread_step u r
                          | MHost now input => host_step timeout now input r
                          end).
Proof. done. Qed.
Lemma schedule_app s1 s2 r : schedule u timeout (s1 ++ s2) r = schedule u timeout s2 (schedule u timeout s1 r).
Proof. apply foldl_app. Qed.

Lemma gone_stays mvs r : gone r = true -> schedule u timeout mvs r = r.
Proof.
  revert r. induction mvs as [|mv mvs IH]; intros r Hg; [done|].
  rewrite schedule_cons, Hg. by apply IH.
Qed.

(** Steps of the host until it has left the loop, once the deadline has passed. *)
Definition host_rank (p : host_pc) : Z :=
  match p with
  | HTick => 5 | HUpdate => 4 | HTop => 3 | HTime => 2 | HExit => 1 | _ => 0
  end.
(** Past the loop: returned, or destroyed. *)
Definition host_past (p : host_pc) : bool :=
  match p with HDone _ | HJoined _ => true | _ => false end.

(** Every time the host sees is past the deadline of a loop started at [t0]. *)
Definition late (t0 : Z) (mvs : list move) : Prop :=
  Forall (fun mv => match mv with MCpu => True | MHost now _ => t0 + timeout * 1000000 <= now end) mvs.

Hypothesis Htimeout : 0 < timeout < 9223372036854.

Lemma timed_out_late now (r : run) : start_time r + timeout * 1000000 <= now -> timed_out timeout now r = true.
Proof.
  intros Hl. unfold timed_out, swrap. rewrite Z.mod_small by lia.
  destruct (Z.ltb_spec 0 timeout), (Z.ltb_spec (timeout * 1000000) (2 ^ (64 - 1))); [|lia..].
  cbn [andb]. apply Z.leb_le. lia.
Qed.

(** What a move does to the host's control point. *)
Lemma thread_step_host r : r_host (thread_step u r) = r_host r /\ start_time (thread_step u r) = start_time r.
Proof. unfold thread_step. by destruct (cpu_thread_ r), (e_phase (r_eng r)). Qed.

Lemma host_loop_rank now input r : in_loop (r_host r) = true -> start_time r + timeout * 1000000 <= now ->
  let r' := host_loop timeout now input r in
  start_time r' = start_time r /\ (in_loop (r_host r') = true \/ host_past (r_host r') = true) /\
  host_rank (r_host r') < host_rank (r_host r).
Proof.
  intros Hl Hnow. unfold host_loop. rewrite (timed_out_late now r Hnow).
  destruct (r_host r); try done; cbn; try (by split_and!; [..|left|]; try lia).
  - destruct (cpu_thread_running_ r); cbn; (split_and!; [done|by left|lia]).
  - split_and!; [done|by right|lia].
Qed.

Lemma leaves_loop mvs r : in_loop (r_host r) = true \/ host_past (r_host r) = true ->
  late (start_time r) mvs -> host_rank (r_host r) <= host_moves mvs ->
  gone (schedule u timeout mvs r) = true \/ host_past (r_host (schedule u timeout mvs r)) = true.
Proof.
  revert r. induction mvs as [|mv mvs IH]; intros r Hr Hlate Hn.
  { change (host_moves []) with 0 in Hn. right. destruct Hr as [Hr|Hr]; [|done].
    destruct (r_host r); cbn in *; try done; lia. }
  rewrite schedule_cons. destruct (gone r) eqn:Eg; [left; by rewrite (gone_stays mvs r Eg)|].
  inversion Hlate as [|? ? Hmv Hlate']; subst. destruct mv as [|now input].
  - destruct (thread_step_host r) as [E1 E2]. apply IH; rewrite ?E1, ?E2; try done.
  - unfold host_moves in Hn. cbn [List.filter is_cpu negb length] in Hn. fold (host_moves mvs) in Hn.
    destruct Hr as [Hr|Hr].
    + destruct (host_loop_rank now input r Hr Hmv) as (E1 & E2 & E3).
      assert (host_step timeout now input r = host_loop timeout now input r) as ->
        by (unfold host_step; by destruct (r_host r)).
      apply IH; [done|by rewrite E1|]. unfold host_moves. lia.
    + assert (host_past (r_host (host_step timeout now input r)) = true /\
        start_time (host_step timeout now input r) = start_time r) as [E1 E2].
      { unfold host_step, host_join. destruct (r_host r) eqn:Eh; try done; [|by rewrite Eh].
        by destruct (cpu_thread_ r); rewrite ?Eh. }
      apply IH; [by right|by rewrite E2|].
      destruct (r_host (host_step timeout now input r)); cbn in *; try done; unfold host_moves; lia.
Qed.

(** *** The destructor's join *)

Definition thread_rank (r : run) : Z :=
  match cpu_thread_ r with Exited => 0 | _ => rank (r_eng r) + 1 end.

(** The CPU thread after the call has returned: it has ended, or it will see the request. *)
Definition ending (r : run) : Prop :=
  runner_ok r /\ host_past (r_host r) = true /\
  (cpu_thread_ r = Exited \/ shutdown_from_host_ (r_eng r) = true).

Lemma ending_host now input r : ending r -> ending (host_step timeout now input r) /\
  thread_rank (host_step timeout now input r) = thread_rank r /\
  cpu_thread_ (host_step timeout now input r) = cpu_thread_ r /\
  (cpu_thread_ r = Exited -> exists res, r_host (host_step timeout now input r) = HJoined res).
Proof.
  intros (Hok & Hp & He). unfold host_step. destruct (r_host r) eqn:Eh; try done.
  - unfold host_join. pose proof (ro_result r Hok) as Hz. rewrite Eh in Hz.
    destruct (cpu_thread_ r) eqn:Et; try by (unfold ending; rewrite ?Eh, ?Et).
    + by rewrite (proj1 (ro_entry r Hok) Et) in Eh.
    + split; [|unfold thread_rank; cbn [at_host cpu_thread_ r_host]; rewrite Et; eauto].
      split; [|split; [done|by left]]. apply at_host_ok; rewrite ?Eh; try done. by destruct r0.
  - split; [split; [done|]; by rewrite Eh|]. split; [done|]. split; [done|]. intros _. by exists r0.
Qed.

Lemma ending_thread r : ending r -> e_phase (r_eng r) <> Died ->
  ending (thread_step u r) /\ (cpu_thread_ (thread_step u r) = Exited \/
    thread_rank (thread_step u r) < thread_rank r).
Proof.
  intros (Hok & Hp & He) Hnd. destruct (thread_step_host r) as [Eh _].
  pose proof (thread_step_ok r Hok) as Hok'. unfold ending. rewrite Eh. unfold thread_step in *.
  destruct (cpu_thread_ r) eqn:Et.
  - by rewrite (proj1 (ro_entry r Hok) Et) in Hp.
  - by rewrite (ro_starting r Hok Et) in Hp.
  - destruct He as [He|He]; [done|]. destruct (e_phase (r_eng r)) eqn:Ep.
    3: { split; [|by left]. split; [done|]. split; [done|by left]. }
    3: { done. }
    all: destruct (rank_step u (r_eng r) He (eo_i _ (ro_eng r Hok))) as (E1 & E2 & E3).
    all: assert (0 < rank (r_eng r)) by (unfold rank; rewrite Ep; lia).
    all: split; [split; [done|split; [done|by right]]|right].
    all: unfold thread_rank; cbn [on_engine cpu_thread_ r_eng]; rewrite Et; lia.
  - split; [by split_and!; [..|left]|by left].
Qed.

(** Enough steps of the CPU thread end it. *)
Lemma thread_ends mvs r : ending r -> thread_rank r <= cpu_moves mvs ->
  gone (schedule u timeout mvs r) = true \/
  ending (schedule u timeout mvs r) /\ cpu_thread_ (schedule u timeout mvs r) = Exited.
Proof.
  revert r. induction mvs as [|mv mvs IH]; intros r Hr Hn.
  { right. split; [done|]. change (cpu_moves []) with 0 in Hn. unfold thread_rank in Hn. cbn.
    destruct Hr as (Hok & _). pose proof (rank_bound _ (eo_i _ (ro_eng r Hok))).
    destruct (cpu_thread_ r); try done; lia. }
  rewrite schedule_cons. destruct (gone r) eqn:Eg; [left; by rewrite (gone_stays mvs r Eg)|].
  destruct mv as [|now input].
  - destruct (ending_thread r Hr (gone_false r Eg)) as [A1 A2]. apply IH; [done|].
    unfold cpu_moves in Hn. cbn [List.filter is_cpu length] in Hn. fold (cpu_moves mvs) in Hn.
    unfold cpu_moves. destruct A2 as [A2|A2]; [|lia]. unfold thread_rank. rewrite A2. lia.
  - destruct (ending_host now input r Hr) as (A1 & A2 & _). apply IH; [done|]. by rewrite A2.
Qed.

(** The destructor returns. *)
Lemma host_joins mvs r : ending r -> cpu_thread_ r = Exited -> 1 <= host_moves mvs ->
  gone (schedule u timeout mvs r) = true \/
  ending (schedule u timeout mvs r) /\ exists res, r_host (schedule u timeout mvs r) = HJoined res.
Proof.
  intros Hr Ht. cut ((exists res, r_host r = HJoined res) \/ 1 <= host_moves mvs ->
    gone (schedule u timeout mvs r) = true \/
    ending (schedule u timeout mvs r) /\ exists res, r_host (schedule u timeout mvs r) = HJoined res);
    [by intros Hc; intros; apply Hc; right|].
  revert r Hr Ht. induction mvs as [|mv mvs IH]; intros r Hr Ht Hn.
  { destruct Hn as [Hn|Hn]; [by right|done]. }
  rewrite schedule_cons. destruct (gone r) eqn:Eg; [left; by rewrite (gone_stays mvs r Eg)|].
  destruct mv as [|now input].
  - assert (thread_step u r = r) as -> by (unfold thread_step; by rewrite Ht). by apply IH.
  - destruct (ending_host now input r Hr) as (A1 & _ & A2 & A3). apply IH; [done|congruence|].
    left. by apply A3.
Qed.

(** *** The handshake *)

(** A move of a kind establishes [Q] from [I], and both are kept by every move. *)
Lemma schedule_reaches (I Q : run -> Prop) (k : move -> bool) mvs r :
  (forall r mv, gone r = false -> I r -> I (do_move u timeout r mv)) ->
  (forall r mv, gone r = false -> Q r -> Q (do_move u timeout r mv)) ->
  (forall r mv, gone r = false -> I r -> k mv = true -> Q (do_move u timeout r mv)) ->
  I r -> 1 <= Z.of_nat (length (List.filter k mvs)) ->
  gone (schedule u timeout mvs r) = true \/ Q (schedule u timeout mvs r).
Proof.
  intros HI HQ Hk Hr Hn. cut (Q r \/ I r /\ 1 <= Z.of_nat (length (List.filter k mvs)) ->
    gone (schedule u timeout mvs r) = true \/ Q (schedule u timeout mvs r)); [auto|]. clear Hr Hn.
  revert r. induction mvs as [|mv mvs IH]; intros r Hr.
  { right. destruct Hr as [Hr|[_ Hn]]; [done|by cbn in Hn]. }
  destruct (gone r) eqn:Eg; [left; by rewrite (gone_stays _ r Eg)|].
  apply (IH (do_move u timeout r mv)). destruct Hr as [Hr|[Hr Hn]]; [left; by apply HQ|].
  cbn [List.filter] in Hn. destruct (k mv) eqn:Ek; [left; by apply Hk|right]. auto.
Qed.

(** The stages of the handshake. *)
Definition entered (r : run) : Prop := runner_ok r /\ r_host r <> HEntry.
Definition started (r : run) : Prop :=
  entered r /\ match cpu_thread_ r with NotCreated | Starting => False | _ => True end.
Definition awake (r : run) : Prop := started r /\ r_host r <> HWait.

Lemma entered_move r mv : gone r = false -> entered r -> entered (do_move u timeout r mv).
Proof.
  intros Hg [Hok Hh]. split; [by apply do_move_ok|]. unfold do_move. rewrite Hg. destruct mv as [|now input].
  - by rewrite (proj1 (thread_step_host r)).
  - unfold host_step, host_wake, host_loop, host_join. destruct (r_host r) eqn:Eh; try done; repeat case_match; cbn; congruence.
Qed.

Lemma host_step_thread now input r : r_host r <> HEntry ->
  cpu_thread_ (host_step timeout now input r) = cpu_thread_ r.
Proof.
  intros Hh. unfold host_step, host_wake, host_loop, host_join. by destruct (r_host r); repeat case_match.
Qed.

Lemma started_move r mv : gone r = false -> started r -> started (do_move u timeout r mv).
Proof.
  intros Hg [Hen Ht]. split; [by apply entered_move|]. destruct Hen as [Hok Hh].
  unfold do_move. rewrite Hg. destruct mv as [|now input].
  - unfold thread_step. destruct (cpu_thread_ r) eqn:Et; try done.
    + destruct (e_phase (r_eng r)); cbn; by rewrite ?Et.
    + by rewrite Et.
  - by rewrite host_step_thread.
Qed.

Lemma awake_move r mv : gone r = false -> awake r -> awake (do_move u timeout r mv).
Proof.
  intros Hg [Hst Hh]. split; [by apply started_move|]. destruct Hst as [[_ Hn] _].
  unfold do_move. rewrite Hg. destruct mv as [|now input].
  - by rewrite (proj1 (thread_step_host r)).
  - unfold host_step, host_loop, host_join. destruct (r_host r) eqn:Eh; try done; repeat case_match; cbn; congruence.
Qed.

Definition is_host (mv : move) : bool := negb (is_cpu mv).

Lemma host_enters r mv : gone r = false -> runner_ok r -> is_host mv = true -> entered (do_move u timeout r mv).
Proof.
  intros Gr Hok Hk. destruct (decide (r_host r = HEntry)) as [Eh|Eh]; [|by apply entered_move].
  split; [by apply do_move_ok|]. destruct mv as [|now input]; [done|].
  unfold do_move, host_step, host_enter. rewrite Gr, Eh. by repeat case_match.
Qed.

Lemma thread_starts r mv : gone r = false -> entered r -> is_cpu mv = true -> started (do_move u timeout r mv).
Proof.
  intros Gr He Hk. split; [by apply entered_move|]. destruct He as [Hok Hh], mv as [|now input]; [|done].
  unfold do_move, thread_step. rewrite Gr. destruct (cpu_thread_ r) eqn:Et; try done; rewrite ?Et; try done.
  - by apply (ro_entry r Hok) in Et.
  - destruct (e_phase (r_eng r)); cbn; by rewrite ?Et.
Qed.

Lemma host_wakes r mv : gone r = false -> started r -> is_host mv = true -> awake (do_move u timeout r mv).
Proof.
  intros Gr Hs Hk. destruct (decide (r_host r = HWait)) as [Eh|Eh]; [|by apply awake_move].
  split; [by apply started_move|]. destruct Hs as [[Hok Hh] Ht], mv as [|now input]; [done|].
  unfold do_move, host_step, host_wake. rewrite Gr, Eh, (wake_up_started r Hok Eh).
  destruct (cpu_thread_ r); try done; by case_match.
Qed.

(** A step of the host, one of the CPU thread and one of the host, in this order among any
    others, take the call past the handshake. *)
Lemma handshake m a b c : ok0 m -> guest_shutdown (devs m) = false ->
  1 <= host_moves a -> 1 <= cpu_moves b -> 1 <= host_moves c ->
  let r := schedule u timeout (a ++ b ++ c) (runner_init m) in
  gone r = true \/ in_loop (r_host r) = true \/ host_past (r_host r) = true.
Proof.
  intros Hm Hg Na Nb Nc r. unfold r. rewrite !schedule_app. clear r.
  destruct (schedule_reaches runner_ok entered is_host a (runner_init m)) as [G|Ha];
    [auto using do_move_ok|exact entered_move|exact host_enters|by apply runner_init_ok|done
    |by left; rewrite !(gone_stays _ _ G)|].
  destruct (schedule_reaches entered started is_cpu b _ entered_move started_move thread_starts Ha Nb) as [G|Hb];
    [by left; rewrite (gone_stays _ _ G)|].
  destruct (schedule_reaches started awake is_host c _ started_move awake_move host_wakes Hb Nc) as [G|Hc];
    [by left|].
  right. destruct Hc as [[[Hok Hh] _] Hw]. pose proof (ro_result _ Hok) as Hz.
  destruct (r_host (schedule u timeout c _)); try done; first [by left | by right].
Qed.

Lemma halt_ends m a b c s1 s2 s3 : ok0 m -> guest_shutdown (devs m) = false ->
  1 <= host_moves a -> 1 <= cpu_moves b -> 1 <= host_moves c ->
  let r0 := schedule u timeout (a ++ b ++ c) (runner_init m) in
  late (start_time r0) s1 -> 5 <= host_moves s1 ->
  131074 <= cpu_moves s2 -> 1 <= host_moves s3 ->
  let r := schedule u timeout (s1 ++ s2 ++ s3) r0 in
  r_host r = HJoined Returned \/ (e_phase (r_eng r) = Died /\ died_why (e_mach (r_eng r))).
Proof.
  intros Hm Hg Na Nb Nc r0 Hlate N1 N2 N3 r.
  assert (runner_ok r0) as Hok0 by (by apply schedule_ok, runner_init_ok).
  pose proof (handshake m a b c Hm Hg Na Nb Nc) as Hl. fold r0 in Hl. cbv zeta in Hl. clearbody r0.
  assert (runner_ok r) as Hok by (by apply schedule_ok).
  assert (gone r = true \/ r_host r = HJoined Returned) as [Hgone|Hj]; [|right|by left].
  - unfold r. rewrite !schedule_app.
    destruct Hl as [G|Hl]; [left; by rewrite !(gone_stays _ _ G)|].
    destruct (leaves_loop s1 r0) as [G|Hp]; [done|done|by destruct (r_host r0); cbn; lia| |].
    { left. by rewrite !(gone_stays _ _ G). }
    assert (runner_ok (schedule u timeout s1 r0)) as Hok1 by by apply schedule_ok.
    set (r1 := schedule u timeout s1 r0) in *. clearbody r1.
    assert (ending r1) as He1.
    { split; [done|]. split; [done|]. pose proof (ro_left r1 Hok1) as HL. pose proof (ro_result r1 Hok1) as HR.
      destruct (r_host r1) as [| | | | | | |res|[]|]; try done; [by apply HL|by left]. }
    assert (thread_rank r1 <= cpu_moves s2) as HN.
    { pose proof (rank_bound _ (eo_i _ (ro_eng r1 Hok1))). unfold thread_rank. destruct (cpu_thread_ r1); lia. }
    destruct (thread_ends s2 r1 He1 HN) as [G|[He2 Ht2]]; [left; by rewrite (gone_stays _ _ G)|].
    destruct (host_joins s3 _ He2 Ht2 N3) as [G|[(Hok3 & _) [res Ej]]]; [by left|right].
    rewrite Ej. pose proof (ro_result _ Hok3) as HR. rewrite Ej in HR. by destruct res.
  - pose proof (ro_result r Hok) as HR. unfold gone in Hgone.
    assert (e_phase (r_eng r) = Died) as Ed.
    { destruct (e_phase (r_eng r)), (r_host r); done. }
    split; [done|]. by apply (eo_died _ (ro_eng r Hok)).
Qed.

(** C19. A run with a timeout ends, whatever the guest does, from the call of
    execute_until_halt to the end of the engine's destructor.  The handshake needs a step of
    the host, one of the CPU thread and one of the host; once the deadline has passed, five steps of
    the host, then 2 * 65536 + 2 steps of the CPU thread and one more of the host, in any
    interleaving, end it -- unless the process has died, at the reserved privilege level 2 or in a device
    call. *)
Theorem halt_terminates m a b c s1 s2 s3 : ok0 m -> guest_shutdown (devs m) = false ->
  1 <= host_moves a -> 1 <= cpu_moves b -> 1 <= host_moves c ->
  let r0 := schedule u timeout (a ++ b ++ c) (runner_init m) in
  late (start_time r0) s1 -> 5 <= host_moves s1 ->
  131074 <= cpu_moves s2 -> 1 <= host_moves s3 ->
  let r := schedule u timeout (s1 ++ s2 ++ s3) r0 in
  r_host r = HJoined Returned \/ (e_phase (r_eng r) = Died /\ died_why (e_mach (r_eng r))).
Proof. apply halt_ends. Qed.
End RunnerSpec.

(** ** A second run

    The thread is joined by the destructor only, so an engine runs once: a second call of
    execute_until_halt, after a first that has returned and whose thread has ended, destroys
    a joinable std::thread, and the process with it. *)
Lemma second_run_terminates {D} `{PlatformLaws D} `{SoftFloatLaws} `{!UiBackend D} `{!UiLaws D} u timeout m mvs res :
  ok0 m -> guest_shutdown (devs m) = false ->
  let r := schedule u timeout mvs (runner_init m) in
  r_host r = HDone res -> cpu_thread_ r = Exited ->
  r_host (host_enter (at_host HEntry r)) = HTerminate.
Proof.
  intros Hm Hg r Eh Et. assert (runner_ok r) as Hok by (by apply schedule_ok, runner_init_ok).
  unfold host_enter. cbn [at_host cpu_thread_ cpu_thread_running_]. by rewrite (ro_running r Hok), Et.
Qed.

(** *** Concrete runs *)

#[local] Existing Instance zero_softfloat.

(** An interface that sees nothing and does nothing. *)
#[local] Instance idle_ui : UiBackend unit := {| ui_input := unit; ui_update _ e := e |}.
#[local] Instance idle_laws : UiLaws unit.
Proof. by split. Qed.

(** The first moves: the host creates the thread and waits, the thread starts and runs, the
    host wakes up and loops. *)
Definition start_moves : list (move (D := unit)) :=
  [MHost 0 tt; MHost 0 tt; MCpu; MCpu; MHost 100 tt; MHost 200 tt; MHost 300 tt].

Lemma halt_safe_witness :
  let r := schedule no_operands 5 start_moves (runner_init small_machine) in
  ok0 (e_mach (r_eng r)) /\ r_host r = HTick /\ cpu_thread_ r = Looping.
Proof.
  split; [apply (halt_safe no_operands 5 small_machine start_moves small_machine_ok0 eq_refl)|].
  split; vm_compute; reflexivity.
Defined.

Lemma halt_terminates_witness :
  let r0 := schedule no_operands 5 start_moves (runner_init small_machine) in
  let r := schedule no_operands 5
    (repeat (MHost 6000000 tt) 5 ++ repeat MCpu (Z.to_nat 131074) ++ [MHost 6000000 tt]) r0 in
  r_host r = HJoined Returned \/ (e_phase (r_eng r) = Died /\ died_why (e_mach (r_eng r))).
Proof.
  apply (halt_terminates no_operands 5 ltac:(done) small_machine (take 2 start_moves) (take 2 (drop 2 start_moves))
    (drop 4 start_moves)); [apply small_machine_ok0|done..| | | |].
  - repeat (apply Forall_cons_2; [by vm_compute|]). apply Forall_nil_2.
  - done.
  - unfold cpu_moves. assert (forall n, length (List.filter (is_cpu (D := unit)) (repeat MCpu n)) = n) as ->.
    { induction n as [|n IH]; [done|]. cbn. by rewrite IH. }
    lia.
  - done.
Defined.
