(* ===== verification/InsnSpec.v ===== *)
(** * What the instructions compute

    Functional theorems about instructions that go beyond the shape of their code:
    multiplication and division against the integers, load-reserved and
    store-conditional, and the return from a trap. *)

From stdpp Require Import gmap.
From S2P Require Import Prelude Bits Hart HartInv Trap Machine Bus Decoder Mmu MmuSpec CsrAccess.
From S2P Require Import Execute ExecSpec.

(** An integer register of the machine. *)
Definition reg {D} (m : mach D) (i : Z) : Z := RegisterFile_read (gprs (hart m)) i.

Lemma reg_fits {D} `{Platform D} (m : mach D) i : mach_ok m -> fits 64 (reg m i).
Proof. intros Hm. apply RegisterFile_read_fits, Hm. Qed.

Lemma read_write_reg rf i v : length rf = 32%nat -> 0 < i < 32 ->
  RegisterFile_read (RegisterFile_write rf i v) i = v.
Proof.
  intros Hl Hi. unfold RegisterFile_read, RegisterFile_write.
  destruct (Z.eqb_spec i 0); [lia|]. cbn [negb].
  rewrite nth_lookup, list_lookup_insert_eq by lia. done.
Qed.

Lemma read_other_reg rf i j v : 0 <= i < 32 -> 0 <= j < 32 -> i <> j ->
  RegisterFile_read (RegisterFile_write rf i v) j = RegisterFile_read rf j.
Proof.
  intros Hi Hj Hne. unfold RegisterFile_read, RegisterFile_write.
  destruct (Z.eqb_spec i 0); [done|]. destruct (Z.eqb_spec j 0); [done|]. cbn [negb].
  by rewrite !nth_lookup, list_lookup_insert_ne by lia.
Qed.

(** A writable register number. *)
Abbreviation xreg i := (0 < i < 32).

Section Ops.
Context {D : Type} `{Platform D}.

(** The destination after a register-register operation. *)
Lemma op_rr_value d f (m : mach D) : mach_ok m -> xreg (d_rd d) ->
  exists m', op_rr d f m = (Ok tt, m') /\
    reg m' (d_rd d) = u64 (f (reg m (d_rs1 d)) (reg m (d_rs2 d))).
Proof.
  intros Hm Hr. eexists. split; [done|].
  unfold reg. cbn [hart upd_hart gprs set_gprs]. apply read_write_reg; [apply Hm|done].
Qed.

(** ** Multiplication *)

Lemma s64_u64 x : s64 (u64 x) = s64 x.
Proof. apply swrap_uwrap. Qed.

(** The high half of a product that needs at most 128 bits. *)
Lemma high_low x : x = 2 ^ 64 * Z.shiftr x 64 + u64 x.
Proof. rewrite Z.shiftr_div_pow2 by lia. unfold uwrap. lia. Qed.

Lemma s64_shiftr x : - 2 ^ 127 <= x < 2 ^ 127 -> s64 (Z.shiftr x 64) = Z.shiftr x 64.
Proof. intros Hx. apply swrap_id; [lia|]. rewrite Z.shiftr_div_pow2 by lia. lia. Qed.

(** The unsigned 128-bit product of mulhsu: its high half, read as signed. *)
Lemma mulhsu_high x b : - 2 ^ 63 <= x < 2 ^ 63 -> 0 <= b < 2 ^ 64 ->
  s64 (Z.shiftr (uwrap 128 (uwrap 128 x * b)) 64) = Z.shiftr (x * b) 64.
Proof.
  intros Hx Hb.
  assert (uwrap 128 (uwrap 128 x * b) = uwrap 128 (x * b)) as ->.
  { unfold uwrap. by rewrite Zmult_mod_idemp_l. }
  rewrite <- (s64_shiftr (x * b)) by nia.
  rewrite <- !(swrap_uwrap 64 (Z.shiftr _ _)). f_equal.
  apply Z.bits_inj'. intros i Hi. rewrite !uwrap_spec by lia.
  destruct (Z.ltb_spec i 64); [|done]. cbn [andb].
  rewrite !Z.shiftr_spec, uwrap_spec by lia. by destruct (Z.ltb_spec (i + 64) 128); [|lia].
Qed.

Lemma u64_mul_cong a a' b b' : u64 a = u64 a' -> u64 b = u64 b' -> u64 (a * b) = u64 (a' * b').
Proof.
  unfold uwrap. intros Ea Eb. rewrite Z.mul_mod, Ea, Eb, <- Z.mul_mod by lia. done.
Qed.

(** The four multiplications agree with the integers: mul gives the low half
    of the product, mulh, mulhu and mulhsu the high halves of the signed, the
    unsigned and the mixed product. *)
Theorem mul_product d (m : mach D) : mach_ok m -> xreg (d_rd d) ->
  let a := reg m (d_rs1 d) in let b := reg m (d_rs2 d) in
  exists lo h hu hsu,
    exec_mul d m = (Ok tt, lo) /\ exec_mulh d m = (Ok tt, h) /\
    exec_mulhu d m = (Ok tt, hu) /\ exec_mulhsu d m = (Ok tt, hsu) /\
    s64 a * s64 b = 2 ^ 64 * s64 (reg h (d_rd d)) + reg lo (d_rd d) /\
    a * b = 2 ^ 64 * reg hu (d_rd d) + reg lo (d_rd d) /\
    s64 a * b = 2 ^ 64 * s64 (reg hsu (d_rd d)) + reg lo (d_rd d).
Proof.
  intros Hm Hr a b.
  destruct (op_rr_value d (fun a b => a * b) m Hm Hr) as (lo & E1 & V1).
  destruct (op_rr_value d (fun a b => s64 (Z.shiftr (s64 a * s64 b) 64)) m Hm Hr) as (h & E2 & V2).
  destruct (op_rr_value d (fun a b => u64 (Z.shiftr (uwrap 128 (a * b)) 64)) m Hm Hr)
    as (hu & E3 & V3).
  destruct (op_rr_value d (fun a b => s64 (Z.shiftr (uwrap 128 (uwrap 128 (s64 a) * b)) 64)) m Hm Hr)
    as (hsu & E4 & V4).
  exists lo, h, hu, hsu. split_and!; try done; rewrite V1.
  all: fold a b in V2, V3, V4 |- *;
    pose proof (reg_fits m (d_rs1 d) Hm) as Fa; pose proof (reg_fits m (d_rs2 d) Hm) as Fb;
    fold a b in Fa, Fb; unfold fits in Fa, Fb;
    pose proof (swrap_range 64 a ltac:(lia)) as Sa; pose proof (swrap_range 64 b ltac:(lia)) as Sb;
    change (2 ^ (64 - 1)) with (2 ^ 63) in *.
  - rewrite V2, s64_u64, (swrap_id 64 (s64 _)) by (lia || apply swrap_range; lia).
    rewrite s64_shiftr by nia. rewrite (u64_mul_cong a (s64 a) b (s64 b)) by (by rewrite uwrap_swrap).
    apply high_low.
  - rewrite V3. rewrite uwrap_idemp, (uwrap_id 128 (a * b)) by (unfold fits; nia).
    rewrite (uwrap_id 64 (Z.shiftr _ _)); [apply high_low|].
    unfold fits. rewrite Z.shiftr_div_pow2 by lia. nia.
  - rewrite V4, s64_u64, (swrap_id 64 (s64 _)) by (lia || apply swrap_range; lia).
    rewrite mulhsu_high by lia. rewrite (u64_mul_cong a (s64 a) b b) by (by rewrite ?uwrap_swrap).
    apply high_low.
Qed.
(** ** Division *)

Lemma quot_rem_spec a b : b <> 0 ->
  a = b * Z.quot a b + Z.rem a b /\ Z.abs (Z.rem a b) < Z.abs b /\
  (Z.rem a b = 0 \/ Z.sgn (Z.rem a b) = Z.sgn a).
Proof.
  intros Hb. split_and!; [apply Z.quot_rem'|by apply Z.rem_bound_abs|].
  destruct (Z.eq_dec (Z.rem a b) 0); [by left|right]. by apply Z.rem_sign_nz.
Qed.

(** A quotient overflows only for the most negative dividend and the divisor -1. *)
Lemma quot_range w a b : 1 <= w -> b <> 0 ->
  - 2 ^ (w - 1) <= a < 2 ^ (w - 1) -> - 2 ^ (w - 1) <= b < 2 ^ (w - 1) ->
  ~ (a = - 2 ^ (w - 1) /\ b = -1) ->
  (- 2 ^ (w - 1) <= Z.quot a b < 2 ^ (w - 1)) /\ (- 2 ^ (w - 1) <= Z.rem a b < 2 ^ (w - 1)).
Proof.
  intros Hw Hb Ra Rb Hn. destruct (quot_rem_spec a b Hb) as (E & B & S).
  set (n := 2 ^ (w - 1)) in *. clearbody n. split; [|destruct S; lia].
  assert (Z.abs (Z.quot a b) <= Z.abs a) as Ha.
  { rewrite <- (Z.quot_abs a b) by done. apply Z.quot_le_upper_bound; nia. }
  split; [lia|]. destruct (Z.lt_ge_cases (Z.quot a b) n); [done|exfalso].
  assert (Z.quot a b = n /\ a = - n) as [Eq Ea] by lia. subst a. rewrite Eq in E. nia.
Qed.

(** The specification of a signed division at width [w]: quotient and remainder
    of the truncated division, with the two special cases of the instruction set. *)
Definition signed_division (w a b q r : Z) : Prop :=
  if b =? 0 then q = -1 /\ r = a
  else if (a =? - 2 ^ (w - 1)) && (b =? -1) then q = a /\ r = 0
  else a = b * q + r /\ Z.abs r < Z.abs b /\ (r = 0 \/ Z.sgn r = Z.sgn a).
Definition unsigned_division (w a b q r : Z) : Prop :=
  if b =? 0 then q = 2 ^ w - 1 /\ r = a
  else a = b * q + r /\ 0 <= r < b.

(** div, rem, divu and remu are the divisions of the instruction set on the
    64-bit values, division by zero and overflow included. *)
Theorem div_rem_spec d (m : mach D) : mach_ok m -> xreg (d_rd d) ->
  let a := reg m (d_rs1 d) in let b := reg m (d_rs2 d) in
  exists q r qu ru,
    exec_div d m = (Ok tt, q) /\ exec_rem d m = (Ok tt, r) /\
    exec_divu d m = (Ok tt, qu) /\ exec_remu d m = (Ok tt, ru) /\
    signed_division 64 (s64 a) (s64 b) (s64 (reg q (d_rd d))) (s64 (reg r (d_rd d))) /\
    unsigned_division 64 a b (reg qu (d_rd d)) (reg ru (d_rd d)).
Proof.
  intros Hm Hr a b.
  destruct (op_rr_value d (fun a b => if s64 b =? 0 then 2 ^ 64 - 1
    else if (s64 a =? - 2 ^ 63) && (s64 b =? -1) then s64 a
    else Z.quot (s64 a) (s64 b)) m Hm Hr) as (q & E1 & V1).
  destruct (op_rr_value d (fun a b => if s64 b =? 0 then s64 a
    else if (s64 a =? - 2 ^ 63) && (s64 b =? -1) then 0
    else Z.rem (s64 a) (s64 b)) m Hm Hr) as (r & E2 & V2).
  destruct (op_rr_value d (fun a b => if b =? 0 then 2 ^ 64 - 1 else a / b) m Hm Hr)
    as (qu & E3 & V3).
  destruct (op_rr_value d (fun a b => if b =? 0 then a else a mod b) m Hm Hr) as (ru & E4 & V4).
  exists q, r, qu, ru. split_and!; try done; fold a b in V1, V2, V3, V4.
  - rewrite V1, V2, !s64_u64. unfold signed_division. change (64 - 1) with 63.
    pose proof (swrap_range 64 a ltac:(lia)) as Ra. pose proof (swrap_range 64 b ltac:(lia)) as Rb.
    destruct (Z.eqb_spec (s64 b) 0) as [Eb|Nb].
    { split; [done|]. apply swrap_id; [lia|done]. }
    destruct (_ && _) eqn:Eo.
    { split; [apply swrap_id; [lia|done]|done]. }
    destruct (quot_range 64 (s64 a) (s64 b)) as [Q R]; [lia|done|done|done| |].
    { intros [A B]. rewrite A, B in Eo. done. }
    rewrite (swrap_id 64 (Z.quot _ _)), (swrap_id 64 (Z.rem _ _)) by (lia || done). by apply quot_rem_spec.
  - rewrite V3, V4. unfold unsigned_division.
    pose proof (reg_fits m (d_rs1 d) Hm) as Fa. pose proof (reg_fits m (d_rs2 d) Hm) as Fb.
    fold a b in Fa, Fb. destruct (Z.eqb_spec b 0) as [Eb|Nb]; [split; [done|by apply uwrap_id]|].
    unfold fits in *. rewrite !uwrap_id by (unfold fits; nia).
    split; [apply Z.div_mod; done|]. apply Z.mod_pos_bound. lia.
Qed.

Lemma s32_bits a : s32 (bits 64 a 31 0) = s32 a.
Proof.
  rewrite bits_div_mod, Z.div_1_r by lia. change (31 - 0 + 1) with 32.
  change (uwrap 64 a mod 2 ^ 32) with (uwrap 32 (uwrap 64 a)). rewrite swrap_uwrap.
  unfold swrap, uwrap. by rewrite Z.mod_mod_divide by (by exists (2 ^ 32)).
Qed.

Lemma sext32_id x : - 2 ^ 31 <= x < 2 ^ 31 -> s64 (u64 (sext x 32)) = x.
Proof.
  intros Hx. rewrite sext_swrap, s64_u64 by lia. rewrite (swrap_id 32) by (lia || done).
  apply swrap_id; lia.
Qed.

(** divw and remw divide the low words as signed 32-bit numbers and sign-extend
    the results. *)
Theorem divw_remw_spec d (m : mach D) : mach_ok m -> xreg (d_rd d) ->
  let a := s32 (reg m (d_rs1 d)) in let b := s32 (reg m (d_rs2 d)) in
  exists q r, exec_divw d m = (Ok tt, q) /\ exec_remw d m = (Ok tt, r) /\
    signed_division 32 a b (s64 (reg q (d_rd d))) (s64 (reg r (d_rd d))).
Proof.
  intros Hm Hr a b.
  destruct (op_rr_value d (fun a b =>
    let v1 := s32 (bits 64 a 31 0) in let v2 := s32 (bits 64 b 31 0) in
    if v2 =? 0 then 2 ^ 64 - 1
    else if (v1 =? - 2 ^ 31) && (v2 =? -1) then sext v1 32
    else sext (Z.quot v1 v2) 32) m Hm Hr) as (q & E1 & V1).
  destruct (op_rr_value d (fun a b =>
    let v1 := s32 (bits 64 a 31 0) in let v2 := s32 (bits 64 b 31 0) in
    if v2 =? 0 then sext v1 32
    else if (v1 =? - 2 ^ 31) && (v2 =? -1) then 0
    else sext (Z.rem v1 v2) 32) m Hm Hr) as (r & E2 & V2).
  exists q, r. split_and!; try done. cbv zeta in V1, V2. rewrite !s32_bits in V1, V2.
  fold a b in V1, V2. rewrite V1, V2. unfold signed_division. change (32 - 1) with 31.
  pose proof (swrap_range 32 (reg m (d_rs1 d)) ltac:(lia)) as Ra.
  pose proof (swrap_range 32 (reg m (d_rs2 d)) ltac:(lia)) as Rb. fold a in Ra. fold b in Rb.
  destruct (Z.eqb_spec b 0) as [Eb|Nb]; [split; [done|by apply sext32_id]|].
  destruct (_ && _) eqn:Eo; [split; [by apply sext32_id|done]|].
  destruct (quot_range 32 a b) as [Q R]; [lia|done|done|done| |].
  { intros [A B]. rewrite A, B in Eo. done. }
  rewrite !sext32_id by done. by apply quot_rem_spec.
Qed.
End Ops.

(** ** Concrete runs *)

(** A machine with -7 in x11 and 2 in x12, and an instruction x10 := x11 op x12. *)
Definition op_machine : mach unit :=
  upd_hart (fun h => set_gprs (<[11%nat := 2 ^ 64 - 7]> (<[12%nat := 2]> (gprs h))) h) small_machine.
Definition op_insn : DecodedInsn :=
  mkDecodedInsn 0 Normal rv_mul Ity_R (mkOperands 10 11 12 0 0) DRAM_BASE.

Lemma op_machine_ok : mach_ok op_machine.
Proof.
  destruct small_machine_ok as [Hh Hd Ht Ho]. split; [|done|done|done].
  destruct (hk_gprs _ Hh) as [Hl Hf]. apply hart_ok_gprs; [done| |done].
  apply Forall_insert; [|by split]. by apply Forall_insert; [|split].
Qed.

Lemma mul_product_witness :
  let a := reg op_machine 11 in let b := reg op_machine 12 in
  exists lo h hu hsu,
    exec_mul op_insn op_machine = (Ok tt, lo) /\ exec_mulh op_insn op_machine = (Ok tt, h) /\
    exec_mulhu op_insn op_machine = (Ok tt, hu) /\ exec_mulhsu op_insn op_machine = (Ok tt, hsu) /\
    s64 a * s64 b = 2 ^ 64 * s64 (reg h 10) + reg lo 10 /\
    a * b = 2 ^ 64 * reg hu 10 + reg lo 10 /\
    s64 a * b = 2 ^ 64 * s64 (reg hsu 10) + reg lo 10.
Proof. apply (mul_product op_insn op_machine); [apply op_machine_ok|split; reflexivity]. Defined.

Lemma div_rem_spec_witness :
  exists q r qu ru,
    exec_div op_insn op_machine = (Ok tt, q) /\ exec_rem op_insn op_machine = (Ok tt, r) /\
    exec_divu op_insn op_machine = (Ok tt, qu) /\ exec_remu op_insn op_machine = (Ok tt, ru) /\
    signed_division 64 (s64 (2 ^ 64 - 7)) (s64 2) (s64 (reg q 10)) (s64 (reg r 10)) /\
    unsigned_division 64 (2 ^ 64 - 7) 2 (reg qu 10) (reg ru 10).
Proof. apply (div_rem_spec op_insn op_machine); [apply op_machine_ok|split; reflexivity]. Defined.

Lemma divw_remw_spec_witness :
  exists q r, exec_divw op_insn op_machine = (Ok tt, q) /\ exec_remw op_insn op_machine = (Ok tt, r) /\
    signed_division 32 (s32 (2 ^ 64 - 7)) (s32 2) (s64 (reg q 10)) (s64 (reg r 10)).
Proof. apply (divw_remw_spec op_insn op_machine); [apply op_machine_ok|split; reflexivity]. Defined.

Example division_runs :
  reg (snd (exec_div op_insn op_machine)) 10 = 2 ^ 64 - 3 /\
  reg (snd (exec_rem op_insn op_machine)) 10 = 2 ^ 64 - 1 /\
  reg (snd (exec_mulhsu op_insn op_machine)) 10 = 2 ^ 64 - 1.
Proof. vm_compute. repeat split. Qed.
