(* ===== verification/Isa.v ===== *)
(** * The integer instruction set, as its manual tabulates it

    A specification of RV64IMA, Zicsr and the privileged instructions that is
    independent of the program: the fields of an instruction word by division, one
    row per instruction with the values of the fields that select it, and what the
    instruction does as an [action] on unbounded integers.  [perform] carries an
    action out on the machine.  The floating-point rows are in IsaFloat.v; the
    interpreter is proved to refine the whole table in IsaSpec.v. *)

From stdpp Require Import gmap.
From S2P Require Import Prelude Hart Machine Bus Mmu CsrAccess.

(** ** Fields of the word *)

Definition field (w lo n : Z) : Z := w / 2 ^ lo mod 2 ^ n.
Definition opcode (w : Z) : Z := field w 0 7.
Definition rd (w : Z) : Z := field w 7 5.
Definition funct3 (w : Z) : Z := field w 12 3.
Definition rs1 (w : Z) : Z := field w 15 5.
Definition rs2 (w : Z) : Z := field w 20 5.

Definition imm_I (w : Z) : Z := swrap 12 (field w 20 12).
Definition imm_S (w : Z) : Z := swrap 12 (field w 25 7 * 2 ^ 5 + field w 7 5).
Definition imm_B (w : Z) : Z :=
  swrap 13 (field w 31 1 * 2 ^ 12 + field w 7 1 * 2 ^ 11 + field w 25 6 * 2 ^ 5 + field w 8 4 * 2).
Definition imm_U (w : Z) : Z := swrap 32 (field w 12 20 * 2 ^ 12).
Definition imm_J (w : Z) : Z :=
  swrap 21 (field w 31 1 * 2 ^ 20 + field w 12 8 * 2 ^ 12 + field w 20 1 * 2 ^ 11 + field w 21 10 * 2).

(** ** Actions *)

(** The result of a floating-point operation goes to an integer register or, as the
    64 bits it will hold, to a floating-point register. *)
Inductive fresult : Type := ToX (v : Z) | ToF (v : Z).

Inductive action : Type :=
  | Nothing
  | Write (v : Z)                                 (* rd := v *)
  | Jump (target : Z)                             (* rd := pc + 4, pc := target *)
  | Branch (taken : bool) (target : Z)            (* pc := target when taken *)
  | LoadFrom (n : nat) (signed : bool) (addr : Z) (* rd := the n bytes at addr *)
  | StoreTo (n : nat) (addr v : Z)                (* the low n bytes of v to addr *)
  | Reserve (n : nat) (addr : Z)                  (* rd := the n bytes at addr, now reserved *)
  | Conditional (n : nat) (addr v : Z)            (* store if reserved, rd := failed *)
  | Amo (n : nat) (addr : Z) (f : Z -> Z)         (* rd := the old bytes, which become f of them *)
  | Csr (w : Z) (reads : bool) (f : option (Z -> Z)) (* rd := the CSR, which becomes f of it *)
  | Raise (cause : TrapCause) (tval : Z)
  | EnvironmentCall
  | ReturnM (w : Z)
  | ReturnS (w : Z)
  | Fence (w : Z) (page : option Z)               (* forget the translations (of a page) *)
  | Wait (w : Z)
  | LoadFloat (w : Z) (n : nat) (addr : Z)        (* the n bytes at addr to F rd, boxed *)
  | StoreFloat (w : Z) (n : nat) (addr r : Z)     (* the low n bytes of F r to addr *)
  (* a result and flags from the F registers and the rounding mode *)
  | Float (w : Z) (rounded : bool) (f : (Z -> Z) -> Z -> fresult * Z).

(** What an instruction does with its immediate [i] at [pc], given the values [a]
    and [b] of rs1 and rs2 (unsigned 64-bit). *)
Definition meaning : Type := Z -> Z -> Z -> Z -> action.

(** The shapes: register-register, register-immediate, branches, loads, stores. *)
Definition reg_reg (f : Z -> Z -> Z) : meaning := fun i pc a b => Write (f a b).
Definition reg_imm (f : Z -> Z -> Z) : meaning := fun i pc a b => Write (f a i).
Definition branch_if (c : Z -> Z -> bool) : meaning := fun i pc a b => Branch (c a b) (pc + i).
Definition load_of (n : nat) (signed : bool) : meaning := fun i pc a b => LoadFrom n signed (a + i).
Definition store_of (n : nat) : meaning := fun i pc a b => StoreTo n (a + i) b.

(** The atomic operations, on signed and unsigned values of n bytes. *)
Definition amo_of (n : nat) (f : Z -> Z -> Z) : meaning := fun i pc a b =>
  Amo n a (fun t => f (swrap (8 * Z.of_nat n) t) (swrap (8 * Z.of_nat n) b)).
Definition amou_of (n : nat) (f : Z -> Z -> Z) : meaning := fun i pc a b =>
  Amo n a (fun t => f t (uwrap (8 * Z.of_nat n) b)).

(** The CSR instructions, for which [i] is the whole word: csrrw does not read the
    CSR into x0, the others do not write it when their source is x0 or zero. *)
Definition swap_csr (w v : Z) : action := Csr w (negb (rd w =? 0)) (Some (fun _ => v)).
Definition update_csr (w : Z) (f : Z -> Z) : action :=
  Csr w true (if rs1 w =? 0 then None else Some f).

(** Signed division truncates; its overflow wraps like every other result. *)
Definition quotient (a b : Z) : Z := if b =? 0 then -1 else Z.quot a b.
Definition remainder (a b : Z) : Z := if b =? 0 then a else Z.rem a b.

(** ** The meanings of the instructions *)

Module Sem.
Definition lui : meaning := fun i pc a b => Write (i).
Definition auipc : meaning := fun i pc a b => Write (pc + i).
Definition jal : meaning := fun i pc a b => Jump (pc + i).
Definition jalr : meaning := fun i pc a b => Jump (2 * ((a + i) / 2)).
Definition beq : meaning := branch_if (fun a b => a =? b).
Definition bne : meaning := branch_if (fun a b => negb (a =? b)).
Definition blt : meaning := branch_if (fun a b => s64 a <? s64 b).
Definition bge : meaning := branch_if (fun a b => s64 b <=? s64 a).
Definition bltu : meaning := branch_if (fun a b => a <? b).
Definition bgeu : meaning := branch_if (fun a b => b <=? a).
Definition lb : meaning := load_of 1 true.
Definition lh : meaning := load_of 2 true.
Definition lw : meaning := load_of 4 true.
Definition ld : meaning := load_of 8 false.
Definition lbu : meaning := load_of 1 false.
Definition lhu : meaning := load_of 2 false.
Definition lwu : meaning := load_of 4 false.
Definition sb : meaning := store_of 1.
Definition sh : meaning := store_of 2.
Definition sw : meaning := store_of 4.
Definition sd : meaning := store_of 8.
Definition addi : meaning := reg_imm (fun a i => a + i).
Definition slti : meaning := reg_imm (fun a i => b2z (s64 a <? i)).
Definition sltiu : meaning := reg_imm (fun a i => b2z (a <? u64 i)).
Definition xori : meaning := reg_imm Z.lxor.
Definition ori : meaning := reg_imm Z.lor.
Definition andi : meaning := reg_imm Z.land.
Definition slli : meaning := reg_imm (fun a n => a * 2 ^ n).
Definition srli : meaning := reg_imm (fun a n => a / 2 ^ n).
Definition srai : meaning := reg_imm (fun a n => s64 a / 2 ^ n).
Definition fence : meaning := fun i pc a b => Nothing.
Definition fence_i : meaning := fun i pc a b => Nothing.
Definition addiw : meaning := reg_imm (fun a i => s32 (a + i)).
Definition slliw : meaning := reg_imm (fun a n => s32 (a * 2 ^ n)).
Definition srliw : meaning := reg_imm (fun a n => s32 (u32 a / 2 ^ n)).
Definition sraiw : meaning := reg_imm (fun a n => s32 a / 2 ^ n).
Definition add : meaning := reg_reg (fun a b => a + b).
Definition sub : meaning := reg_reg (fun a b => a - b).
Definition sll : meaning := reg_reg (fun a b => a * 2 ^ (b mod 64)).
Definition slt : meaning := reg_reg (fun a b => b2z (s64 a <? s64 b)).
Definition sltu : meaning := reg_reg (fun a b => b2z (a <? b)).
Definition xor : meaning := reg_reg Z.lxor.
Definition srl : meaning := reg_reg (fun a b => a / 2 ^ (b mod 64)).
Definition sra : meaning := reg_reg (fun a b => s64 a / 2 ^ (b mod 64)).
Definition or : meaning := reg_reg Z.lor.
Definition and : meaning := reg_reg Z.land.
Definition addw : meaning := reg_reg (fun a b => s32 (a + b)).
Definition subw : meaning := reg_reg (fun a b => s32 (a - b)).
Definition sllw : meaning := reg_reg (fun a b => s32 (a * 2 ^ (b mod 32))).
Definition srlw : meaning := reg_reg (fun a b => s32 (u32 a / 2 ^ (b mod 32))).
Definition sraw : meaning := reg_reg (fun a b => s32 a / 2 ^ (b mod 32)).
Definition mul : meaning := reg_reg (fun a b => a * b).
Definition mulh : meaning := reg_reg (fun a b => s64 a * s64 b / 2 ^ 64).
Definition mulhsu : meaning := reg_reg (fun a b => s64 a * b / 2 ^ 64).
Definition mulhu : meaning := reg_reg (fun a b => a * b / 2 ^ 64).
Definition div : meaning := reg_reg (fun a b => quotient (s64 a) (s64 b)).
Definition divu : meaning := reg_reg (fun a b => quotient a b).
Definition rem : meaning := reg_reg (fun a b => remainder (s64 a) (s64 b)).
Definition remu : meaning := reg_reg (fun a b => remainder a b).
Definition mulw : meaning := reg_reg (fun a b => s32 (a * b)).
Definition divw : meaning := reg_reg (fun a b => s32 (quotient (s32 a) (s32 b))).
Definition divuw : meaning := reg_reg (fun a b => s32 (quotient (u32 a) (u32 b))).
Definition remw : meaning := reg_reg (fun a b => remainder (s32 a) (s32 b)).
Definition remuw : meaning := reg_reg (fun a b => s32 (remainder (u32 a) (u32 b))).
Definition lr (n : nat) : meaning := fun i pc a b => Reserve n a.
Definition sc (n : nat) : meaning := fun i pc a b => Conditional n a b.
Definition amoswap (n : nat) : meaning := amo_of n (fun t b => b).
Definition amoadd (n : nat) : meaning := amo_of n Z.add.
Definition amoxor (n : nat) : meaning := amo_of n Z.lxor.
Definition amoand (n : nat) : meaning := amo_of n Z.land.
Definition amoor (n : nat) : meaning := amo_of n Z.lor.
Definition amomin (n : nat) : meaning := amo_of n Z.min.
Definition amomax (n : nat) : meaning := amo_of n Z.max.
Definition amominu (n : nat) : meaning := amou_of n Z.min.
Definition amomaxu (n : nat) : meaning := amou_of n Z.max.
Definition csrrw : meaning := fun w pc a b => swap_csr w a.
Definition csrrs : meaning := fun w pc a b => update_csr w (fun t => Z.lor t a).
Definition csrrc : meaning := fun w pc a b => update_csr w (fun t => Z.ldiff t a).
Definition csrrwi : meaning := fun w pc a b => swap_csr w (rs1 w).
Definition csrrsi : meaning := fun w pc a b => update_csr w (fun t => Z.lor t (rs1 w)).
Definition csrrci : meaning := fun w pc a b => update_csr w (fun t => Z.ldiff t (rs1 w)).
Definition ecall : meaning := fun w pc a b => EnvironmentCall.
Definition ebreak : meaning := fun w pc a b => Raise Breakpoint pc.
Definition mret : meaning := fun w pc a b => ReturnM w.
Definition sret : meaning := fun w pc a b => ReturnS w.
Definition wfi : meaning := fun w pc a b => Wait w.
Definition sfence_vma : meaning := fun w pc a b => Fence w (if rs1 w =? 0 then None else Some a).
End Sem.

(** ** The table *)

(** The immediate of a shift is its unsigned amount; R-type words have none; the
    system instructions look at the whole word. *)
Definition shamt (n : Z) (w : Z) : Z := field w 20 n.
Definition no_imm (w : Z) : Z := 0.
Definition word (w : Z) : Z := w.

(** A field of the word with the value it has: position, width, value. *)
Definition fixed : Type := Z * Z * Z.
Definition f3 (v : Z) : fixed := (12, 3, v).
Definition f5 (v : Z) : fixed := (27, 5, v).      (* the atomics; aq and rl are ignored *)
Definition f6 (v : Z) : fixed := (26, 6, v).      (* above a 6-bit shift amount *)
Definition f7 (v : Z) : fixed := (25, 7, v).
Definition f12 (v : Z) : fixed := (20, 12, v).
Definition rd_0 : fixed := (7, 5, 0).
Definition rs1_0 : fixed := (15, 5, 0).
Definition rs2_0 : fixed := (20, 5, 0).

(** A row: the opcode and the other fields that select it. *)
Record row := mkRow {
  r_opcode : Z;
  r_fixed : list fixed;
  r_imm : Z -> Z;
  r_meaning : meaning;
}.

Definition row_matches (w : Z) (r : row) : bool :=
  forallb (fun x : fixed => field w x.1.1 x.1.2 =? x.2) ((0, 7, r_opcode r) :: r_fixed r).

Definition table_I : list row :=
  [ mkRow 0x37 [] imm_U Sem.lui;
    mkRow 0x17 [] imm_U Sem.auipc;
    mkRow 0x6F [] imm_J Sem.jal;
    mkRow 0x67 [f3 0] imm_I Sem.jalr;
    mkRow 0x63 [f3 0] imm_B Sem.beq;
    mkRow 0x63 [f3 1] imm_B Sem.bne;
    mkRow 0x63 [f3 4] imm_B Sem.blt;
    mkRow 0x63 [f3 5] imm_B Sem.bge;
    mkRow 0x63 [f3 6] imm_B Sem.bltu;
    mkRow 0x63 [f3 7] imm_B Sem.bgeu;
    mkRow 0x03 [f3 0] imm_I Sem.lb;
    mkRow 0x03 [f3 1] imm_I Sem.lh;
    mkRow 0x03 [f3 2] imm_I Sem.lw;
    mkRow 0x03 [f3 3] imm_I Sem.ld;
    mkRow 0x03 [f3 4] imm_I Sem.lbu;
    mkRow 0x03 [f3 5] imm_I Sem.lhu;
    mkRow 0x03 [f3 6] imm_I Sem.lwu;
    mkRow 0x23 [f3 0] imm_S Sem.sb;
    mkRow 0x23 [f3 1] imm_S Sem.sh;
    mkRow 0x23 [f3 2] imm_S Sem.sw;
    mkRow 0x23 [f3 3] imm_S Sem.sd;
    mkRow 0x13 [f3 0] imm_I Sem.addi;
    mkRow 0x13 [f3 2] imm_I Sem.slti;
    mkRow 0x13 [f3 3] imm_I Sem.sltiu;
    mkRow 0x13 [f3 4] imm_I Sem.xori;
    mkRow 0x13 [f3 6] imm_I Sem.ori;
    mkRow 0x13 [f3 7] imm_I Sem.andi;
    mkRow 0x13 [f3 1; f6 0x00] (shamt 6) Sem.slli;
    mkRow 0x13 [f3 5; f6 0x00] (shamt 6) Sem.srli;
    mkRow 0x13 [f3 5; f6 0x10] (shamt 6) Sem.srai;
    mkRow 0x0F [f3 0] imm_I Sem.fence;
    mkRow 0x0F [f3 1] imm_I Sem.fence_i;
    mkRow 0x1B [f3 0] imm_I Sem.addiw;
    mkRow 0x1B [f3 1; f7 0x00] (shamt 5) Sem.slliw;
    mkRow 0x1B [f3 5; f7 0x00] (shamt 5) Sem.srliw;
    mkRow 0x1B [f3 5; f7 0x20] (shamt 5) Sem.sraiw;
    mkRow 0x33 [f3 0; f7 0x00] no_imm Sem.add;
    mkRow 0x33 [f3 0; f7 0x20] no_imm Sem.sub;
    mkRow 0x33 [f3 1; f7 0x00] no_imm Sem.sll;
    mkRow 0x33 [f3 2; f7 0x00] no_imm Sem.slt;
    mkRow 0x33 [f3 3; f7 0x00] no_imm Sem.sltu;
    mkRow 0x33 [f3 4; f7 0x00] no_imm Sem.xor;
    mkRow 0x33 [f3 5; f7 0x00] no_imm Sem.srl;
    mkRow 0x33 [f3 5; f7 0x20] no_imm Sem.sra;
    mkRow 0x33 [f3 6; f7 0x00] no_imm Sem.or;
    mkRow 0x33 [f3 7; f7 0x00] no_imm Sem.and;
    mkRow 0x3B [f3 0; f7 0x00] no_imm Sem.addw;
    mkRow 0x3B [f3 0; f7 0x20] no_imm Sem.subw;
    mkRow 0x3B [f3 1; f7 0x00] no_imm Sem.sllw;
    mkRow 0x3B [f3 5; f7 0x00] no_imm Sem.srlw;
    mkRow 0x3B [f3 5; f7 0x20] no_imm Sem.sraw ].

Definition table_M : list row :=
  [ mkRow 0x33 [f3 0; f7 0x01] no_imm Sem.mul;
    mkRow 0x33 [f3 1; f7 0x01] no_imm Sem.mulh;
    mkRow 0x33 [f3 2; f7 0x01] no_imm Sem.mulhsu;
    mkRow 0x33 [f3 3; f7 0x01] no_imm Sem.mulhu;
    mkRow 0x33 [f3 4; f7 0x01] no_imm Sem.div;
    mkRow 0x33 [f3 5; f7 0x01] no_imm Sem.divu;
    mkRow 0x33 [f3 6; f7 0x01] no_imm Sem.rem;
    mkRow 0x33 [f3 7; f7 0x01] no_imm Sem.remu;
    mkRow 0x3B [f3 0; f7 0x01] no_imm Sem.mulw;
    mkRow 0x3B [f3 4; f7 0x01] no_imm Sem.divw;
    mkRow 0x3B [f3 5; f7 0x01] no_imm Sem.divuw;
    mkRow 0x3B [f3 6; f7 0x01] no_imm Sem.remw;
    mkRow 0x3B [f3 7; f7 0x01] no_imm Sem.remuw ].

(** The atomics of words (funct3 2) and doublewords (funct3 3). *)
Definition table_A (k : Z) (n : nat) : list row :=
  [ mkRow 0x2F [f3 k; f5 0x02; rs2_0] no_imm (Sem.lr n);
    mkRow 0x2F [f3 k; f5 0x03] no_imm (Sem.sc n);
    mkRow 0x2F [f3 k; f5 0x01] no_imm (Sem.amoswap n);
    mkRow 0x2F [f3 k; f5 0x00] no_imm (Sem.amoadd n);
    mkRow 0x2F [f3 k; f5 0x04] no_imm (Sem.amoxor n);
    mkRow 0x2F [f3 k; f5 0x0C] no_imm (Sem.amoand n);
    mkRow 0x2F [f3 k; f5 0x08] no_imm (Sem.amoor n);
    mkRow 0x2F [f3 k; f5 0x10] no_imm (Sem.amomin n);
    mkRow 0x2F [f3 k; f5 0x14] no_imm (Sem.amomax n);
    mkRow 0x2F [f3 k; f5 0x18] no_imm (Sem.amominu n);
    mkRow 0x2F [f3 k; f5 0x1C] no_imm (Sem.amomaxu n) ].

(** Zicsr and the privileged instructions. *)
Definition table_system : list row :=
  [ mkRow 0x73 [f3 1] word Sem.csrrw;
    mkRow 0x73 [f3 2] word Sem.csrrs;
    mkRow 0x73 [f3 3] word Sem.csrrc;
    mkRow 0x73 [f3 5] word Sem.csrrwi;
    mkRow 0x73 [f3 6] word Sem.csrrsi;
    mkRow 0x73 [f3 7] word Sem.csrrci;
    mkRow 0x73 [rd_0; f3 0; rs1_0; f12 0x000] word Sem.ecall;
    mkRow 0x73 [rd_0; f3 0; rs1_0; f12 0x001] word Sem.ebreak;
    mkRow 0x73 [rd_0; f3 0; rs1_0; f12 0x102] word Sem.sret;
    mkRow 0x73 [rd_0; f3 0; rs1_0; f12 0x302] word Sem.mret;
    mkRow 0x73 [rd_0; f3 0; rs1_0; f12 0x105] word Sem.wfi;
    mkRow 0x73 [rd_0; f3 0; f7 0x09] word Sem.sfence_vma ].

(** ** The machine *)

Section Perform.
Context {D : Type} `{Platform D}.
Abbreviation cpu := (M (mach D) exn).

Definition xval (m : mach D) (i : Z) : Z :=
  if i =? 0 then 0 else nth (Z.to_nat i) (gprs (hart m)) 0.
Definition set_xreg (i v : Z) : cpu unit :=
  if i =? 0 then ret tt
  else modify (upd_hart (fun h => set_gprs (<[Z.to_nat i := u64 v]> (gprs h)) h)).
Definition set_pc_to (v : Z) : cpu unit := modify (upd_hart (set_pc (u64 v))).

(** Atomics need aligned addresses; the reservation is one of the MMU's. *)
Definition aligned (n : nat) (addr : Z) : bool := addr mod Z.of_nat n =? 0.
Definition reservation (addr : Z) (valid : bool) : cpu unit :=
  modify (upd_mmu (fun u => mkMMU (itlb_ u) (dtlb_ u) addr valid)).
Definition drop_reservation : cpu unit :=
  modify (upd_mmu (fun u => mkMMU (itlb_ u) (dtlb_ u) (reservation_address u) false)).

(** System instructions look at the interrupts again before the next instruction. *)
Definition recheck : cpu unit := modify (upd_hart (set_interrupt_check_pending true)).

(** The value [v] with its [n] bits from [lo] replaced by [x]. *)
Definition put (v lo n x : Z) : Z := v - field v lo n * 2 ^ lo + x * 2 ^ lo.

(** mret leaves for MPP, restores MIE from MPIE, sets MPIE, clears MPP, and clears
    MPRV when it leaves machine mode; sret does the same with the S fields. *)
Definition after_mret (s : Z) : Z :=
  let s' := put (put (put s 3 1 (field s 7 1)) 7 1 1) 11 2 0 in
  if field s 11 2 =? 3 then s' else put s' 17 1 0.
Definition after_sret (s : Z) : Z := put (put (put s 1 1 (field s 5 1)) 5 1 1) 8 1 0.

Definition status_bit (h : Hart) (i : Z) : bool := field (read_own h MSTATUS_ADDRESS) i 1 =? 1.

(** The F registers; FS (bits 13 and 14 of mstatus): 0 is off, 3 is dirty. *)
Definition fval (m : mach D) (i : Z) : Z := nth (Z.to_nat i) (fprs (hart m)) 0.
Definition set_freg (i v : Z) : cpu unit :=
  modify (upd_hart (fun h => set_fprs (<[Z.to_nat i := v]> (fprs h)) h)).
Definition dirty : cpu unit :=
  let! s := gets (fun m => read_own (hart m) MSTATUS_ADDRESS) in
  write_unchecked MSTATUS_ADDRESS (put s 13 2 3).
Definition float_off (m : mach D) : bool := field (read_own (hart m) MSTATUS_ADDRESS) 13 2 =? 0.
Definition when_float {A} (w pc0 : Z) (c : cpu A) : cpu A :=
  let! off := gets float_off in
  if off then raise_exception pc0 IllegalInstruction w else c.

(** The rounding mode of the word, 7 standing for the one in frm; 5 and 6 are
    reserved.  It becomes the library's. *)
Definition round (w pc0 : Z) : cpu unit :=
  let! rm := (if funct3 w =? 7 then gets (fun m => read_own (hart m) FRM_ADDRESS) else ret (funct3 w)) in
  if 4 <? rm then raise_exception pc0 IllegalInstruction w
  else modify (set_roundingMode rm).

(** Flags accumulate in fflags. *)
Definition accrue (fl : Z) : cpu unit :=
  when (negb (fl =? 0))
    (dirty ;;;
     let! v := gets (fun m => read_own (hart m) FFLAGS_ADDRESS) in
     write_unchecked FFLAGS_ADDRESS (Z.lor v fl)).

(** A narrower value in an F register has ones above it. *)
Definition box (n : nat) (v : Z) : Z := if (n =? 4)%nat then put v 32 32 (2 ^ 32 - 1) else v.

(** The action [x] of an instruction at [pc0] with destination [i]; [next] is the
    address of the instruction after it.  A memory access is a call of the MMU. *)
Definition perform (i pc0 next : Z) (x : action) : cpu unit :=
  match x with
  | Nothing => ret tt
  | Write v => set_xreg i v
  | Jump t => set_xreg i next ;;; set_pc_to t
  | Branch taken t => when taken (set_pc_to t)
  | LoadFrom n signed addr =>
      let! v := mmu_read n pc0 (u64 addr) false in
      set_xreg i (if signed then swrap (8 * Z.of_nat n) v else v)
  | StoreTo n addr v => mmu_write n pc0 (u64 addr) (uwrap (8 * Z.of_nat n) v)
  | Reserve n addr =>
      if aligned n addr then
        let! v := mmu_read n pc0 addr false in
        set_xreg i (swrap (8 * Z.of_nat n) v) ;;; reservation addr true
      else raise_exception pc0 LoadAccessFault addr
  | Conditional n addr v =>
      if aligned n addr then
        probe_store pc0 addr ;;;
        let! u := gets mmu in
        (if reservation_valid u && (reservation_address u =? addr)
         then mmu_write n pc0 addr (uwrap (8 * Z.of_nat n) v) ;;; set_xreg i 0
         else set_xreg i 1) ;;;
        drop_reservation
      else raise_exception pc0 StoreAMOAccessFault addr
  | Amo n addr f =>
      if aligned n addr then
        let! t := mmu_read n pc0 addr true in
        mmu_write n pc0 addr (uwrap (8 * Z.of_nat n) (f t)) ;;;
        set_xreg i (swrap (8 * Z.of_nat n) t)
      else raise_exception pc0 StoreAMOAccessFault addr
  | Csr w reads f =>
      recheck ;;;
      let csr := field w 20 12 in
      let! t := (if reads then read_checked csr pc0 w else ret 0) in
      match f with Some f => write_checked csr pc0 w (f t) | None => ret tt end ;;;
      set_xreg i t
  | Raise cause tval => raise_exception pc0 cause tval
  | EnvironmentCall =>
      let! p := gets (fun m => priv (hart m)) in
      if p =? 0 then raise_exception pc0 EnvironmentCallFromU 0
      else if p =? 1 then raise_exception pc0 EnvironmentCallFromS 0
      else if p =? 3 then raise_exception pc0 EnvironmentCallFromM 0
      else throw ETerminate (* no such level *)
  | ReturnM w =>
      recheck ;;;
      let! h := gets hart in
      if priv h =? 3 then
        let s := read_own h MSTATUS_ADDRESS in
        set_pc_to (read_own h MEPC_ADDRESS) ;;;
        modify (upd_hart (set_priv (field s 11 2))) ;;;
        write_unchecked MSTATUS_ADDRESS (after_mret s)
      else raise_exception pc0 IllegalInstruction w
  | ReturnS w =>
      recheck ;;;
      let! h := gets hart in
      if (priv h =? 0) || ((priv h =? 1) && status_bit h 22) (* TSR *)
      then raise_exception pc0 IllegalInstruction w
      else
        let s := read_own h SSTATUS_ADDRESS in
        set_pc_to (read_own h SEPC_ADDRESS) ;;;
        modify (upd_hart (set_priv (field s 8 1))) ;;;
        write_unchecked SSTATUS_ADDRESS (after_sret s) ;;;
        let! s := gets (fun m => read_own (hart m) MSTATUS_ADDRESS) in
        write_unchecked MSTATUS_ADDRESS (put s 17 1 0)
  | Fence w page =>
      let! h := gets hart in
      if (priv h =? 0) || ((priv h =? 1) && status_bit h 20) (* TVM *)
      then raise_exception pc0 IllegalInstruction w
      else modify (upd_mmu (match page with None => tlb_flush_all | Some a => tlb_flush_vaddr a end))
  | Wait w =>
      recheck ;;;
      let! h := gets hart in
      if (priv h =? 0) || ((priv h <? 3) && status_bit h 21) (* TW *)
      then raise_exception pc0 IllegalInstruction w
      else if has_pending_enabled_interrupt h || (read_own h MIE_ADDRESS =? 0) then ret tt
      else throw EWfi
  | LoadFloat w n addr =>
      when_float w pc0
        (let! v := mmu_read n pc0 (u64 addr) false in set_freg i (box n v) ;;; dirty)
  | StoreFloat w n addr r =>
      when_float w pc0
        (let! v := gets (fun m => fval m r) in
         mmu_write n pc0 (u64 addr) (uwrap (8 * Z.of_nat n) v))
  | Float w rounded f =>
      when_float w pc0
        (when rounded (round w pc0) ;;;
         let! x := gets (fun m => f (fval m) (softfloat_roundingMode m)) in
         match x.1 with
         | ToX v => set_xreg i v
         | ToF v => set_freg i v ;;; dirty
         end ;;;
         accrue x.2)
  end.

(** The action of a row on its word. *)
Definition row_action (r : row) (w pc0 : Z) (m : mach D) : action :=
  r_meaning r (r_imm r w) pc0 (xval m (rs1 w)) (xval m (rs2 w)).
End Perform.
