(* ===== verification/IsaFloat.v ===== *)
(** * The floating-point instructions as the manual tabulates them

    The rows of RV64F and RV64D over a format (single or double).  The arithmetic is
    the library's ([SoftFloat]): a row says which operation of which format is
    applied to which registers under which rounding mode, where its result goes and
    what is computed without the library: signs, minimum and maximum, the boxing of
    singles.  [table] is the whole instruction table and [isa_step] its step. *)

From stdpp Require Import gmap.
From S2P Require Import Prelude Hart Machine Bus Mmu CsrAccess ExecFloat Isa.

Definition rs3 (w : Z) : Z := field w 27 5.

(** ** Formats *)

(** The bytes of a format, its code in an instruction word, the widths of its
    exponent and fraction and its library. *)
Record format := mkFormat {
  bytes : nat;
  code : Z;
  exp_bits : Z;
  frac_bits : Z;
  lib : float_ops;
}.

Section Table.
Context `{SoftFloat}.

Definition single : format := mkFormat 4 0 8 23 f32.
Definition double : format := mkFormat 8 1 11 52 f64.

Section Format.
Variable k : format.

Definition width : Z := 8 * Z.of_nat (bytes k).
Definition sign (x : Z) : Z := field x (width - 1) 1.
Definition is_nan (x : Z) : bool :=
  (field x (frac_bits k) (exp_bits k) =? 2 ^ exp_bits k - 1) && negb (field x 0 (frac_bits k) =? 0).
Definition canonical_nan : Z := (2 ^ exp_bits k - 1) * 2 ^ frac_bits k + 2 ^ (frac_bits k - 1).
Definition with_sign (x s : Z) : Z := put x (width - 1) 1 s.
Definition negate (x : Z) : Z := with_sign x (1 - sign x).

(** The value of an F register in this format. *)
Definition unbox (x : Z) : Z :=
  if (bytes k =? 4)%nat then if x / 2 ^ 32 =? 2 ^ 32 - 1 then field x 0 32 else canonical_nan
  else x.

(** ** The shapes of the meanings; [i] is the whole word *)

Definition to_f (r : Z * Z) : fresult * Z := (ToF (box (bytes k) r.1), r.2).
Definition to_x (r : Z * Z) : fresult * Z := (ToX r.1, r.2).
Definition exact (x : fresult) : fresult * Z := (x, 0).

Definition fop1 (op : Z -> Z -> Z * Z) : meaning := fun w pc a b =>
  Float w true (fun F rm => to_f (op rm (unbox (F (rs1 w))))).
Definition fop2 (op : Z -> Z -> Z -> Z * Z) : meaning := fun w pc a b =>
  Float w true (fun F rm => to_f (op rm (unbox (F (rs1 w))) (unbox (F (rs2 w))))).
Definition fop3 (op : Z -> Z -> Z -> Z -> Z * Z) : meaning := fun w pc a b =>
  Float w true (fun F rm =>
    to_f (op rm (unbox (F (rs1 w))) (unbox (F (rs2 w))) (unbox (F (rs3 w))))).
Definition fbits (op : Z -> Z -> Z) : meaning := fun w pc a b =>
  Float w false (fun F rm =>
    exact (ToF (box (bytes k) (op (unbox (F (rs1 w))) (unbox (F (rs2 w))))))).
Definition fto_int (op : Z -> bool -> Z -> Z * Z) (g : Z -> Z) : meaning := fun w pc a b =>
  Float w true (fun F rm => let r := op rm true (unbox (F (rs1 w))) in to_x (g r.1, r.2)).
Definition fof_int (op : Z -> Z -> Z * Z) (g : Z -> Z) : meaning := fun w pc a b =>
  Float w true (fun F rm => to_f (op rm (g a))).
Definition fcompare (op : Z -> Z -> bool * Z) : meaning := fun w pc a b =>
  Float w false (fun F rm =>
    let r := op (unbox (F (rs1 w))) (unbox (F (rs2 w))) in to_x (b2z r.1, r.2)).

(** Minimum and maximum: a NaN loses against a number, -0 is below 0, a signaling
    NaN is an invalid operation; the comparisons are quiet. *)
Definition below (x y : Z) : bool * Z :=
  let lt := sf_lt_quiet (lib k) x y in
  if lt.1 then lt
  else let eq := sf_eq (lib k) x y in (eq.1 && (sign x =? 1), Z.lor lt.2 eq.2).
Definition fchoose (swapped : bool) : meaning := fun w pc a b =>
  Float w false (fun F rm =>
    let x := unbox (F (rs1 w)) in
    let y := unbox (F (rs2 w)) in
    let invalid := sf_isSignalingNaN (lib k) x || sf_isSignalingNaN (lib k) y in
    let first := if swapped then below y x else below x y in
    let v := if is_nan x && is_nan y then canonical_nan
             else if first.1 || is_nan y then x else y in
    to_f (v, Z.lor (if invalid then FFLAGS_NV else 0) first.2)).
End Format.

(** ** The meanings of the instructions of a format *)

Section Instructions.
Variable k : format.

Definition fl : meaning := fun w pc a b => LoadFloat w (bytes k) (a + imm_I w).
Definition fs : meaning := fun w pc a b => StoreFloat w (bytes k) (a + imm_S w) (rs2 w).
Definition fmadd : meaning := fop3 k (sf_mulAdd (lib k)).
Definition fmsub : meaning := fop3 k (fun rm x y z => sf_mulAdd (lib k) rm x y (negate k z)).
Definition fnmsub : meaning := fop3 k (fun rm x y z => sf_mulAdd (lib k) rm (negate k x) y z).
Definition fnmadd : meaning :=
  fop3 k (fun rm x y z => sf_mulAdd (lib k) rm (negate k x) y (negate k z)).
Definition fsgnj : meaning := fbits k (fun x y => with_sign k x (sign k y)).
Definition fsgnjn : meaning := fbits k (fun x y => with_sign k x (1 - sign k y)).
Definition fsgnjx : meaning := fbits k (fun x y => with_sign k x ((sign k x + sign k y) mod 2)).
(** The raw bits to an integer register and back. *)
Definition fmv_x : meaning := fun w pc a b =>
  Float w false (fun F rm => exact (ToX (swrap (width k) (F (rs1 w))))).
Definition fmv_f : meaning := fun w pc a b =>
  Float w false (fun F rm => exact (ToF (box (bytes k) (uwrap (width k) a)))).
(** The class of a value is the library's predicates', as the code reads them. *)
Definition fclass (classify : Z -> Z) : meaning := fun w pc a b =>
  Float w false (fun F rm => exact (ToX (swrap (width k) (classify (unbox k (F (rs1 w))))))).
(** From another format. *)
Definition fcvt (from : format) (op : Z -> Z -> Z * Z) : meaning := fun w pc a b =>
  Float w true (fun F rm => to_f k (op rm (unbox from (F (rs1 w))))).
End Instructions.

(** ** The table *)

Section Rows.
Variable k : format.

Definition f2 (v : Z) : fixed := (25, 2, v).
Definition ff (v : Z) : fixed := f7 (v + code k).
Definition r2 (v : Z) : fixed := (20, 5, v).

(** The rows both formats have. *)
Definition table_format (classify : Z -> Z) : list row :=
  [ mkRow 0x07 [f3 (2 + code k)] word (fl k);
    mkRow 0x27 [f3 (2 + code k)] word (fs k);
    mkRow 0x43 [f2 (code k)] word (fmadd k);
    mkRow 0x47 [f2 (code k)] word (fmsub k);
    mkRow 0x4B [f2 (code k)] word (fnmsub k);
    mkRow 0x4F [f2 (code k)] word (fnmadd k);
    mkRow 0x53 [ff 0x00] word (fop2 k (sf_add (lib k)));
    mkRow 0x53 [ff 0x04] word (fop2 k (sf_sub (lib k)));
    mkRow 0x53 [ff 0x08] word (fop2 k (sf_mul (lib k)));
    mkRow 0x53 [ff 0x0C] word (fop2 k (sf_div (lib k)));
    mkRow 0x53 [r2 0; ff 0x2C] word (fop1 k (sf_sqrt (lib k)));
    mkRow 0x53 [f3 0; ff 0x10] word (fsgnj k);
    mkRow 0x53 [f3 1; ff 0x10] word (fsgnjn k);
    mkRow 0x53 [f3 2; ff 0x10] word (fsgnjx k);
    mkRow 0x53 [f3 0; ff 0x14] word (fchoose k false);
    mkRow 0x53 [f3 1; ff 0x14] word (fchoose k true);
    mkRow 0x53 [f3 0; ff 0x50] word (fcompare k (sf_le (lib k)));
    mkRow 0x53 [f3 1; ff 0x50] word (fcompare k (sf_lt (lib k)));
    mkRow 0x53 [f3 2; ff 0x50] word (fcompare k (sf_eq (lib k)));
    mkRow 0x53 [r2 0; ff 0x60] word (fto_int k (sf_to_i32 (lib k)) (fun v => v));
    mkRow 0x53 [r2 1; ff 0x60] word (fto_int k (sf_to_ui32 (lib k)) s32);
    mkRow 0x53 [r2 2; ff 0x60] word (fto_int k (sf_to_i64 (lib k)) (fun v => v));
    mkRow 0x53 [r2 3; ff 0x60] word (fto_int k (sf_to_ui64 (lib k)) (fun v => v));
    mkRow 0x53 [r2 0; ff 0x68] word (fof_int k (sf_of_i32 (lib k)) s32);
    mkRow 0x53 [r2 1; ff 0x68] word (fof_int k (sf_of_ui32 (lib k)) u32);
    mkRow 0x53 [r2 2; ff 0x68] word (fof_int k (sf_of_i64 (lib k)) s64);
    mkRow 0x53 [r2 3; ff 0x68] word (fof_int k (sf_of_ui64 (lib k)) (fun v => v));
    mkRow 0x53 [f3 0; r2 0; ff 0x70] word (fmv_x k);
    mkRow 0x53 [f3 1; r2 0; ff 0x70] word (fclass k classify);
    mkRow 0x53 [f3 0; r2 0; ff 0x78] word (fmv_f k) ].
End Rows.

Definition table_float : list row :=
  table_format single f32_classify ++ table_format double f64_classify ++
  [ mkRow 0x53 [r2 1; f7 0x20] word (fcvt single double f64_to_f32);
    mkRow 0x53 [r2 0; f7 0x21] word (fcvt double single f32_to_f64) ].

Definition table : list row :=
  (table_I ++ table_M ++ table_A 2 4 ++ table_A 3 8 ++ table_system ++ table_float)%list.

(** ** The step *)

(** The instruction [w] at [pc0]: the program counter moves on, then the action of
    its row is carried out; a word without a row is an illegal instruction. *)
Definition isa_step {D} `{Platform D} (w pc0 : Z) : M (mach D) exn unit :=
  set_pc_to (pc0 + 4) ;;;
  let! m := gets (fun m => m) in
  match List.find (row_matches w) table with
  | Some r => perform (rd w) pc0 (pc0 + 4) (row_action r w pc0 m)
  | None => raise_exception pc0 IllegalInstruction w
  end.
End Table.

(* addi x10, x11, -1; mulhu x10, x11, x12; an unassigned funct7; sc.d x10, x12, (x11) *)
Definition action_of (w pc a b : Z) : option action :=
  option_map (fun r => r_meaning r (r_imm r w) pc a b)
    (List.find (row_matches w) (table (H := zero_softfloat))).
Example table_small :
  action_of 0xfff58513 0 5 7 = Some (Write 4) /\
  action_of 0x02c5b533 0 (2 ^ 63) 6 = Some (Write 3) /\
  action_of 0x04c58533 0 5 7 = None /\
  action_of 0x18c5b52f 0 64 7 = Some (Conditional 8 64 7).
Proof. vm_compute. done. Qed.
