(* ===== verification/IsaDecode.v ===== *)
(** * The decoder selects the rows of the instruction table

    Each row of the table is one of the decoder's string patterns and each pattern is
    a row, so the two select the same instruction for every word ([decoder_row]); the
    operands the decoder extracts are the fields and immediates of the manual. *)

From stdpp Require Import gmap.
From S2P Require Import Prelude Bits Decoder Machine ExecFloat Isa IsaFloat.

(** ** Words and masks *)

Lemma land_shiftl w m n : 0 <= n -> Z.land w (Z.shiftl m n) = Z.shiftl (Z.land (Z.shiftr w n) m) n.
Proof.
  intros Hn. apply Z.bits_inj'. intros i Hi. rewrite Z.land_spec, !Z.shiftl_spec by done.
  destruct (Z.ltb_spec i n).
  - rewrite !(Z.testbit_neg_r _ (i - n)) by lia. apply andb_false_r.
  - rewrite Z.land_spec, Z.shiftr_spec by lia. by replace (i - n + n) with i by lia.
Qed.

Lemma shiftl_inj x y n : 0 <= n -> Z.shiftl x n = Z.shiftl y n -> x = y.
Proof.
  intros Hn E. rewrite <- (Z.shiftl_0_r x), <- (Z.shiftl_0_r y), <- (Z.sub_diag n).
  by rewrite <- !Z.shiftr_shiftl_l, E by lia.
Qed.

Lemma field_land w lo n : 0 <= lo -> 0 <= n -> field w lo n = Z.land (Z.shiftr w lo) (Z.ones n).
Proof. intros. unfold field. by rewrite Z.land_ones, Z.shiftr_div_pow2 by lia. Qed.

Lemma field_fits w lo n : 0 <= n -> fits n (field w lo n).
Proof. intros Hn. apply Z.mod_pos_bound. lia. Qed.

Lemma bits_field w hi lo : fits 32 w -> 0 <= lo <= hi -> hi < 32 ->
  bits 32 w hi lo = field w lo (hi - lo + 1).
Proof. intros Hw Hlo Hhi. rewrite bits_div_mod by lia. by rewrite uwrap_id. Qed.

(** ** Which row the decoder selects *)

(** The decoder's name and operand type for each row, in the order of the table. *)
Definition names : list (Iname * Itype) :=
  [ (rv_lui, Ity_U); (rv_auipc, Ity_U); (rv_jal, Ity_J); (rv_jalr, Ity_I);
    (rv_beq, Ity_B); (rv_bne, Ity_B); (rv_blt, Ity_B); (rv_bge, Ity_B); (rv_bltu, Ity_B); (rv_bgeu, Ity_B);
    (rv_lb, Ity_I); (rv_lh, Ity_I); (rv_lw, Ity_I); (rv_ld, Ity_I); (rv_lbu, Ity_I); (rv_lhu, Ity_I);
    (rv_lwu, Ity_I); (rv_sb, Ity_S); (rv_sh, Ity_S); (rv_sw, Ity_S); (rv_sd, Ity_S);
    (rv_addi, Ity_I); (rv_slti, Ity_I); (rv_sltiu, Ity_I); (rv_xori, Ity_I); (rv_ori, Ity_I);
    (rv_andi, Ity_I); (rv_slli, Ity_I); (rv_srli, Ity_I); (rv_srai, Ity_I);
    (rv_fence, Ity_I); (rv_fence_i, Ity_I);
    (rv_addiw, Ity_I); (rv_slliw, Ity_I); (rv_srliw, Ity_I); (rv_sraiw, Ity_I);
    (rv_add, Ity_R); (rv_sub, Ity_R); (rv_sll, Ity_R); (rv_slt, Ity_R); (rv_sltu, Ity_R); (rv_xor, Ity_R);
    (rv_srl, Ity_R); (rv_sra, Ity_R); (rv_or, Ity_R); (rv_and, Ity_R);
    (rv_addw, Ity_R); (rv_subw, Ity_R); (rv_sllw, Ity_R); (rv_srlw, Ity_R); (rv_sraw, Ity_R);
    (rv_mul, Ity_R); (rv_mulh, Ity_R); (rv_mulhsu, Ity_R); (rv_mulhu, Ity_R); (rv_div, Ity_R);
    (rv_divu, Ity_R); (rv_rem, Ity_R); (rv_remu, Ity_R);
    (rv_mulw, Ity_R); (rv_divw, Ity_R); (rv_divuw, Ity_R); (rv_remw, Ity_R); (rv_remuw, Ity_R);
    (rv_lr_w, Ity_R); (rv_sc_w, Ity_R); (rv_amoswap_w, Ity_R); (rv_amoadd_w, Ity_R);
    (rv_amoxor_w, Ity_R); (rv_amoand_w, Ity_R); (rv_amoor_w, Ity_R); (rv_amomin_w, Ity_R);
    (rv_amomax_w, Ity_R); (rv_amominu_w, Ity_R); (rv_amomaxu_w, Ity_R);
    (rv_lr_d, Ity_R); (rv_sc_d, Ity_R); (rv_amoswap_d, Ity_R); (rv_amoadd_d, Ity_R);
    (rv_amoxor_d, Ity_R); (rv_amoand_d, Ity_R); (rv_amoor_d, Ity_R); (rv_amomin_d, Ity_R);
    (rv_amomax_d, Ity_R); (rv_amominu_d, Ity_R); (rv_amomaxu_d, Ity_R);
    (rv_csrrw, Ity_I); (rv_csrrs, Ity_I); (rv_csrrc, Ity_I); (rv_csrrwi, Ity_I); (rv_csrrsi, Ity_I);
    (rv_csrrci, Ity_I); (rv_ecall, Ity_N); (rv_ebreak, Ity_N); (rv_sret, Ity_N); (rv_mret, Ity_N);
    (rv_wfi, Ity_N); (rv_sfence_vma, Ity_R);
    (rv_flw, Ity_I); (rv_fsw, Ity_S); (rv_fmadd_s, Ity_R4); (rv_fmsub_s, Ity_R4);
    (rv_fnmsub_s, Ity_R4); (rv_fnmadd_s, Ity_R4); (rv_fadd_s, Ity_R); (rv_fsub_s, Ity_R);
    (rv_fmul_s, Ity_R); (rv_fdiv_s, Ity_R); (rv_fsqrt_s, Ity_R); (rv_fsgnj_s, Ity_R);
    (rv_fsgnjn_s, Ity_R); (rv_fsgnjx_s, Ity_R); (rv_fmin_s, Ity_R); (rv_fmax_s, Ity_R);
    (rv_fle_s, Ity_R); (rv_flt_s, Ity_R); (rv_feq_s, Ity_R); (rv_fcvt_w_s, Ity_R);
    (rv_fcvt_wu_s, Ity_R); (rv_fcvt_l_s, Ity_R); (rv_fcvt_lu_s, Ity_R); (rv_fcvt_s_w, Ity_R);
    (rv_fcvt_s_wu, Ity_R); (rv_fcvt_s_l, Ity_R); (rv_fcvt_s_lu, Ity_R); (rv_fmv_x_w, Ity_R);
    (rv_fclass_s, Ity_R); (rv_fmv_w_x, Ity_R);
    (rv_fld, Ity_I); (rv_fsd, Ity_S); (rv_fmadd_d, Ity_R4); (rv_fmsub_d, Ity_R4);
    (rv_fnmsub_d, Ity_R4); (rv_fnmadd_d, Ity_R4); (rv_fadd_d, Ity_R); (rv_fsub_d, Ity_R);
    (rv_fmul_d, Ity_R); (rv_fdiv_d, Ity_R); (rv_fsqrt_d, Ity_R); (rv_fsgnj_d, Ity_R);
    (rv_fsgnjn_d, Ity_R); (rv_fsgnjx_d, Ity_R); (rv_fmin_d, Ity_R); (rv_fmax_d, Ity_R);
    (rv_fle_d, Ity_R); (rv_flt_d, Ity_R); (rv_feq_d, Ity_R); (rv_fcvt_w_d, Ity_R);
    (rv_fcvt_wu_d, Ity_R); (rv_fcvt_l_d, Ity_R); (rv_fcvt_lu_d, Ity_R); (rv_fcvt_d_w, Ity_R);
    (rv_fcvt_d_wu, Ity_R); (rv_fcvt_d_l, Ity_R); (rv_fcvt_d_lu, Ity_R); (rv_fmv_x_d, Ity_R);
    (rv_fclass_d, Ity_R); (rv_fmv_d_x, Ity_R); (rv_fcvt_s_d, Ity_R); (rv_fcvt_d_s, Ity_R) ].

Section Selection.
Context `{SoftFloat}.

Definition rows : list (row * (Iname * Itype)) := combine table names.

Lemma rows_table : map fst rows = table.
Proof. done. Qed.

Lemma find_row w : List.find (row_matches w) table
  = option_map fst (List.find (fun x => row_matches w x.1) rows).
Proof.
  rewrite <- rows_table. generalize rows. intros l. induction l as [|x l IH]; [done|]. cbn [map List.find].
  by destruct (row_matches w x.1).
Qed.

(** A row as a mask and a key of the word: one piece per field. *)
Definition field_mask (x : fixed) : Z := Z.shiftl (Z.ones x.1.2) x.1.1.
Definition field_key (x : fixed) : Z := Z.shiftl x.2 x.1.1.
Definition fields_mask (l : list fixed) : Z := foldr (fun x => Z.lor (field_mask x)) 0 l.
Definition fields_key (l : list fixed) : Z := foldr (fun x => Z.lor (field_key x)) 0 l.
Definition row_fields (r : row) : list fixed := (0, 7, r_opcode r) :: r_fixed r.
Definition row_mask (r : row) : Z := fields_mask (row_fields r).
Definition row_key (r : row) : Z := fields_key (row_fields r).

(** A pattern as a mask and a key of the whole word. *)
Definition p_bits (p : PatternData) : Z := Z.shiftl (p_mask p) (p_shift p).
Definition p_word (p : PatternData) : Z := Z.shiftl (p_key p) (p_shift p).

Lemma pattern_masked p w : 0 <= p_shift p ->
  pattern_matches p w = (Z.land w (p_bits p) =? p_word p).
Proof.
  intros Hs. unfold pattern_matches, p_bits, p_word. rewrite land_shiftl by done.
  apply eq_true_iff_eq. rewrite !Z.eqb_eq. split; [by intros ->|by apply shiftl_inj].
Qed.

(** A field equals a value when the masked word equals the shifted value. *)
Lemma field_eqb w lo n v : 0 <= lo -> 0 <= n ->
  (field w lo n =? v) = (Z.land w (Z.shiftl (Z.ones n) lo) =? Z.shiftl v lo).
Proof.
  intros. rewrite field_land, land_shiftl by done. apply eq_true_iff_eq. rewrite !Z.eqb_eq.
  split; [by intros ->|by apply shiftl_inj].
Qed.

(** Comparing under two disjoint masks. *)
Definition separate (m1 k1 m2 k2 : Z) : bool :=
  (Z.land m1 m2 =? 0) && (Z.land k1 m1 =? k1) && (Z.land k2 m2 =? k2).
Lemma mask_split w m1 k1 m2 k2 : separate m1 k1 m2 k2 = true ->
  (Z.land w (Z.lor m1 m2) =? Z.lor k1 k2) = (Z.land w m1 =? k1) && (Z.land w m2 =? k2).
Proof.
  intros [[E%Z.eqb_eq E1%Z.eqb_eq]%andb_true_iff E2%Z.eqb_eq]%andb_true_iff.
  assert (Z.land (Z.lor k1 k2) m1 = k1 /\ Z.land (Z.lor k1 k2) m2 = k2) as [F1 F2].
  { rewrite !Z.land_lor_distr_l, E1, E2. split.
    - by rewrite <- E2, <- Z.land_assoc, (Z.land_comm m2), E, Z.land_0_r, Z.lor_0_r.
    - by rewrite <- E1, <- Z.land_assoc, E, Z.land_0_r. }
  apply eq_true_iff_eq. rewrite andb_true_iff, !Z.eqb_eq. split.
  - intros Ew. rewrite <- Ew, <- !Z.land_assoc, !Z.land_lor_distr_l in F1, F2.
    rewrite (Z.land_comm m2 m1), E, Z.land_diag, Z.lor_0_r in F1.
    by rewrite E, Z.land_diag, Z.lor_0_l in F2.
  - intros [<- <-]. apply Z.land_lor_distr_r.
Qed.

Fixpoint fields_separate (l : list fixed) : bool :=
  match l with
  | [] => true
  | x :: l =>
      separate (field_mask x) (field_key x) (fields_mask l) (fields_key l) &&
      (0 <=? x.1.1) && (0 <=? x.1.2) && fields_separate l
  end.
Definition row_separate (r : row) : bool := fields_separate (row_fields r).
Lemma rows_separate : forallb (fun x => row_separate x.1) rows = true.
Proof. by vm_compute. Qed.

Lemma fields_masked w l : fields_separate l = true ->
  forallb (fun x : fixed => field w x.1.1 x.1.2 =? x.2) l = (Z.land w (fields_mask l) =? fields_key l).
Proof.
  induction l as [|[[lo n] v] l IH]; [by rewrite Z.land_0_r|].
  cbn [fields_separate forallb fields_mask fields_key foldr fst snd].
  intros [[[Hs Hl%Z.leb_le]%andb_true_iff Hn%Z.leb_le]%andb_true_iff Hr]%andb_true_iff.
  fold (fields_mask l) (fields_key l). rewrite (mask_split w _ _ _ _ Hs), IH by done.
  f_equal. by apply field_eqb.
Qed.
Lemma row_masked w r : row_separate r = true -> row_matches w r = (Z.land w (row_mask r) =? row_key r).
Proof. apply fields_masked. Qed.

(** The patterns before the catch-all, parsed once. *)
Definition parsed_32 : list (PatternData * (Iname * Itype)) :=
  Eval vm_compute in map (fun e => (parsed e, (e.1.2, e.2))) valid_patterns_32.
Lemma parsed_32_eq : parsed_32 = map (fun e => (parsed e, (e.1.2, e.2))) valid_patterns_32.
Proof. by vm_compute. Qed.

Definition same_test (p : PatternData) (r : row) : bool :=
  (0 <=? p_shift p) && (p_bits p =? row_mask r) && (p_word p =? row_key r).
Lemma same_test_eq p r w : same_test p r = true -> row_separate r = true ->
  pattern_matches p w = row_matches w r.
Proof.
  intros Hs Hr. unfold same_test in Hs. bool_hyps. rewrite row_masked, pattern_masked by (done || lia).
  congruence.
Qed.

(** Each row is a pattern of the decoder under the same name, and each pattern is a
    row. *)
Lemma rows_patterns :
  map (fun x => option_map snd (List.find (fun p => same_test p.1 x.1) parsed_32)) rows
  = map (fun x => Some x.2) rows.
Proof. by vm_compute. Qed.
Lemma patterns_rows :
  forallb (fun p => existsb (fun x => same_test p.1 x.1) rows) parsed_32 = true.
Proof. by vm_compute. Qed.

Lemma row_pattern x w : In x rows -> row_matches w x.1 = true ->
  exists e, In e valid_patterns_32 /\ pattern_matches (parse_pattern e.1.1) w = true /\ (e.1.2, e.2) = x.2.
Proof.
  intros Hx Hm. pose proof (ext_in_map rows_patterns x Hx) as E. cbv beta in E.
  destruct (List.find _ parsed_32) as [p|] eqn:Ef; [|done]. injection E as E.
  apply find_some in Ef as [Hp Hs]. rewrite parsed_32_eq in Hp. apply in_map_iff in Hp as (e & <- & He).
  exists e. split; [done|]. split; [|done]. cbn [fst] in Hs. fold (parsed e).
  rewrite (same_test_eq _ x.1 w Hs); [done|]. by apply (proj1 (forallb_forall _ _) rows_separate).
Qed.

Lemma pattern_row e w : In e valid_patterns_32 ->
  pattern_matches (parse_pattern e.1.1) w = true -> exists x, In x rows /\ row_matches w x.1 = true.
Proof.
  intros He Hm. assert (In (parsed e, (e.1.2, e.2)) parsed_32) as Hp.
  { rewrite parsed_32_eq. by apply (in_map (fun e => (parsed e, (e.1.2, e.2)))). }
  pose proof (proj1 (forallb_forall _ _) patterns_rows _ Hp) as (x & Hx & Ht)%existsb_exists.
  exists x. split; [done|]. rewrite <- (same_test_eq (parsed e) x.1 w Ht); [done|].
  by apply (proj1 (forallb_forall _ _) rows_separate).
Qed.

(** The decoder's choice on a word. *)
Lemma decoder_row u w pc : fits 32 w ->
  exists name type,
    decode u w Normal pc = Some (mkDecodedInsn w Normal name type (decode_operand_32 u w type) pc) /\
    match List.find (fun x => row_matches w x.1) rows with
    | Some x => x.2 = (name, type)
    | None => name = rv_inv
    end.
Proof.
  intros Hw. destruct (decode_returns u w Normal pc Hw) as (d & Ed & _).
  exists (d_iname d), (d_type d). split.
  { rewrite Ed. unfold decode in Ed. destruct (find_pattern w patterns_32) as [[name type]|]; [|done].
    by injection Ed as <-. }
  destruct (List.find _ rows) as [x|] eqn:Ef.
  - apply find_some in Ef as [Hx Hm]. destruct (row_pattern x w Hx Hm) as (e & He & Hme & <-).
    destruct (decode_unique_32 u w pc d Hw Ed) as [(e' & _ & _ & -> & -> & Hu)|[Hn _]].
    + by rewrite (Hu e He Hme).
    + exfalso. specialize (Hn e He). congruence.
  - destruct (decode_unique_32 u w pc d Hw Ed) as [(e' & He & Hm & _)|[_ Hn]]; [|done].
    destruct (pattern_row e' w He Hm) as (x & Hx & Hmx).
    pose proof (find_none _ _ Ef x Hx) as Hf. cbv beta in Hf. congruence.
Qed.

End Selection.

(** ** Operands *)

(** The fields of the goal, with their widths as numbers. *)
Ltac fields :=
  rewrite ?bits_field by (lia || done);
  repeat match goal with
    | |- context [field ?w ?lo ?n] => let n' := eval vm_compute in n in progress change n with n'
    end.

(** Sign extension of the high part. *)
Lemma swrap_high m n x y : 1 <= m -> 0 <= n -> fits n y ->
  swrap m x * 2 ^ n + y = swrap (m + n) (x * 2 ^ n + y).
Proof.
  intros Hm Hn Hy. unfold swrap, fits in *. rewrite Z.pow_add_r by lia.
  replace (m + n - 1) with ((m - 1) + n) by lia. rewrite (Z.pow_add_r 2 (m - 1)) by lia.
  assert ((x * 2 ^ n + y) mod (2 ^ m * 2 ^ n) = x mod 2 ^ m * 2 ^ n + y) as ->.
  { symmetry. apply Z.mod_unique_pos with (q := x / 2 ^ m); [|].
    - pose proof (Z.mod_pos_bound x (2 ^ m) ltac:(lia)). nia.
    - pose proof (Z.div_mod x (2 ^ m) ltac:(lia)). nia. }
  destruct (Z.ltb_spec (x mod 2 ^ m) (2 ^ (m - 1)));
    destruct (Z.ltb_spec (x mod 2 ^ m * 2 ^ n + y) (2 ^ (m - 1) * 2 ^ n)); nia.
Qed.

Section Operands.
Variables (u : operands) (w : Z).
Hypothesis Hw : fits 32 w.

Lemma o_rd_field t : o_rd (decode_operand_32 u w t) = rd w.
Proof. apply bits_field; lia || done. Qed.
Lemma o_rs1_field t : o_rs1 (decode_operand_32 u w t) = rs1 w.
Proof. apply bits_field; lia || done. Qed.
Lemma o_rs2_field t : o_rs2 (decode_operand_32 u w t) = rs2 w.
Proof. apply bits_field; lia || done. Qed.

Lemma o_rs3_field t : o_rs3 (decode_operand_32 u w t) = rs3 w.
Proof. apply bits_field; lia || done. Qed.

Lemma imm_I_eq : o_imm (decode_operand_32 u w Ity_I) = u64 (imm_I w).
Proof. cbn [decode_operand_32 o_imm]. by rewrite sext_swrap, bits_field by (lia || done). Qed.

Lemma imm_S_eq : o_imm (decode_operand_32 u w Ity_S) = u64 (imm_S w).
Proof.
  cbn [decode_operand_32 o_imm]. rewrite sext_swrap by lia. fields.
  rewrite lor_shiftl_add by (lia || by apply field_fits).
  rewrite (swrap_high 7 5) by (lia || by apply field_fits). done.
Qed.

Lemma imm_U_eq : o_imm (decode_operand_32 u w Ity_U) = u64 (imm_U w).
Proof.
  cbn [decode_operand_32 o_imm]. rewrite sext_swrap by lia. fields. rewrite Z.shiftl_mul_pow2 by lia.
  unfold imm_U. rewrite <- (Z.add_0_r (_ * 2 ^ 12)), (swrap_high 20 12) by (lia || done).
  by rewrite Z.add_0_r.
Qed.

Lemma imm_J_eq : o_imm (decode_operand_32 u w Ity_J) = u64 (imm_J w).
Proof.
  cbn [decode_operand_32 o_imm]. rewrite sext_swrap by lia. fields. rewrite <- !Z.lor_assoc.
  rewrite (Z.shiftl_mul_pow2 (field w 21 10)) by lia.
  pose proof (field_fits w 21 10 ltac:(lia)). pose proof (field_fits w 20 1 ltac:(lia)).
  pose proof (field_fits w 12 8 ltac:(lia)). unfold fits in *.
  rewrite (lor_shiftl_add (field w 20 1)), (lor_shiftl_add (field w 12 8)), lor_shiftl_add
    by (unfold fits; lia).
  unfold imm_J. do 2 f_equal. lia.
Qed.

Lemma imm_B_eq : o_imm (decode_operand_32 u w Ity_B) = u64 (imm_B w).
Proof.
  cbn [decode_operand_32 o_imm]. rewrite sext_swrap by lia. fields. rewrite <- !Z.lor_assoc.
  rewrite (Z.shiftl_mul_pow2 (field w 8 4)) by lia.
  pose proof (field_fits w 8 4 ltac:(lia)). pose proof (field_fits w 25 6 ltac:(lia)).
  pose proof (field_fits w 7 1 ltac:(lia)). unfold fits in *.
  rewrite (lor_shiftl_add (field w 25 6)), (lor_shiftl_add (field w 7 1)), lor_shiftl_add
    by (unfold fits; lia).
  unfold imm_B. do 2 f_equal. lia.
Qed.
End Operands.
