(* ===== verification/ReturnSpec.v ===== *)
(** * Returning from traps

    [exec_mret] and [exec_sret] undo [handle_trap]: the interrupted code continues
    at its pc, at its privilege, with its interrupt-enable bit and its registers. *)

From stdpp Require Import gmap.
From Stdlib Require Import Btauto.
From S2P Require Import Prelude Bits Hart HartInv Trap Machine Bus Decoder Mmu MmuSpec CsrAccess.
From S2P Require Import Execute ExecSpec.

(** ** The status values the returns write *)

Definition mpp (v : Z) : Z := Z.shiftr (Z.land v MSTATUS_MPP) MPP_SHIFT.
Definition spp (v : Z) : Z := Z.shiftr (Z.land v MSTATUS_SPP) SPP_SHIFT.

Definition mret_status (v : Z) : Z :=
  let v := if negb (mpp v =? PrivM) then andn v MSTATUS_MPRV else v in
  let v := if nz (Z.land v MSTATUS_MPIE) then Z.lor v MSTATUS_MIE else andn v MSTATUS_MIE in
  andn (Z.lor v MSTATUS_MPIE) MSTATUS_MPP.

Definition sret_status (v : Z) : Z :=
  let v := if nz (Z.land v MSTATUS_SPIE) then Z.lor v MSTATUS_SIE else andn v MSTATUS_SIE in
  andn (Z.lor v MSTATUS_SPIE) MSTATUS_SPP.

Lemma mpp_mask_testbit i : 0 <= i -> Z.testbit MSTATUS_MPP i = (i =? 11) || (i =? 12).
Proof.
  intros Hi. change MSTATUS_MPP with (Z.lor (Z.shiftl 1 11) (Z.shiftl 1 12)).
  by rewrite Z.lor_spec, !testbit_flag by lia.
Qed.

Lemma mret_status_testbit v i : 0 <= i ->
  Z.testbit (mret_status v) i =
    if i =? 3 then Z.testbit v 7
    else if i =? 7 then true
    else if (i =? 11) || (i =? 12) then false
    else if i =? 17 then (mpp v =? PrivM) && Z.testbit v 17
    else Z.testbit v i.
Proof.
  intros Hi. unfold mret_status. cbv zeta. unfold MSTATUS_MPIE, MSTATUS_MIE, MSTATUS_MPRV.
  rewrite nz_land_bit by lia. unfold andn. rewrite Z.ldiff_spec, mpp_mask_testbit by lia.
  destruct (mpp v =? PrivM); cbn [negb]; [|rewrite Z.ldiff_spec, testbit_flag by lia; cbn [negb andb];
    change (7 =? 17) with false; cbn [negb]; rewrite andb_true_r];
    destruct (Z.testbit v 7) eqn:E7;
    repeat rewrite ?Z.lor_spec, ?Z.ldiff_spec, ?testbit_flag by lia;
    split_bits i; simpl; try btauto; try lia.
Qed.

Lemma sret_status_testbit v i : 0 <= i ->
  Z.testbit (sret_status v) i =
    if i =? 1 then Z.testbit v 5 else if i =? 5 then true else if i =? 8 then false
    else Z.testbit v i.
Proof.
  intros Hi. unfold sret_status. cbv zeta. unfold MSTATUS_SPIE, MSTATUS_SIE, MSTATUS_SPP, SPP_SHIFT.
  rewrite nz_land_bit by lia. unfold andn. rewrite Z.ldiff_spec, testbit_flag by lia.
  destruct (Z.testbit v 5) eqn:E5; repeat rewrite ?Z.lor_spec, ?Z.ldiff_spec, ?testbit_flag by lia;
    split_bits i; simpl; try btauto; try lia.
Qed.

Lemma mret_status_fits v : fits 64 v -> fits 64 (mret_status v).
Proof. intros. unfold mret_status. fits_tac. Qed.
Lemma sret_status_fits v : fits 64 v -> fits 64 (sret_status v).
Proof. intros. unfold sret_status. fits_tac. Qed.

Lemma mpp_of_bits v p : fits 2 p -> Z.testbit v 11 = Z.testbit p 0 ->
  Z.testbit v 12 = Z.testbit p 1 -> mpp v = p.
Proof.
  intros Hp H11 H12. unfold mpp. apply Z.bits_inj'. intros i Hi.
  pose proof (proj1 (fits_testbit 2 p ltac:(lia)) Hp) as [_ Hz].
  rewrite Z.shiftr_spec, Z.land_spec, mpp_mask_testbit by (unfold MPP_SHIFT; lia).
  unfold MPP_SHIFT.
  destruct (Z.eq_dec i 0) as [->|]; [change (0 + 11) with 11; rewrite H11; apply andb_true_r|].
  destruct (Z.eq_dec i 1) as [->|]; [change (1 + 11) with 12; rewrite H12; apply andb_true_r|].
  rewrite Hz by lia. destruct (Z.eqb_spec (i + 11) 11); [lia|].
  destruct (Z.eqb_spec (i + 11) 12); [lia|]. apply andb_false_r.
Qed.

Lemma spp_of_bit v (b : bool) : Z.testbit v 8 = b -> spp v = if b then PrivS else PrivU.
Proof.
  intros H8. unfold spp. rewrite Z.shiftr_land.
  change (Z.shiftr MSTATUS_SPP SPP_SHIFT) with (Z.ones 1). rewrite Z.land_ones by lia.
  rewrite Z.shiftr_div_pow2 by (by vm_compute). unfold SPP_SHIFT.
  rewrite <- H8. rewrite <- Z.testbit_spec' by lia. by destruct (Z.testbit v 8).
Qed.

(** ** mstatus after the returns *)

Lemma mret_mstatus h i : csr_legal h -> 0 <= i ->
  Z.testbit (MSTATUS_read (MSTATUS_write (mret_status (MSTATUS_read h)) h)) i =
    if i =? 3 then Z.testbit (MSTATUS_read h) 7
    else if i =? 7 then true
    else if (i =? 11) || (i =? 12) then false
    else if i =? 17 then (mpp (MSTATUS_read h) =? PrivM) && Z.testbit (MSTATUS_read h) 17
    else Z.testbit (MSTATUS_read h) i.
Proof.
  intros Hl Hi. pose proof (MSTATUS_read_fits h) as Hf.
  rewrite MSTATUS_write_testbit by
    (done || (by apply mret_status_fits) || (by rewrite mret_status_testbit by lia)).
  rewrite mret_status_testbit by done. split_bits i; try done; cbn [orb].
  by destruct (Z.testbit MSTATUS_write_mask i).
Qed.

Lemma mprv_mstatus h i : csr_legal h -> 0 <= i ->
  Z.testbit (MSTATUS_read (MSTATUS_write (andn (MSTATUS_read h) MSTATUS_MPRV) h)) i =
    if i =? 17 then false else Z.testbit (MSTATUS_read h) i.
Proof.
  intros Hl Hi. pose proof (MSTATUS_read_fits h) as Hf.
  assert (forall j, 0 <= j -> Z.testbit (andn (MSTATUS_read h) MSTATUS_MPRV) j
    = if j =? 17 then false else Z.testbit (MSTATUS_read h) j) as Hmprv.
  { intros j Hj. unfold andn, MSTATUS_MPRV. rewrite Z.ldiff_spec, testbit_flag by lia.
    destruct (j =? 17); simpl; btauto. }
  rewrite MSTATUS_write_testbit by (done || (by apply fits_andn) || (by rewrite Hmprv by lia)).
  rewrite Hmprv by done. split_bits i; [done|]. by destruct (Z.testbit MSTATUS_write_mask i).
Qed.

Lemma sret_mstatus h i : csr_legal h -> 0 <= i ->
  Z.testbit (MSTATUS_read (SSTATUS_write (sret_status (SSTATUS_read h)) h)) i =
    if i =? 1 then Z.testbit (MSTATUS_read h) 5
    else if i =? 5 then true else if i =? 8 then false
    else Z.testbit (MSTATUS_read h) i.
Proof.
  intros Hl Hi. pose proof (SSTATUS_read_fits h) as Hf.
  rewrite SSTATUS_write_testbit by
    (done || (by apply sret_status_fits) ||
     (rewrite sret_status_testbit by lia; by apply sstatus_hidden_bit)).
  rewrite sret_status_testbit by done.
  destruct (Z.testbit SSTATUS_write_mask i) eqn:Ew; [|split_bits i; done].
  rewrite !(sstatus_hidden_bit h) by done. split_bits i; done.
Qed.

(** ** The returns as functions of the hart *)

Section Returns.
Context {D : Type} `{Platform D}.
Variable d : DecodedInsn.

Lemma mret_run (m : mach D) : priv (hart m) = PrivM ->
  exec_mret d m = (Ok tt, upd_hart (fun h =>
    MSTATUS_write (mret_status (MSTATUS_read h))
      (set_priv (mpp (MSTATUS_read h)) (set_pc (u64 (EPC_read h MEPC_ADDRESS))
         (set_interrupt_check_pending true h)))) m).
Proof.
  intros Hp. unfold exec_mret, set_check_pending, set_hart_pc. unfold bind, modify, gets.
  cbn [hart upd_hart priv set_interrupt_check_pending]. rewrite Hp. reflexivity.
Qed.

Lemma sret_run (m : mach D) : priv (hart m) = PrivS ->
  Z.testbit (MSTATUS_read (hart m)) 22 = false ->
  exec_sret d m = (Ok tt, upd_hart (fun h =>
    let h1 := SSTATUS_write (sret_status (SSTATUS_read h))
      (set_priv (spp (SSTATUS_read h)) (set_pc (u64 (EPC_read h SEPC_ADDRESS))
         (set_interrupt_check_pending true h))) in
    MSTATUS_write (andn (MSTATUS_read h1) MSTATUS_MPRV) h1) m).
Proof.
  intros Hp Ht. unfold exec_sret, set_check_pending, set_hart_pc. unfold bind, modify, gets.
  cbn [hart upd_hart priv set_interrupt_check_pending]. rewrite Hp.
  change (read_own (set_interrupt_check_pending true (hart m)) MSTATUS_ADDRESS)
    with (MSTATUS_read (hart m)).
  unfold MSTATUS_TSR. rewrite nz_land_bit, Ht by lia. cbn [orb andb].
  change (read_own (set_interrupt_check_pending true (hart m)) SSTATUS_ADDRESS)
    with (SSTATUS_read (hart m)).
  fold (spp (SSTATUS_read (hart m))).
  assert (negb (spp (SSTATUS_read (hart m)) =? PrivM) = true) as E.
  { rewrite (spp_of_bit _ _ eq_refl). by destruct (Z.testbit _ 8). }
  rewrite E. reflexivity.
Qed.

Lemma returned_pc h a p : raw h a = andn p 1 -> fits 64 p ->
  u64 (EPC_read h a) = andn p 1.
Proof.
  intros E Hp. unfold EPC_read. rewrite E. rewrite uwrap_id.
  - apply Z.bits_inj'. intros i Hi.
    pose proof (proj1 (fits_testbit 64 p ltac:(lia)) Hp) as [_ Hz].
    rewrite Z.land_spec. unfold EPC_mask, andn.
    change (2 ^ 64 - 1) with (Z.ones 64). rewrite !Z.ldiff_spec, Z.testbit_ones_nonneg by lia.
    destruct (Z.ltb_spec i 64); [|rewrite Hz by lia]; simpl; btauto.
  - apply fits_land_l; [lia|]. by apply fits_andn.
Qed.

Variables (t : Trap) (h : Hart) (m : mach D).
Hypothesis Hh : csr_legal h.
Hypothesis Hpriv : fits 2 (priv h).
Hypothesis Hpc : fits 64 (trap_pc t).
Hypothesis Htval : fits 64 (trap_tval t).
Hypothesis Hcause : trap_cause t <> TrapCause_None.
Hypothesis Htrap : handle_trap t h = Some (hart m).

(** C13. mret undoes a trap taken to machine mode: the interrupted code continues
    at its pc and privilege, with all its registers and its status bits; only MPIE
    is set, MPP is left at U and MPRV is dropped when leaving machine mode. *)
Theorem trap_mret_roundtrip : delegated h (trap_cause t) = false ->
  exists m', exec_mret d m = (Ok tt, m') /\
    pc (hart m') = andn (trap_pc t) 1 /\ priv (hart m') = priv h /\
    gprs (hart m') = gprs h /\ fprs (hart m') = fprs h /\
    forall i, 0 <= i -> Z.testbit (MSTATUS_read (hart m')) i =
      if i =? 7 then true else if (i =? 11) || (i =? 12) then false
      else if i =? 17 then (priv h =? PrivM) && Z.testbit (MSTATUS_read h) 17
      else Z.testbit (MSTATUS_read h) i.
Proof.
  intros Hdel. pose proof (handle_trap_legal t h (hart m) Hpc Htval Hh Htrap) as Hl.
  destruct (handle_trap_effect t h Hh Hpriv Hpc Htval Hcause) as (h' & E & He).
  rewrite Hdel in He. rewrite Htrap in E. injection E as <-.
  destruct He as [Ep Ee _ _ _ Em _ [Eg Ef]].
  assert (mpp (MSTATUS_read (hart m)) = priv h) as Empp.
  { apply mpp_of_bits; [done|by rewrite Em by lia..]. }
  eexists. split; [by apply mret_run|]. cbn [hart upd_hart].
  set (h2 := set_priv _ _).
  split_and!; [by apply returned_pc|done|done|done|].
  intros i Hi. change (MSTATUS_read (hart m)) with (MSTATUS_read h2).
  rewrite mret_mstatus by (done || by apply set_priv_legal, set_pc_legal).
  change (MSTATUS_read h2) with (MSTATUS_read (hart m)). rewrite Empp, !Em by lia.
  split_bits i; done.
Qed.

(** C14. sret undoes a trap delegated to supervisor mode in the same way (unless
    TSR makes it trap); the previous privilege is kept by the one bit SPP. *)
Theorem trap_sret_roundtrip : delegated h (trap_cause t) = true ->
  Z.testbit (MSTATUS_read h) 22 = false ->
  exists m', exec_sret d m = (Ok tt, m') /\
    pc (hart m') = andn (trap_pc t) 1 /\ priv (hart m') = priv h /\
    gprs (hart m') = gprs h /\ fprs (hart m') = fprs h /\
    forall i, 0 <= i -> Z.testbit (MSTATUS_read (hart m')) i =
      if i =? 5 then true else if (i =? 8) || (i =? 17) then false
      else Z.testbit (MSTATUS_read h) i.
Proof.
  intros Hdel Htsr. pose proof (handle_trap_legal t h (hart m) Hpc Htval Hh Htrap) as Hl.
  destruct (handle_trap_effect t h Hh Hpriv Hpc Htval Hcause) as (h' & E & He).
  rewrite Hdel in He. rewrite Htrap in E. injection E as <-.
  destruct He as [Ep Ee _ _ _ Em _ [Eg Ef]].
  assert (spp (SSTATUS_read (hart m)) = priv h) as Espp.
  { unfold delegated in Hdel. bool_hyps. unfold fits, PrivS in *.
    rewrite (spp_of_bit _ (PrivS <=? priv h)).
    - unfold PrivS, PrivU in *. destruct (Z.leb_spec 1 (priv h)); lia.
    - rewrite sstatus_hidden_bit by done. by rewrite Em. }
  eexists. split; [apply sret_run; [done|by rewrite Em]|]. cbv zeta. cbn [hart upd_hart].
  set (h2 := set_priv _ _). set (h3 := SSTATUS_write _ h2).
  split_and!; [by apply returned_pc|done|done|done|].
  intros i Hi.
  assert (csr_legal h2) as Hl2 by (by apply set_priv_legal, set_pc_legal).
  pose proof (SSTATUS_read_fits h2) as Hf.
  rewrite mprv_mstatus; [|by apply SSTATUS_write_legal; [apply sret_status_fits|]|done].
  unfold h3. change (SSTATUS_read (hart m)) with (SSTATUS_read h2).
  rewrite sret_mstatus by done.
  change (MSTATUS_read h2) with (MSTATUS_read (hart m)). rewrite !Em by lia.
  split_bits i; done.
Qed.
End Returns.

(** ** Concrete runs *)

Definition mret_insn : DecodedInsn :=
  mkDecodedInsn 0x30200073 Normal rv_mret Ity_R no_operands DRAM_BASE.

(** A page fault in user mode, taken to M; and the same with medeleg set. *)
Definition user_hart : Hart := set_priv PrivU (Hart_init DRAM_BASE).
Definition user_deleg_hart : Hart := MEDELEG_write (Z.shiftl 1 13) user_hart.
Definition user_fault : Trap := mkTrap 0x80000124 LoadPageFault 0x1234.
Definition after (h : Hart) : mach unit :=
  upd_hart (fun h' => default h' (handle_trap user_fault h)) small_machine.

Lemma trap_mret_roundtrip_witness :
  exists m', exec_mret mret_insn (after user_hart) = (Ok tt, m') /\
    pc (hart m') = 0x80000124 /\ priv (hart m') = PrivU.
Proof.
  destruct (trap_mret_roundtrip mret_insn user_fault user_hart (after user_hart))
    as (m' & E & Epc & Ep & _);
    [ apply set_priv_legal, Hart_init_legal | split; done | split; done | split; done | discriminate
    | reflexivity | vm_compute; reflexivity |].
  exists m'. split; [exact E|]. split; [exact Epc|exact Ep].
Defined.

Lemma trap_sret_roundtrip_witness :
  exists m', exec_sret mret_insn (after user_deleg_hart) = (Ok tt, m') /\
    pc (hart m') = 0x80000124 /\ priv (hart m') = PrivU.
Proof.
  destruct (trap_sret_roundtrip mret_insn user_fault user_deleg_hart (after user_deleg_hart))
    as (m' & E & Epc & Ep & _);
    [ apply (write_hart_legal MEDELEG_ADDRESS);
      [split; done|discriminate|apply set_priv_legal, Hart_init_legal]
    | split; done | split; done | split; done | discriminate
    | reflexivity | vm_compute; reflexivity | vm_compute; reflexivity |].
  exists m'. split; [exact E|]. split; [exact Epc|exact Ep].
Defined.
