(* ===== verification/IsaShapes.v ===== *)
(** * The bodies of the base instructions do what their meanings say

    [acts]: a computation of the interpreter does what a meaning of Isa.v says with
    the operands of a decoded instruction.  A lemma per shape of instruction, and the
    equations between the code's operations on bits and the table's arithmetic (the
    rewrite database [isa]). *)

From stdpp Require Import gmap.
From S2P Require Import Prelude Bits Hart HartInv Dram Machine Bus Decoder Mmu MmuSpec CsrAccess.
From S2P Require Import Execute ExecSpec InsnSpec Isa IsaDecode.

(** ** Values *)

Lemma bits_low n a : 0 < n <= 64 -> bits 64 a (n - 1) 0 = uwrap n a.
Proof.
  intros Hn. rewrite bits_div_mod, Z.div_1_r by lia. replace (n - 1 - 0 + 1) with n by lia.
  unfold uwrap. rewrite Z.mod_mod_divide; [done|].
  exists (2 ^ (64 - n)). rewrite <- Z.pow_add_r by lia. f_equal. lia.
Qed.
Lemma bits_u32 a : bits 64 a 31 0 = u32 a.
Proof. by apply (bits_low 32). Qed.
Lemma bits_6 a : bits 64 a 5 0 = a mod 64.
Proof. by apply (bits_low 6). Qed.
Lemma bits_5 a : bits 64 a 4 0 = a mod 32.
Proof. by apply (bits_low 5). Qed.

(** The shift amount is the low part of the immediate. *)
Lemma imm_shamt w n : 0 < n <= 12 -> u64 (imm_I w) mod 2 ^ n = field w 20 n.
Proof.
  intros Hn.
  assert (forall k y, n <= k -> uwrap n (uwrap k y) = uwrap n y) as Hc.
  { intros k y Hk. unfold uwrap. rewrite Z.mod_mod_divide; [done|].
    exists (2 ^ (k - n)). rewrite <- Z.pow_add_r by lia. f_equal. lia. }
  change (uwrap n (u64 (imm_I w)) = field w 20 n). rewrite Hc by lia.
  rewrite <- (Hc 12) by lia. unfold imm_I. rewrite uwrap_swrap, Hc by lia.
  change (field w 20 12) with (uwrap 12 (w / 2 ^ 20)). rewrite Hc by lia. done.
Qed.

Lemma swrap_cong k x y : uwrap k x = uwrap k y -> swrap k x = swrap k y.
Proof. intros E. rewrite <- (swrap_uwrap k x), <- (swrap_uwrap k y). by rewrite E. Qed.
Lemma u32_u64 x : u32 (u64 x) = u32 x.
Proof. unfold uwrap. rewrite Z.mod_mod_divide; [done|]. by exists (2 ^ 32). Qed.
Lemma s32_u64 x : s32 (u64 x) = s32 x.
Proof. apply swrap_cong, u32_u64. Qed.
Lemma s32_u32_mul x k : s32 (u32 x * k) = s32 (x * k).
Proof. apply swrap_cong. unfold uwrap. apply Zmult_mod_idemp_l. Qed.
Lemma sext32 x : sext x 32 = s32 x.
Proof. by apply sext_swrap. Qed.

Lemma s32_div x k : 0 <= k -> s32 (s32 x / 2 ^ k) = s32 x / 2 ^ k.
Proof.
  intros Hk. pose proof (swrap_range 32 x ltac:(lia)) as R.
  pose proof (Z.pow_pos_nonneg 2 k ltac:(lia) Hk) as Hp. apply swrap_id; [lia|].
  split.
  - apply Z.div_le_lower_bound; [done|]. change (32 - 1) with 31 in *. nia.
  - apply Z.div_lt_upper_bound; [done|]. change (32 - 1) with 31 in *. nia.
Qed.

Lemma andn_1 x : andn x 1 = 2 * (x / 2).
Proof.
  unfold andn. change 1 with (Z.ones 1) at 1. rewrite Z.ldiff_ones_r by lia.
  rewrite Z.shiftl_mul_pow2, Z.shiftr_div_pow2 by lia. change (2 ^ 1) with 2. lia.
Qed.
Lemma andn_target x : u64 (andn (u64 x) 1) = u64 (2 * (x / 2)).
Proof. rewrite andn_1. unfold uwrap. lia. Qed.

Lemma u64_add_imm x i : u64 (x + u64 i) = u64 (x + i).
Proof. unfold uwrap. apply Zplus_mod_idemp_r. Qed.

(** The rewriting of the code's helpers into arithmetic. *)
Lemma s32_u32 x : s32 (u32 x) = s32 x.
Proof. apply swrap_uwrap. Qed.
Lemma shl_6 a b : Z.shiftl a (b mod 64) = a * 2 ^ (b mod 64).
Proof. apply Z.shiftl_mul_pow2. lia. Qed.
Lemma shl_5 a b : Z.shiftl a (b mod 32) = a * 2 ^ (b mod 32).
Proof. apply Z.shiftl_mul_pow2. lia. Qed.
Lemma shr_6 a b : Z.shiftr a (b mod 64) = a / 2 ^ (b mod 64).
Proof. apply Z.shiftr_div_pow2. lia. Qed.
Lemma shr_5 a b : Z.shiftr a (b mod 32) = a / 2 ^ (b mod 32).
Proof. apply Z.shiftr_div_pow2. lia. Qed.
Lemma u64_u64 x : u64 (u64 x) = u64 x.
Proof. apply uwrap_idemp. Qed.
Lemma u64_s64 x : u64 (s64 x) = u64 x.
Proof. apply uwrap_swrap. Qed.
Create Rewrite HintDb isa.
#[export] Hint Rewrite bits_u32 bits_6 bits_5 sext32 shl_6 shl_5 shr_6 shr_5 s32_u64 s32_u32 s64_u64
  s32_u32_mul u64_u64 u64_s64 : isa.

Lemma s32_div_5 x b : s32 (s32 x / 2 ^ (b mod 32)) = s32 x / 2 ^ (b mod 32).
Proof. apply s32_div. lia. Qed.
#[export] Hint Rewrite s32_div_5 : isa.

Lemma s32_add_imm x i : u64 (s32 (x + u64 i)) = u64 (s32 (x + i)).
Proof. f_equal. apply swrap_cong. rewrite <- u32_u64, u64_add_imm. apply u32_u64. Qed.

(** The bitwise immediate operations on the two's complement immediate. *)
Lemma u64_bitwise (f : Z -> Z -> Z) (g : bool -> bool -> bool) a i :
  (forall x y n, 0 <= n -> Z.testbit (f x y) n = g (Z.testbit x n) (Z.testbit y n)) ->
  u64 (f a (u64 i)) = u64 (f a i).
Proof.
  intros Hf. apply Z.bits_inj'. intros n Hn. rewrite !uwrap_spec by lia.
  destruct (Z.ltb_spec n 64); [|done]. cbn [andb]. rewrite !Hf, uwrap_spec by lia.
  by destruct (Z.ltb_spec n 64); [|lia].
Qed.

(** Division as the code tests it: the overflow case wraps by itself. *)
Lemma quotient_code k b : 1 <= k -> - 2 ^ (k - 1) <= b ->
  forall a, - 2 ^ (k - 1) <= a -> uwrap k
   (if b =? 0 then 2 ^ k - 1 else if (a =? - 2 ^ (k - 1)) && (b =? -1) then a else Z.quot a b)
  = uwrap k (quotient a b).
Proof.
  intros Hk Hb a Ha. unfold quotient. destruct (Z.eqb_spec b 0) as [->|Hn].
  - unfold uwrap. replace (2 ^ k - 1) with (-1 + 1 * 2 ^ k) by lia. apply Z_mod_plus_full.
  - destruct (Z.eqb_spec a (- 2 ^ (k - 1))) as [->|]; [|done].
    destruct (Z.eqb_spec b (-1)) as [->|]; [|done]. cbn [andb].
    rewrite (Z.quot_opp_r _ 1), Z.quot_1_r by lia. unfold uwrap.
    replace (- - 2 ^ (k - 1)) with (- 2 ^ (k - 1) + 1 * 2 ^ k); [by rewrite Z_mod_plus_full|].
    replace k with (1 + (k - 1)) at 2 by lia. rewrite Z.pow_add_r by lia. lia.
Qed.

Lemma remainder_code k b a :
  (if b =? 0 then a else if (a =? - 2 ^ (k - 1)) && (b =? -1) then 0 else Z.rem a b) = remainder a b.
Proof.
  unfold remainder. destruct (Z.eqb_spec b 0); [done|].
  destruct (Z.eqb_spec b (-1)) as [->|]; [|by rewrite andb_false_r]. rewrite andb_true_r.
  assert (Z.rem a (-1) = 0) as -> by (change (-1) with (- (1)); rewrite Z.rem_opp_r, Z.rem_1_r by lia; done).
  by destruct (_ =? _).
Qed.

Lemma quotient_unsigned a b : fits 64 a -> fits 64 b ->
  u64 (if b =? 0 then 2 ^ 64 - 1 else a / b) = u64 (quotient a b).
Proof.
  intros Ha Hb. unfold quotient, fits in *. destruct (Z.eqb_spec b 0); [done|].
  by rewrite Z.quot_div_nonneg by lia.
Qed.
Lemma remainder_unsigned a b : 0 <= a -> 0 <= b -> (if b =? 0 then a else a mod b) = remainder a b.
Proof.
  intros Ha Hb. unfold remainder. destruct (Z.eqb_spec b 0); [done|].
  by rewrite Z.rem_mod_nonneg by lia.
Qed.

(** The word forms of the divisions. *)
Lemma divw_code a b :
  u64 (if s32 b =? 0 then 2 ^ 64 - 1
       else if (s32 a =? - 2 ^ 31) && (s32 b =? -1) then s32 (s32 a) else s32 (Z.quot (s32 a) (s32 b)))
  = u64 (s32 (quotient (s32 a) (s32 b))).
Proof.
  pose proof (swrap_range 32 a ltac:(lia)) as Ra. pose proof (swrap_range 32 b ltac:(lia)) as Rb.
  pose proof (quotient_code 32 (s32 b) ltac:(lia) (proj1 Rb) (s32 a) (proj1 Ra)) as E.
  rewrite <- (swrap_cong 32 _ _ E). change (32 - 1) with 31. destruct (s32 b =? 0); [done|].
  by destruct (_ && _).
Qed.
Lemma remw_code a b :
  (if s32 b =? 0 then s32 (s32 a)
   else if (s32 a =? - 2 ^ 31) && (s32 b =? -1) then 0 else s32 (Z.rem (s32 a) (s32 b)))
  = remainder (s32 a) (s32 b).
Proof.
  pose proof (swrap_range 32 a ltac:(lia)) as Ra. pose proof (swrap_range 32 b ltac:(lia)) as Rb.
  rewrite <- (remainder_code 32). change (32 - 1) with 31 in *.
  destruct (Z.eqb_spec (s32 b) 0) as [_|Hn]; [by apply swrap_id|]. destruct (_ && _); [done|].
  apply swrap_id; [done|]. pose proof (Z.rem_bound_abs (s32 a) (s32 b) Hn).
  pose proof (Z.rem_sign_mul (s32 a) (s32 b) Hn). change (32 - 1) with 31. lia.
Qed.

Lemma divuw_code a b :
  u64 (if u32 b =? 0 then 2 ^ 64 - 1 else s32 (u32 a / u32 b)) = u64 (s32 (quotient (u32 a) (u32 b))).
Proof.
  pose proof (uwrap_fits 32 a ltac:(lia)). pose proof (uwrap_fits 32 b ltac:(lia)). unfold quotient, fits in *.
  destruct (Z.eqb_spec (u32 b) 0); [done|]. by rewrite Z.quot_div_nonneg by lia.
Qed.
Lemma remuw_code a b :
  (if u32 b =? 0 then s32 a else s32 (u32 a mod u32 b)) = s32 (remainder (u32 a) (u32 b)).
Proof.
  pose proof (uwrap_fits 32 a ltac:(lia)). pose proof (uwrap_fits 32 b ltac:(lia)). unfold remainder, fits in *.
  destruct (Z.eqb_spec (u32 b) 0); [by rewrite s32_u32|]. by rewrite Z.rem_mod_nonneg by lia.
Qed.
Lemma div_code a b :
  u64 (if s64 b =? 0 then 2 ^ 64 - 1
       else if (s64 a =? - 2 ^ 63) && (s64 b =? -1) then s64 a else Z.quot (s64 a) (s64 b))
  = u64 (quotient (s64 a) (s64 b)).
Proof. apply (quotient_code 64); [lia|apply swrap_range; lia..]. Qed.

Lemma mulhsu_code x y : fits 64 y ->
  u64 (Z.shiftr (uwrap 128 (uwrap 128 (s64 x) * y)) 64) = u64 (s64 x * y / 2 ^ 64).
Proof.
  intros Hy. pose proof (swrap_range 64 x ltac:(lia)) as Rx.
  rewrite <- u64_s64, mulhsu_high by (exact Rx || exact Hy). by rewrite Z.shiftr_div_pow2.
Qed.
Lemma mulhu_code x y : fits 64 x -> fits 64 y ->
  u64 (Z.shiftr (uwrap 128 (x * y)) 64) = u64 (x * y / 2 ^ 64).
Proof.
  intros Hx Hy. unfold fits in *. rewrite (uwrap_id 128) by (unfold fits; nia).
  by rewrite Z.shiftr_div_pow2.
Qed.

Lemma upper_bits f : fits 20 f -> bits 64 (u64 (swrap 32 (f * 2 ^ 12))) 31 12 = f.
Proof.
  unfold fits. intros Hf. rewrite bits_div_mod, u64_u64 by lia. change (31 - 12 + 1) with 20.
  unfold swrap. rewrite (Z.mod_small (f * 2 ^ 12)) by lia. change (2 ^ (32 - 1)) with (2 ^ 31).
  destruct (Z.ltb_spec (f * 2 ^ 12) (2 ^ 31)).
  - rewrite uwrap_id by (unfold fits; lia). rewrite Z.div_mul by lia. by apply Z.mod_small.
  - unfold uwrap. rewrite <- (Z_mod_plus_full (f * 2 ^ 12 - 2 ^ 32) 1), (Z.mod_small (_ + _)) by lia.
    replace (f * 2 ^ 12 - 2 ^ 32 + 1 * 2 ^ 64) with ((f + (2 ^ 32 - 1) * 2 ^ 20) * 2 ^ 12) by lia.
    rewrite Z.div_mul, Z_mod_plus_full by lia. by apply Z.mod_small.
Qed.

(** ** Shapes *)

Section Shapes.
Context {D : Type} `{Platform D}.
Abbreviation cpu := (M (mach D) exn).

Lemma W_set i v v' (m : mach D) : u64 v = u64 v' -> W i v m = set_xreg i v' m.
Proof.
  intros E. unfold W, set_xreg, modify, RegisterFile_write. rewrite E.
  destruct (i =? 0); [|done]. cbn. by destruct m as [[]].
Qed.

Lemma R_xval i (m : mach D) : R i m = (Ok (xval m i), m).
Proof. unfold R, gets, RegisterFile_read, xval. by destruct (i =? 0). Qed.

(** Writing rd after the jump, when rd was not the last thing to read. *)
Lemma jump_order i v t (m : mach D) :
  (set_hart_pc t ;;; W i v) m = (set_xreg i v ;;; set_pc_to t) m.
Proof.
  unfold bind, set_hart_pc, set_pc_to, modify. rewrite (W_set i v v) by done.
  unfold set_xreg. by destruct (i =? 0).
Qed.

Section At.
Variables (d : DecodedInsn) (next i : Z) (m : mach D).
Hypothesis Hm : mach_ok m.

(** The computation [c] does what the meaning [s] says with the operands of [d]
    and the immediate [i]. *)
Definition acts (c : cpu unit) (s : meaning) : Prop :=
  c m = perform (d_rd d) (d_pc d) next (s i (d_pc d) (xval m (d_rs1 d)) (xval m (d_rs2 d))) m.

Lemma xval_fits r : fits 64 (xval m r).
Proof.
  pose proof (reg_fits m r Hm) as Hf. unfold reg, RegisterFile_read in Hf. unfold xval.
  by destruct (r =? 0).
Qed.

Lemma acts_rr f g : (forall x y, fits 64 x -> fits 64 y -> u64 (f x y) = u64 (g x y)) ->
  acts (op_rr d f) (reg_reg g).
Proof.
  intros E. unfold acts, op_rr. unfold bind at 1. rewrite R_xval. unfold bind. rewrite R_xval.
  by apply W_set, E; apply xval_fits.
Qed.

Lemma acts_ri f g : (forall x, fits 64 x -> u64 (f x (d_imm d)) = u64 (g x i)) ->
  acts (op_ri d f) (reg_imm g).
Proof.
  intros E. unfold acts, op_ri, bind. rewrite R_xval. by apply W_set, E, xval_fits.
Qed.

Hypothesis Himm : d_imm d = u64 i.

Lemma acts_branch f : acts (branch d f) (branch_if f).
Proof.
  unfold acts, branch. unfold bind at 1. rewrite R_xval. unfold bind. rewrite R_xval, Himm.
  cbn [perform branch_if]. destruct (f _ _); [|done]. unfold when, set_hart_pc, set_pc_to.
  by rewrite u64_add_imm.
Qed.

Lemma acts_load k (f : Z -> Z) (signed : bool) :
  (forall v, f v = if signed then swrap (8 * Z.of_nat k) v else v) ->
  acts (load d k f) (load_of k signed).
Proof.
  intros E. unfold acts, load. unfold bind at 1. rewrite R_xval, Himm, u64_add_imm.
  cbn [perform load_of]. unfold bind.
  destruct (mmu_read k _ _ false m) as [[v|e] m']; [|done]. by apply W_set; rewrite E.
Qed.

Lemma acts_store k : acts (store d k) (store_of k).
Proof.
  unfold acts, store. unfold bind at 1. rewrite R_xval. unfold bind. rewrite R_xval.
  by rewrite Himm, u64_add_imm.
Qed.

Lemma acts_sw : acts (exec_sw d) Sem.sw.
Proof.
  etrans; [|apply (acts_store 4)]. unfold exec_sw, store, bind. rewrite !R_xval. by rewrite bits_u32.
Qed.

Lemma acts_auipc : acts (exec_auipc d) Sem.auipc.
Proof. unfold acts, exec_auipc. rewrite Himm. apply W_set, u64_add_imm. Qed.

Lemma acts_jal : next = d_pc d + 4 -> acts (exec_jal d) Sem.jal.
Proof.
  intros Hn. unfold acts, exec_jal. rewrite Himm, u64_add_imm. cbn [perform Sem.jal]. unfold bind.
  rewrite (W_set _ _ next) by (by rewrite Hn). destruct (set_xreg _ _ m) as [[[]|e] m']; [|done].
  unfold set_hart_pc, set_pc_to. by rewrite u64_u64.
Qed.

Lemma acts_jalr : next = d_pc d + 4 -> acts (exec_jalr d) Sem.jalr.
Proof.
  intros Hn. unfold acts, exec_jalr. unfold bind at 1. rewrite R_xval, jump_order, Himm, u64_add_imm.
  cbn [perform Sem.jalr]. unfold set_pc_to. rewrite andn_target, Hn. unfold set_xreg.
  by rewrite u64_u64.
Qed.
End At.
End Shapes.
