(* ===== verification/IsaSystem.v ===== *)
(** * The bodies of the atomic and system instructions do what their meanings say

    The shapes of IsaShapes.v for LR, SC, the AMOs, the CSR instructions and the
    privileged instructions; the masks the code applies to mstatus are the manual's
    replacements of fields. *)

From stdpp Require Import gmap.
From S2P Require Import Prelude Bits Hart HartInv Machine Bus Decoder Mmu MmuSpec CsrAccess.
From S2P Require Import Execute ExecSpec InsnSpec ReturnSpec Isa IsaFloat IsaDecode IsaShapes.

(** ** Fields of a register *)

Lemma field_land_shift v lo n : 0 <= lo -> 0 <= n ->
  field v lo n * 2 ^ lo = Z.land v (Z.shiftl (Z.ones n) lo).
Proof. intros. by rewrite field_land, land_shiftl, Z.shiftl_mul_pow2 by lia. Qed.

Lemma ones_testbit_shift lo n i : 0 <= lo -> 0 <= n -> 0 <= i ->
  Z.testbit (Z.shiftl (Z.ones n) lo) i = (lo <=? i) && (i <? lo + n).
Proof.
  intros. rewrite Z.shiftl_spec by lia. destruct (Z.leb_spec lo i).
  - rewrite Z.testbit_ones by lia. destruct (Z.ltb_spec (i - lo) n), (Z.ltb_spec i (lo + n)); lia.
  - by rewrite Z.testbit_neg_r by lia.
Qed.

Lemma put_testbit v lo n x i : 0 <= lo -> 0 <= n -> fits n x -> 0 <= i ->
  Z.testbit (put v lo n x) i =
  if (lo <=? i) && (i <? lo + n) then Z.testbit x (i - lo) else Z.testbit v i.
Proof.
  intros Hlo Hn Hx Hi. unfold put. rewrite field_land_shift by done.
  set (m := Z.shiftl (Z.ones n) lo).
  assert (v - Z.land v m = Z.ldiff v m) as ->.
  { rewrite Z.sub_nocarry_ldiff; apply Z.bits_inj'; intros k Hk;
      rewrite ?Z.ldiff_spec, ?Z.land_spec, ?Z.bits_0; by destruct (Z.testbit v k), (Z.testbit m k). }
  rewrite <- (Z.shiftl_mul_pow2 x) by done.
  assert (forall k, 0 <= k -> Z.testbit (Z.shiftl x lo) k = Z.testbit m k && Z.testbit x (k - lo)) as Hs.
  { intros k Hk. unfold m. rewrite ones_testbit_shift, Z.shiftl_spec by lia.
    destruct (Z.leb_spec lo k); [|by rewrite Z.testbit_neg_r by lia].
    destruct (Z.ltb_spec k (lo + n)); [done|]. cbn [andb]. rewrite <- (uwrap_id n x Hx), uwrap_spec by lia.
    by destruct (Z.ltb_spec (k - lo) n); [lia|]. }
  rewrite Z.add_nocarry_lxor.
  - rewrite Z.lxor_spec, Z.ldiff_spec, Hs by done. unfold m. rewrite ones_testbit_shift by done.
    destruct ((lo <=? i) && (i <? lo + n)); cbn [negb andb];
      [by rewrite andb_false_r|by rewrite andb_true_r, xorb_false_r].
  - apply Z.bits_inj'. intros k Hk. rewrite Z.land_spec, Z.ldiff_spec, Hs, Z.bits_0 by done.
    by destruct (Z.testbit m k); rewrite ?andb_false_r.
Qed.

Lemma field_bit v i : 0 <= i -> field v i 1 = Z.b2z (Z.testbit v i).
Proof. intros. unfold field. by rewrite Z.testbit_spec'. Qed.
Lemma field_bit_eqb v i : 0 <= i -> (field v i 1 =? 1) = Z.testbit v i.
Proof. intros. rewrite field_bit by done. by destruct (Z.testbit v i). Qed.
Lemma nz_field v i : 0 <= i -> nz (Z.land v (Z.shiftl 1 i)) = (field v i 1 =? 1).
Proof. intros. by rewrite nz_land_bit, field_bit_eqb. Qed.

Lemma mpp_field v : Z.shiftr (Z.land v MSTATUS_MPP) MPP_SHIFT = field v 11 2.
Proof.
  unfold MPP_SHIFT. change MSTATUS_MPP with (Z.shiftl (Z.ones 2) 11).
  rewrite <- field_land_shift by lia. rewrite Z.shiftr_div_pow2 by lia. by apply Z.div_mul.
Qed.
Lemma spp_field v : Z.shiftr (Z.land v MSTATUS_SPP) SPP_SHIFT = field v 8 1.
Proof.
  unfold SPP_SHIFT. change MSTATUS_SPP with (Z.shiftl (Z.ones 1) 8).
  rewrite <- field_land_shift by lia. rewrite Z.shiftr_div_pow2 by lia. by apply Z.div_mul.
Qed.

Lemma bit_fits b : fits 1 (Z.b2z b).
Proof. unfold fits. by destruct b. Qed.

(** One bit of a register replaced. *)
Lemma put_bit v n b i : 0 <= n -> 0 <= i ->
  Z.testbit (put v n 1 (Z.b2z b)) i = if i =? n then b else Z.testbit v i.
Proof.
  intros. rewrite put_testbit by (lia || apply bit_fits).
  destruct (Z.eqb_spec i n) as [->|].
  - rewrite Z.leb_refl. replace (n <? n + 1) with true by (symmetry; lia). rewrite Z.sub_diag. by destruct b.
  - destruct (Z.leb_spec n i), (Z.ltb_spec i (n + 1)); cbn [andb]; done || lia.
Qed.

Lemma put_mprv v : andn v MSTATUS_MPRV = put v 17 1 0.
Proof.
  apply Z.bits_inj'. intros i Hi. unfold andn, MSTATUS_MPRV. rewrite (put_bit v 17 false) by lia.
  rewrite Z.ldiff_spec, testbit_flag by lia. destruct (i =? 17); [apply andb_false_r|apply andb_true_r].
Qed.

Lemma after_mret_eq s : mret_status s = after_mret s.
Proof.
  apply Z.bits_inj'. intros i Hi. rewrite mret_status_testbit by done. unfold after_mret, mpp.
  rewrite mpp_field, (field_bit s 7) by lia. change PrivM with 3. cbv zeta.
  assert (forall v, Z.testbit (put v 11 2 0) i
    = if (i =? 11) || (i =? 12) then false else Z.testbit v i) as Hp.
  { intros v. rewrite put_testbit by (unfold fits; lia). rewrite Z.testbit_0_l.
    by replace ((i =? 11) || (i =? 12)) with ((11 <=? i) && (i <? 11 + 2)) by lia. }
  destruct (Z.eqb_spec (field s 11 2) 3); [|rewrite (put_bit _ 17 false) by lia];
    rewrite Hp, (put_bit _ 7 true), put_bit by lia; cbn [andb]; split_bits i; simpl; try done; lia.
Qed.

Lemma after_sret_eq s : sret_status s = after_sret s.
Proof.
  apply Z.bits_inj'. intros i Hi. rewrite sret_status_testbit by done. unfold after_sret.
  rewrite (field_bit s 5) by lia.
  rewrite (put_bit _ 8 false), (put_bit _ 5 true), put_bit by lia. split_bits i; simpl; try done; lia.
Qed.

(** ** The atomics *)

Section Shapes.
Context {D : Type} `{PlatformLaws D}.
Abbreviation cpu := (M (mach D) exn).

Lemma R_after_mem {A} (c : cpu A) i (m m' : mach D) r :
  framed mem_frame c -> c m = (r, m') -> R i m' = (Ok (xval m i), m').
Proof. intros Hc E. specialize (Hc m). rewrite E in Hc. unfold xval. rewrite <- (mf_gprs _ _ Hc). apply R_xval. Qed.

Lemma R_after_csr {A} (c : cpu A) i (m m' : mach D) r :
  framed csr_frame c -> c m = (r, m') -> R i m' = (Ok (xval m i), m').
Proof. intros Hc E. specialize (Hc m). rewrite E in Hc. unfold xval. rewrite <- (cf_gprs _ _ Hc). apply R_xval. Qed.

Lemma aligned_8 a : negb (Z.land a 7 =? 0) = negb (aligned 8 a).
Proof. change 7 with (Z.ones 3). by rewrite Z.land_ones. Qed.
Lemma aligned_4 a : negb (Z.land a 3 =? 0) = negb (aligned 4 a).
Proof. change 3 with (Z.ones 2). by rewrite Z.land_ones. Qed.

Section At.
Variables (d : DecodedInsn) (next i : Z) (m : mach D).
Abbreviation does c s := (acts d next i m c s).

Lemma acts_lr_d : does (exec_lr_d d) (Sem.lr 8).
Proof.
  unfold acts, exec_lr_d. unfold bind at 1. rewrite R_xval, aligned_8. cbn [perform Sem.lr].
  destruct (aligned _ _); [|done]. cbn [negb]. unfold bind at 1 3.
  destruct (mmu_read _ _ _ _ _) as [[v|e] m1]; [|done].
  unfold bind. by rewrite (W_set _ _ (s64 v)) by (symmetry; apply u64_s64).
Qed.
Lemma acts_lr_w : does (exec_lr_w d) (Sem.lr 4).
Proof.
  unfold acts, exec_lr_w. unfold bind at 1. rewrite R_xval, aligned_4. cbn [perform Sem.lr].
  destruct (aligned _ _); [|done]. cbn [negb]. unfold bind at 1 3.
  destruct (mmu_read _ _ _ _ _) as [[v|e] m1]; [|done].
  unfold bind. by rewrite (W_set _ _ (s32 v)) by (by rewrite sext32).
Qed.

(** sc.d and sc.w once the address is aligned. *)
Lemma conditional_store n (f : Z -> Z) : f (xval m (d_rs2 d)) = uwrap (8 * Z.of_nat n) (xval m (d_rs2 d)) ->
  let addr := xval m (d_rs1 d) in
  (probe_store (d_pc d) addr ;;;
   let! u := gets mmu in
   (if reservation_valid u && (reservation_address u =? addr) then
      let! b := R (d_rs2 d) in mmu_write n (d_pc d) addr (f b) ;;; W (d_rd d) 0
    else W (d_rd d) 1) ;;;
   modify (upd_mmu clear_reservation)) m
  = (probe_store (d_pc d) addr ;;;
     let! u := gets mmu in
     (if reservation_valid u && (reservation_address u =? addr)
      then mmu_write n (d_pc d) addr (uwrap (8 * Z.of_nat n) (xval m (d_rs2 d))) ;;; set_xreg (d_rd d) 0
      else set_xreg (d_rd d) 1) ;;;
     drop_reservation) m.
Proof.
  intros Hf addr. unfold bind at 1 6. destruct (probe_store _ _ m) as [[[]|e] m1] eqn:E; [|done].
  unfold bind, gets. destruct (_ && _).
  - rewrite (R_after_mem _ _ _ _ _ (probe_store_frame _ _) E), Hf.
    destruct (mmu_write _ _ _ _ _) as [[[]|e] m2]; [|done]. by rewrite (W_set _ _ 0).
  - by rewrite (W_set _ _ 1).
Qed.

Lemma acts_sc_d : mach_ok m -> does (exec_sc_d d) (Sem.sc 8).
Proof.
  intros Hm. unfold acts, exec_sc_d. unfold bind at 1. rewrite R_xval, aligned_8. cbn [perform Sem.sc].
  destruct (aligned _ _); [|done]. cbn [negb]. apply (conditional_store 8 (fun b => b)).
  symmetry. by apply uwrap_id, xval_fits.
Qed.
Lemma acts_sc_w : does (exec_sc_w d) (Sem.sc 4).
Proof.
  unfold acts, exec_sc_w. unfold bind at 1. rewrite R_xval, aligned_4. cbn [perform Sem.sc].
  destruct (aligned _ _); [|done]. cbn [negb]. by apply (conditional_store 4 u32).
Qed.

(** The read-modify-write, once the address is aligned. *)
Lemma amo_run n (f : Z -> Z -> Z) (g : Z -> Z) (e : Z -> Z) :
  let addr := xval m (d_rs1 d) in
  mach_ok m -> (0 < n)%nat ->
  (forall t, fits (8 * Z.of_nat n) t ->
     uwrap (8 * Z.of_nat n) (f t (xval m (d_rs2 d))) = uwrap (8 * Z.of_nat n) (g t)) ->
  (forall t, u64 (e t) = u64 (swrap (8 * Z.of_nat n) t)) ->
  (let! t := mmu_read n (d_pc d) addr true in
   let! b := R (d_rs2 d) in
   mmu_write n (d_pc d) addr (uwrap (8 * Z.of_nat n) (f t b)) ;;;
   W (d_rd d) (e t)) m
  = (let! t := mmu_read n (d_pc d) addr true in
     mmu_write n (d_pc d) addr (uwrap (8 * Z.of_nat n) (g t)) ;;;
     set_xreg (d_rd d) (swrap (8 * Z.of_nat n) t)) m.
Proof.
  intros addr Hm Hn Hf He. unfold bind at 1 4.
  pose proof (spec_mmu_read n (d_pc d) addr true Hn (xval_fits m Hm (d_rs1 d)) m Hm) as Hs.
  destruct (mmu_read _ _ _ _ m) as [[t|x] m1] eqn:E; [|done]. destruct Hs as [_ Ht].
  unfold bind. rewrite (R_after_mem _ _ _ _ _ (mmu_read_frame _ _ _ _) E), (Hf t Ht).
  destruct (mmu_write _ _ _ _ _) as [[[]|x] m2]; [|done]. by apply W_set.
Qed.

Hypothesis Hm : mach_ok m.

Lemma acts_amo_8 f s g :
  (forall i pc a b, s i pc a b = Amo 8 a (fun t => g t b)) ->
  (forall t b, fits 64 t -> fits 64 b -> u64 (f t b) = u64 (g t b)) -> does (amo_d d f) s.
Proof.
  intros Es E. unfold acts, amo_d. unfold bind at 1. rewrite R_xval, aligned_8, Es. cbn [perform].
  destruct (aligned _ _); [|done]. cbn [negb].
  apply (amo_run 8 f _ (fun t => t)); [done|lia| |intros t; symmetry; apply u64_s64].
  intros t Ht. apply E; [done|by apply xval_fits].
Qed.
Lemma acts_amo_4 f s g :
  (forall i pc a b, s i pc a b = Amo 4 a (fun t => g t b)) ->
  (forall t b, fits 32 t -> fits 64 b -> u32 (f t b) = u32 (g t b)) -> does (amo_w d f) s.
Proof.
  intros Es E. unfold acts, amo_w. unfold bind at 1. rewrite R_xval, aligned_4, Es. cbn [perform].
  destruct (aligned _ _); [|done]. cbn [negb].
  apply (amo_run 4 f _ (fun t => sext t 32)); [done|lia| |intros t; by rewrite sext32].
  intros t Ht. apply E; [done|by apply xval_fits].
Qed.

Lemma acts_amo_d f g : (forall t b, u64 (f t b) = u64 (g (s64 t) (s64 b))) ->
  does (amo_d d f) (amo_of 8 g).
Proof. intros E. by apply (acts_amo_8 _ _ (fun t b => g (s64 t) (s64 b))). Qed.
Lemma acts_amo_w f g : (forall t b, u32 (f t b) = u32 (g (s32 t) (s32 b))) ->
  does (amo_w d f) (amo_of 4 g).
Proof. intros E. by apply (acts_amo_4 _ _ (fun t b => g (s32 t) (s32 b))). Qed.
Lemma acts_amou_d f : does (amo_d d f) (amou_of 8 f).
Proof. apply (acts_amo_8 _ _ (fun t b => f t (u64 b))); [done|]. intros t b _ Hb. by rewrite (uwrap_id 64 b). Qed.
Lemma acts_amou_w f : does (amo_w d (fun t b => f (u32 t) (u32 b))) (amou_of 4 f).
Proof. apply (acts_amo_4 _ _ (fun t b => f t (u32 b))); [done|]. intros t b Ht _. by rewrite (uwrap_id 32 t). Qed.

(** ** The CSR instructions *)

(** The word and the registers it names; the number of its CSR. *)
Record word_of (w : Z) : Prop := {
  wo_insn : d_insn d = w;
  wo_fits : fits 32 w;
  wo_rs1 : d_rs1 d = rs1 w;
  wo_rs2 : d_rs2 d = rs2 w;
  wo_rs3 : d_rs3 d = rs3 w;
  wo_rd : d_rd d = rd w;
}.
Variable w : Z.
Hypothesis Hw : word_of w.

Section CsrInstructions.
Hypothesis Hcsr : csr_number d = field w 20 12.

(** A read of a CSR, an update of it and the write of [rd]. *)
Lemma csr_update (f : Z -> Z -> Z) (v : Z) (src : cpu Z) (update : bool) next' :
  (forall m', gprs (hart m') = gprs (hart m) -> src m' = (Ok v, m')) ->
  (set_check_pending ;;;
   let! t := read_checked (csr_number d) (d_pc d) (d_insn d) in
   let! a := src in
   when update (write_checked (csr_number d) (d_pc d) (d_insn d) (f t a)) ;;;
   W (d_rd d) t) m
  = perform (d_rd d) (d_pc d) next' (Csr w true (if update then Some (fun t => f t v) else None)) m.
Proof.
  rewrite (wo_insn _ Hw), Hcsr. intros Hsrc. cbn [perform].
  unfold set_check_pending, recheck, bind, modify. cbv zeta.
  set (m0 := upd_hart (set_interrupt_check_pending true) m).
  pose proof (read_checked_frame (field w 20 12) (d_pc d) w m0) as Hf.
  destruct (read_checked _ _ _ _) as [[t|e] m1]; [|done]. simpl in Hf.
  rewrite Hsrc by (by rewrite (cf_gprs _ _ Hf)).
  destruct update; cbn [when]; [|by apply W_set].
  destruct (write_checked _ _ _ _ _) as [[[]|e] m2]; [|done]. by apply W_set.
Qed.
Lemma R_same r (m' : mach D) : gprs (hart m') = gprs (hart m) -> R r m' = (Ok (xval m r), m').
Proof. intros E. unfold xval. rewrite <- E. apply R_xval. Qed.

(** The zero-extended immediate of the immediate forms. *)
Lemma zimm_rs1 : bits 32 (d_insn d) 19 15 = rs1 w.
Proof. rewrite (wo_insn _ Hw). apply bits_field; [apply Hw|lia..]. Qed.

Lemma perform_update f r next' : rs1 w = r ->
  perform (d_rd d) (d_pc d) next' (Csr w true (if negb (r =? 0) then Some f else None)) m
  = perform (d_rd d) (d_pc d) next' (update_csr w f) m.
Proof. intros <-. unfold update_csr. by destruct (rs1 w =? 0). Qed.

Lemma acts_csrrs : acts d next w m (exec_csrrs d) Sem.csrrs.
Proof.
  etrans; [by apply (csr_update Z.lor (xval m (d_rs1 d)) (R (d_rs1 d)) (negb (d_rs1 d =? 0)) next), R_same|].
  apply perform_update. by rewrite (wo_rs1 _ Hw).
Qed.
Lemma acts_csrrc : acts d next w m (exec_csrrc d) Sem.csrrc.
Proof.
  etrans; [by apply (csr_update Z.ldiff (xval m (d_rs1 d)) (R (d_rs1 d)) (negb (d_rs1 d =? 0)) next), R_same|].
  apply perform_update. by rewrite (wo_rs1 _ Hw).
Qed.
Lemma acts_csrrsi : acts d next w m (exec_csrrsi d) Sem.csrrsi.
Proof.
  unfold acts, exec_csrrsi. rewrite zimm_rs1.
  etrans; [by apply (csr_update Z.lor (rs1 w) (ret (rs1 w)) (negb (rs1 w =? 0)) next)|]. by apply perform_update.
Qed.
Lemma acts_csrrci : acts d next w m (exec_csrrci d) Sem.csrrci.
Proof.
  unfold acts, exec_csrrci. rewrite zimm_rs1.
  etrans; [by apply (csr_update Z.ldiff (rs1 w) (ret (rs1 w)) (negb (rs1 w =? 0)) next)|]. by apply perform_update.
Qed.

(** A write of a CSR whose old value is not wanted. *)
Lemma csr_write_only v (src : cpu Z) next' :
  (forall m', gprs (hart m') = gprs (hart m) -> src m' = (Ok v, m')) ->
  (set_check_pending ;;; let! a := src in write_checked (csr_number d) (d_pc d) (d_insn d) a) m
  = perform 0 (d_pc d) next' (Csr w false (Some (fun _ => v))) m.
Proof.
  intros Hsrc. rewrite (wo_insn _ Hw), Hcsr. cbn [perform].
  unfold set_check_pending, recheck, bind, modify, ret. cbv zeta. rewrite Hsrc by done.
  by destruct (write_checked _ _ _ _ _) as [[[]|e] m1].
Qed.

Lemma acts_csrrw : acts d next w m (exec_csrrw d) Sem.csrrw.
Proof.
  unfold acts, exec_csrrw, Sem.csrrw, swap_csr. rewrite <- (wo_rd _ Hw).
  destruct (Z.eqb_spec (d_rd d) 0) as [->|]; cbn [negb].
  - by apply csr_write_only, R_same.
  - by apply (csr_update (fun _ a => a) (xval m (d_rs1 d)) (R (d_rs1 d)) true next), R_same.
Qed.
(** csrrwi, when it does not write a register. *)
Lemma acts_csrrwi : rd w = 0 -> acts d next w m (exec_csrrwi d) Sem.csrrwi.
Proof.
  intros E. unfold acts, exec_csrrwi, Sem.csrrwi, swap_csr. rewrite zimm_rs1, E, (wo_rd _ Hw), E.
  by apply (csr_write_only (rs1 w) (ret (rs1 w))).
Qed.

End CsrInstructions.

(** ** The privileged instructions *)

Lemma acts_ecall : acts d next w m (exec_ecall d) Sem.ecall.
Proof.
  unfold acts, exec_ecall, bind, gets. cbn [perform Sem.ecall]. unfold bind, gets.
  change PrivM with 3. change PrivS with 1. change PrivU with 0.
  destruct (Z.eqb_spec (priv (hart m)) 0) as [->|]; [done|].
  destruct (Z.eqb_spec (priv (hart m)) 1) as [->|]; [done|].
  by destruct (Z.eqb_spec (priv (hart m)) 3).
Qed.

Lemma acts_ebreak : acts d next w m (exec_ebreak d) Sem.ebreak.
Proof. done. Qed.

Lemma acts_mret : acts d next w m (exec_mret d) Sem.mret.
Proof.
  unfold acts, exec_mret. cbn [perform Sem.mret]. unfold bind, recheck, set_check_pending, modify, gets.
  cbv zeta. set (m0 := upd_hart (set_interrupt_check_pending true) m).
  change PrivM with 3. destruct (priv (hart m0) =? 3); cbn [negb]; [|by rewrite (wo_insn _ Hw)].
  unfold set_hart_pc, set_pc_to, modify. rewrite mpp_field.
  rewrite <- after_mret_eq. unfold mret_status, mpp. by rewrite mpp_field.
Qed.

Lemma acts_sret : acts d next w m (exec_sret d) Sem.sret.
Proof.
  unfold acts, exec_sret. cbn [perform Sem.sret]. unfold bind, recheck, set_check_pending, modify, gets.
  cbv zeta. set (m0 := upd_hart (set_interrupt_check_pending true) m).
  unfold MSTATUS_TSR, status_bit. rewrite nz_field by lia. change PrivU with 0. change PrivS with 1.
  destruct (_ || _); [by rewrite (wo_insn _ Hw)|].
  unfold set_hart_pc, set_pc_to, modify. rewrite spp_field. set (s := read_own (hart m0) SSTATUS_ADDRESS).
  fold (sret_status s). rewrite after_sret_eq.
  destruct (write_unchecked _ _ _) as [[[]|e] m1]; [|done].
  assert ((field s 8 1 =? PrivM) = false) as ->.
  { pose proof (field_fits s 8 1 ltac:(lia)) as Hf. unfold fits in Hf. change PrivM with 3. lia. }
  cbn [negb when]. by rewrite put_mprv.
Qed.

Lemma acts_sfence_vma : acts d next w m (exec_sfence_vma d) Sem.sfence_vma.
Proof.
  unfold acts, exec_sfence_vma. cbn [perform Sem.sfence_vma]. unfold bind, gets.
  unfold MSTATUS_TVM, status_bit. rewrite nz_field by lia. change PrivU with 0. change PrivS with 1.
  destruct (_ || _); [by rewrite (wo_insn _ Hw)|]. rewrite (wo_rs1 _ Hw).
  destruct (rs1 w =? 0); [done|]. by rewrite R_xval.
Qed.

Lemma acts_wfi : acts d next w m (exec_wfi d) Sem.wfi.
Proof.
  unfold acts, exec_wfi. cbn [perform Sem.wfi]. unfold bind, recheck, set_check_pending, modify, gets.
  set (m0 := upd_hart (set_interrupt_check_pending true) m).
  unfold MSTATUS_TW, status_bit. rewrite nz_field by lia. change PrivU with 0. change PrivM with 3.
  destruct (_ || _); [by rewrite (wo_insn _ Hw)|].
  destruct (has_pending_enabled_interrupt _); [done|]. by destruct (read_own _ _ =? 0).
Qed.
End At.
End Shapes.
