(* ===== verification/IsaFloatSpec.v ===== *)
(** * The bodies of the floating-point instructions do what their meanings say

    The masks of common/float.hpp are the manual's fields of a format ([coded]), the
    prologue and epilogue of an instruction are [when_float], [round], [dirty] and
    [accrue], and a lemma per shape of instruction. *)

From stdpp Require Import gmap.
From S2P Require Import Prelude Bits Hart HartInv Machine Bus Decoder Mmu MmuSpec CsrAccess.
From S2P Require Import Execute ExecFloat ExecSpec InsnSpec Isa IsaFloat IsaDecode IsaShapes IsaSystem.

(** ** Formats as the code handles them *)

Lemma sign_testbit x n i : 0 <= n -> 0 <= i ->
  Z.testbit (Z.land x (2 ^ n)) i = (i =? n) && Z.testbit x n.
Proof.
  intros. rewrite Z.land_spec, Z.pow2_bits_eqb by done. rewrite Z.eqb_sym.
  destruct (Z.eqb_spec i n) as [->|]; [by rewrite andb_true_r|apply andb_false_r].
Qed.

(** Replacing bit [n], as the code writes it. *)
Lemma replace_bit x n b y : 0 <= n ->
  (forall i, 0 <= i -> Z.testbit y i = if i =? n then b else Z.testbit x i) -> y = put x n 1 (Z.b2z b).
Proof. intros Hn Hy. apply Z.bits_inj'. intros i Hi. by rewrite Hy, put_bit. Qed.

Lemma pow_testbit n i : 0 <= n -> Z.testbit (2 ^ n) i = (i =? n).
Proof. intros. by rewrite Z.pow2_bits_eqb, Z.eqb_sym. Qed.

Section Bits.
Variables (n x y : Z).
Hypothesis Hn : 0 <= n.
Abbreviation bit v := (field v n 1).

Lemma one_minus b : 1 - Z.b2z b = Z.b2z (negb b).
Proof. by destruct b. Qed.
Lemma flip_bit : Z.lxor x (2 ^ n) = put x n 1 (1 - bit x).
Proof.
  rewrite field_bit, one_minus by done. apply replace_bit; [done|]. intros i Hi.
  rewrite Z.lxor_spec, pow_testbit by done. destruct (Z.eqb_spec i n) as [->|];
    [apply xorb_true_r|apply xorb_false_r].
Qed.
Lemma copy_bit : Z.lor (andn x (2 ^ n)) (Z.land y (2 ^ n)) = put x n 1 (bit y).
Proof.
  rewrite field_bit by done. apply replace_bit; [done|]. intros i Hi. unfold andn.
  rewrite Z.lor_spec, Z.ldiff_spec, Z.land_spec, !pow_testbit by done.
  destruct (Z.eqb_spec i n) as [->|]; cbn [negb].
  - by rewrite andb_false_r, andb_true_r.
  - by rewrite andb_true_r, andb_false_r, orb_false_r.
Qed.
Lemma copy_not_bit : Z.lor (andn x (2 ^ n)) (andn (2 ^ n) y) = put x n 1 (1 - bit y).
Proof.
  rewrite field_bit, one_minus by done. apply replace_bit; [done|]. intros i Hi. unfold andn.
  rewrite Z.lor_spec, !Z.ldiff_spec, !pow_testbit by done.
  destruct (Z.eqb_spec i n) as [->|]; cbn [negb andb].
  - by rewrite andb_false_r.
  - by rewrite andb_true_r, orb_false_r.
Qed.
Lemma xor_bit : Z.lxor x (Z.land y (2 ^ n)) = put x n 1 ((bit x + bit y) mod 2).
Proof.
  rewrite !field_bit by done.
  assert ((Z.b2z (Z.testbit x n) + Z.b2z (Z.testbit y n)) mod 2
    = Z.b2z (xorb (Z.testbit x n) (Z.testbit y n))) as ->
    by (by destruct (Z.testbit x n), (Z.testbit y n)).
  apply replace_bit; [done|]. intros i Hi. rewrite Z.lxor_spec, Z.land_spec, pow_testbit by done.
  destruct (Z.eqb_spec i n) as [->|]; [by rewrite andb_true_r|by rewrite andb_false_r, xorb_false_r].
Qed.
Lemma test_bit : nz (Z.land x (2 ^ n)) = (bit x =? 1).
Proof. rewrite <- (Z.shiftl_1_l n). by apply nz_field. Qed.
End Bits.

(** The test of all ones in a field. *)
Lemma field_lnot x lo n : 0 <= lo -> 0 <= n -> field (Z.lnot x) lo n = 2 ^ n - 1 - field x lo n.
Proof.
  intros Hlo Hn. unfold field, Z.lnot, Z.pred.
  pose proof (Z.pow_pos_nonneg 2 lo ltac:(lia) Hlo). pose proof (Z.pow_pos_nonneg 2 n ltac:(lia) Hn).
  assert ((- x + -1) / 2 ^ lo = - (x / 2 ^ lo) - 1) as ->.
  { symmetry. apply Z.div_unique_pos with (r := 2 ^ lo - 1 - x mod 2 ^ lo).
    - pose proof (Z.mod_pos_bound x (2 ^ lo) ltac:(done)). lia.
    - pose proof (Z.div_mod x (2 ^ lo) ltac:(lia)). lia. }
  symmetry. set (q := x / 2 ^ lo). apply Z.mod_unique_pos with (q := - (q / 2 ^ n) - 1).
  - pose proof (Z.mod_pos_bound q (2 ^ n) ltac:(done)). lia.
  - pose proof (Z.div_mod q (2 ^ n) ltac:(lia)). lia.
Qed.
Lemma ones_under_mask x lo n : 0 <= lo -> 0 <= n ->
  (Z.land (Z.lnot x) (Z.shiftl (Z.ones n) lo) =? 0) = (field x lo n =? 2 ^ n - 1).
Proof.
  intros Hlo Hn. rewrite <- field_land_shift, field_lnot by done.
  pose proof (Z.pow_pos_nonneg 2 lo ltac:(lia) Hlo).
  apply eq_true_iff_eq. rewrite !Z.eqb_eq. nia.
Qed.

Lemma nan_test x e f : 0 <= e -> 0 <= f ->
  (Z.land (Z.lnot x) (Z.shiftl (Z.ones e) f) =? 0) && nz (Z.land x (Z.ones f))
  = (field x f e =? 2 ^ e - 1) && negb (field x 0 f =? 0).
Proof.
  intros. rewrite ones_under_mask by done. unfold nz. by rewrite (field_land x 0 f) by lia.
Qed.

Lemma box_eq v : box_f32 v = box 4 v.
Proof.
  cbn [box Nat.eqb]. unfold box_f32. change 0xFFFFFFFF00000000 with (Z.shiftl (Z.ones 32) 32).
  apply Z.bits_inj'. intros i Hi. rewrite put_testbit by (unfold fits; lia).
  change (2 ^ 32 - 1) with (Z.ones 32). rewrite Z.lor_spec, ones_testbit_shift by lia.
  destruct ((32 <=? i) && (i <? 32 + 32)) eqn:E; [|apply orb_false_r]. bool_hyps.
  rewrite orb_true_r, Z.testbit_ones_nonneg; lia || (symmetry; lia).
Qed.
Lemma unbox_eq x : FPR_read_32 x = if x / 2 ^ 32 =? 2 ^ 32 - 1 then field x 0 32 else 0x7FC00000.
Proof.
  unfold FPR_read_32, is_boxed_f32, unbox_f32. rewrite Z.shiftr_div_pow2 by lia.
  change 0xFFFFFFFF with (2 ^ 32 - 1). unfold field. by rewrite Z.div_1_r.
Qed.

(** ** The prologue and the epilogue *)

Lemma fs_put v : Z.lor v MSTATUS_FS = put v 13 2 3.
Proof.
  apply Z.bits_inj'. intros i Hi. rewrite put_testbit by (unfold fits; lia).
  change MSTATUS_FS with (Z.shiftl (Z.ones 2) 13). change 3 with (Z.ones 2).
  rewrite Z.lor_spec, ones_testbit_shift by lia.
  destruct ((13 <=? i) && (i <? 13 + 2)) eqn:E; [|apply orb_false_r]. bool_hyps.
  rewrite orb_true_r, Z.testbit_ones_nonneg; lia || (symmetry; lia).
Qed.
Lemma fs_off v : negb (nz (Z.land v MSTATUS_FS)) = (field v 13 2 =? 0).
Proof.
  change MSTATUS_FS with (Z.shiftl (Z.ones 2) 13). rewrite <- field_land_shift by lia.
  unfold nz. rewrite negb_involutive. apply eq_true_iff_eq. rewrite !Z.eqb_eq. lia.
Qed.

(** ** The status and the flags *)

Definition fdirty (h : Hart) : Hart := MSTATUS_write (put (MSTATUS_read h) 13 2 3) h.
Definition fflag (v : Z) (h : Hart) : Hart := FFLAGS_write (Z.lor (FFLAGS_read h) v) h.

Lemma set_raw_comm a b x y h : a <> b -> set_raw a x (set_raw b y h) = set_raw b y (set_raw a x h).
Proof. intros Hab. unfold set_raw, set_csr_value. cbn. by rewrite insert_insert_ne. Qed.
Lemma set_raw_twice a x y h : set_raw a x (set_raw a y h) = set_raw a x h.
Proof. unfold set_raw, set_csr_value. cbn. by rewrite insert_insert_eq. Qed.

(** Marking FS dirty sets its two bits and SD. *)
Definition dirty_bits (r : Z) : Z := Z.lor r (Z.lor MSTATUS_FS MSTATUS_SD).
Lemma fdirty_eq h : fdirty h = set_raw MSTATUS_ADDRESS (dirty_bits (raw h MSTATUS_ADDRESS)) h.
Proof.
  unfold fdirty, MSTATUS_write, MSTATUS_read. rewrite <- fs_put. set (r := raw h MSTATUS_ADDRESS).
  set (v := Z.lor (andn r MSTATUS_write_mask)
    (Z.land (Z.lor (Z.land r MSTATUS_read_mask) MSTATUS_FS) MSTATUS_write_mask)).
  assert (v = Z.lor r MSTATUS_FS) as ->.
  { assert (forall a b i, Z.land a b = a -> Z.testbit a i = true -> Z.testbit b i = true) as Hs.
    { intros a b i E Ha. rewrite <- E, Z.land_spec in Ha. by apply andb_true_iff in Ha as []. }
    apply Z.bits_inj'. intros i Hi. unfold v, andn.
    rewrite !Z.lor_spec, Z.ldiff_spec, Z.land_spec, Z.lor_spec, Z.land_spec.
    pose proof (Hs MSTATUS_FS MSTATUS_write_mask i eq_refl) as H1.
    pose proof (Hs MSTATUS_write_mask MSTATUS_read_mask i eq_refl) as H2.
    destruct (Z.testbit MSTATUS_FS i) eqn:E1, (Z.testbit MSTATUS_write_mask i) eqn:E2,
      (Z.testbit MSTATUS_read_mask i) eqn:E3, (Z.testbit r i); try done;
      try (specialize (H1 eq_refl); done); specialize (H2 eq_refl); done. }
  unfold dirty_bits. rewrite Z.lor_assoc.
  assert (Z.shiftr (Z.land (Z.lor r MSTATUS_FS) MSTATUS_FS) FS_SHIFT = 3) as ->; [|done].
  replace (Z.land (Z.lor r MSTATUS_FS) MSTATUS_FS) with MSTATUS_FS; [done|].
  apply Z.bits_inj'. intros i Hi. rewrite Z.land_spec, Z.lor_spec. by destruct (Z.testbit r i), (Z.testbit MSTATUS_FS i).
Qed.

Lemma fdirty_twice h : fdirty (fdirty h) = fdirty h.
Proof.
  rewrite !fdirty_eq, raw_set_raw, Z.eqb_refl, set_raw_twice. f_equal. unfold dirty_bits.
  by rewrite <- Z.lor_assoc, Z.lor_diag.
Qed.
Lemma fflag_raw v h : fflag v h =
  set_raw FFLAGS_ADDRESS (Z.land (Z.lor (raw h FFLAGS_ADDRESS) v) 31) h.
Proof.
  unfold fflag, FFLAGS_write, FFLAGS_read. f_equal. rewrite !Z.land_lor_distr_l.
  by rewrite <- Z.land_assoc, Z.land_diag.
Qed.
Lemma fdirty_fflag v h : fdirty (fflag v h) = fflag v (fdirty h).
Proof.
  rewrite !fdirty_eq, !fflag_raw, !raw_set_raw. change (FFLAGS_ADDRESS =? MSTATUS_ADDRESS) with false.
  change (MSTATUS_ADDRESS =? FFLAGS_ADDRESS) with false. by apply set_raw_comm.
Qed.
Lemma fflag_twice a b h : fflag a (fflag b h) = fflag (Z.lor b a) h.
Proof.
  rewrite !fflag_raw, raw_set_raw, Z.eqb_refl, set_raw_twice. f_equal.
  rewrite !Z.land_lor_distr_l. by rewrite <- !Z.land_assoc, !Z.land_diag, Z.lor_assoc.
Qed.

Section Steps.
Context {D : Type} `{PlatformLaws D} `{SoftFloat}.
Abbreviation cpu := (M (mach D) exn).

Lemma dirty_eq (m : mach D) : fp_set_dirty m = dirty m.
Proof. unfold fp_set_dirty, dirty, bind, gets. by rewrite fs_put. Qed.

Lemma F64_val r (m : mach D) : F64 r m = (Ok (fval m r), m).
Proof. done. Qed.
Lemma F32_val r (m : mach D) : F32 r m = (Ok (FPR_read_32 (fval m r)), m).
Proof. done. Qed.

Lemma sf_then {A B} (op : Z -> A * Z) (c : A -> cpu B) (m : mach D) :
  (let! v := sf op in c v) m =
  c (op (softfloat_roundingMode m)).1
    (set_exceptionFlags (Z.lor (softfloat_exceptionFlags m) (op (softfloat_roundingMode m)).2) m).
Proof. unfold bind, sf, state. by destruct (op _). Qed.

Lemma accrue_eq (m : mach D) fl : softfloat_exceptionFlags m = 0 ->
  fp_update_exception_flags (set_exceptionFlags fl m) = accrue fl m.
Proof.
  intros E. unfold fp_update_exception_flags, accrue, bind, gets. cbn [softfloat_exceptionFlags set_exceptionFlags].
  unfold nz. destruct (Z.eqb_spec fl 0) as [->|]; cbn [negb when].
  - destruct m. cbn in *. by subst.
  - rewrite dirty_eq. unfold dirty, bind, gets. destruct m. cbn in *. by subst.
Qed.
(** The library's flags do not matter to the registers. *)
Lemma set_F_flags r v fl (m : mach D) :
  set_F64 r v (set_exceptionFlags fl m) =
  (Ok tt, set_exceptionFlags fl (upd_hart (fun h => set_fprs (<[Z.to_nat r := v]> (fprs h)) h) m)).
Proof. done. Qed.
Lemma W_flags r v v' fl (m : mach D) : u64 v = u64 v' ->
  W r v (set_exceptionFlags fl m) =
  (Ok tt, set_exceptionFlags fl (snd (set_xreg r v' m))).
Proof. intros E. rewrite (W_set _ _ v') by done. unfold set_xreg. by destruct (r =? 0). Qed.
Lemma dirty_flags fl (m : mach D) :
  dirty (set_exceptionFlags fl m) = (Ok tt, set_exceptionFlags fl (snd (dirty m))).
Proof. done. Qed.
Lemma dirty_keeps (m : mach D) : softfloat_exceptionFlags (snd (dirty m)) = softfloat_exceptionFlags m.
Proof. done. Qed.

(** Writing an F register and ending the instruction. *)
Lemma end_f r v fl (m : mach D) : softfloat_exceptionFlags m = 0 ->
  (set_F64 r v ;;; fp_inst_end) (set_exceptionFlags fl m) = (set_freg r v ;;; dirty ;;; accrue fl) m.
Proof.
  intros E. unfold fp_inst_end. unfold bind at 1. rewrite set_F_flags. unfold bind at 1.
  rewrite dirty_eq, dirty_flags. rewrite accrue_eq by done. reflexivity.
Qed.
Lemma end_x r v v' fl (m : mach D) : softfloat_exceptionFlags m = 0 -> u64 v = u64 v' ->
  (W r v ;;; fp_update_exception_flags) (set_exceptionFlags fl m) = (set_xreg r v' ;;; accrue fl) m.
Proof.
  intros E Hv. unfold bind. rewrite (W_flags _ _ v') by done. rewrite accrue_eq.
  - unfold set_xreg. by destruct (r =? 0).
  - unfold set_xreg. by destruct (r =? 0).
Qed.

Lemma prep_insn d w (m : mach D) (c : cpu unit) : softfloat_exceptionFlags m = 0 -> d_insn d = w ->
  (fp_inst_prep d ;;; c) m = when_float w (d_pc d) c m.
Proof.
  intros Hflags Hi.
  unfold fp_inst_prep, when_float, bind, gets, float_off.
  cbv beta iota. rewrite Hflags, Z.eqb_refl. cbn [negb]. cbv beta iota. rewrite fs_off.
  rewrite Hi. by destruct (_ =? 0).
Qed.

Section At.
Variables (d : DecodedInsn) (next : Z) (m : mach D) (w : Z).
Hypothesis Hm : mach_ok m.
Hypothesis Hflags : softfloat_exceptionFlags m = 0.
Hypothesis Hw : word_of d w.

Lemma prep_eq (c : cpu unit) : (fp_inst_prep d ;;; c) m = when_float w (d_pc d) c m.
Proof. apply prep_insn; [done|apply Hw]. Qed.

Lemma when_float_ext (c c' : cpu unit) : c m = c' m -> when_float w (d_pc d) c m = when_float w (d_pc d) c' m.
Proof. intros E. unfold when_float, bind, gets. by destruct (float_off m). Qed.

Lemma setup_eq : fp_setup_rm d m = round w (d_pc d) m.
Proof.
  unfold fp_setup_rm, round. rewrite (wo_insn _ _ Hw), bits_field by (apply Hw || lia).
  reflexivity.
Qed.

Lemma round_cases : (exists e, round w (d_pc d) m = (Throw e, m)) \/
  (exists rm, round w (d_pc d) m = (Ok tt, set_roundingMode rm m)).
Proof.
  unfold round, bind, gets, ret, modify. destruct (funct3 w =? 7).
  - destruct (4 <? _); [left|right]; eexists; reflexivity.
  - destruct (4 <? _); [left|right]; eexists; reflexivity.
Qed.

(** A rounded computation whose body leaves [x] pending. *)
Lemma rounded_run (body tail : cpu unit) f :
  (forall rm, let x := f (fval m) rm in
     (body ;;; tail) (set_roundingMode rm m) =
     (match x.1 with ToX v => set_xreg (d_rd d) v | ToF v => set_freg (d_rd d) v ;;; dirty end ;;;
      accrue x.2) (set_roundingMode rm m)) ->
  (fp_inst_prep d ;;; fp_setup_rm d ;;; body ;;; tail) m
  = perform (d_rd d) (d_pc d) next (Float w true f) m.
Proof.
  intros Hb. rewrite prep_eq. apply when_float_ext. cbn [when].
  unfold bind at 1. rewrite setup_eq. symmetry. unfold bind at 1. symmetry.
  destruct round_cases as [[e ->]|[rm ->]]; [done|]. by rewrite Hb.
Qed.
(** A computation without rounding. *)
Lemma unrounded_run (body : cpu unit) f :
  (let x := f (fval m) (softfloat_roundingMode m) in
   body m =
   (match x.1 with ToX v => set_xreg (d_rd d) v | ToF v => set_freg (d_rd d) v ;;; dirty end ;;;
    accrue x.2) m) ->
  (fp_inst_prep d ;;; body) m = perform (d_rd d) (d_pc d) next (Float w false f) m.
Proof. intros Hb. rewrite prep_eq. apply when_float_ext. rewrite Hb. reflexivity. Qed.
Lemma bind_step {A B} (c : cpu A) (f : A -> cpu B) (s s' : mach D) v :
  c s = (Ok v, s') -> bind c f s = f v s'.
Proof. intros E. unfold bind. by rewrite E. Qed.
Lemma seq_eq (c c' t : cpu unit) (s s' : mach D) : c s = c' s' -> (c ;;; t) s = (c' ;;; t) s'.
Proof. intros E. unfold bind. by rewrite E. Qed.

(** ** The instructions of a format *)

Section Format.
Variable k : format.

(** The accesses to the registers and the constants the code uses for the format. *)
Record coded (read : Z -> cpu Z) (write : Z -> Z -> cpu unit) (neg : Z -> Z)
    (isneg isnan : Z -> bool) (mask nan : Z) : Prop := {
  cd_read : forall r s, read r s = (Ok (unbox k (fval s r)), s);
  cd_write : forall r v, write r v = set_F64 r (box (bytes k) v);
  cd_neg : forall x, neg x = negate k x;
  cd_isneg : forall x, isneg x = (sign k x =? 1);
  cd_isnan : forall x, isnan x = is_nan k x;
  cd_mask : mask = 2 ^ (width k - 1);
  cd_width : 1 <= width k;
  cd_nan : nan = canonical_nan k;
}.

Variables (read : Z -> cpu Z) (write : Z -> Z -> cpu unit) (neg : Z -> Z).
Variables (isneg isnan : Z -> bool) (mask nan : Z).
Hypothesis C : coded read write neg isneg isnan mask nan.
Abbreviation does c s := (acts d next w m c s).
Abbreviation r1 := (d_rs1 d).
Abbreviation r2' := (d_rs2 d).

(** Under each rounding mode the body writes [g] to rd with its flags pending. *)
Lemma arith_run (body : cpu unit) f (g : Z -> Z * Z) :
  (forall rm, body (set_roundingMode rm m) =
     write (d_rd d) (g rm).1 (set_exceptionFlags (g rm).2 (set_roundingMode rm m))) ->
  (forall rm, f (fval m) rm = to_f k (g rm)) ->
  fp_arith d body m = perform (d_rd d) (d_pc d) next (Float w true f) m.
Proof.
  intros Hb Hg. apply rounded_run. intros rm. rewrite Hg. cbn [to_f fst snd].
  rewrite (seq_eq _ _ _ _ _ (Hb rm)), (cd_write _ _ _ _ _ _ _ C). by rewrite end_f.
Qed.

Ltac fbody :=
  intros rm; repeat first
    [ rewrite (bind_step _ _ _ _ _ (cd_read _ _ _ _ _ _ _ C _ _))
    | rewrite (bind_step _ _ _ _ _ (R_xval _ _)) ];
  rewrite sf_then; cbn [softfloat_exceptionFlags softfloat_roundingMode set_roundingMode];
  rewrite Hflags, Z.lor_0_l.

Lemma acts_fop1 op :
  does (fp_arith d (let! a := read r1 in let! v := sf (fun rm => op rm a) in write (d_rd d) v)) (fop1 k op).
Proof.
  apply (arith_run _ _ (fun rm => op rm (unbox k (fval m (rs1 w))))); [|done].
  fbody. by rewrite (wo_rs1 _ _ Hw).
Qed.
Lemma acts_fop2 op :
  does (fp_arith d (let! a := read r1 in let! b := read r2' in
    let! v := sf (fun rm => op rm a b) in write (d_rd d) v)) (fop2 k op).
Proof.
  apply (arith_run _ _ (fun rm => op rm (unbox k (fval m (rs1 w))) (unbox k (fval m (rs2 w))))); [|done].
  fbody. by rewrite (wo_rs1 _ _ Hw), (wo_rs2 _ _ Hw).
Qed.
Lemma acts_fop3 op op' : (forall rm x y z, op rm x y z = op' rm x y z) ->
  does (fp_arith d (let! a := read r1 in let! b := read r2' in let! c := read (d_rs3 d) in
    let! v := sf (fun rm => op rm a b c) in write (d_rd d) v)) (fop3 k op').
Proof.
  intros E. apply (arith_run _ _ (fun rm => op' rm (unbox k (fval m (rs1 w))) (unbox k (fval m (rs2 w)))
    (unbox k (fval m (rs3 w))))); [|done].
  fbody. by rewrite (wo_rs1 _ _ Hw), (wo_rs2 _ _ Hw), (wo_rs3 _ _ Hw), E.
Qed.
Lemma acts_fof_int op g g' : (forall x, fits 64 x -> g x = g' x) ->
  does (fp_arith d (let! a := R r1 in let! v := sf (fun rm => op rm (g a)) in write (d_rd d) v)) (fof_int k op g').
Proof.
  intros E. apply (arith_run _ _ (fun rm => op rm (g' (xval m (d_rs1 d))))); [|done].
  fbody. change (xval (set_roundingMode rm m) r1) with (xval m r1). by rewrite E by (by apply xval_fits).
Qed.
Lemma acts_fto_int op g g' : (forall x, u64 (g x) = u64 (g' x)) ->
  does (fp_to_int d (let! a := read r1 in let! v := sf (fun rm => op rm true a) in W (d_rd d) (g v)))
    (fto_int k op g').
Proof.
  intros E. apply rounded_run. intros rm. cbv zeta. cbn [to_x fst snd].
  set (x := op rm true (unbox k (fval m (rs1 w)))).
  rewrite <- (end_x _ (g x.1) (g' x.1) x.2) by (done || apply E). apply seq_eq.
  revert rm x. fbody. by rewrite (wo_rs1 _ _ Hw).
Qed.
(** *** Without rounding *)

Lemma accrue_0 (s : mach D) : accrue 0 s = (Ok tt, s).
Proof. done. Qed.
(** A result without flags. *)
Lemma write_dirty r v (s : mach D) : (set_F64 r v ;;; fp_set_dirty) s = (set_freg r v ;;; dirty) s.
Proof. unfold bind, set_F64, set_freg, modify. apply dirty_eq. Qed.
Lemma exact_f r v (s : mach D) :
  (set_F64 r v ;;; fp_set_dirty) s = ((set_freg r v ;;; dirty) ;;; accrue 0) s.
Proof.
  rewrite write_dirty. unfold bind at 2. by destruct ((set_freg r v ;;; dirty) s) as [[[]|e] s'].
Qed.
Lemma exact_x r v v' (s : mach D) : u64 v = u64 v' -> W r v s = (set_xreg r v' ;;; accrue 0) s.
Proof. intros E. rewrite (W_set _ _ v') by done. unfold bind. by destruct (set_xreg _ _ _) as [[[]|] ?]. Qed.

Lemma acts_fcompare op :
  does (fp_inst_prep d ;;; let! a := read r1 in let! b := read r2' in
    let! v := sf (fun _ => op a b) in W (d_rd d) (b2z v) ;;; fp_update_exception_flags) (fcompare k op).
Proof.
  apply unrounded_run. cbv zeta. cbn [to_x fst snd].
  rewrite !(bind_step _ _ _ _ _ (cd_read _ _ _ _ _ _ _ C _ _)), sf_then, Hflags, Z.lor_0_l.
  rewrite (wo_rs1 _ _ Hw), (wo_rs2 _ _ Hw). by apply end_x.
Qed.
Lemma acts_fbits op op' : (forall x y, op x y = op' x y) ->
  does (fp_inst_prep d ;;; let! a := read r1 in let! b := read r2' in
    write (d_rd d) (op a b) ;;; fp_set_dirty) (fbits k op').
Proof.
  intros E. apply unrounded_run. cbv zeta. cbn [exact fst snd].
  rewrite !(bind_step _ _ _ _ _ (cd_read _ _ _ _ _ _ _ C _ _)), (cd_write _ _ _ _ _ _ _ C).
  rewrite E, (wo_rs1 _ _ Hw), (wo_rs2 _ _ Hw). apply exact_f.
Qed.
Lemma acts_fclass classify g : (forall v, u64 (g v) = u64 (swrap (width k) v)) ->
  does (fp_inst_prep d ;;; let! a := read r1 in W (d_rd d) (g (classify a))) (fclass k classify).
Proof.
  intros E. apply unrounded_run. cbv zeta. cbn [exact fst snd].
  rewrite !(bind_step _ _ _ _ _ (cd_read _ _ _ _ _ _ _ C _ _)), (wo_rs1 _ _ Hw). by apply exact_x.
Qed.
Lemma acts_fmv_x g : (forall v, u64 (g v) = u64 (swrap (width k) v)) ->
  does (fp_inst_prep d ;;; let! a := F64 r1 in W (d_rd d) (g a)) (fmv_x k).
Proof.
  intros E. apply unrounded_run. cbv zeta. cbn [exact fst snd].
  rewrite (bind_step _ _ _ _ _ (F64_val _ _)), (wo_rs1 _ _ Hw). by apply exact_x.
Qed.
Lemma acts_fmv_f g : (forall v, fits 64 v -> g v = uwrap (width k) v) ->
  does (fp_inst_prep d ;;; let! a := R r1 in write (d_rd d) (g a) ;;; fp_set_dirty) (fmv_f k).
Proof.
  intros E. apply unrounded_run. cbv zeta. cbn [exact fst snd].
  rewrite (bind_step _ _ _ _ _ (R_xval _ _)), (cd_write _ _ _ _ _ _ _ C).
  rewrite E by (by apply xval_fits). apply exact_f.
Qed.

(** *** Loads and stores *)

Lemma acts_fl : d_imm d = u64 (imm_I w) ->
  does (fp_inst_prep d ;;; let! a := R r1 in
    let! v := mmu_read (bytes k) (d_pc d) (u64 (a + d_imm d)) false in
    write (d_rd d) v ;;; fp_set_dirty) (fl k).
Proof.
  intros E. unfold acts. rewrite prep_eq. cbn [perform fl]. apply when_float_ext.
  rewrite (bind_step _ _ _ _ _ (R_xval _ _)), E, u64_add_imm. unfold bind at 1. symmetry.
  unfold bind at 1. symmetry. destruct (mmu_read _ _ _ _ m) as [[v|e] m']; [|done].
  rewrite (cd_write _ _ _ _ _ _ _ C). apply write_dirty.
Qed.
Lemma acts_fs f : (forall v, fits 64 v -> f v = uwrap (8 * Z.of_nat (bytes k)) v) ->
  d_imm d = u64 (imm_S w) -> fits 64 (fval m (rs2 w)) ->
  does (fp_inst_prep d ;;; let! a := R r1 in let! v := F64 r2' in
    mmu_write (bytes k) (d_pc d) (u64 (a + d_imm d)) (f v)) (fs k).
Proof.
  intros Hf E Hv. unfold acts. rewrite prep_eq. cbn [perform fs]. apply when_float_ext.
  rewrite (bind_step _ _ _ _ _ (R_xval _ _)), (bind_step _ _ _ _ _ (F64_val _ _)), E, u64_add_imm.
  rewrite (wo_rs2 _ _ Hw). unfold bind, gets. by rewrite Hf.
Qed.

(** *** Minimum and maximum *)

Definition upd_f (r v : Z) (h : Hart) : Hart := set_fprs (<[Z.to_nat r := v]> (fprs h)) h.

Lemma dirty_run (s : mach D) : dirty s = (Ok tt, upd_hart fdirty s).
Proof. done. Qed.
Lemma accrue_run fl (s : mach D) :
  accrue fl s = (Ok tt, if fl =? 0 then s else upd_hart (fun h => fflag fl (fdirty h)) s).
Proof. unfold accrue. by destruct (fl =? 0). Qed.
Lemma NV_run fl (s : mach D) : raise_NV (set_exceptionFlags fl s) =
  (Ok tt, set_exceptionFlags fl (upd_hart (fflag FFLAGS_NV) s)).
Proof. done. Qed.

(** Raising NV before the instruction writes its result, or with its other flags. *)
Lemma invalid_first r v fl (s : mach D) : softfloat_exceptionFlags s = 0 ->
  (set_freg r v ;;; dirty ;;; accrue fl) (upd_hart (fflag FFLAGS_NV) s)
  = ((set_freg r v ;;; dirty) ;;; accrue (Z.lor FFLAGS_NV fl)) s.
Proof.
  intros _. unfold bind, set_freg, modify. rewrite !dirty_run, !accrue_run.
  assert ((Z.lor FFLAGS_NV fl =? 0) = false) as ->
    by (apply Z.eqb_neq; intros [E _]%Z.lor_eq_0_iff; discriminate).
  change (upd_hart (fun h => set_fprs (<[Z.to_nat r := v]> (fprs h)) h) (upd_hart (fflag FFLAGS_NV) s))
    with (upd_hart (fun h => fflag FFLAGS_NV (upd_f r v h)) s).
  destruct (fl =? 0) eqn:E; unfold upd_hart; cbn [hart mmu dram_ softfloat_exceptionFlags softfloat_roundingMode devs];
    fold (upd_f r v (hart s)); rewrite ?fdirty_fflag, ?fdirty_twice, ?fflag_twice; [|done].
  apply Z.eqb_eq in E. by rewrite E, Z.lor_0_r.
Qed.

Lemma below_run x y (s : mach D) :
  lt_or_eq_neg (lib k) isneg x y s =
  (Ok (below k x y).1, set_exceptionFlags (Z.lor (softfloat_exceptionFlags s) (below k x y).2) s).
Proof.
  unfold lt_or_eq_neg, below. rewrite sf_then. cbv zeta. destruct (sf_lt_quiet _ x y) as [lt fl1]. cbn [fst snd].
  destruct lt; [done|]. rewrite sf_then. destruct (sf_eq _ x y) as [eq fl2]. cbn [fst snd].
  rewrite (cd_isneg _ _ _ _ _ _ _ C), Z.lor_assoc. done.
Qed.

Lemma acts_fchoose (swapped : bool) :
  does (fp_inst_prep d ;;; let! f1 := read r1 in let! f2 := read r2' in
    when (sf_isSignalingNaN (lib k) f1 || sf_isSignalingNaN (lib k) f2) raise_NV ;;;
    let! first := (if swapped then lt_or_eq_neg (lib k) isneg f2 f1 else lt_or_eq_neg (lib k) isneg f1 f2) in
    (if isnan f1 && isnan f2 then write (d_rd d) nan
     else if first || isnan f2 then write (d_rd d) f1 else write (d_rd d) f2) ;;;
    fp_inst_end) (fchoose k swapped).
Proof.
  apply unrounded_run. cbv zeta. cbn [to_f fst snd].
  rewrite !(bind_step _ _ _ _ _ (cd_read _ _ _ _ _ _ _ C _ _)), (wo_rs1 _ _ Hw), (wo_rs2 _ _ Hw).
  set (x := unbox k (fval m (rs1 w))). set (y := unbox k (fval m (rs2 w))).
  rewrite !(cd_write _ _ _ _ _ _ _ C), !(cd_isnan _ _ _ _ _ _ _ C), (cd_nan _ _ _ _ _ _ _ C).
  set (first := if swapped then below k y x else below k x y).
  set (v := if is_nan k x && is_nan k y then canonical_nan k else if first.1 || is_nan k y then x else y).
  assert (forall s : mach D, softfloat_exceptionFlags s = 0 ->
    (let! first := (if swapped then lt_or_eq_neg (lib k) isneg y x else lt_or_eq_neg (lib k) isneg x y) in
     (if is_nan k x && is_nan k y then set_F64 (d_rd d) (box (bytes k) (canonical_nan k))
      else if first || is_nan k y then set_F64 (d_rd d) (box (bytes k) x)
           else set_F64 (d_rd d) (box (bytes k) y)) ;;; fp_inst_end) s
    = (set_freg (d_rd d) (box (bytes k) v) ;;; dirty ;;; accrue first.2) s) as Hrest.
  { intros s Hs. rewrite <- (end_f _ _ _ s) by done.
    rewrite (bind_step _ _ s (set_exceptionFlags first.2 s) first.1).
    - unfold v. by destruct (is_nan k x && is_nan k y), (first.1 || is_nan k y).
    - unfold first. by destruct swapped; rewrite below_run, Hs, Z.lor_0_l. }
  destruct (sf_isSignalingNaN (lib k) x || sf_isSignalingNaN (lib k) y); cbn [when].
  - rewrite (bind_step _ _ m (upd_hart (fflag FFLAGS_NV) m) tt), Hrest by done. by apply invalid_first.
  - rewrite (bind_step _ _ m m tt), Hrest, Z.lor_0_l by done. done.
Qed.
End Format.

(** ** The two formats *)

Lemma f32_neg_eq x : f32_neg x = negate single x.
Proof. by apply (flip_bit 31). Qed.
Lemma f64_neg_eq x : f64_neg x = negate double x.
Proof. by apply (flip_bit 63). Qed.

Lemma fval_fits r : fits 64 (fval m r).
Proof.
  destruct (hk_fprs _ (mk_hart _ Hm)) as [_ Hf]. unfold fval.
  destruct (le_lt_dec (length (fprs (hart m))) (Z.to_nat r)).
  - rewrite nth_overflow by done. by split.
  - rewrite List.Forall_forall in Hf. by apply Hf, nth_In.
Qed.

Lemma coded_single :
  coded single F32 set_F32 f32_neg f32_isNegative f32_isNaN F32_SIGN F32_DEFAULT_NAN.
Proof.
  split; try done.
  - intros r s. by rewrite F32_val, unbox_eq.
  - intros r v. unfold set_F32, FPR_write_32. by rewrite box_eq.
  - apply f32_neg_eq.
  - intros x. by apply (test_bit 31).
  - intros x. by apply (nan_test x 8 23).
Qed.
Lemma coded_double :
  coded double F64 set_F64 f64_neg f64_isNegative f64_isNaN F64_SIGN F64_DEFAULT_NAN.
Proof.
  split; try done.
  - apply f64_neg_eq.
  - intros x. by apply (test_bit 63).
  - intros x. by apply (nan_test x 11 52).
Qed.

(** Between the formats. *)
Lemma acts_fcvt_s_d : acts d next w m (exec_fcvt_s_d d) (fcvt single double f64_to_f32).
Proof.
  apply (arith_run single _ _ _ _ _ _ _ coded_single _ _
    (fun rm => f64_to_f32 rm (unbox double (fval m (rs1 w))))); [|done].
  intros rm. rewrite (bind_step _ _ _ _ _ (F64_val _ _)), sf_then.
  cbn [softfloat_exceptionFlags softfloat_roundingMode set_roundingMode].
  by rewrite Hflags, Z.lor_0_l, (wo_rs1 _ _ Hw).
Qed.
Lemma acts_fcvt_d_s : acts d next w m (exec_fcvt_d_s d) (fcvt double single f32_to_f64).
Proof.
  apply (arith_run double _ _ _ _ _ _ _ coded_double _ _
    (fun rm => f32_to_f64 rm (unbox single (fval m (rs1 w))))); [|done].
  intros rm. rewrite (bind_step _ _ _ _ _ (cd_read _ _ _ _ _ _ _ _ coded_single _ _)), sf_then.
  cbn [softfloat_exceptionFlags softfloat_roundingMode set_roundingMode].
  by rewrite Hflags, Z.lor_0_l, (wo_rs1 _ _ Hw).
Qed.
End At.
End Steps.
