(* ===== verification/IsaSpec.v ===== *)
(** * The interpreter refines the instruction table

    [isa_refines]: a turn of the interpreter on a 32-bit word does what the row of
    the table for the word says, or raises the illegal-instruction exception when
    there is none.  [rows_ok] compares each row's meaning with the body of the
    instruction, by the lemma of its shape. *)

From stdpp Require Import gmap.
From S2P Require Import Prelude Bits Hart HartInv Dram Machine Bus Decoder Mmu MmuSpec CsrAccess.
From S2P Require Import Execute ExecFloat Dispatch ExecSpec Engine EngineSpec InsnSpec.
From S2P Require Import Isa IsaFloat IsaDecode IsaShapes IsaSystem IsaFloatSpec.

(** ** Rows *)

(** csrrwi with a destination is left out: it writes the register before the CSR
    write that may be refused. *)
Definition covered (w : Z) : Prop := opcode w = 0x73 -> funct3 w = 5 -> rd w = 0.

Section Rows.
Context {D : Type} `{PlatformLaws D} `{SoftFloat}.
Variables (u : operands) (w pc0 : Z).
Hypothesis Hw : fits 32 w.

Definition insn_of (name : Iname) (type : Itype) : DecodedInsn :=
  mkDecodedInsn w Normal name type (decode_operand_32 u w type) pc0.

(** The body of the instruction [name] does what the row says. *)
Definition row_ok (x : row * (Iname * Itype)) : Prop :=
  forall m, mach_ok m -> softfloat_exceptionFlags m = 0 -> (x.2.1 = rv_csrrwi -> rd w = 0) ->
    let d := insn_of x.2.1 x.2.2 in
    acts d (pc0 + 4) (r_imm x.1 w) m (exec_insn d) (r_meaning x.1).

Section At.
Variable m : mach D.
Hypothesis Hm : mach_ok m.

Lemma ri_row n f g :
  (forall x i, fits 64 x -> - 2 ^ 11 <= i < 2 ^ 11 -> u64 (f x (u64 i)) = u64 (g x i)) ->
  acts (insn_of n Ity_I) (pc0 + 4) (imm_I w) m (op_ri (insn_of n Ity_I) f) (reg_imm g).
Proof.
  intros E. apply acts_ri; [done|]. intros x Hx. unfold d_imm. cbn [d_ops insn_of].
  rewrite imm_I_eq by done. apply E; [done|]. by apply (swrap_range 12).
Qed.

Lemma shift_row k n f g : 0 < k <= 12 ->
  (forall x i, fits 64 x -> u64 (f x i) = u64 (g x (i mod 2 ^ k))) ->
  acts (insn_of n Ity_I) (pc0 + 4) (shamt k w) m (op_ri (insn_of n Ity_I) f) (reg_imm g).
Proof.
  intros Hk E. apply acts_ri; [done|]. intros x Hx. unfold d_imm. cbn [d_ops insn_of].
  rewrite imm_I_eq, E, imm_shamt by done. done.
Qed.

Lemma lui_row :
  acts (insn_of rv_lui Ity_U) (pc0 + 4) (imm_U w) m (exec_lui (insn_of rv_lui Ity_U)) Sem.lui.
Proof.
  unfold acts, exec_lui, d_imm. cbn [d_ops insn_of]. rewrite imm_U_eq by done.
  apply W_set. autorewrite with isa. f_equal. unfold imm_U.
  rewrite upper_bits by (by apply field_fits). by rewrite Z.shiftl_mul_pow2.
Qed.

(** The decoded operands of the CSR and privileged instructions. *)
Lemma csr_number_field n : csr_number (insn_of n Ity_I) = field w 20 12.
Proof.
  unfold csr_number, d_imm. cbn [d_ops insn_of]. rewrite imm_I_eq by done.
  change 0xFFF with (Z.ones 12). rewrite Z.land_ones by lia. by apply (imm_shamt w 12).
Qed.
Lemma word_of_insn n t : word_of (insn_of n t) w.
Proof.
  split; [done|done|by apply o_rs1_field|by apply o_rs2_field|by apply o_rs3_field|by apply o_rd_field].
Qed.
End At.
End Rows.

(** The body of the instruction of a row. *)
Ltac unfold_head t :=
  lazymatch t with
  | ?f _ => unfold_head f
  | _ => unfold t
  end.
Ltac expose_body d :=
  let t := eval cbv beta iota zeta delta [exec_insn d_iname insn_of] in (exec_insn d) in
  let d0 := fresh in set (d0 := d);
  first [ lazymatch t with ?e _ => change (exec_insn d0) with (e d0) end
        | change (exec_insn d0) with t ];
  unfold_head t; subst d0.
Ltac row_body :=
  intros; intros ????; cbv zeta; cbn [fst snd r_meaning r_imm];
  lazymatch goal with
  | |- acts _ _ _ _ (exec_insn ?d) ?s => expose_body d; unfold_head s
  end.

(** The shape of the row, and the equations on values that rewriting settles. *)
Ltac row_shape :=
  lazymatch goal with
  | |- acts _ _ _ _ (branch _ _) _ => by apply acts_branch, imm_B_eq
  | |- acts _ _ _ _ (store _ _) _ => by apply acts_store, imm_S_eq
  | |- acts _ _ _ _ (load _ _ _) _ =>
      apply acts_load; [by apply imm_I_eq|intros v; first [reflexivity|by apply sext_swrap]]
  | |- acts _ _ _ _ (amo_d _ _) (amou_of _ ?g) => apply acts_amou_d with (f := g); assumption
  | |- acts _ _ _ _ (amo_w _ _) (amou_of _ ?g) => apply acts_amou_w with (f := g); assumption
  | |- acts _ _ _ _ (amo_d _ _) _ => apply acts_amo_d; [assumption|intros t b; autorewrite with isa; try reflexivity]
  | |- acts _ _ _ _ (amo_w _ _) _ => apply acts_amo_w; [assumption|intros t b; autorewrite with isa; try reflexivity]
  | |- acts _ _ (shamt _ _) _ _ _ =>
      apply shift_row; [assumption..|lia|intros x i Hx; autorewrite with isa; try reflexivity]
  | |- acts _ _ _ _ (op_rr _ _) _ =>
      apply acts_rr; [assumption..|intros x y Hx Hy; autorewrite with isa; try reflexivity]
  | |- acts _ _ _ _ (op_ri _ _) _ =>
      apply ri_row; [assumption..|intros x i Hx Hi; autorewrite with isa; try reflexivity]
  | |- _ => reflexivity
  end.

(** The rows with a lemma of their own. *)
Ltac csr_row Hi :=
  first [apply word_of_insn | apply csr_number_field | by apply Hi]; assumption.
Ltac own_row :=
  intros ??? Hi; cbv zeta; cbn [fst snd r_meaning r_imm];
  lazymatch goal with
  | |- acts (insn_of _ _ _ ?n _) _ _ _ _ _ =>
      lazymatch n with
      | rv_lui => by apply lui_row
      | rv_auipc => by apply acts_auipc, imm_U_eq
      | rv_jal => apply acts_jal; [by apply imm_J_eq|done]
      | rv_jalr => apply acts_jalr; [by apply imm_I_eq|done]
      | rv_sw => by apply acts_sw, imm_S_eq
      | rv_lr_w => apply acts_lr_w
      | rv_lr_d => apply acts_lr_d
      | rv_sc_w => apply acts_sc_w
      | rv_sc_d => by apply acts_sc_d
      | rv_csrrw => apply acts_csrrw; csr_row Hi
      | rv_csrrs => apply acts_csrrs; csr_row Hi
      | rv_csrrc => apply acts_csrrc; csr_row Hi
      | rv_csrrsi => apply acts_csrrsi; csr_row Hi
      | rv_csrrci => apply acts_csrrci; csr_row Hi
      | rv_csrrwi => apply acts_csrrwi; csr_row Hi
      | rv_ecall => apply acts_ecall
      | rv_ebreak => apply acts_ebreak
      | rv_mret => by apply acts_mret, word_of_insn
      | rv_sret => by apply acts_sret, word_of_insn
      | rv_wfi => by apply acts_wfi, word_of_insn
      | rv_sfence_vma => by apply acts_sfence_vma, word_of_insn
      end
  end.

(** The floating-point rows: the lemma of the shape, and its equations. *)
Ltac float_side :=
  intros;
  lazymatch goal with
  | |- _ = u64 (imm_I _) => by apply imm_I_eq
  | |- _ = u64 (imm_S _) => by apply imm_S_eq
  | |- fits _ _ => by apply fval_fits
  | |- _ = with_sign _ _ _ =>
      first [ by apply (copy_bit 31) | by apply (copy_not_bit 31) | by apply (xor_bit 31)
            | by apply (copy_bit 63) | by apply (copy_not_bit 63) | by apply (xor_bit 63) ]
  | |- context [sf_mulAdd] => by rewrite ?f32_neg_eq, ?f64_neg_eq
  | |- _ => first [ reflexivity | symmetry; apply u64_s64 | symmetry; by apply uwrap_id
                  | by rewrite s32_u32 | apply uwrap_swrap ]
  end.
Ltac float_shape Hm Hf Hd k C g :=
  lazymatch goal with
  | |- acts _ _ _ _ _ ?s =>
      lazymatch s with
      | fl _ => apply (acts_fl _ _ _ _ Hf Hd k _ _ _ _ _ _ _ C)
      | fs _ => apply (acts_fs _ _ _ _ Hf Hd k)
      | fop1 _ _ => apply (acts_fop1 _ _ _ _ Hf Hd k _ _ _ _ _ _ _ C)
      | fop2 _ _ => apply (acts_fop2 _ _ _ _ Hf Hd k _ _ _ _ _ _ _ C)
      | fto_int _ _ _ => apply (acts_fto_int _ _ _ _ Hf Hd k _ _ _ _ _ _ _ C)
      | fof_int _ _ _ => apply (acts_fof_int _ _ _ _ Hm Hf Hd k _ _ _ _ _ _ _ C)
      | fcompare _ _ => apply (acts_fcompare _ _ _ _ Hf Hd k _ _ _ _ _ _ _ C)
      | fchoose _ ?b => apply (acts_fchoose _ _ _ _ Hf Hd k _ _ _ _ _ _ _ C b)
      | fclass _ ?c => apply (acts_fclass _ _ _ _ Hf Hd k _ _ _ _ _ _ _ C c g)
      | fmv_x _ => apply (acts_fmv_x _ _ _ _ Hf Hd k)
      | fmv_f _ => apply (acts_fmv_f _ _ _ _ Hm Hf Hd k _ _ _ _ _ _ _ C)
      | fsgnj _ => apply (acts_fbits _ _ _ _ Hf Hd k _ _ _ _ _ _ _ C)
      | fsgnjn _ => apply (acts_fbits _ _ _ _ Hf Hd k _ _ _ _ _ _ _ C)
      | fsgnjx _ => apply (acts_fbits _ _ _ _ Hf Hd k _ _ _ _ _ _ _ C)
      | _ => apply (acts_fop3 _ _ _ _ Hf Hd k _ _ _ _ _ _ _ C)
      end
  end.
Ltac float_row :=
  let m := fresh "m" in let Hm := fresh "Hm" in let Hf := fresh "Hf" in
  intros m Hm Hf _; cbv zeta; cbn [fst snd r_meaning r_imm];
  lazymatch goal with
  | Hw : fits 32 ?w |- acts (insn_of ?u ?w ?pc ?n ?t) _ _ _ _ ?s =>
      let Hd := fresh in
      pose proof (word_of_insn u w pc Hw n t) as Hd;
      lazymatch s with
      | fcvt single double _ => by apply acts_fcvt_s_d
      | fcvt double single _ => by apply acts_fcvt_d_s
      | context [single] =>
          expose_body (insn_of u w pc n t);
          float_shape Hm Hf Hd uconstr:(single) uconstr:(coded_single) (swrap 32); float_side
      | context [double] =>
          expose_body (insn_of u w pc n t);
          float_shape Hm Hf Hd uconstr:(double) uconstr:(coded_double) (fun v : Z => v); float_side
      end
  end.

Section AllRows.
Context {D : Type} `{PlatformLaws D} `{SoftFloat}.
Variables (u : operands) (w pc0 : Z).
Hypothesis Hw : fits 32 w.

Lemma rows_ok : Forall (row_ok u w pc0) rows.
Proof.
  repeat first [apply Forall_nil_2 | apply Forall_cons_2].
  all: first [own_row | float_row | row_body; row_shape].
  - apply u64_add_imm.
  - rewrite (swrap_id 64 i) by lia. reflexivity.
  - apply (u64_bitwise _ xorb). intros. apply Z.lxor_spec.
  - apply (u64_bitwise _ orb). intros. apply Z.lor_spec.
  - apply (u64_bitwise _ andb). intros. apply Z.land_spec.
  - apply s32_add_imm.
  - by rewrite Z.shiftr_div_pow2.
  - by apply mulhsu_code.
  - by apply mulhu_code.
  - apply div_code.
  - by apply quotient_unsigned.
  - f_equal. apply (remainder_code 64).
  - f_equal. apply remainder_unsigned; [apply Hx|apply Hy].
  - apply divw_code.
  - apply divuw_code.
  - f_equal. apply remw_code.
  - f_equal. apply remuw_code.
  - symmetry. apply uwrap_swrap.
Qed.
End AllRows.

(** ** The refinement *)

Section Refinement.
Context {D : Type} `{PlatformLaws D} `{SoftFloat}.
Variable u : operands.

(** The row of csrrwi, and what a covered word has when it is its row. *)
Lemma rows_csrrwi : Forall (fun x : row * (Iname * Itype) =>
  x.2.1 = rv_csrrwi -> x.1 = mkRow 0x73 [f3 5] word Sem.csrrwi) rows.
Proof. by repeat first [apply Forall_nil_2 | apply Forall_cons_2]. Qed.
Lemma covered_csrrwi w x : covered w -> In x rows -> row_matches w x.1 = true ->
  x.2.1 = rv_csrrwi -> rd w = 0.
Proof.
  intros Hc Hx Hm E. pose proof rows_csrrwi as Hr. rewrite List.Forall_forall in Hr.
  rewrite (Hr x Hx E) in Hm. unfold row_matches in Hm. cbn [forallb r_opcode r_fixed f3 fst snd] in Hm.
  apply andb_true_iff in Hm as [H7%Z.eqb_eq [H12%Z.eqb_eq _]%andb_true_iff]. by apply Hc.
Qed.

(** Decoding and executing a covered word. *)
Lemma decode_exec_row w pc0 (m : mach D) : fits 32 w -> mach_ok m ->
  softfloat_exceptionFlags m = 0 -> covered w ->
  exists d, decode u w Normal pc0 = Some d /\
    exec_insn d m =
    match List.find (row_matches w) table with
    | Some r => perform (rd w) pc0 (pc0 + 4) (row_action r w pc0 m) m
    | None => raise_exception pc0 IllegalInstruction w m
    end.
Proof.
  intros Hw Hm Hf Ho. destruct (decoder_row u w pc0 Hw) as (name & type & Ed & Hr).
  eexists. split; [exact Ed|]. rewrite find_row.
  destruct (List.find (fun x => row_matches w x.1) rows) as [x|] eqn:E; cbn [option_map].
  - apply List.find_some in E as [Hx Hmx]. pose proof (rows_ok u w pc0 Hw) as Hok.
    rewrite List.Forall_forall in Hok.
    specialize (Hok _ Hx m Hm Hf (covered_csrrwi w x Ho Hx Hmx)). rewrite Hr in Hok.
    unfold acts, d_rd, d_rs1, d_rs2 in Hok. cbn [d_ops d_pc insn_of fst snd] in Hok.
    by rewrite o_rd_field, o_rs1_field, o_rs2_field in Hok by done.
  - subst name. reflexivity.
Qed.

Lemma mach_ok_next n (m : mach D) : Z.testbit n 0 = false -> mach_ok m ->
  mach_ok (upd_hart (set_pc (u64 (pc (hart m) + n))) m).
Proof.
  intros Hn []. split; try done. apply hart_ok_pc; [apply uwrap_fits; lia| |done].
  by apply even_add; [apply hk_even|].
Qed.

(** A turn without an interrupt check, after a fetch that delivers [w]. *)
Lemma turn_fetched i (m m1 : mach D) w len :
  mach_ok m -> Z.land i 0xFF <> 0 -> interrupt_check_pending (hart m) = false ->
  ifetch m = (Ok (w, len), m1) ->
  mach_ok m1 /\ fits 32 w /\ pc (hart m1) = pc (hart m) /\
  cpu_body u i m =
  (let! pc := gets (fun m => pc (hart m)) in
   let! decoded_insn := decode_or_die u w len pc in
   set_hart_pc (pc + ilen_bytes len) ;;;
   exec_insn decoded_insn ;;;
   modify (upd_hart MINSTRET_advance)) m1.
Proof.
  intros Hm Hi Hp Hf. pose proof (spec_ifetch_at (pc (hart m)) (hk_pc _ (mk_hart _ Hm)) m Hm) as Hs.
  change (ifetch_at (pc (hart m)) m) with (ifetch m) in Hs. rewrite Hf in Hs. destruct Hs as [Hm1 Hw].
  pose proof (ifetch_frame m) as Hfr. rewrite Hf in Hfr.
  split_and!; [done|done|by rewrite <- (mf_pc _ _ Hfr)|].
  unfold cpu_body. unfold bind at 1, gets at 1. rewrite Hp. apply Z.eqb_neq in Hi. rewrite Hi. cbn [orb when].
  unfold bind at 1, ret. unfold bind at 1. by rewrite Hf.
Qed.

Lemma ifetch_flags (m m1 : mach D) r :
  softfloat_exceptionFlags m = 0 -> ifetch m = (r, m1) -> softfloat_exceptionFlags m1 = 0.
Proof. intros E Hf. pose proof (stable_flags_mem _ ifetch_frame m) as Hs. rewrite Hf in Hs. by rewrite <- E, <- Hs. Qed.

Lemma fetched_row (m : mach D) w : fits 32 w -> mach_ok m ->
  softfloat_exceptionFlags m = 0 -> covered w ->
  (let! pc := gets (fun m => pc (hart m)) in
   let! decoded_insn := decode_or_die u w Normal pc in
   set_hart_pc (pc + ilen_bytes Normal) ;;;
   exec_insn decoded_insn ;;;
   modify (upd_hart MINSTRET_advance)) m =
  (isa_step w (pc (hart m)) ;;; modify (upd_hart MINSTRET_advance)) m.
Proof.
  intros Hw Hm Hf Ho.
  destruct (decode_exec_row w (pc (hart m)) _ Hw (mach_ok_next 4 m eq_refl Hm) Hf Ho) as (d & Ed & Ex).
  unfold bind at 1, gets. unfold decode_or_die. rewrite Ed. unfold isa_step, bind, ret, set_hart_pc, set_pc_to, modify, gets.
  cbn [ilen_bytes]. rewrite Ex. destruct (List.find (row_matches w) table); reflexivity.
Qed.

(** C4. One turn of the interpreter implements the instruction table of RV64IMAFD,
    Zicsr and the privileged instructions: when no interrupt check is due and the
    fetch at the pc delivers any 32-bit word [w] (but csrrwi with a destination), the
    turn advances the pc by four and does exactly what the row of [w] in the table
    says (a result in a register, a jump, a load or store, an atomic access, a CSR
    access, a floating-point operation with its flags, a trap return), raising the
    illegal-instruction exception with the word as its value when the table has no
    row for it, and counts the instruction if it retires. *)
Theorem isa_refines i (m m1 : mach D) w :
  mach_ok m -> softfloat_exceptionFlags m = 0 ->
  Z.land i 0xFF <> 0 -> interrupt_check_pending (hart m) = false ->
  ifetch m = (Ok (w, Normal), m1) -> covered w ->
  cpu_body u i m = (isa_step w (pc (hart m)) ;;; modify (upd_hart MINSTRET_advance)) m1.
Proof.
  intros Hm Hfl Hi Hp Hf Ho.
  destruct (turn_fetched i m m1 w Normal Hm Hi Hp Hf) as (Hm1 & Hw & Epc & ->).
  rewrite <- Epc. apply fetched_row; [done|done|by eapply ifetch_flags|done].
Qed.
End Refinement.

(** amoadd.w x10, x12, (x11) at the start of DRAM, on the word 0xffffffff and 2. *)
Definition amo_machine : mach unit :=
  upd_dram (fun r => Dram.write 4 (DRAM_BASE + 64) 0xffffffff (Dram.write 4 DRAM_BASE 0x00c5a52f r))
    (upd_hart (fun h => set_gprs (<[11%nat := DRAM_BASE + 64]> (gprs h)) h) op_machine).

Lemma amo_machine_ok : mach_ok amo_machine.
Proof.
  destruct op_machine_ok as [Hh Hd Ht Ho]. destruct (hk_gprs _ Hh) as [Hl Hf]. split; [| |done|done].
  - apply hart_ok_gprs; [by rewrite length_insert| |done]. by apply Forall_insert; [|split].
  - by apply write_wf, write_wf, Hd.
Qed.

Lemma covered_amo : covered 0x00c5a52f.
Proof. by intros E%Z.eqb_eq. Qed.

Lemma isa_refines_witness :
  (let '(r, m') := cpu_body (H0 := zero_softfloat) no_operands 1 amo_machine in
   r = Ok tt /\ xval m' 10 = 2 ^ 64 - 1 /\ Dram.read 4 (DRAM_BASE + 64) (dram_ m') = 1 /\
   pc (hart m') = DRAM_BASE + 4) /\
  cpu_body (H0 := zero_softfloat) no_operands 1 amo_machine =
  (isa_step (H := zero_softfloat) 0x00c5a52f DRAM_BASE ;;; modify (upd_hart MINSTRET_advance)) amo_machine.
Proof.
  split; [vm_compute; repeat split|].
  apply (isa_refines no_operands 1 amo_machine amo_machine 0x00c5a52f);
    [ apply amo_machine_ok | reflexivity | discriminate | reflexivity | vm_compute; reflexivity
    | apply covered_amo ].
Defined.

(** An unassigned word of the opcode OP traps with the word as its value; so does
    csrrw x0, cycle, x11, a write of a read-only CSR. *)
Example refused_words :
  fst (isa_step (H := zero_softfloat) 0x04c58533 DRAM_BASE op_machine)
  = Throw (ETrap (mkTrap DRAM_BASE IllegalInstruction 0x04c58533)) /\
  fst (isa_step (H := zero_softfloat) 0xc0059073 DRAM_BASE op_machine)
  = Throw (ETrap (mkTrap DRAM_BASE IllegalInstruction 0xc0059073)).
Proof. vm_compute. done. Qed.
