(* ===== verification/IsaC.v ===== *)
(** * The compressed instructions, as their manual expands them

    Each 16-bit instruction stands for one 32-bit instruction: [expand] gives the
    registers, the immediate and the meaning of that instruction (Isa.v), by the
    quadrant and funct3 of the halfword as the manual lists them.  The quadrant 3 is
    the 32-bit words.  The interpreter is proved to follow it in IsaCSpec.v. *)

From stdpp Require Import gmap.
From S2P Require Import Prelude Hart Machine Bus Mmu Isa.

Inductive expansion : Type :=
  | Insn (rd rs1 rs2 imm : Z) (s : meaning)  (* the base instruction [s] *)
  | Illegal                                  (* reserved, or the all-zero halfword *)
  | Break                                    (* c.ebreak *)
  | LoadDouble (rd rs1 imm : Z).             (* c.fld and c.fldsp *)

(** ** Fields *)

Definition quadrant (h : Z) : Z := field h 0 2.
Definition c_funct3 (h : Z) : Z := field h 13 3.
Definition c_r (h : Z) : Z := field h 7 5.        (* rd and rs1 *)
Definition c_rs2 (h : Z) : Z := field h 2 5.
Definition c_r' (h : Z) : Z := field h 7 3 + 8.   (* the registers x8 to x15 *)
Definition c_rs2' (h : Z) : Z := field h 2 3 + 8.

Definition c_imm (h : Z) : Z := swrap 6 (field h 12 1 * 2 ^ 5 + field h 2 5).
Definition c_shamt (h : Z) : Z := field h 12 1 * 2 ^ 5 + field h 2 5.
Definition c_imm_lui (h : Z) : Z := swrap 18 (field h 12 1 * 2 ^ 17 + field h 2 5 * 2 ^ 12).
Definition c_imm_16sp (h : Z) : Z :=
  swrap 10 (field h 12 1 * 2 ^ 9 + field h 3 2 * 2 ^ 7 + field h 5 1 * 2 ^ 6 + field h 2 1 * 2 ^ 5 +
            field h 6 1 * 2 ^ 4).
Definition c_imm_4spn (h : Z) : Z :=
  field h 7 4 * 2 ^ 6 + field h 11 2 * 2 ^ 4 + field h 5 1 * 2 ^ 3 + field h 6 1 * 2 ^ 2.
Definition c_imm_w (h : Z) : Z := field h 5 1 * 2 ^ 6 + field h 10 3 * 2 ^ 3 + field h 6 1 * 2 ^ 2.
Definition c_imm_d (h : Z) : Z := field h 5 2 * 2 ^ 6 + field h 10 3 * 2 ^ 3.
Definition c_imm_lwsp (h : Z) : Z := field h 2 2 * 2 ^ 6 + field h 12 1 * 2 ^ 5 + field h 4 3 * 2 ^ 2.
Definition c_imm_ldsp (h : Z) : Z := field h 2 3 * 2 ^ 6 + field h 12 1 * 2 ^ 5 + field h 5 2 * 2 ^ 3.
Definition c_imm_swsp (h : Z) : Z := field h 7 2 * 2 ^ 6 + field h 9 4 * 2 ^ 2.
Definition c_imm_sdsp (h : Z) : Z := field h 7 3 * 2 ^ 6 + field h 10 3 * 2 ^ 3.
Definition c_imm_j (h : Z) : Z :=
  swrap 12 (field h 12 1 * 2 ^ 11 + field h 8 1 * 2 ^ 10 + field h 9 2 * 2 ^ 8 + field h 6 1 * 2 ^ 7 +
            field h 7 1 * 2 ^ 6 + field h 2 1 * 2 ^ 5 + field h 11 1 * 2 ^ 4 + field h 3 3 * 2).
Definition c_imm_b (h : Z) : Z :=
  swrap 9 (field h 12 1 * 2 ^ 8 + field h 5 2 * 2 ^ 6 + field h 2 1 * 2 ^ 5 + field h 10 2 * 2 ^ 3 +
           field h 3 2 * 2).

(** ** Expansion *)

(** fsd with the F register [r], for which rs2 of the word is not the register. *)
Definition store_double (h r : Z) : meaning := fun i pc a b => StoreFloat h 8 (a + i) r.

Definition expand_0 (h : Z) : expansion :=
  let f := c_funct3 h in
  if f =? 0 then if c_imm_4spn h =? 0 then Illegal
                 else Insn (c_rs2' h) 2 0 (c_imm_4spn h) Sem.addi       (* c.addi4spn *)
  else if f =? 1 then LoadDouble (c_rs2' h) (c_r' h) (c_imm_d h)          (* c.fld *)
  else if f =? 2 then Insn (c_rs2' h) (c_r' h) 0 (c_imm_w h) Sem.lw       (* c.lw *)
  else if f =? 3 then Insn (c_rs2' h) (c_r' h) 0 (c_imm_d h) Sem.ld       (* c.ld *)
  else if f =? 4 then Illegal
  else if f =? 5 then Insn 0 (c_r' h) 0 (c_imm_d h) (store_double h (c_rs2' h)) (* c.fsd *)
  else if f =? 6 then Insn 0 (c_r' h) (c_rs2' h) (c_imm_w h) Sem.sw       (* c.sw *)
  else Insn 0 (c_r' h) (c_rs2' h) (c_imm_d h) Sem.sd.                     (* c.sd *)

(** The arithmetic of quadrant 1. *)
Definition expand_alu (h : Z) : expansion :=
  let r := c_r' h in
  let op := field h 10 2 in
  if op =? 0 then Insn r r 0 (c_shamt h) Sem.srli                         (* c.srli *)
  else if op =? 1 then Insn r r 0 (c_shamt h) Sem.srai                    (* c.srai *)
  else if op =? 2 then Insn r r 0 (c_imm h) Sem.andi                      (* c.andi *)
  else
    let sub := field h 5 2 in
    let rr s := Insn r r (c_rs2' h) 0 s in
    if field h 12 1 =? 0 then
      if sub =? 0 then rr Sem.sub                                         (* c.sub *)
      else if sub =? 1 then rr Sem.xor                                    (* c.xor *)
      else if sub =? 2 then rr Sem.or                                     (* c.or *)
      else rr Sem.and                                                     (* c.and *)
    else
      if sub =? 0 then rr Sem.subw                                        (* c.subw *)
      else if sub =? 1 then rr Sem.addw                                   (* c.addw *)
      else Illegal.

Definition expand_1 (h : Z) : expansion :=
  let f := c_funct3 h in
  let r := c_r h in
  if f =? 0 then Insn r r 0 (c_imm h) Sem.addi                            (* c.addi, c.nop *)
  else if f =? 1 then Insn r r 0 (c_imm h) Sem.addiw                      (* c.addiw *)
  else if f =? 2 then Insn r 0 0 (c_imm h) Sem.addi                       (* c.li *)
  else if f =? 3 then
    if r =? 2 then if c_imm_16sp h =? 0 then Illegal
                   else Insn 2 2 0 (c_imm_16sp h) Sem.addi                (* c.addi16sp *)
    else if c_imm h =? 0 then Illegal
    else Insn r 0 0 (c_imm_lui h) Sem.lui                                 (* c.lui *)
  else if f =? 4 then expand_alu h
  else if f =? 5 then Insn 0 0 0 (c_imm_j h) Sem.jal                      (* c.j *)
  else if f =? 6 then Insn 0 (c_r' h) 0 (c_imm_b h) Sem.beq               (* c.beqz *)
  else Insn 0 (c_r' h) 0 (c_imm_b h) Sem.bne.                             (* c.bnez *)

Definition expand_2 (h : Z) : expansion :=
  let f := c_funct3 h in
  let r := c_r h in
  if f =? 0 then Insn r r 0 (c_shamt h) Sem.slli                          (* c.slli *)
  else if f =? 1 then LoadDouble r 2 (c_imm_ldsp h)                       (* c.fldsp *)
  else if f =? 2 then if r =? 0 then Illegal
                      else Insn r 2 0 (c_imm_lwsp h) Sem.lw               (* c.lwsp *)
  else if f =? 3 then if r =? 0 then Illegal
                      else Insn r 2 0 (c_imm_ldsp h) Sem.ld               (* c.ldsp *)
  else if f =? 4 then
    if field h 12 1 =? 0 then
      if c_rs2 h =? 0 then if r =? 0 then Illegal
                           else Insn 0 r 0 0 Sem.jalr                     (* c.jr *)
      else Insn r 0 (c_rs2 h) 0 Sem.add                                   (* c.mv *)
    else
      if c_rs2 h =? 0 then if r =? 0 then Break                           (* c.ebreak *)
                           else Insn 1 r 0 0 Sem.jalr                     (* c.jalr *)
      else Insn r r (c_rs2 h) 0 Sem.add                                   (* c.add *)
  else if f =? 5 then Insn 0 2 0 (c_imm_sdsp h) (store_double h (c_rs2 h)) (* c.fsdsp *)
  else if f =? 6 then Insn 0 2 (c_rs2 h) (c_imm_swsp h) Sem.sw            (* c.swsp *)
  else Insn 0 2 (c_rs2 h) (c_imm_sdsp h) Sem.sd.                          (* c.sdsp *)

(** The encodings the manual reserves without a rule of their own (c.addiw and the
    hints with x0) are expanded like their neighbours: they write to x0. *)
Definition expand (h : Z) : expansion :=
  if quadrant h =? 0 then expand_0 h
  else if quadrant h =? 1 then expand_1 h
  else expand_2 h.

(** The halfword [h] at [pc0]: the program counter moves on by two, then the action
    of the expansion is carried out.  The compressed loads of doubles are fld but for
    FS: the program does not mark it dirty, and this definition follows it there. *)
Section Step.
Context {D : Type} `{Platform D}.

Definition c_exec (h pc0 : Z) (m : mach D) : result exn unit * mach D :=
  match expand h with
  | Insn rd rs1 rs2 imm s =>
      perform rd pc0 (pc0 + 2) (s imm pc0 (xval m rs1) (xval m rs2)) m
  | Illegal => raise_exception pc0 IllegalInstruction h m
  | Break => raise_exception pc0 Breakpoint pc0 m
  | LoadDouble rd rs1 imm =>
      when_float h pc0
        (let! v := mmu_read 8 pc0 (u64 (xval m rs1 + imm)) false in set_freg rd (box 8 v)) m
  end.
Definition c_step (h pc0 : Z) : M (mach D) exn unit := set_pc_to (pc0 + 2) ;;; c_exec h pc0.
End Step.

(* c.addi a0, -1; c.mv a0, a1; c.jalr a5; the all-zero halfword *)
Example expand_small :
  expand 0x157d = Insn 10 10 0 (-1) Sem.addi /\ expand 0x852e = Insn 10 0 11 0 Sem.add /\
  expand 0x9782 = Insn 1 15 0 0 Sem.jalr /\ expand 0 = Illegal.
Proof. vm_compute. done. Qed.
