(* ===== verification/IsaCSpec.v ===== *)
(** * The interpreter executes the compressed instructions by their expansion

    [compressed_refines]: a turn on a halfword of the quadrants 0 to 2 does what the
    expansion of IsaC.v says.  The decoder's patterns are restated as tests of
    fields, its immediates as sums of fields, and each body by the shapes of
    IsaSpec.v. *)

From Stdlib Require Import Btauto.
From stdpp Require Import gmap.
From S2P Require Import Prelude Bits Hart HartInv Dram Machine Bus Decoder Mmu MmuSpec CsrAccess.
From S2P Require Import Execute ExecFloat Dispatch ExecSpec Engine EngineSpec InsnSpec.
From S2P Require Import Isa IsaFloat IsaDecode IsaShapes IsaFloatSpec IsaSpec IsaC.

(** ** The patterns as tests of fields *)

(** [(lo, n, v)]: the [n] bits from [lo] up are [v]. *)
Definition test : Type := Z * Z * Z.
Definition test_ok (h : Z) (t : test) : bool := let '(lo, n, v) := t in field h lo n =? v.
Definition tests_mask (l : list test) : Z :=
  foldr (fun '(lo, n, _) m => Z.lor (Z.shiftl (Z.ones n) lo) m) 0 l.
Definition tests_key (l : list test) : Z := foldr (fun '(lo, _, v) k => Z.lor (Z.shiftl v lo) k) 0 l.
Fixpoint tests_separate (l : list test) : bool :=
  match l with
  | [] => true
  | (lo, n, v) :: l =>
      (0 <=? lo) && (0 <=? n) &&
      separate (Z.shiftl (Z.ones n) lo) (Z.shiftl v lo) (tests_mask l) (tests_key l) && tests_separate l
  end.

Lemma tests_masked h l : tests_separate l = true ->
  forallb (test_ok h) l = (Z.land h (tests_mask l) =? tests_key l).
Proof.
  induction l as [|[[lo n] v] l IH]; [by rewrite Z.land_0_r|]. cbn [tests_separate]. intros Hs. bool_hyps.
  cbn [tests_mask tests_key foldr forallb test_ok].
  rewrite mask_split by done. rewrite field_eqb, IH by (done || lia). done.
Qed.

(** Quadrant and funct3, then the further tests, of each pattern in the decoder's
    order. *)
Record ctest := mkCtest {
  ct_class : option (Z * Z);
  ct_more : list test;
  ct_name : Iname;
  ct_type : Itype;
}.
Definition ct_tests (t : ctest) : list test :=
  match ct_class t with Some (q, f) => (0, 2, q) :: (13, 3, f) :: ct_more t | None => ct_more t end.
Definition ct_insn (t : ctest) : Iname * Itype := (ct_name t, ct_type t).
Definition tests_C : list ctest :=
  [ mkCtest (Some (1, 0)) [(7, 5, 0)] rv_c_nop Ity_CI;
    mkCtest (Some (1, 0)) [] rv_c_addi Ity_CI;
    mkCtest (Some (1, 1)) [] rv_c_addiw Ity_CI;
    mkCtest (Some (1, 2)) [] rv_c_li Ity_CI;
    mkCtest (Some (1, 3)) [(7, 5, 2)] rv_c_addi16sp Ity_CI;
    mkCtest (Some (1, 3)) [] rv_c_lui Ity_CI;
    mkCtest (Some (1, 4)) [(10, 2, 0)] rv_c_srli Ity_CB;
    mkCtest (Some (1, 4)) [(10, 2, 1)] rv_c_srai Ity_CB;
    mkCtest (Some (1, 4)) [(10, 2, 2)] rv_c_andi Ity_CB;
    mkCtest (Some (1, 4)) [(12, 1, 0); (10, 2, 3); (5, 2, 0)] rv_c_sub Ity_CA;
    mkCtest (Some (1, 4)) [(12, 1, 0); (10, 2, 3); (5, 2, 1)] rv_c_xor Ity_CA;
    mkCtest (Some (1, 4)) [(12, 1, 0); (10, 2, 3); (5, 2, 2)] rv_c_or Ity_CA;
    mkCtest (Some (1, 4)) [(12, 1, 0); (10, 2, 3); (5, 2, 3)] rv_c_and Ity_CA;
    mkCtest (Some (1, 4)) [(12, 1, 1); (10, 2, 3); (5, 2, 0)] rv_c_subw Ity_CA;
    mkCtest (Some (1, 4)) [(12, 1, 1); (10, 2, 3); (5, 2, 1)] rv_c_addw Ity_CA;
    mkCtest (Some (1, 5)) [] rv_c_j Ity_CJ;
    mkCtest (Some (1, 6)) [] rv_c_beqz Ity_CB;
    mkCtest (Some (1, 7)) [] rv_c_bnez Ity_CB;
    mkCtest (Some (0, 0)) [(2, 11, 0)] rv_c_inv Ity_N;
    mkCtest (Some (0, 0)) [] rv_c_addi4spn Ity_CIW;
    mkCtest (Some (0, 1)) [] rv_c_fld Ity_CL;
    mkCtest (Some (0, 2)) [] rv_c_lw Ity_CL;
    mkCtest (Some (0, 3)) [] rv_c_ld Ity_CL;
    mkCtest (Some (0, 5)) [] rv_c_fsd Ity_CS;
    mkCtest (Some (0, 6)) [] rv_c_sw Ity_CS;
    mkCtest (Some (0, 7)) [] rv_c_sd Ity_CS;
    mkCtest (Some (2, 0)) [] rv_c_slli Ity_CI;
    mkCtest (Some (2, 1)) [] rv_c_fldsp Ity_CI;
    mkCtest (Some (2, 2)) [] rv_c_lwsp Ity_CI;
    mkCtest (Some (2, 3)) [] rv_c_ldsp Ity_CI;
    mkCtest (Some (2, 4)) [(12, 1, 0); (2, 5, 0)] rv_c_jr Ity_CR;
    mkCtest (Some (2, 4)) [(12, 1, 0)] rv_c_mv Ity_CR;
    mkCtest (Some (2, 4)) [(12, 1, 1); (7, 5, 0); (2, 5, 0)] rv_c_ebreak Ity_CR;
    mkCtest (Some (2, 4)) [(12, 1, 1); (2, 5, 0)] rv_c_jalr Ity_CR;
    mkCtest (Some (2, 4)) [(12, 1, 1)] rv_c_add Ity_CR;
    mkCtest (Some (2, 5)) [] rv_c_fsdsp Ity_CSS;
    mkCtest (Some (2, 6)) [] rv_c_swsp Ity_CSS;
    mkCtest (Some (2, 7)) [] rv_c_sdsp Ity_CSS;
    mkCtest None [] rv_inv Ity_N ].

Lemma tests_C_eq :
  map (fun t => (tests_mask (ct_tests t), tests_key (ct_tests t), ct_insn t)) tests_C =
  map (fun e => (p_bits (parsed e), p_word (parsed e), (e.1.2, e.2))) patterns_C.
Proof. by vm_compute. Qed.
Lemma tests_C_separate :
  forallb (fun t => tests_separate (ct_tests t)) tests_C = true /\
  forallb (fun e => 0 <=? p_shift (parsed e)) patterns_C = true.
Proof. by vm_compute. Qed.

(** Two tables that test the same find the same. *)
Lemma find_same {A B C} (f : A -> bool) (g : B -> bool) (va : A -> C) (vb : B -> C) l l' :
  Forall2 (fun x y => f x = g y /\ va x = vb y) l l' ->
  option_map va (List.find f l) = option_map vb (List.find g l').
Proof.
  induction 1 as [|x y l l' [E V] _ IH]; [done|]. cbn. rewrite E. destruct (g y); [|done]. cbn. by rewrite V.
Qed.

Lemma find_pattern_C h :
  find_pattern h patterns_C = option_map ct_insn (List.find (fun t => forallb (test_ok h) (ct_tests t)) tests_C).
Proof.
  transitivity (option_map (fun e : entry => (e.1.2, e.2))
    (List.find (fun e => pattern_matches (parse_pattern e.1.1) h) patterns_C)).
  { unfold find_pattern.
    by match goal with |- context [List.find ?f patterns_C] => destruct (List.find f patterns_C) end. }
  apply find_same. apply Forall2_lookup. intros i.
  pose proof (f_equal (fun l => l !! i) tests_C_eq) as E. cbv beta in E. rewrite !list_lookup_fmap in E.
  destruct (tests_C !! i) as [t|] eqn:Et, (patterns_C !! i) as [e|] eqn:Ee; cbn in E; try done; constructor.
  injection E as Em Ek En Ety. destruct tests_C_separate as [Hs Hp].
  rewrite tests_masked.
  2: { apply (proj1 (forallb_forall _ _) Hs). by eapply lookup_In. }
  fold (parsed e). rewrite pattern_masked, Em, Ek.
  2: { apply Z.leb_le. apply (proj1 (forallb_forall _ _) Hp). by eapply lookup_In. }
  split; [done|]. unfold ct_insn. by rewrite En, Ety.
Qed.

(** The patterns left to try once the quadrant and funct3 are known. *)
Definition in_class (q f : Z) (t : ctest) : bool :=
  match ct_class t with Some (q', f') => (q =? q') && (f =? f') | None => true end.

Lemma find_class h q f : field h 0 2 = q -> field h 13 3 = f ->
  find_pattern h patterns_C =
  option_map ct_insn (List.find (fun t => forallb (test_ok h) (ct_more t))
    (List.filter (in_class q f) tests_C)).
Proof.
  intros Hq Hf. rewrite find_pattern_C. f_equal. generalize tests_C. intros l.
  induction l as [|t l IH]; [done|]. cbn [List.find List.filter]. rewrite IH.
  assert (forallb (test_ok h) (ct_tests t) = in_class q f t && forallb (test_ok h) (ct_more t)) as ->.
  { unfold ct_tests, in_class. destruct (ct_class t) as [[q' f']|]; [|done].
    cbn [forallb test_ok]. by rewrite Hq, Hf, andb_assoc. }
  by destruct (in_class q f t).
Qed.

(** ** Immediates *)

Lemma lor_mul_add x y k : 0 <= k -> fits k y -> Z.lor (x * 2 ^ k) y = x * 2 ^ k + y.
Proof. intros. by rewrite <- (lor_shiftl_add x y k), Z.shiftl_mul_pow2 by done. Qed.

(** The bounds of the fields of [h] in the goal, and the ors of shifted fields as
    sums, the lowest fields first. *)
Ltac field_bounds h :=
  repeat match goal with
    | |- context [field h ?lo ?n] =>
        lazymatch goal with
        | _ : 0 <= field h lo n < _ |- _ => fail
        | _ => let B := fresh "B" in
               pose proof (field_fits h lo n ltac:(lia)) as B; unfold fits in B
        end
    end.
Ltac ors :=
  rewrite ?Z.shiftl_mul_pow2 by lia; rewrite <- ?Z.lor_assoc;
  repeat match goal with
    | |- context [Z.lor (?x * 2 ^ ?k) ?y] =>
        lazymatch y with
        | context [Z.lor] => fail
        | _ => rewrite (lor_mul_add x y k) by (lia || (unfold fits; lia))
        end
    end.

Section Immediates.
Variable h : Z.
Hypothesis Hh : fits 32 h.

Ltac sum_of_fields :=
  rewrite ?sext_swrap by lia; fields; field_bounds h; ors; first [lia | do 2 f_equal; lia].

Lemma imm_ci_eq : imm_ci h = u64 (c_imm h).
Proof. unfold imm_ci, c_imm. sum_of_fields. Qed.
Lemma shamt_eq : Z.lor (Z.shiftl (bits 32 h 12 12) 5) (bits 32 h 6 2) = c_shamt h.
Proof. unfold c_shamt. sum_of_fields. Qed.
Lemma imm_lw_eq : imm_lw h = c_imm_w h.
Proof. unfold imm_lw, c_imm_w. sum_of_fields. Qed.
Lemma imm_ld_eq : imm_ld h = c_imm_d h.
Proof. unfold imm_ld, c_imm_d. sum_of_fields. Qed.

(** The immediate of the CI format, by quadrant and funct3. *)
Lemma imm_CI q f : quadrant h = q -> c_funct3 h = f -> decode_imm_CI h =
  if q =? 1 then
    if (f =? 0) || (f =? 1) || (f =? 2) then u64 (c_imm h)
    else if f =? 3 then
      if c_r h =? 2 then u64 (c_imm_16sp h)
      else if negb (c_r h =? 0) then u64 (c_imm_lui h) else u64 (c_imm h)
    else u64 (c_imm h)
  else if q =? 2 then
    if f =? 0 then c_shamt h else if f =? 2 then c_imm_lwsp h
    else if (f =? 3) || (f =? 1) then c_imm_ldsp h else u64 (c_imm h)
  else u64 (c_imm h).
Proof.
  intros <- <-. unfold decode_imm_CI. rewrite !imm_ci_eq, shamt_eq.
  rewrite !(bits_field h _ _ Hh) by lia.
  change (field h 0 (1 - 0 + 1)) with (quadrant h). change (field h 13 (15 - 13 + 1)) with (c_funct3 h).
  change (field h 7 (11 - 7 + 1)) with (c_r h).
  assert (u64 (c_imm_16sp h) = u64 (sext (Z.lor (Z.lor (Z.lor (Z.lor (Z.shiftl (field h 12 1) 9)
    (Z.shiftl (field h 3 2) 7)) (Z.shiftl (field h 5 1) 6)) (Z.shiftl (field h 2 1) 5))
    (Z.shiftl (field h 6 1) 4)) 10)) as ->.
  { unfold c_imm_16sp. symmetry. sum_of_fields. }
  assert (u64 (c_imm_lui h) = u64 (sext (Z.lor (Z.shiftl (field h 12 1) 17) (Z.shiftl (field h 2 5) 12)) 18))
    as ->.
  { unfold c_imm_lui. symmetry. sum_of_fields. }
  assert (c_imm_lwsp h = Z.lor (Z.lor (Z.shiftl (field h 2 2) 6) (Z.shiftl (field h 12 1) 5))
    (Z.shiftl (field h 4 3) 2)) as ->.
  { unfold c_imm_lwsp. symmetry. sum_of_fields. }
  assert (c_imm_ldsp h = Z.lor (Z.lor (Z.shiftl (field h 2 3) 6) (Z.shiftl (field h 12 1) 5))
    (Z.shiftl (field h 5 2) 3)) as ->.
  { unfold c_imm_ldsp. symmetry. sum_of_fields. }
  reflexivity.
Qed.

(** ** Operands *)

Variable u : operands.

Ltac operands_of :=
  unfold decode_operand_16; rewrite ?(bits_field h 15 13), ?(bits_field h 11 7), ?(bits_field h 6 2),
    ?(bits_field h 9 7), ?(bits_field h 4 2) by (exact Hh || lia);
  change (field h 13 (15 - 13 + 1)) with (c_funct3 h);
  change (field h 7 (11 - 7 + 1)) with (c_r h); change (field h 2 (6 - 2 + 1)) with (c_rs2 h);
  change (REG_C (field h 7 (9 - 7 + 1))) with (c_r' h); change (REG_C (field h 2 (4 - 2 + 1))) with (c_rs2' h);
  cbv zeta.

Lemma operands_CR :
  decode_operand_16 u h Ity_CR = Some (mkOperands (c_r h) (c_r h) (c_rs2 h) (o_rs3 u) (o_imm u)).
Proof. by operands_of. Qed.
Lemma operands_CI :
  decode_operand_16 u h Ity_CI = Some (mkOperands (c_r h) (c_r h) (o_rs2 u) (o_rs3 u) (decode_imm_CI h)).
Proof. by operands_of. Qed.
Lemma operands_CA :
  decode_operand_16 u h Ity_CA = Some (mkOperands (c_r' h) (c_r' h) (c_rs2' h) (o_rs3 u) (o_imm u)).
Proof. by operands_of. Qed.
Lemma operands_CIW :
  decode_operand_16 u h Ity_CIW = Some (mkOperands (c_rs2' h) 2 (o_rs2 u) (o_rs3 u) (c_imm_4spn h)).
Proof. operands_of. do 2 f_equal. unfold c_imm_4spn. sum_of_fields. Qed.
Lemma operands_CL :
  decode_operand_16 u h Ity_CL =
  let f := c_funct3 h in
  let ops i := Some (mkOperands (c_rs2' h) (c_r' h) (o_rs2 u) (o_rs3 u) i) in
  if f =? 2 then ops (c_imm_w h) else if (f =? 1) || (f =? 3) then ops (c_imm_d h) else None.
Proof. operands_of. by rewrite imm_lw_eq, imm_ld_eq. Qed.
Lemma operands_CS :
  decode_operand_16 u h Ity_CS =
  let f := c_funct3 h in
  let ops i := Some (mkOperands (o_rd u) (c_r' h) (c_rs2' h) (o_rs3 u) i) in
  if f =? 6 then ops (c_imm_w h) else if (f =? 5) || (f =? 7) then ops (c_imm_d h) else None.
Proof. operands_of. by rewrite imm_lw_eq, imm_ld_eq. Qed.
Lemma operands_CSS :
  decode_operand_16 u h Ity_CSS =
  let f := c_funct3 h in
  Some (mkOperands (o_rd u) 2 (c_rs2 h) (o_rs3 u)
    (if f =? 6 then c_imm_swsp h else if (f =? 7) || (f =? 5) then c_imm_sdsp h else o_imm u)).
Proof.
  operands_of.
  assert (c_imm_swsp h = Z.lor (Z.shiftl (bits 32 h 8 7) 6) (Z.shiftl (bits 32 h 12 9) 2)) as ->
    by (symmetry; unfold c_imm_swsp; sum_of_fields).
  assert (c_imm_sdsp h = Z.lor (Z.shiftl (bits 32 h 9 7) 6) (Z.shiftl (bits 32 h 12 10) 3)) as ->
    by (symmetry; unfold c_imm_sdsp; sum_of_fields).
  rewrite ?(bits_field h 9 7) by (exact Hh || lia). reflexivity.
Qed.
Lemma operands_CB :
  decode_operand_16 u h Ity_CB =
  Some (mkOperands (c_r' h) (c_r' h) (o_rs2 u) (o_rs3 u)
    (if c_funct3 h =? 4 then if field h 10 2 =? 2 then u64 (c_imm h) else c_shamt h
     else u64 (c_imm_b h))).
Proof.
  unfold decode_operand_16. rewrite !(bits_field h 15 13), !(bits_field h 9 7), !(bits_field h 11 10)
    by (exact Hh || lia).
  change (field h 13 (15 - 13 + 1)) with (c_funct3 h).
  change (REG_C (field h 7 (9 - 7 + 1))) with (c_r' h). change (11 - 10 + 1) with 2. cbv zeta.
  rewrite <- imm_ci_eq. unfold imm_ci. rewrite shamt_eq.
  assert (u64 (c_imm_b h) = u64 (sext (Z.lor (Z.lor (Z.lor (Z.lor (Z.shiftl (bits 32 h 12 12) 8)
    (Z.shiftl (bits 32 h 6 5) 6)) (Z.shiftl (bits 32 h 2 2) 5)) (Z.shiftl (field h 10 2) 3))
    (Z.shiftl (bits 32 h 4 3) 1)) 9)) as ->
    by (symmetry; unfold c_imm_b; sum_of_fields).
  reflexivity.
Qed.
Lemma operands_CJ :
  decode_operand_16 u h Ity_CJ =
  Some (mkOperands (o_rd u) (o_rs1 u) (o_rs2 u) (o_rs3 u) (u64 (c_imm_j h))).
Proof.
  unfold decode_operand_16. do 2 f_equal. cbn [foldr].
  rewrite Z.lor_0_r.
  set (a := Z.shiftl (bits 32 h 12 12) 11). set (b := Z.shiftl (bits 32 h 11 11) 4).
  set (c := Z.shiftl (bits 32 h 10 9) 8). set (d := Z.shiftl (bits 32 h 8 8) 10).
  set (e := Z.shiftl (bits 32 h 7 7) 6). set (f := Z.shiftl (bits 32 h 6 6) 7).
  set (g := Z.shiftl (bits 32 h 5 3) 1). set (k := Z.shiftl (bits 32 h 2 2) 5).
  assert (Z.lor a (Z.lor b (Z.lor c (Z.lor d (Z.lor e (Z.lor f (Z.lor g k)))))) =
    Z.lor a (Z.lor d (Z.lor c (Z.lor f (Z.lor e (Z.lor k (Z.lor b g))))))) as ->.
  { apply Z.bits_inj'. intros n _. rewrite !Z.lor_spec. btauto. }
  subst a b c d e f g k. unfold c_imm_j. sum_of_fields.
Qed.
End Immediates.

(** ** Facts about the immediates *)

Lemma u64_zero x : - 2 ^ 17 <= x < 2 ^ 17 -> (u64 x =? 0) = (x =? 0).
Proof. intros Hx. apply eq_true_iff_eq. rewrite !Z.eqb_eq. unfold uwrap. lia. Qed.
Lemma scaled_zero x : (x * 2 ^ 12 =? 0) = (x =? 0).
Proof. apply eq_true_iff_eq. rewrite !Z.eqb_eq. lia. Qed.
Lemma c_imm_range h : - 2 ^ 5 <= c_imm h < 2 ^ 5.
Proof. by apply (swrap_range 6). Qed.
Lemma c_imm_16sp_range h : - 2 ^ 17 <= c_imm_16sp h < 2 ^ 17.
Proof. pose proof (swrap_range 10 (field h 12 1 * 2 ^ 9 + field h 3 2 * 2 ^ 7 + field h 5 1 * 2 ^ 6 +
  field h 2 1 * 2 ^ 5 + field h 6 1 * 2 ^ 4) ltac:(lia)). unfold c_imm_16sp. lia. Qed.
Lemma c_imm_lui_high h : c_imm_lui h = c_imm h * 2 ^ 12.
Proof.
  unfold c_imm_lui, c_imm. rewrite <- (Z.add_0_r (swrap 6 _ * _)), (swrap_high 6 12) by (lia || done).
  f_equal. lia.
Qed.

(** The offsets are small and unsigned. *)
Lemma c_imm_u64 h :
  u64 (c_imm_w h) = c_imm_w h /\ u64 (c_imm_d h) = c_imm_d h /\ u64 (c_imm_lwsp h) = c_imm_lwsp h /\
  u64 (c_imm_ldsp h) = c_imm_ldsp h /\ u64 (c_imm_swsp h) = c_imm_swsp h /\
  u64 (c_imm_sdsp h) = c_imm_sdsp h.
Proof.
  unfold c_imm_w, c_imm_d, c_imm_lwsp, c_imm_ldsp, c_imm_swsp, c_imm_sdsp.
  split_and!; apply uwrap_id; unfold fits; field_bounds h; lia.
Qed.
Lemma c_imm_4spn_zero h : field h 2 11 = 0 -> c_imm_4spn h = 0.
Proof. unfold c_imm_4spn, field. intros Hz. lia. Qed.

(** ** Instructions *)

Section Bodies.
Context {D : Type} `{PlatformLaws D} `{SoftFloat}.
Variables (u : operands) (h pc0 : Z) (m : mach D).
Hypothesis Hh : fits 32 h.
Hypothesis Hm : mach_ok m.
Hypothesis Hflags : softfloat_exceptionFlags m = 0.

Lemma W_set_0 v v' : W 0 v m = set_xreg 0 v' m.
Proof. by rewrite (W_set 0 v v). Qed.

Definition expands : Prop :=
  exists d, decode u h Compressed pc0 = Some d /\ exec_insn d m = c_exec h pc0 m.

Lemma expands_as name type ops :
  find_pattern h patterns_C = Some (name, type) -> decode_operand_16 u h type = Some ops ->
  exec_insn (mkDecodedInsn h Compressed name type ops pc0) m = c_exec h pc0 m -> expands.
Proof. intros Hp Ho Hx. eexists. split; [|exact Hx]. unfold decode. by rewrite Hp, Ho. Qed.

(** The tests on known numbers. *)
Ltac is_num t := lazymatch t with Z0 => idtac | Zpos _ => idtac end.
Ltac closed_tests :=
  repeat match goal with
    | |- context [?a =? ?b] =>
        is_num a; is_num b;
        let t := eval vm_compute in (a =? b) in change (a =? b) with t
    end; rewrite ?andb_false_r; cbn [andb orb negb].

(** The pattern in the class [(q, f)] that the further tests select, with the
    operands, then the expansion; the hypotheses give the values of the fields
    tested. *)
Ltac given :=
  repeat match goal with
    | E : quadrant h = _ |- _ => rewrite E
    | E : c_funct3 h = _ |- _ => rewrite E
    | E : field h _ _ = _ |- _ => rewrite E
    | E : c_r h = _ |- _ => rewrite E
    | E : c_rs2 h = _ |- _ => rewrite E
    | E : ?x <> ?y |- context [?x =? ?y] => rewrite (proj2 (Z.eqb_neq x y) E)
    end; closed_tests.
Ltac decodes q f name type ops :=
  eapply (expands_as name type);
  [ rewrite (find_class h q f) by assumption;
    let l := eval vm_compute in (List.filter (in_class q f) tests_C) in
    change (List.filter (in_class q f) tests_C) with l;
    cbn [List.find ct_more forallb test_ok];
    change (field h 7 5) with (c_r h); change (field h 2 5) with (c_rs2 h);
    given; reflexivity
  | rewrite ops by exact Hh; cbv zeta; given; reflexivity
  | unfold c_exec, expand, expand_0, expand_1, expand_2, expand_alu; given ].

(** The immediate of a CI instruction of the class. *)
Ltac ci q f := unfold d_imm; cbn [d_ops o_imm]; rewrite (imm_CI h Hh q f) by assumption; given.

Lemma class_1_0 : quadrant h = 1 -> c_funct3 h = 0 -> expands.
Proof.
  intros Hq Hf. destruct (Z.eq_dec (c_r h) 0) as [Hr|Hr].
  - decodes 1 0 rv_c_nop Ity_CI operands_CI. reflexivity.
  - decodes 1 0 rv_c_addi Ity_CI operands_CI.
    refine (acts_ri _ (pc0 + 2) (c_imm h) m Hm (fun a i => a + i) (fun a i => a + i) _).
    intros x _. ci 1 0. apply u64_add_imm.
Qed.

Lemma class_1_1 : quadrant h = 1 -> c_funct3 h = 1 -> expands.
Proof.
  intros Hq Hf. decodes 1 1 rv_c_addiw Ity_CI operands_CI.
  refine (acts_ri _ (pc0 + 2) (c_imm h) m Hm (fun a i => sext (bits 64 (a + i) 31 0) 32)
    (fun a i => s32 (a + i)) _).
  intros x _. ci 1 1. autorewrite with isa. apply s32_add_imm.
Qed.

Lemma class_1_2 : quadrant h = 1 -> c_funct3 h = 2 -> expands.
Proof.
  intros Hq Hf. decodes 1 2 rv_c_li Ity_CI operands_CI.
  unfold exec_insn, exec_c_li. cbn [d_iname]. ci 1 2. apply W_set. apply u64_u64.
Qed.

Lemma class_1_3 : quadrant h = 1 -> c_funct3 h = 3 -> expands.
Proof.
  intros Hq Hf. destruct (Z.eq_dec (c_r h) 2) as [Hr|Hr].
  - decodes 1 3 rv_c_addi16sp Ity_CI operands_CI.
    unfold exec_insn, exec_c_addi16sp. cbn [d_iname]. ci 1 3. rewrite u64_zero by apply c_imm_16sp_range.
    destruct (c_imm_16sp h =? 0); [done|].
    unfold bind. rewrite R_xval. apply W_set, u64_add_imm.
  - decodes 1 3 rv_c_lui Ity_CI operands_CI.
    unfold exec_insn, exec_c_lui. cbn [d_iname]. ci 1 3. unfold d_rd. cbn [d_ops o_rd]. given.
    destruct (Z.eqb_spec (c_r h) 0) as [Hz|Hz]; cbn [negb].
    + rewrite u64_zero by (pose proof (c_imm_range h); lia). destruct (c_imm h =? 0); [done|].
      rewrite Hz. by apply W_set_0.
    + rewrite c_imm_lui_high, u64_zero by (pose proof (c_imm_range h); lia).
      rewrite scaled_zero. destruct (c_imm h =? 0); [done|]. apply W_set, u64_u64.
Qed.

(** The body of an instruction on its operands. *)
Ltac body e :=
  unfold exec_insn; cbn [d_iname]; unfold e, d_imm, d_rd, d_rs1, d_rs2;
  cbn [d_ops d_pc o_rd o_rs1 o_rs2 o_imm]; given; unfold bind; rewrite ?R_xval.

(** The arithmetic of quadrant 1: the register, the operation, its second part. *)
Ltac alu_rr name f g :=
  decodes 1 4 name Ity_CA operands_CA;
  refine (acts_rr _ (pc0 + 2) 0 m Hm f g _); intros x y _ _; autorewrite with isa; reflexivity.

Lemma operands_N : fits 32 h -> decode_operand_16 u h Ity_N = Some u.
Proof. done. Qed.

Lemma shamt_shift x : Z.shiftl x (c_shamt h) = x * 2 ^ c_shamt h /\ Z.shiftr x (c_shamt h) = x / 2 ^ c_shamt h.
Proof.
  assert (0 <= c_shamt h) by (unfold c_shamt; field_bounds h; lia).
  by rewrite Z.shiftl_mul_pow2, Z.shiftr_div_pow2 by done.
Qed.

Lemma class_1_4 : quadrant h = 1 -> c_funct3 h = 4 -> expands.
Proof.
  intros Hq Hf.
  assert (field h 10 2 = 0 \/ field h 10 2 = 1 \/ field h 10 2 = 2 \/ field h 10 2 = 3) as Hop
    by (field_bounds h; lia).
  destruct Hop as [Ho|[Ho|[Ho|Ho]]].
  - decodes 1 4 rv_c_srli Ity_CB operands_CB. body @exec_c_srli. apply W_set. f_equal. apply shamt_shift.
  - decodes 1 4 rv_c_srai Ity_CB operands_CB. body @exec_c_srai. apply W_set. f_equal. apply shamt_shift.
  - decodes 1 4 rv_c_andi Ity_CB operands_CB. body @exec_c_andi. apply W_set.
    apply (u64_bitwise _ andb). intros. apply Z.land_spec.
  - assert (field h 5 2 = 0 \/ field h 5 2 = 1 \/ field h 5 2 = 2 \/ field h 5 2 = 3) as Hs
      by (field_bounds h; lia).
    assert (field h 12 1 = 0 \/ field h 12 1 = 1) as Hb by (field_bounds h; lia).
    destruct Hb as [Hb|Hb], Hs as [Hs|[Hs|[Hs|Hs]]].
    + alu_rr rv_c_sub (fun a b => a - b) (fun a b => a - b).
    + alu_rr rv_c_xor Z.lxor Z.lxor.
    + alu_rr rv_c_or Z.lor Z.lor.
    + alu_rr rv_c_and Z.land Z.land.
    + alu_rr rv_c_subw (fun a b => sext (bits 64 (a - b) 31 0) 32) (fun a b => s32 (a - b)).
    + alu_rr rv_c_addw (fun a b => sext (bits 64 (a + b) 31 0) 32) (fun a b => s32 (a + b)).
    + decodes 1 4 rv_inv Ity_N operands_N. reflexivity.
    + decodes 1 4 rv_inv Ity_N operands_N. reflexivity.
Qed.

(** Jumps and branches of quadrant 1. *)
Lemma class_1_5 : quadrant h = 1 -> c_funct3 h = 5 -> expands.
Proof.
  intros Hq Hf. decodes 1 5 rv_c_j Ity_CJ operands_CJ. body @exec_c_j.
  cbn [perform Sem.jal set_xreg Z.eqb]. unfold set_hart_pc, set_pc_to, bind, ret. by rewrite u64_add_imm.
Qed.
Lemma class_1_6 : quadrant h = 1 -> c_funct3 h = 6 -> expands.
Proof.
  intros Hq Hf. decodes 1 6 rv_c_beqz Ity_CB operands_CB. body @exec_c_beqz.
  cbn [perform Sem.beq branch_if]. unfold set_hart_pc, set_pc_to. by rewrite u64_add_imm.
Qed.
Lemma class_1_7 : quadrant h = 1 -> c_funct3 h = 7 -> expands.
Proof.
  intros Hq Hf. decodes 1 7 rv_c_bnez Ity_CB operands_CB. body @exec_c_bnez.
  cbn [perform Sem.bne branch_if]. unfold set_hart_pc, set_pc_to. by rewrite u64_add_imm.
Qed.

(** ** Quadrant 0 *)

Lemma class_0_0 : quadrant h = 0 -> c_funct3 h = 0 -> expands.
Proof.
  intros Hq Hf. destruct (Z.eq_dec (field h 2 11) 0) as [Hz|Hz].
  - assert (c_imm_4spn h = 0) as Hi by (by apply c_imm_4spn_zero).
    decodes 0 0 rv_c_inv Ity_N operands_N. rewrite Hi. reflexivity.
  - decodes 0 0 rv_c_addi4spn Ity_CIW operands_CIW. body @exec_c_addi4spn.
    destruct (c_imm_4spn h =? 0); [done|]. rewrite R_xval. by apply W_set.
Qed.

(** Loads and stores with the registers and the offset of [ops]. *)
Lemma load_case name type rd0 r1 r2 r3 i k (f : Z -> Z) (signed : bool) s :
  u64 i = i -> (forall v, f v = if signed then swrap (8 * Z.of_nat k) v else v) ->
  s = load_of k signed ->
  load (mkDecodedInsn h Compressed name type (mkOperands rd0 r1 r2 r3 i) pc0) k f m =
  perform rd0 pc0 (pc0 + 2) (s i pc0 (xval m r1) (xval m 0)) m.
Proof.
  intros Hi Hf ->.
  apply (acts_load (mkDecodedInsn h Compressed name type (mkOperands rd0 r1 r2 r3 i) pc0) (pc0 + 2) i m);
    [by symmetry|done].
Qed.
Lemma store_case name type rd0 r1 r2 r3 i k s : u64 i = i -> s = store_of k ->
  store (mkDecodedInsn h Compressed name type (mkOperands rd0 r1 r2 r3 i) pc0) k m =
  perform 0 pc0 (pc0 + 2) (s i pc0 (xval m r1) (xval m r2)) m.
Proof.
  intros Hi ->.
  apply (acts_store (mkDecodedInsn h Compressed name type (mkOperands rd0 r1 r2 r3 i) pc0) (pc0 + 2) i m).
  by symmetry.
Qed.

(** The loads and stores of the F registers. *)
Lemma fstore_case d r2 i k : d_insn d = h -> d_pc d = pc0 -> d_imm d = i ->
  (fp_inst_prep d ;;; let! a := R (d_rs1 d) in let! v := F64 r2 in
   mmu_write 8 (d_pc d) (u64 (a + d_imm d)) v) m
  = perform k pc0 (pc0 + 2) (store_double h r2 i pc0 (xval m (d_rs1 d)) (xval m 0)) m.
Proof.
  intros Hi Hp Ei. rewrite (prep_insn d h) by done. cbn [perform store_double]. rewrite Hp.
  unfold when_float, bind, gets. destruct (float_off m); [done|].
  rewrite R_xval, F64_val, Ei. by rewrite (uwrap_id (8 * Z.of_nat 8) (fval m r2)) by (by apply fval_fits).
Qed.
Lemma fload_case d rd rs1 i : d_insn d = h -> d_pc d = pc0 -> d_imm d = i ->
  (fp_inst_prep d ;;; let! a := R rs1 in
   let! v := mmu_read 8 (d_pc d) (u64 (a + d_imm d)) false in set_F64 rd v) m
  = when_float h pc0
      (let! v := mmu_read 8 pc0 (u64 (xval m rs1 + i)) false in set_freg rd (box 8 v)) m.
Proof.
  intros Hi Hp Ei. rewrite (prep_insn d h) by done. rewrite Hp, Ei.
  unfold when_float, bind, gets. destruct (float_off m); [done|]. by rewrite R_xval.
Qed.

Lemma class_0_1 : quadrant h = 0 -> c_funct3 h = 1 -> expands.
Proof. intros Hq Hf. decodes 0 1 rv_c_fld Ity_CL operands_CL. by apply fload_case. Qed.
Lemma class_0_5 : quadrant h = 0 -> c_funct3 h = 5 -> expands.
Proof.
  intros Hq Hf. decodes 0 5 rv_c_fsd Ity_CS operands_CS.
  by apply fstore_case.
Qed.
Lemma class_0_2 : quadrant h = 0 -> c_funct3 h = 2 -> expands.
Proof.
  intros Hq Hf. decodes 0 2 rv_c_lw Ity_CL operands_CL.
  apply (load_case rv_c_lw Ity_CL _ _ _ _ _ _ _ true); [apply c_imm_u64|intros; by apply sext_swrap|done].
Qed.
Lemma class_0_3 : quadrant h = 0 -> c_funct3 h = 3 -> expands.
Proof.
  intros Hq Hf. decodes 0 3 rv_c_ld Ity_CL operands_CL.
  apply (load_case rv_c_ld Ity_CL _ _ _ _ _ _ _ false); [apply c_imm_u64|done|done].
Qed.
Lemma class_0_4 : quadrant h = 0 -> c_funct3 h = 4 -> expands.
Proof. intros Hq Hf. decodes 0 4 rv_inv Ity_N operands_N. reflexivity. Qed.
Lemma class_0_6 : quadrant h = 0 -> c_funct3 h = 6 -> expands.
Proof.
  intros Hq Hf. decodes 0 6 rv_c_sw Ity_CS operands_CS.
  etrans; [|apply (store_case rv_c_sw Ity_CS (o_rd u) _ _ (o_rs3 u) _ 4); [apply c_imm_u64|done]].
  body @exec_c_sw. unfold store, bind. by rewrite !R_xval, bits_u32.
Qed.
Lemma class_0_7 : quadrant h = 0 -> c_funct3 h = 7 -> expands.
Proof.
  intros Hq Hf. decodes 0 7 rv_c_sd Ity_CS operands_CS.
  apply (store_case rv_c_sd Ity_CS); [apply c_imm_u64|done].
Qed.

(** ** Quadrant 2 *)

Lemma class_2_0 : quadrant h = 2 -> c_funct3 h = 0 -> expands.
Proof.
  intros Hq Hf. decodes 2 0 rv_c_slli Ity_CI operands_CI. rewrite (imm_CI h Hh 2 0) by done. given.
  body @exec_c_slli. apply W_set. rewrite (proj1 (shamt_shift _)). apply u64_u64.
Qed.

Lemma class_2_1 : quadrant h = 2 -> c_funct3 h = 1 -> expands.
Proof.
  intros Hq Hf. decodes 2 1 rv_c_fldsp Ity_CI operands_CI. rewrite (imm_CI h Hh 2 1) by done. given.
  by apply fload_case.
Qed.
Lemma class_2_5 : quadrant h = 2 -> c_funct3 h = 5 -> expands.
Proof.
  intros Hq Hf. decodes 2 5 rv_c_fsdsp Ity_CSS operands_CSS.
  by apply (fstore_case (mkDecodedInsn h Compressed rv_c_fsdsp Ity_CSS
    (mkOperands (o_rd u) 2 (c_rs2 h) (o_rs3 u) (c_imm_sdsp h)) pc0)).
Qed.

(** The loads relative to the stack pointer. *)
Lemma class_2_2 : quadrant h = 2 -> c_funct3 h = 2 -> expands.
Proof.
  intros Hq Hf. decodes 2 2 rv_c_lwsp Ity_CI operands_CI. rewrite (imm_CI h Hh 2 2) by done. given.
  unfold exec_insn. cbn [d_iname]. unfold exec_c_lwsp, d_rd. cbn [d_ops o_rd].
  destruct (c_r h =? 0); [done|].
  apply (load_case rv_c_lwsp Ity_CI (c_r h) 2 0 0 (c_imm_lwsp h) 4 (fun v => sext v 32) true);
    [apply c_imm_u64|intros; by apply sext_swrap|done].
Qed.
Lemma class_2_3 : quadrant h = 2 -> c_funct3 h = 3 -> expands.
Proof.
  intros Hq Hf. decodes 2 3 rv_c_ldsp Ity_CI operands_CI. rewrite (imm_CI h Hh 2 3) by done. given.
  unfold exec_insn. cbn [d_iname]. unfold exec_c_ldsp, d_rd. cbn [d_ops o_rd].
  destruct (c_r h =? 0); [done|].
  apply (load_case rv_c_ldsp Ity_CI (c_r h) 2 0 0 (c_imm_ldsp h) 8 (fun v => v) false);
    [apply c_imm_u64|done|done].
Qed.

Lemma class_2_4 : quadrant h = 2 -> c_funct3 h = 4 -> expands.
Proof.
  intros Hq Hf. assert (field h 12 1 = 0 \/ field h 12 1 = 1) as Hb by (field_bounds h; lia).
  destruct Hb as [Hb|Hb], (Z.eq_dec (c_rs2 h) 0) as [Hs|Hs].
  - decodes 2 4 rv_c_jr Ity_CR operands_CR. body @exec_c_jr. destruct (c_r h =? 0); [done|].
    rewrite R_xval. cbn [perform Sem.jalr set_xreg Z.eqb]. unfold set_hart_pc, set_pc_to, bind, ret.
    by rewrite andn_1, Z.add_0_r.
  - decodes 2 4 rv_c_mv Ity_CR operands_CR. body @exec_c_mv. by apply W_set.
  - destruct (Z.eq_dec (c_r h) 0) as [Hr|Hr].
    + decodes 2 4 rv_c_ebreak Ity_CR operands_CR. reflexivity.
    + decodes 2 4 rv_c_jalr Ity_CR operands_CR. body @exec_c_jalr.
      etrans; [apply (jump_order 1)|]. cbn [perform Sem.jalr]. unfold set_pc_to.
      rewrite andn_1, Z.add_0_r. unfold set_xreg. by rewrite u64_u64.
  - decodes 2 4 rv_c_add Ity_CR operands_CR.
    refine (acts_rr _ (pc0 + 2) 0 m Hm (fun a b => a + b) (fun a b => a + b) _). done.
Qed.

Lemma class_2_6 : quadrant h = 2 -> c_funct3 h = 6 -> expands.
Proof.
  intros Hq Hf. decodes 2 6 rv_c_swsp Ity_CSS operands_CSS.
  etrans; [|apply (store_case rv_c_swsp Ity_CSS (o_rd u) _ _ (o_rs3 u) _ 4); [apply c_imm_u64|done]].
  body @exec_c_swsp. unfold store, bind. by rewrite !R_xval, bits_u32.
Qed.
Lemma class_2_7 : quadrant h = 2 -> c_funct3 h = 7 -> expands.
Proof.
  intros Hq Hf. decodes 2 7 rv_c_sdsp Ity_CSS operands_CSS.
  etrans; [|apply (store_case rv_c_sdsp Ity_CSS (o_rd u) _ _ (o_rs3 u) _ 8); [apply c_imm_u64|done]].
  body @exec_c_sdsp. unfold store, bind. rewrite !R_xval. rewrite (uwrap_id (8 * Z.of_nat 8) (xval m _)); [done|].
  by apply xval_fits.
Qed.

(** Every halfword of the three quadrants. *)
Lemma all_expand : quadrant h <> 3 -> expands.
Proof.
  intros Hq.
  assert (quadrant h = 0 \/ quadrant h = 1 \/ quadrant h = 2) as Hqs.
  { clear -Hq. unfold quadrant in *. pose proof (field_fits h 0 2 ltac:(lia)) as B. unfold fits in B. lia. }
  assert (c_funct3 h = 0 \/ c_funct3 h = 1 \/ c_funct3 h = 2 \/ c_funct3 h = 3 \/ c_funct3 h = 4 \/
    c_funct3 h = 5 \/ c_funct3 h = 6 \/ c_funct3 h = 7) as Hfs.
  { clear. unfold c_funct3. pose proof (field_fits h 13 3 ltac:(lia)) as B. unfold fits in B. lia. }
  destruct Hqs as [Eq|[Eq|Eq]], Hfs as [Ef|[Ef|[Ef|[Ef|[Ef|[Ef|[Ef|Ef]]]]]]];
    eauto using class_0_0, class_0_1, class_0_2, class_0_3, class_0_4, class_0_5, class_0_6, class_0_7,
      class_1_0, class_1_1, class_1_2, class_1_3, class_1_4, class_1_5, class_1_6, class_1_7,
      class_2_0, class_2_1, class_2_2, class_2_3, class_2_4, class_2_5, class_2_6, class_2_7.
Qed.
End Bodies.

(** ** The refinement *)

Section Refinement.
Context {D : Type} `{PlatformLaws D} `{SoftFloat}.
Variable u : operands.

(** What the fetch delivers as compressed. *)
Lemma compressed_quadrant w : is_compressed w = true -> quadrant w <> 3 /\ quadrant (Z.land w 0xFFFF) <> 3.
Proof.
  unfold is_compressed, quadrant, field. intros Hc%Z.ltb_lt. change 3 with (Z.ones 2) in Hc at 1.
  change 0xFFFF with (Z.ones 16). rewrite !Z.land_ones in * by lia. lia.
Qed.

Lemma ifetch_compressed (m m1 : mach D) h : ifetch m = (Ok (h, Compressed), m1) -> quadrant h <> 3.
Proof.
  unfold ifetch, ifetch_at. unfold bind at 1, gets. destruct (may_cross_page _); cbn [negb].
  all: unfold bind at 1; destruct (translate _ _ _ m) as [[pa|e] m2]; [|done].
  all: unfold bind at 1, state; destruct (bus_read _ pa m2) as [[v|] m3]; [|done].
  all: destruct (is_compressed v) eqn:Ec; [intros [= <- _]; by apply compressed_quadrant in Ec as []|].
  - unfold bind at 1. destruct (translate _ _ _ m3) as [[pa'|e] m4]; [|done].
    unfold bind, state. by destruct (bus_read _ pa' m4) as [[v'|] m5].
  - done.
Qed.

(** Decoding and executing a fetched halfword. *)
Lemma fetched_halfword (m : mach D) h : fits 32 h -> mach_ok m -> softfloat_exceptionFlags m = 0 ->
  quadrant h <> 3 ->
  (let! pc := gets (fun m => pc (hart m)) in
   let! decoded_insn := decode_or_die u h Compressed pc in
   set_hart_pc (pc + ilen_bytes Compressed) ;;;
   exec_insn decoded_insn ;;;
   modify (upd_hart MINSTRET_advance)) m
  = (c_step h (pc (hart m)) ;;; modify (upd_hart MINSTRET_advance)) m.
Proof.
  intros Hh Hm Hfl Hq.
  destruct (all_expand u h (pc (hart m)) _ Hh (mach_ok_next 2 m eq_refl Hm) Hfl Hq) as (d & Ed & Ex).
  unfold bind at 1, gets. unfold decode_or_die. rewrite Ed.
  unfold c_step, bind, ret, set_hart_pc, set_pc_to, modify. cbn [ilen_bytes]. by rewrite Ex.
Qed.

(** C5. One turn of the interpreter on a compressed instruction does what the 32-bit
    instruction it abbreviates does: when no interrupt check is due and the fetch
    delivers the halfword [h], the pc advances by two, and the turn carries out the
    expansion of [h] with its registers and immediate (the link address of c.jalr
    is pc + 2), raises the illegal-instruction exception with the halfword as its
    value for a reserved one, or the breakpoint.  c.fld and c.fldsp are fld but
    for the mark of FS, which the program leaves out. *)
Theorem compressed_refines i (m m1 : mach D) h :
  mach_ok m -> softfloat_exceptionFlags m = 0 ->
  Z.land i 0xFF <> 0 -> interrupt_check_pending (hart m) = false ->
  ifetch m = (Ok (h, Compressed), m1) ->
  cpu_body u i m = (c_step h (pc (hart m)) ;;; modify (upd_hart MINSTRET_advance)) m1.
Proof.
  intros Hm Hfl Hi Hp Hf.
  destruct (turn_fetched u i m m1 h Compressed Hm Hi Hp Hf) as (Hm1 & Hw & Epc & ->). rewrite <- Epc.
  apply fetched_halfword; [done|done|by eapply ifetch_flags|by eapply ifetch_compressed].
Qed.
End Refinement.

(** c.jalr x11 at the start of DRAM: the link address is the next halfword. *)
Definition jalr_machine : mach unit :=
  upd_dram (Dram.write 2 DRAM_BASE 0x9582)
    (upd_hart (fun h => set_gprs (<[11%nat := 0x80000101]> (gprs h)) h) small_machine).

Lemma jalr_machine_ok : mach_ok jalr_machine.
Proof.
  destruct small_machine_ok as [Hh Hd Ht Ho]. split; [| |done|done]; [|apply write_wf, Hd].
  destruct (hk_gprs _ Hh) as [Hl Hf]. apply hart_ok_gprs; [done| |done].
  by apply Forall_insert; [|split].
Qed.

Lemma compressed_refines_witness :
  (let '(r, m') := cpu_body (H0 := zero_softfloat) no_operands 1 jalr_machine in
   r = Ok tt /\ xval m' 1 = DRAM_BASE + 2 /\ pc (hart m') = DRAM_BASE + 0x100) /\
  cpu_body (H0 := zero_softfloat) no_operands 1 jalr_machine =
  (c_step 0x9582 DRAM_BASE ;;; modify (upd_hart MINSTRET_advance)) jalr_machine.
Proof.
  split; [vm_compute; repeat split|].
  apply (compressed_refines no_operands 1 jalr_machine jalr_machine 0x9582);
    [ apply jalr_machine_ok | reflexivity | discriminate | reflexivity | vm_compute; reflexivity ].
Defined.
