(* ===== verification/IsaEngine.v ===== *)
(** * The engine runs the instruction set

    The loop of the CPU thread around the instruction table: [isa_turn] fetches and
    performs the row of what it fetched, [isa_run] is the step relation of the engine
    with it.  The runs of the program are the runs of this machine, and so do not
    depend on the operand fields the decoder leaves unset. *)

From stdpp Require Import gmap.
From S2P Require Import Prelude Hart HartInv Trap Dram Machine Bus Decoder Mmu MmuSpec CsrAccess.
From S2P Require Import Execute ExecFloat Dispatch ExecSpec Engine EngineSpec InsnSpec.
From S2P Require Import Isa IsaFloat IsaSpec IsaC IsaCSpec.

Section Loop.
Context {D : Type} `{Platform D} `{SoftFloat}.
Abbreviation cpu := (M (mach D) exn).

(** ** The machine of the instruction table *)

(** Interrupts are looked for every 256 turns and when one was flagged. *)
Definition interrupts_first (i : Z) : cpu unit :=
  let! icp := gets (fun m => interrupt_check_pending (hart m)) in
  when ((i mod 256 =? 0) || icp) check_interrupts_throw.

Definition isa_turn (i : Z) : cpu unit :=
  interrupts_first i ;;;
  let! (w, len) := ifetch in
  let! pc0 := gets (fun m => pc (hart m)) in
  match len with
  | Normal => isa_step w pc0
  | Compressed => c_step w pc0
  end ;;;
  modify (upd_hart MINSTRET_advance).

(** The turn with its traps, and the thread around it. *)
Definition isa_iteration (i : Z) (m : mach D) : iteration_end * mach D :=
  match isa_turn i (upd_hart MCYCLE_advance m) with
  | (Ok _, m) => (Next, m)
  | (Throw (ETrap t), m) =>
      match handle_trap t (hart m) with
      | Some h => (Next, upd_hart (fun _ => h) m)
      | None => (Terminated, m)
      end
  | (Throw EWfi, m) => (Engine.Wait, upd_hart MINSTRET_advance m)
  | (Throw EHost, m) => (HostException, m)
  | (Throw ETerminate, m) => (Terminated, m)
  end.

Definition with_machine (e : engine D) (p : phase) (i : Z) (m : mach D) : engine D :=
  mkEngine p i m (shutdown_from_guest_ e) (shutdown_from_host_ e).

Definition isa_cpu (e : engine D) : engine D :=
  match e_phase e with
  | Running =>
      if stop_requested e || ((e_i e =? 0) && shutdown_from_host_ e)
      then with_machine e Stopped (e_i e) (e_mach e)
      else
        let '(r, m) := isa_iteration (e_i e) (e_mach e) in
        if process_dead (devs m) then with_machine e Died (e_i e) m
        else match r with
             | Next => with_machine e Running (next_i (e_i e)) m
             | Engine.Wait => with_machine e Waiting (e_i e) m
             | HostException => mkEngine Stopped (e_i e) m true (shutdown_from_host_ e)
             | Terminated => with_machine e Died (e_i e) m
             end
  | Waiting =>
      if stop_requested e || shutdown_from_host_ e
      then with_machine e Running (next_i (e_i e)) (e_mach e)
      else match wfi_poll (e_mach e) with
           | None => e
           | Some (Terminated, m) => with_machine e Died (e_i e) m
           | Some (_, m) => with_machine e Running (next_i (e_i e)) m
           end
  | Stopped | Died => e
  end.

Inductive isa_run : engine D -> engine D -> Prop :=
  | isa_run_cpu e : isa_run e (isa_cpu e)
  | isa_run_tick e : e_phase e <> Died -> isa_run e (host_tick e)
  | isa_run_host e : e_phase e <> Died -> isa_run e (request_shutdown_from_host e).

(** The turn does not fetch csrrwi with a destination. *)
Definition plain (e : engine D) : Prop :=
  forall w, fst ((interrupts_first (e_i e) ;;; ifetch) (upd_hart MCYCLE_advance (e_mach e)))
            = Ok (w, Normal) -> covered w.
End Loop.

(** ** The refinement *)

Section Refinement.
Context {D : Type} `{PlatformLaws D} `{SoftFloatLaws}.
Abbreviation cpu := (M (mach D) exn).
Variable u : operands.

Lemma fetch_exec_isa (m : mach D) : ok0 m -> (forall w, fst (ifetch m) = Ok (w, Normal) -> covered w) ->
  (let! (insn, ilen) := ifetch in
   let! pc := gets (fun m => pc (hart m)) in
   let! decoded_insn := decode_or_die u insn ilen pc in
   set_hart_pc (pc + ilen_bytes ilen) ;;;
   exec_insn decoded_insn ;;;
   modify (upd_hart MINSTRET_advance)) m
  = (let! (w, len) := ifetch in
     let! pc0 := gets (fun m => pc (hart m)) in
     match len with Normal => isa_step w pc0 | Compressed => c_step w pc0 end ;;;
     modify (upd_hart MINSTRET_advance)) m.
Proof.
  intros [Hm Hfl] Hc. pose proof (spec_ifetch_at (pc (hart m)) (hk_pc _ (mk_hart _ Hm)) m Hm) as Hs.
  change (ifetch_at (pc (hart m)) m) with (ifetch m) in Hs.
  destruct (ifetch m) as [[[w len]|e] m1] eqn:Ef; [|unfold bind; by rewrite Ef].
  destruct Hs as [Hm1 Hw]. unfold bind at 1. rewrite Ef. symmetry. unfold bind at 1. rewrite Ef. symmetry.
  pose proof (ifetch_flags _ _ _ Hfl Ef) as Hfl1. destruct len.
  - rewrite (fetched_halfword u m1 w Hw Hm1 Hfl1 (ifetch_compressed _ _ _ Ef)). reflexivity.
  - rewrite (fetched_row u m1 w Hw Hm1 Hfl1 (Hc w eq_refl)). reflexivity.
Qed.

Lemma interrupts_first_ok i (m m1 : mach D) : ok0 m -> interrupts_first i m = (Ok tt, m1) -> ok0 m1.
Proof.
  intros Hm. unfold interrupts_first. unfold bind, gets. destruct (_ || _); cbn [when]; [|by intros [= <-]].
  unfold check_interrupts_throw. pose proof (check_interrupts_ok _ (mk_hart _ (proj1 Hm))) as Hc.
  destruct (check_interrupts (hart m)) as [[t|] h]; [done|]. intros [= <-]. by apply ok0_upd_hart.
Qed.

Lemma cpu_body_isa i (m : mach D) : ok0 m ->
  (forall w, fst ((interrupts_first i ;;; ifetch) m) = Ok (w, Normal) -> covered w) ->
  cpu_body u i m = isa_turn i m.
Proof.
  intros Hm Hc.
  assert (forall rest : cpu unit,
    (let! icp := gets (fun m => interrupt_check_pending (hart m)) in
     when ((Z.land i 0xFF =? 0) || icp) check_interrupts_throw ;;; rest) m
    = (interrupts_first i ;;; rest) m) as Hi.
  { intros rest. unfold interrupts_first. change 0xFF with (Z.ones 8). by rewrite Z.land_ones by lia. }
  unfold cpu_body. rewrite Hi. unfold isa_turn. unfold bind at 1. symmetry. unfold bind at 1. symmetry.
  destruct (interrupts_first i m) as [[[]|e] m1] eqn:E; [|done].
  apply fetch_exec_isa; [by eapply interrupts_first_ok|].
  intros w Hw. apply Hc. unfold bind. by rewrite E.
Qed.

Lemma cpu_step_isa e : engine_ok e -> plain e -> cpu_step u e = isa_cpu e.
Proof.
  intros [Hm _ _ _] Hp. unfold cpu_step, isa_cpu. destruct (e_phase e); [|done..].
  destruct (_ || _); [done|]. unfold cpu_iteration, isa_iteration. cbv zeta.
  rewrite cpu_body_isa.
  - destruct (isa_turn _ _) as [[[]|[]] m]; try done; try (by destruct (process_dead _)).
    destruct (handle_trap _ _); by destruct (process_dead _).
  - apply ok0_upd_hart; [done|]. apply MCYCLE_advance_ok, Hm.
  - exact Hp.
Qed.

Lemma step_isa e e' : engine_ok e -> plain e -> step u e e' <-> isa_run e e'.
Proof.
  intros He Hp. split; intros Hs; destruct Hs; try (by constructor).
  - rewrite cpu_step_isa by done. constructor.
  - rewrite <- cpu_step_isa by done. constructor.
Qed.

(** A run whose turns are all plain. *)
Definition plain_run (R : engine D -> engine D -> Prop) : engine D -> engine D -> Prop :=
  rtc (fun a b => plain a /\ R a b).

Lemma plain_runs m0 e : ok0 m0 ->
  plain_run (step u) (engine_init m0) e <-> plain_run isa_run (engine_init m0) e.
Proof.
  intros Hm.
  assert (engine_ok (engine_init m0)) as H0ok by (by split). split; intros Hr.
  - cut (engine_ok e /\ plain_run isa_run (engine_init m0) e); [tauto|].
    revert e Hr. apply rtc_ind_r; [split; [done|apply rtc_refl]|].
    intros a b _ [Hp Hs] [Ha Hra]. split; [by eapply step_ok|].
    eapply rtc_r; [exact Hra|]. split; [done|]. by apply step_isa.
  - cut (engine_ok e /\ plain_run (step u) (engine_init m0) e); [tauto|].
    revert e Hr. apply rtc_ind_r; [split; [done|apply rtc_refl]|].
    intros a b _ [Hp Hs] [Ha Hra]. apply (step_isa a b Ha Hp) in Hs. split; [by eapply step_ok|].
    eapply rtc_r; [exact Hra|]. done.
Qed.
End Refinement.

Section Runs.
Context {D : Type} `{PlatformLaws D} `{SoftFloatLaws}.

(** C3. The runs of the program are the runs of the instruction set: from a well-formed
    machine, however the CPU thread and the host thread interleave, the engine
    reaches exactly the states that the loop around the instruction table reaches
    with the same interleaving: it looks for interrupts, fetches, performs the row
    of the word or the expansion of the halfword, takes the trap it raises, waits
    for interrupts and stops as the program does.  The runs considered fetch no
    csrrwi with a destination. *)
Theorem runs_are_isa_runs u m0 e : ok0 m0 ->
  plain_run (step u) (engine_init m0) e <-> plain_run isa_run (engine_init m0) e.
Proof. apply plain_runs. Qed.

(** The operand fields the decoder leaves unset do not matter. *)
Corollary unset_operands_unused u1 u2 m0 e : ok0 m0 ->
  plain_run (step u1) (engine_init m0) e -> plain_run (step u2) (engine_init m0) e.
Proof. intros Hm Hr. by apply plain_runs, (plain_runs u1). Qed.
End Runs.

(** ** A concrete run: the atomic addition, then the program stops. *)

#[local] Existing Instance zero_softfloat.

Lemma amo_plain : plain (engine_init amo_machine).
Proof.
  intros w E.
  assert (fst ((interrupts_first (e_i (engine_init amo_machine)) ;;; ifetch)
    (upd_hart MCYCLE_advance (e_mach (engine_init amo_machine)))) = Ok (0x00c5a52f, Normal)) as E'
    by (vm_compute; reflexivity).
  rewrite E' in E. injection E as <-. apply covered_amo.
Qed.

Lemma runs_are_isa_runs_witness :
  let e := cpu_step no_operands (engine_init amo_machine) in
  (e_phase e = Running /\ xval (e_mach e) 10 = 2 ^ 64 - 1 /\ pc (hart (e_mach e)) = DRAM_BASE + 4) /\
  plain_run isa_run (engine_init amo_machine) e.
Proof.
  intros e. split; [vm_compute; repeat split|].
  apply (runs_are_isa_runs no_operands amo_machine e); [split; [apply amo_machine_ok|reflexivity]|].
  apply rtc_once. split; [apply amo_plain|apply step_cpu].
Defined.
