(* ===== verification/AtomicSpec.v ===== *)
(** * Load-reserved, store-conditional and the atomic operations

    The reservation protocol of the A extension, and the read-modify-write of an AMO. *)

From stdpp Require Import gmap.
From S2P Require Import Prelude Bits Hart HartInv Trap Machine Bus Decoder Mmu MmuSpec CsrAccess.
From S2P Require Import Execute ExecSpec InsnSpec.

Section Atomic.
Context {D : Type} `{PlatformLaws D}.

(** The machine with [v] in register [i]. *)
Definition with_reg (i v : Z) (m : mach D) : mach D :=
  upd_hart (fun h => set_gprs (RegisterFile_write (gprs h) i (u64 v)) h) m.

Lemma reg_with_reg i v (m : mach D) : mach_ok m -> xreg i -> reg (with_reg i v m) i = u64 v.
Proof. intros Hm Hi. apply read_write_reg; [apply Hm|done]. Qed.

Lemma with_reg_ok i v (m : mach D) : mach_ok m -> mach_ok (with_reg i v m).
Proof.
  intros [Hh Hd Ht Ho]. split; [|done|done|done]. destruct (hk_gprs _ Hh) as [Hl Hf].
  cbn [hart with_reg upd_hart]. unfold RegisterFile_write.
  apply hart_ok_gprs; [by case_match; rewrite ?length_insert| |done].
  case_match; [|done]. apply Forall_insert; [done|]. apply uwrap_fits. lia.
Qed.
Lemma upd_reservation_ok f (m : mach D) :
  (forall u, itlb_ (f u) = itlb_ u /\ dtlb_ (f u) = dtlb_ u) -> mach_ok m -> mach_ok (upd_mmu f m).
Proof.
  intros Hf [Hh Hd Ht Ho]. destruct (Hf (mmu m)) as [E1 E2]. split; [done|done| |done].
  cbn [mmu upd_mmu]. by rewrite E1, E2.
Qed.

Definition reserved (m : mach D) (addr : Z) : bool :=
  reservation_valid (mmu m) && (reservation_address (mmu m) =? addr).

(** The common shape of sc.d and sc.w. *)
Definition sc_shape (n : nat) (mask : Z) (f : Z -> Z) (d : DecodedInsn) : M (mach D) exn unit :=
  let! addr := R (d_rs1 d) in
  if negb (Z.land addr mask =? 0) then raise_exception (d_pc d) StoreAMOAccessFault addr
  else
    probe_store (d_pc d) addr ;;;
    let! u := gets mmu in
    (if reservation_valid u && (reservation_address u =? addr) then
       let! b := R (d_rs2 d) in mmu_write n (d_pc d) addr (f b) ;;; W (d_rd d) 0
     else W (d_rd d) 1) ;;;
    modify (upd_mmu clear_reservation).

Lemma sc_d_shape d : exec_sc_d d = sc_shape 8 7 (fun b => b) d.
Proof. reflexivity. Qed.
Lemma sc_w_shape d : exec_sc_w d = sc_shape 4 3 u32 d.
Proof. reflexivity. Qed.

Lemma sc_outcome n mask f d (m m' : mach D) : sc_shape n mask f d m = (Ok tt, m') ->
  let addr := reg m (d_rs1 d) in
  Z.land addr mask = 0 /\
  exists m1, probe_store (d_pc d) addr m = (Ok tt, m1) /\
    if reserved m addr
    then exists m2, mmu_write n (d_pc d) addr (f (reg m (d_rs2 d))) m1 = (Ok tt, m2) /\
           m' = upd_mmu clear_reservation (with_reg (d_rd d) 0 m2)
    else m' = upd_mmu clear_reservation (with_reg (d_rd d) 1 m1).
Proof.
  intros E addr. unfold sc_shape in E. unfold bind at 1, R at 1, gets at 1 in E.
  fold (reg m (d_rs1 d)) in E. fold addr in E.
  destruct (Z.eqb_spec (Z.land addr mask) 0) as [Ea|]; [|done]. split; [done|].
  cbn [negb] in E. unfold bind at 1 in E. pose proof (probe_store_frame (d_pc d) addr m) as Hf.
  destruct (probe_store (d_pc d) addr m) as [[[]|e] m1]; [|done]. simpl in Hf.
  exists m1. split; [done|]. unfold reserved. destruct (mf_res _ _ Hf) as [<- <-].
  unfold bind at 1, gets at 1 in E. unfold bind at 1 in E.
  destruct (reservation_valid (mmu m1) && _).
  - unfold bind at 1, R at 1, gets at 1 in E. rewrite (mf_gprs _ _ Hf) in E.
    fold (reg m (d_rs2 d)) in E. unfold bind at 1 in E.
    destruct (mmu_write n (d_pc d) addr (f (reg m (d_rs2 d))) m1) as [[[]|e] m2]; [|done].
    exists m2. split; [done|]. by injection E as <-.
  - by injection E as <-.
Qed.

Lemma sc_ok n mask f d (m m' : mach D) : mach_ok m -> xreg (d_rd d) -> (0 < n)%nat ->
  sc_shape n mask f d m = (Ok tt, m') ->
  mach_ok m' /\ reservation_valid (mmu m') = false /\
  reg m' (d_rd d) = if reserved m (reg m (d_rs1 d)) then 0 else 1.
Proof.
  intros Hm Hr Hn E. destruct (sc_outcome _ _ _ _ _ _ E) as (_ & m1 & E1 & E2).
  pose proof (probe_store_frame (d_pc d) (reg m (d_rs1 d)) m) as Hf1. rewrite E1 in Hf1.
  pose proof (mem_frame_ok _ _ Hf1 Hm) as Hm1. simpl in Hm1.
  assert (exists mx v, m' = upd_mmu clear_reservation (with_reg (d_rd d) v mx) /\ mach_ok mx /\
    v = if reserved m (reg m (d_rs1 d)) then 0 else 1) as (mx & v & -> & Hx & Hv).
  { destruct (reserved m (reg m (d_rs1 d))).
    - destruct E2 as (m2 & Ew & ->). exists m2, 0. split_and!; [done| |done].
      pose proof (mmu_write_frame n (d_pc d) (reg m (d_rs1 d)) (f (reg m (d_rs2 d))) m1) as Hf2.
      rewrite Ew in Hf2. by apply (mem_frame_ok _ _ Hf2).
    - exists m1, 1. done. }
  split_and!; [|done|].
  - by apply upd_reservation_ok, with_reg_ok.
  - change (reg (upd_mmu clear_reservation (with_reg (d_rd d) v mx)) (d_rd d))
      with (reg (with_reg (d_rd d) v mx) (d_rd d)).
    rewrite reg_with_reg by done. rewrite <- Hv. apply uwrap_id.
    subst v. by destruct (reserved _ _).
Qed.

(** A store-conditional succeeds exactly when there is a reservation for its
    address; it then stores [rs2] and writes 0 to [rd].  Otherwise it writes 1 and
    stores nothing: the machine is the one after the address was translated.
    Either way the reservation is gone. *)
Theorem sc_d_spec d (m m' : mach D) : mach_ok m -> xreg (d_rd d) ->
  exec_sc_d d m = (Ok tt, m') ->
  let addr := reg m (d_rs1 d) in
  reservation_valid (mmu m') = false /\
  exists m1, probe_store (d_pc d) addr m = (Ok tt, m1) /\
    if reserved m addr
    then reg m' (d_rd d) = 0 /\
         exists m2, mmu_write 8 (d_pc d) addr (reg m (d_rs2 d)) m1 = (Ok tt, m2) /\
           m' = upd_mmu clear_reservation (with_reg (d_rd d) 0 m2)
    else reg m' (d_rd d) = 1 /\ m' = upd_mmu clear_reservation (with_reg (d_rd d) 1 m1).
Proof.
  rewrite sc_d_shape. intros Hm Hr E addr.
  destruct (sc_ok 8 7 (fun b => b) _ _ _ Hm Hr ltac:(lia) E) as (_ & Hv & Hreg). split; [done|].
  destruct (sc_outcome _ _ _ _ _ _ E) as (_ & m1 & E1 & E2). exists m1. split; [done|].
  fold addr in Hreg, E2. destruct (reserved m addr); done.
Qed.

(** The protocol: after lr.d and sc.d on the same address the sc.d has
    succeeded, and a further sc.d, to any address, fails. *)
Theorem lr_sc_pair d1 d2 d3 (m m1 m2 m3 : mach D) :
  mach_ok m -> d_rd d1 <> d_rs1 d2 -> 0 < d_rs1 d2 < 32 -> 0 <= d_rd d1 < 32 ->
  d_rs1 d1 = d_rs1 d2 -> xreg (d_rd d2) -> xreg (d_rd d3) ->
  exec_lr_d d1 m = (Ok tt, m1) -> exec_sc_d d2 m1 = (Ok tt, m2) -> exec_sc_d d3 m2 = (Ok tt, m3) ->
  reg m2 (d_rd d2) = 0 /\ reg m3 (d_rd d3) = 1.
Proof.
  rewrite !sc_d_shape. intros Hm Hne Hs Hd1 Hrs Hr2 Hr3 E1 E2 E3.
  assert (mach_ok m1 /\ reserved m1 (reg m1 (d_rs1 d2)) = true) as [Hm1 Hres].
  { unfold exec_lr_d in E1. unfold bind at 1, R at 1, gets at 1 in E1.
    fold (reg m (d_rs1 d1)) in E1. set (addr := reg m (d_rs1 d1)) in *.
    destruct (negb _); [done|].
    pose proof (mmu_read_frame 8 (d_pc d1) addr false m) as Hf. unfold bind at 1 in E1.
    destruct (mmu_read 8 (d_pc d1) addr false m) as [[v|e] mx]; [|done].
    injection E1 as <-. simpl in Hf. pose proof (mem_frame_ok _ _ Hf Hm) as Hx.
    split.
    - by apply upd_reservation_ok, (with_reg_ok (d_rd d1)).
    - unfold reserved. cbn [mmu upd_mmu upd_hart set_reservation reservation_valid
        reservation_address]. apply Z.eqb_eq. unfold addr, reg.
      cbn [hart upd_mmu upd_hart gprs set_gprs]. rewrite <- Hrs, <- (mf_gprs _ _ Hf).
      symmetry. apply read_other_reg; lia. }
  destruct (sc_ok 8 7 (fun b => b) _ _ _ Hm1 Hr2 ltac:(lia) E2) as (Hm2 & Hv2 & Hreg2).
  destruct (sc_ok 8 7 (fun b => b) _ _ _ Hm2 Hr3 ltac:(lia) E3) as (_ & _ & Hreg3).
  rewrite Hres in Hreg2. unfold reserved in Hreg3. rewrite Hv2 in Hreg3. done.
Qed.
End Atomic.

(** ** Concrete runs *)

(** x11 holds an address in DRAM, x12 a value. *)
Definition lock_machine : mach unit :=
  with_reg 12 0x55 (with_reg 11 0x80000100 small_machine).
Definition lr_insn : DecodedInsn :=
  mkDecodedInsn 0 Normal rv_lr_d Ity_R (mkOperands 10 11 0 0 0) DRAM_BASE.
Definition sc_insn : DecodedInsn :=
  mkDecodedInsn 0 Normal rv_sc_d Ity_R (mkOperands 13 11 12 0 0) DRAM_BASE.

Lemma lock_machine_ok : mach_ok lock_machine.
Proof. apply with_reg_ok, with_reg_ok, small_machine_ok. Qed.

Lemma sc_d_spec_witness :
  let m' := snd (exec_sc_d sc_insn lock_machine) in
  reservation_valid (mmu m') = false /\
  exists m1, probe_store DRAM_BASE 0x80000100 lock_machine = (Ok tt, m1) /\
    reg m' 13 = 1 /\ m' = upd_mmu clear_reservation (with_reg 13 1 m1).
Proof.
  apply (sc_d_spec sc_insn lock_machine (snd (exec_sc_d sc_insn lock_machine)));
    [ apply lock_machine_ok | split; reflexivity | vm_compute; reflexivity ].
Defined.

Lemma lr_sc_pair_witness :
  let m1 := snd (exec_lr_d lr_insn lock_machine) in
  let m2 := snd (exec_sc_d sc_insn m1) in
  let m3 := snd (exec_sc_d sc_insn m2) in
  reg m2 13 = 0 /\ reg m3 13 = 1.
Proof.
  intros m1 m2 m3.
  apply (lr_sc_pair lr_insn sc_insn sc_insn lock_machine m1 m2 m3);
    [ apply lock_machine_ok | discriminate | split; reflexivity | split; [discriminate|reflexivity]
    | reflexivity | split; reflexivity | split; reflexivity | vm_compute; reflexivity
    | vm_compute; reflexivity | vm_compute; reflexivity ].
Defined.
