(* ===== verification/Divergences.v ===== *)
(** * Where the code departs from the architecture

    Closed theorems about behaviours of the code that its own comments or the
    instruction-set manual rule out.  The general theorems of the other files say
    how far each of them reaches. *)

From stdpp Require Import gmap.
From S2P Require Import Prelude Bits Hart HartInv Trap Machine Bus Decoder Mmu MmuSpec CsrAccess.
From S2P Require Import Execute ExecFloat Dispatch ExecSpec ExecSafe Engine EngineSpec InsnSpec.
From S2P Require Import AtomicSpec.

#[local] Existing Instance zero_softfloat.

(** SIP::write_unchecked clears SEIP on every write, although its comment says
    that only SSIP is writable through it: it passes the masked value to
    MIP::write_unchecked, whose own mask covers SEIP. *)
Theorem sip_write_clears_seip v h :
  Z.testbit (MIP_read (SIP_write v h)) 9 = false /\
  (Z.testbit (MENVCFG_read h) 63 = false -> Z.testbit (MIP_read (SIP_write v h)) 5 = false).
Proof.
  assert (forall i, 0 <= i -> Z.testbit (MIP_read (SIP_write v h)) i =
    (Z.testbit (raw h MIP_ADDRESS) i &&
       negb (Z.testbit (if negb (Z.testbit (MENVCFG_read h) 63)
               then Z.lor MIP_write_mask STIP else MIP_write_mask) i) ||
     Z.testbit v i && (i =? 1) && Z.testbit (MIDELEG_read h) i &&
       Z.testbit (if negb (Z.testbit (MENVCFG_read h) 63)
               then Z.lor MIP_write_mask STIP else MIP_write_mask) i)
    && Z.testbit MIP_read_mask i) as Hbit.
  { intros i Hi. unfold MIP_read, SIP_write, MIP_write. rewrite raw_set_raw_eq.
    unfold MENVCFG_STCE. rewrite nz_land_bit by lia. unfold andn, SIP_write_mask, SSIP.
    bit_specs. by rewrite testbit_flag by lia. }
  split.
  - rewrite Hbit by lia. destruct (Z.testbit (MENVCFG_read h) 63); simpl;
      by rewrite !andb_false_r.
  - intros E. rewrite Hbit, E by lia. simpl. by rewrite !andb_false_r.
Qed.

Lemma sip_write_clears_seip_witness :
  Z.testbit (MIP_read (SIP_write 0 (Hart_init DRAM_BASE))) 5 = false.
Proof. apply (sip_write_clears_seip 0 (Hart_init DRAM_BASE)). reflexivity. Defined.

(** SIE::write_unchecked clears the machine-level enables MSIE, MTIE and MEIE: a
    write to sie by the supervisor turns off the machine's own interrupts. *)
Theorem sie_write_clears_machine_enables v h :
  Z.testbit (MIE_read (SIE_write v h)) 3 = false /\
  Z.testbit (MIE_read (SIE_write v h)) 7 = false /\
  Z.testbit (MIE_read (SIE_write v h)) 11 = false.
Proof.
  unfold MIE_read, SIE_write, MIE_write. rewrite !raw_set_raw_eq. bit_specs. simpl.
  by rewrite !andb_false_r.
Qed.

(** The machine with a program in memory. *)
Definition load_program (ws : list Z) (m : mach unit) : mach unit :=
  upd_dram (fun dr => foldl (fun dr '(i, w) => write 4 (DRAM_BASE + 4 * Z.of_nat i) w dr) dr
    (imap pair ws)) m.

(** csrrwi writes [rd] before the CSR write that may be refused: csrrwi x5,
    mhartid, 1 raises an illegal-instruction exception and x5 has changed. *)
Theorem csrrwi_imprecise :
  exists d m m' t, decode no_operands 0xF140D2F3 Normal DRAM_BASE = Some d /\ mach_ok m /\
    exec_insn (D := unit) d m = (Throw (ETrap t), m') /\ trap_cause t = IllegalInstruction /\
    reg m 5 = 7 /\ reg m' 5 = 0.
Proof.
  eexists _, (with_reg 5 7 small_machine), _, _.
  split; [vm_compute; reflexivity|]. split; [apply with_reg_ok, small_machine_ok|].
  split; [vm_compute; reflexivity|]. vm_compute. repeat split.
Qed.

(** The process can be killed by a guest: mstatus accepts the reserved value 2 in
    MPP, mret enters privilege level 2, and the next ecall reaches
    [std::unreachable].  (By [reachable_safe] this is the only way.) *)
Theorem guest_kills_process :
  let m := load_program
    [ 0x30009073   (* csrw mstatus, x1 *)
    ; 0x34111073   (* csrw mepc, x2 *)
    ; 0x30200073   (* mret *)
    ; 0x00000073 ] (* ecall *)
    (with_reg 2 (DRAM_BASE + 12) (with_reg 1 (Z.shiftl 2 MPP_SHIFT) small_machine)) in
  ok0 m /\ exists e, rtc (step no_operands) (engine_init m) e /\ e_phase e = Died.
Proof.
  intros m. split.
  - split; [|reflexivity].
    assert (mach_ok (with_reg 2 (DRAM_BASE + 12)
      (with_reg 1 (Z.shiftl 2 MPP_SHIFT) small_machine))) as [Hh Hd Ht Ho]
      by apply with_reg_ok, with_reg_ok, small_machine_ok.
    split; [done| |done|done]. unfold m, load_program. cbn [dram_ upd_dram].
    generalize (imap pair [0x30009073; 0x34111073; 0x30200073; 0x00000073]). intros l.
    revert Hd. generalize (dram_ (with_reg 2 (DRAM_BASE + 12)
      (with_reg 1 (Z.shiftl 2 MPP_SHIFT) small_machine))).
    induction l as [|[i w] l IH]; intros dr Hd; [done|]. by apply IH, write_wf.
  - exists (Nat.iter 4 (cpu_step no_operands) (engine_init m)). split.
    + do 4 (eapply rtc_r; [|apply step_cpu]). apply rtc_refl.
    + vm_compute. reflexivity.
Qed.

(** c.fld loads a floating-point register without marking the state dirty: FS
    stays Initial, where fld sets it to Dirty. *)
Theorem c_fld_leaves_fs :
  let m := upd_hart (MSTATUS_write (Z.shiftl 1 FS_SHIFT)) (with_reg 8 0x80000100 small_machine) in
  let m := upd_dram (write 8 0x80000100 0x3FF0000000000000) m in
  let c_fld := mkDecodedInsn 0x2000 Compressed rv_c_fld Ity_CL (mkOperands 8 8 0 0 0) DRAM_BASE in
  let fld := mkDecodedInsn 0x43407 Normal rv_fld Ity_I (mkOperands 8 8 0 0 0) DRAM_BASE in
  decode no_operands 0x2000 Compressed DRAM_BASE = Some c_fld /\
  decode no_operands 0x43407 Normal DRAM_BASE = Some fld /\
  let m1 := snd (exec_insn c_fld m) in let m2 := snd (exec_insn fld m) in
  fprs (hart m1) = fprs (hart m2) /\ fprs (hart m1) <> fprs (hart m) /\
  Z.shiftr (Z.land (MSTATUS_read (hart m1)) MSTATUS_FS) FS_SHIFT = 1 /\
  Z.shiftr (Z.land (MSTATUS_read (hart m2)) MSTATUS_FS) FS_SHIFT = 3.
Proof. vm_compute. repeat split. discriminate. Qed.
