(* ===== verification/ByteVec.v ===== *)
(** * Byte vectors

    [std::vector<uint8_t>] of a fixed size, as the framebuffer and the flash use it:
    a fill value and the bytes that differ from it, with memcpy and memset. *)

From stdpp Require Import gmap.
From S2P Require Import Prelude Bits.

Record bytevec := mkBytevec {
  bv_mem : gmap Z Z;
  bv_fill : Z;
  bv_size : Z;
}.

Definition bv_new (size fill : Z) : bytevec := mkBytevec ∅ fill size.
Definition bv_get (v : bytevec) (i : Z) : Z := default (bv_fill v) (bv_mem v !! i).
Definition bv_set (i x : Z) (v : bytevec) : bytevec :=
  mkBytevec (<[i := u8 x]> (bv_mem v)) (bv_fill v) (bv_size v).

(** memcpy between a little-endian integer of [n] bytes and the vector. *)
Fixpoint bv_load (v : bytevec) (off : Z) (n : nat) : Z :=
  match n with
  | O => 0
  | S n => Z.lor (bv_get v off) (Z.shiftl (bv_load v (off + 1) n) 8)
  end.
Fixpoint bv_store (off : Z) (n : nat) (x : Z) (v : bytevec) : bytevec :=
  match n with
  | O => v
  | S n => bv_store (off + 1) n (Z.shiftr x 8) (bv_set off x v)
  end.

(** memset and memcpy between vectors. *)
Fixpoint bv_memset (off : Z) (n : nat) (x : Z) (v : bytevec) : bytevec :=
  match n with
  | O => v
  | S n => bv_memset (off + 1) n x (bv_set off x v)
  end.
Fixpoint bv_memcpy (off : Z) (src : bytevec) (soff : Z) (n : nat) (v : bytevec) : bytevec :=
  match n with
  | O => v
  | S n => bv_memcpy (off + 1) src (soff + 1) n (bv_set off (bv_get src soff) v)
  end.

(** ** Contents *)

Definition bv_wf (v : bytevec) : Prop :=
  fits 8 (bv_fill v) /\ map_Forall (fun _ x => fits 8 x) (bv_mem v).

Lemma bv_new_wf size fill : fits 8 fill -> bv_wf (bv_new size fill).
Proof. by split; [|apply map_Forall_empty]. Qed.

Lemma bv_get_fits v i : bv_wf v -> fits 8 (bv_get v i).
Proof.
  intros [Hf Hm]. unfold bv_get. destruct (bv_mem v !! i) eqn:E; [|done]. by apply (Hm i).
Qed.

Lemma bv_get_set v i x j : bv_get (bv_set i x v) j = if j =? i then u8 x else bv_get v j.
Proof.
  unfold bv_get, bv_set. cbn [bv_mem bv_fill]. destruct (Z.eqb_spec j i) as [->|].
  - by rewrite lookup_insert_eq.
  - by rewrite lookup_insert_ne.
Qed.

Lemma bv_set_wf i x v : bv_wf v -> bv_wf (bv_set i x v).
Proof.
  intros [Hf Hm]. split; [done|]. apply map_Forall_insert_2; [|done]. apply uwrap_fits. lia.
Qed.

(** An update of [n] bytes from [off] that puts [f i] at offset [i]. *)
Definition bv_updated (off : Z) (n : nat) (f : Z -> Z) (v v' : bytevec) : Prop :=
  bv_size v' = bv_size v /\ bv_fill v' = bv_fill v /\ (bv_wf v -> bv_wf v') /\
  forall i, bv_get v' i = if (off <=? i) && (i <? off + Z.of_nat n) then f i else bv_get v i.

Lemma bv_updated_S off n f x v v' : u8 x = f off ->
  bv_updated (off + 1) n f (bv_set off x v) v' -> bv_updated off (S n) f v v'.
Proof.
  intros Hx (S1 & F1 & W1 & G1). split_and!; [done|done|intros; by apply W1, bv_set_wf|].
  intros i. rewrite G1, bv_get_set. destruct (Z.eqb_spec i off) as [->|].
  - destruct (Z.leb_spec (off + 1) off), (Z.leb_spec off off), (Z.ltb_spec off (off + Z.of_nat (S n)));
      try lia. by rewrite Hx.
  - replace (off + Z.of_nat (S n)) with (off + 1 + Z.of_nat n) by lia.
    destruct (Z.leb_spec (off + 1) i), (Z.leb_spec off i); try lia; done.
Qed.

Lemma bv_updated_0 off f v : bv_updated off 0 f v v.
Proof.
  split_and!; try done. intros i. change (Z.of_nat 0) with 0.
  destruct (Z.leb_spec off i), (Z.ltb_spec i (off + 0)); try lia; done.
Qed.

Lemma bv_memset_updated off n x v : bv_updated off n (fun _ => u8 x) v (bv_memset off n x v).
Proof.
  revert off v. induction n as [|n IH]; intros off v; [apply bv_updated_0|].
  by apply (bv_updated_S off n _ x).
Qed.

Lemma bv_memcpy_updated off src soff n v : bv_wf src ->
  bv_updated off n (fun i => bv_get src (soff + (i - off))) v (bv_memcpy off src soff n v).
Proof.
  intros Hs. revert off soff v. induction n as [|n IH]; intros off soff v; [apply bv_updated_0|].
  cbn [bv_memcpy]. apply (bv_updated_S off n _ (bv_get src soff)).
  - rewrite Z.sub_diag, Z.add_0_r. pose proof (bv_get_fits src soff Hs) as Hf. unfold fits in Hf.
    unfold u8, uwrap. rewrite Z.mod_small by lia. done.
  - specialize (IH (off + 1) (soff + 1) (bv_set off (bv_get src soff) v)).
    destruct IH as (S1 & F1 & W1 & G1). split_and!; try done. intros i. rewrite G1.
    by replace (soff + 1 + (i - (off + 1))) with (soff + (i - off)) by lia.
Qed.

Lemma bv_store_updated off n x v :
  bv_updated off n (fun i => u8 (Z.shiftr x (8 * (i - off)))) v (bv_store off n x v).
Proof.
  revert off x v. induction n as [|n IH]; intros off x v; [apply bv_updated_0|].
  cbn [bv_store]. apply (bv_updated_S off n _ x); [by rewrite Z.sub_diag|].
  destruct (IH (off + 1) (Z.shiftr x 8) (bv_set off x v)) as (S1 & F1 & W1 & G1).
  split_and!; try done. intros i. rewrite G1. destruct (Z.leb_spec (off + 1) i); [|done].
  rewrite Z.shiftr_shiftr by lia. by replace (8 + 8 * (i - (off + 1))) with (8 * (i - off)) by lia.
Qed.

(** What is stored is read back. *)
Lemma bv_load_store off n x v' : 0 <= x ->
  (forall i, off <= i < off + Z.of_nat n -> bv_get v' i = u8 (Z.shiftr x (8 * (i - off)))) ->
  bv_load v' off n = uwrap (8 * Z.of_nat n) x.
Proof.
  revert off x. induction n as [|n IH]; intros off x Hx Hg; [symmetry; apply Z.mod_1_r|].
  cbn [bv_load]. rewrite (Hg off) by lia. rewrite Z.sub_diag. change (8 * 0) with 0.
  rewrite Z.shiftr_0_r. rewrite (IH (off + 1) (Z.shiftr x 8)).
  - apply Z.bits_inj'. intros i Hi. unfold u8, uwrap.
    rewrite Z.lor_spec, Z.shiftl_spec by lia.
    destruct (Z.ltb_spec i 8).
    + rewrite (Z.testbit_neg_r _ (i - 8)), orb_false_r by lia.
      rewrite !Z.mod_pow2_bits_low by lia. done.
    + rewrite Z.mod_pow2_bits_high by lia. cbn [orb].
      destruct (Z.ltb_spec i (8 * Z.of_nat (S n))).
      * rewrite !Z.mod_pow2_bits_low by lia. rewrite Z.shiftr_spec by lia. f_equal. lia.
      * rewrite !Z.mod_pow2_bits_high by lia. done.
  - by apply Z.shiftr_nonneg.
  - intros i Hr. rewrite Hg by lia. rewrite Z.shiftr_shiftr by lia. f_equal. f_equal. lia.
Qed.
