(* ===== verification/Elf.v ===== *)
(** * The ELF loader (src/utils/elfloader.cpp)

    The program headers of a file image copied into DRAM.  The loader reads the image
    through pointers into its vector: a read outside of the vector, undefined in C++,
    is an outcome of its own, as is the exception. *)

From stdpp Require Import gmap.
From S2P Require Import Prelude Bits.
From S2P Require Export Dram.
Export Dram.

Inductive load_exn : Set :=
  | LThrow         (* a std::exception *)
  | LUndefined.    (* a read outside of the file's vector *)

Abbreviation load := (M Dram load_exn).

(* The constants and the layout of the system's elf.h. *)
Definition ELFMAG : list Z := [0x7f; 0x45; 0x4c; 0x46].
Definition EI_CLASS : Z := 4.
Definition ELFCLASS64 : Z := 2.
Definition EM_RISCV : Z := 243.
Definition PT_LOAD : Z := 1.
Definition sizeof_Phdr : Z := 56.

(** A little-endian field of [n] bytes of the image. *)
Definition file_bytes (file : list Z) (off : Z) (n : nat) : option (list Z) :=
  if (0 <=? off) && (off + Z.of_nat n <=? Z.of_nat (length file))
  then Some (take n (drop (Z.to_nat off) file)) else None.
Definition le_value : list Z -> Z := foldr (fun b v => b + 256 * v) 0.
Definition file_field (file : list Z) (off : Z) (n : nat) : option Z := le_value <$> file_bytes file off n.

Definition lift {A} (o : option A) : load A :=
  match o with Some a => ret a | None => throw LUndefined end.

Record Elf64_Phdr := mkPhdr {
  p_type : Z;
  p_offset : Z;
  p_paddr : Z;
  p_filesz : Z;
  p_memsz : Z;
}.

Section Load.
Variable file : list Z.

(* @src src/utils/elfloader.cpp 117-126 ElfLoader::validate_elf_header *)
Definition validate_elf_header : load unit :=
  let! magic := lift (file_bytes file 0 4) in
  if negb (bool_decide (magic = ELFMAG)) then throw LThrow
  else
    let! class := lift (file_field file EI_CLASS 1) in
    if negb (class =? ELFCLASS64) then throw LThrow
    else
      let! machine := lift (file_field file 18 2) in
      if negb (machine =? EM_RISCV) then throw LThrow else ret tt.

(* The type first; the other fields only of a segment to load.  [None] is a read
   outside of the file, [Some None] a header of another type. *)
(* @src src/utils/elfloader.cpp 47-54 ElfLoader::load *)
Definition phdr_at (off : Z) : option (option Elf64_Phdr) :=
  type ← file_field file off 4;
  if negb (type =? PT_LOAD) then Some None
  else
    paddr ← file_field file (off + 24) 8;
    filesz ← file_field file (off + 32) 8;
    memsz ← file_field file (off + 40) 8;
    offset ← file_field file (off + 8) 8;
    Some (Some (mkPhdr type offset paddr filesz memsz)).

(** [dram.write_bytes(addr, src, len)] from a source that is read after the test. *)
Definition write_range (addr : Z) (len : Z) (src : load (list Z)) : load unit :=
  let! valid := gets (fun d => is_valid_addr d addr len) in
  if negb valid then throw LThrow
  else
    let! bytes := src in
    let! d := gets (write_bytes addr bytes) in
    match d with Some d => modify (fun _ => d) | None => throw LThrow end.

(* @src src/utils/elfloader.cpp 56-65 ElfLoader::load *)
Definition load_segment (ph : Elf64_Phdr) : load unit :=
  let! valid := gets (fun d => is_valid_addr d (p_paddr ph) (p_memsz ph)) in
  if negb valid then throw LThrow
  else
    when (0 <? p_filesz ph)
      (write_range (p_paddr ph) (p_filesz ph)
         (lift (file_bytes file (p_offset ph) (Z.to_nat (p_filesz ph))))) ;;;
    when (p_filesz ph <? p_memsz ph)
      (let size := p_memsz ph - p_filesz ph in
       write_range (u64 (p_paddr ph + p_filesz ph)) size (ret (replicate (Z.to_nat size) 0))).

(* @src src/utils/elfloader.cpp 47-66 ElfLoader::load *)
Fixpoint load_segments (n : nat) (off : Z) : load unit :=
  match n with
  | O => ret tt
  | S n =>
      let! ph := lift (phdr_at off) in
      match ph with None => ret tt | Some ph => load_segment ph end ;;;
      load_segments n (off + sizeof_Phdr)
  end.

(* @src src/utils/elfloader.cpp 38-69 ElfLoader::load *)
Definition elf_load : load Z :=
  validate_elf_header ;;;
  let! e_phoff := lift (file_field file 32 8) in
  let! e_phnum := lift (file_field file 56 2) in
  load_segments (Z.to_nat e_phnum) e_phoff ;;;
  lift (file_field file 24 8).
(** ** Lookups by name

    [None] is a read outside of the file, [Some None] the null pointer, and
    [Some (Some off)] a pointer to the entry at [off]. *)

Definition e_shoff_at : Z := 40.
Definition e_shnum_at : Z := 60.
Definition e_shstrndx_at : Z := 62.
Definition sizeof_Shdr : Z := 64.
Definition sizeof_Sym : Z := 24.
Definition sh_offset_at : Z := 24.
Definition sh_size_at : Z := 32.

(** [std::strcmp(name, s) == 0] for the string at [off]: it stops at the first difference. *)
Fixpoint name_is (name : list Z) (off : Z) : option bool :=
  b ← file_field file off 1;
  match name with
  | [] => Some (b =? 0)
  | c :: name => if b =? c then name_is name (off + 1) else Some false
  end.

(** The first of [n] entries of [entsize] bytes from [off] whose name, at the 32-bit
    offset in its first field into the strings at [strs], is [name]. *)
Fixpoint find_named (name : list Z) (strs entsize : Z) (n : nat) (off : Z) : option (option Z) :=
  match n with
  | O => Some None
  | S n =>
      idx ← file_field file off 4;
      found ← name_is name (strs + idx);
      if found : bool then Some (Some off) else find_named name strs entsize n (off + entsize)
  end.

(* @src src/utils/elfloader.cpp 73-92 ElfLoader::get_section_header *)
Definition get_section_header (name : list Z) : option (option Z) :=
  e_shoff ← file_field file e_shoff_at 8;
  e_shnum ← file_field file e_shnum_at 2;
  if (e_shoff =? 0) || (e_shnum =? 0) then Some None
  else
    e_shstrndx ← file_field file e_shstrndx_at 2;
    strs ← file_field file (e_shoff + e_shstrndx * sizeof_Shdr + sh_offset_at) 8;
    find_named name strs sizeof_Shdr (Z.to_nat e_shnum) e_shoff.

Definition dot_symtab : list Z := [0x2e; 0x73; 0x79; 0x6d; 0x74; 0x61; 0x62].
Definition dot_strtab : list Z := [0x2e; 0x73; 0x74; 0x72; 0x74; 0x61; 0x62].

(* @src src/utils/elfloader.cpp 94-115 ElfLoader::get_symbol *)
Definition get_symbol (name : list Z) : option (option Z) :=
  sym_hdr ← get_section_header dot_symtab;
  str_hdr ← get_section_header dot_strtab;
  match sym_hdr, str_hdr with
  | Some sym_hdr, Some str_hdr =>
      sym_tbl ← file_field file (sym_hdr + sh_offset_at) 8;
      str_tbl ← file_field file (str_hdr + sh_offset_at) 8;
      sh_size ← file_field file (sym_hdr + sh_size_at) 8;
      find_named name str_tbl sizeof_Sym (Z.to_nat (sh_size / sizeof_Sym)) sym_tbl
  | _, _ => Some None
  end.
End Load.

(* [None] is a file that cannot be opened. *)
(* @src src/utils/elfloader.cpp 26-38 ElfLoader::is_elf *)
Definition is_elf (file : option (list Z)) : bool :=
  match file with
  | None => false
  | Some bytes => if (length bytes <? 4)%nat then false else bool_decide (take 4 bytes = ELFMAG)
  end.

(** A lookup that returns an entry returns the first one of that name. *)
Lemma find_named_first file name strs entsize n : forall off e,
  find_named file name strs entsize n off = Some (Some e) ->
  exists i, (i < n)%nat /\ e = off + entsize * Z.of_nat i /\
    (exists idx, file_field file e 4 = Some idx /\ name_is file name (strs + idx) = Some true) /\
    forall j, (j < i)%nat -> exists idx, file_field file (off + entsize * Z.of_nat j) 4 = Some idx /\
      name_is file name (strs + idx) = Some false.
Proof.
  induction n as [|n IH]; intros off e; cbn [find_named]; [done|].
  destruct (file_field file off 4) as [idx|] eqn:Ei; [|done]. cbn [mbind option_bind].
  destruct (name_is file name (strs + idx)) as [[|]|] eqn:En; cbn [mbind option_bind]; [| |done].
  - intros [= <-]. exists 0%nat. split; [lia|]. split; [lia|]. split; [by exists idx|]. intros j Hj. lia.
  - intros (i & Hi & -> & Hf & Hb)%IH. exists (S i). split; [lia|]. split; [lia|].
    split; [exact Hf|]. intros [|j] Hj.
    + exists idx. rewrite Z.mul_0_r, Z.add_0_r. done.
    + replace (off + entsize * Z.of_nat (S j)) with (off + entsize + entsize * Z.of_nat j) by lia.
      apply Hb. lia.
Qed.

Lemma get_section_header_in_table file name e : get_section_header file name = Some (Some e) ->
  exists e_shoff e_shnum i, file_field file e_shoff_at 8 = Some e_shoff /\
    file_field file e_shnum_at 2 = Some e_shnum /\
    0 <= i < e_shnum /\ e = e_shoff + sizeof_Shdr * i.
Proof.
  unfold get_section_header.
  destruct (file_field file e_shoff_at 8) as [e_shoff|]; [|done]. cbn [mbind option_bind].
  destruct (file_field file e_shnum_at 2) as [e_shnum|]; [|done]. cbn [mbind option_bind].
  case_match; [done|].
  destruct (file_field file e_shstrndx_at 2) as [ndx|]; [|done]. cbn [mbind option_bind].
  destruct (file_field file _ 8) as [strs|]; [|done]. cbn [mbind option_bind].
  intros (i & Hi & -> & _)%find_named_first. exists e_shoff, e_shnum, (Z.of_nat i).
  split_and!; try done; lia.
Qed.

(** ** What a load leaves in memory *)

Lemma le_value_fits bs : Forall (fits 8) bs -> fits (8 * Z.of_nat (length bs)) (le_value bs).
Proof.
  induction 1 as [|b bs Hb _ IH]; [by split|]. unfold fits in *. cbn [le_value foldr length].
  fold le_value. rewrite Nat2Z.inj_succ, Z.mul_succ_r, Z.pow_add_r by lia.
  change (2 ^ 8) with 256 in *. nia.
Qed.

Lemma file_field_fits file off n v : Forall (fits 8) file -> file_field file off n = Some v ->
  fits (8 * Z.of_nat n) v.
Proof.
  intros Hf. unfold file_field, file_bytes. case_match; [|done]. intros [= <-]. bool_hyps.
  assert (length (take n (drop (Z.to_nat off) file)) = n) as El
    by (rewrite length_take, length_drop; lia).
  rewrite <- El at 1. apply le_value_fits. by apply Forall_take, Forall_drop.
Qed.

Section Spec.
Variable file : list Z.
Hypothesis Hfile : Forall (fits 8) file.

(** The byte a segment leaves at an address: of the file, zero, or the old one. *)
Definition seg_byte (ph : Elf64_Phdr) (a old : Z) : Z :=
  if (p_paddr ph <=? a) && (a <? p_paddr ph + p_filesz ph)
  then nth (Z.to_nat (p_offset ph + (a - p_paddr ph))) file 0
  else if (p_paddr ph <=? a) && (a <? p_paddr ph + p_memsz ph) then 0 else old.

Definition seg_fits (size : Z) (ph : Elf64_Phdr) : Prop :=
  DRAM_BASE <= p_paddr ph /\ p_paddr ph + Z.max (p_filesz ph) (p_memsz ph) <= DRAM_BASE + size.

(** The bytes of the segment are in the file. *)
Definition seg_readable (ph : Elf64_Phdr) : Prop :=
  p_offset ph + p_filesz ph <= Z.of_nat (length file).
Definition phdr_ok (ph : Elf64_Phdr) : Prop :=
  fits 64 (p_offset ph) /\ fits 64 (p_paddr ph) /\ fits 64 (p_filesz ph) /\ fits 64 (p_memsz ph).

Lemma write_range_spec addr bytes d : dram_wf d -> fits 64 addr ->
  fits 64 (Z.of_nat (length bytes)) -> Forall (fits 8) bytes ->
  match write_range addr (Z.of_nat (length bytes)) (ret bytes) d with
  | (Ok _, d') => DRAM_BASE <= addr /\ addr + Z.of_nat (length bytes) <= DRAM_BASE + size_ d /\
      dram_wf d' /\ size_ d' = size_ d /\
      forall i, byte_at d' i =
        if (addr - DRAM_BASE <=? i) && (i <? addr - DRAM_BASE + Z.of_nat (length bytes))
        then nth (Z.to_nat (i - (addr - DRAM_BASE))) bytes 0 else byte_at d i
  | (Throw e, d') => e = LThrow /\ d' = d /\
      ~ (DRAM_BASE <= addr /\ addr + Z.of_nat (length bytes) <= DRAM_BASE + size_ d)
  end.
Proof.
  intros Hd Ha Hl Hb. unfold write_range, bind, gets, ret, modify.
  pose proof (valid_addr_range d addr _ Hd Ha Hl) as Hv.
  destruct (is_valid_addr d addr (Z.of_nat (length bytes))) eqn:V; cbn [negb].
  2:{ unfold throw. split; [done|]. split; [done|]. intros [H1 H2].
      assert (false = true); [apply Hv; split; done|done]. }
  destruct (proj1 Hv eq_refl) as [H1 H2].
  pose proof (write_bytes_wf addr bytes d) as Hw. unfold write_bytes in *. rewrite V in *.
  specialize (Hw _ Hd eq_refl) as [Hw1 Hw2].
  split; [done|]. split; [done|]. split; [done|]. split; [done|]. intros i.
  pose proof (byte_at_foldl bytes 0 (u64 (addr - DRAM_BASE)) d i) as E.
  change (imap (fun i x => ((0 + i)%nat, x)) bytes) with (imap pair bytes) in E. rewrite E. clear E.
  change (Z.of_nat 0) with 0. rewrite !Z.add_0_r, !Z.sub_0_r.
  rewrite (uwrap_id 64 (addr - DRAM_BASE)) by (destruct Ha; split; unfold DRAM_BASE in *; lia).
  destruct (_ && _) eqn:Ei; [|done]. bool_hyps. apply uwrap_id.
  rewrite List.Forall_forall in Hb. apply Hb, nth_In. lia.
Qed.

Lemma file_bytes_some off n : 0 <= off -> off + Z.of_nat n <= Z.of_nat (length file) ->
  exists bs, file_bytes file off n = Some bs /\ length bs = n /\ Forall (fits 8) bs /\
    forall i, (i < n)%nat -> nth i bs 0 = nth (Z.to_nat (off + Z.of_nat i)) file 0.
Proof.
  intros H1 H2. unfold file_bytes. replace (_ && _) with true by lia. eexists. split; [done|].
  split_and!; [rewrite length_take, length_drop; lia|by apply Forall_take, Forall_drop|].
  intros i Hi. rewrite nth_lookup, lookup_take_lt, lookup_drop, <- nth_lookup by done.
  f_equal. lia.
Qed.

Lemma load_segment_spec ph d : dram_wf d -> phdr_ok ph -> seg_readable ph ->
  match load_segment file ph d with
  | (Ok _, d') => seg_fits (size_ d) ph /\ dram_wf d' /\ size_ d' = size_ d /\
      forall a, byte_at d' (a - DRAM_BASE) = seg_byte ph a (byte_at d (a - DRAM_BASE))
  | (Throw e, d') => e = LThrow /\ dram_wf d' /\ size_ d' = size_ d /\ ~ seg_fits (size_ d) ph
  end.
Proof.
  intros Hd (Fo & Fp & Ff & Fm) Hr. unfold load_segment, seg_readable, seg_fits in *.
  unfold bind at 1, gets at 1. pose proof (valid_addr_range d _ _ Hd Fp Fm) as Hv.
  destruct (is_valid_addr d (p_paddr ph) (p_memsz ph)) eqn:V; cbn [negb].
  2:{ unfold throw. split; [done|]. split; [done|]. split; [done|]. intros [H1 H2].
      assert (false = true); [apply Hv; lia|done]. }
  destruct (proj1 Hv eq_refl) as [H1 H2]. clear Hv V. unfold fits in *.
  assert (0 <= size_ d /\ DRAM_BASE + size_ d <= 2 ^ 64 /\ 0 <= DRAM_BASE) as (S0 & S1 & S2)
    by (destruct Hd; unfold DRAM_BASE in *; lia).
  destruct (file_bytes_some (p_offset ph) (Z.to_nat (p_filesz ph))) as (bs & -> & Lb & Fb & Nb);
    [lia|lia|]. cbn [lift]. unfold bind at 1.
  assert (Z.of_nat (length bs) = p_filesz ph) as Lz by lia.
  pose proof (write_range_spec (p_paddr ph) bs d Hd Fp ltac:(unfold fits; lia) Fb) as W1.
  rewrite Lz in W1.
  (* the bytes of the file *)
  assert ((exists d1, when (0 <? p_filesz ph) (write_range (p_paddr ph) (p_filesz ph) (ret bs)) d
      = (Ok tt, d1) /\ p_paddr ph + p_filesz ph <= DRAM_BASE + size_ d /\ dram_wf d1 /\
      size_ d1 = size_ d /\ (forall a, byte_at d1 (a - DRAM_BASE) =
        if (p_paddr ph <=? a) && (a <? p_paddr ph + p_filesz ph)
        then nth (Z.to_nat (p_offset ph + (a - p_paddr ph))) file 0 else byte_at d (a - DRAM_BASE)))
    \/ exists d1, when (0 <? p_filesz ph) (write_range (p_paddr ph) (p_filesz ph) (ret bs)) d
      = (Throw LThrow, d1) /\ dram_wf d1 /\ size_ d1 = size_ d /\
        ~ p_paddr ph + p_filesz ph <= DRAM_BASE + size_ d) as [(d1 & -> & W)|(d1 & -> & W)].
  { unfold when. destruct (Z.ltb_spec 0 (p_filesz ph)).
    - destruct (write_range _ _ _ d) as [[[]|e] d1].
      + left. exists d1. destruct W1 as (_ & W2 & W3 & W4 & W5). split_and!; try done. intros a.
        rewrite W5. replace (p_paddr ph - DRAM_BASE <=? a - DRAM_BASE) with (p_paddr ph <=? a) by lia.
        replace (a - DRAM_BASE <? p_paddr ph - DRAM_BASE + p_filesz ph)
          with (a <? p_paddr ph + p_filesz ph) by lia.
        destruct (_ && _) eqn:E; [|done]. bool_hyps. rewrite Nb by lia. f_equal. lia.
      + right. exists d1. destruct W1 as (-> & -> & W2). split_and!; try done. lia.
    - left. exists d. split_and!; try done; [lia|]. intros a.
      destruct (_ && _) eqn:E; [bool_hyps; lia|done]. }
  2:{ destruct W as (? & ? & ?). split_and!; try done. lia. }
  (* the zeros *)
  destruct W as (W1' & W2 & W3 & W4). unfold when. unfold seg_byte.
  destruct (Z.ltb_spec (p_filesz ph) (p_memsz ph)) as [Hm|Hm].
  - rewrite uwrap_id by (unfold fits; lia).
    set (n := Z.to_nat (p_memsz ph - p_filesz ph)).
    pose proof (write_range_spec (p_paddr ph + p_filesz ph) (replicate n 0) d1 W2) as W5.
    rewrite length_replicate in W5. replace (Z.of_nat n) with (p_memsz ph - p_filesz ph) in W5 by lia.
    specialize (W5 ltac:(unfold fits; lia) ltac:(unfold fits; lia)
      ltac:(apply Forall_replicate; by split)). rewrite W3 in W5.
    destruct (write_range _ _ _ d1) as [[[]|e] d2].
    + destruct W5 as (_ & _ & W6 & W7 & W8). split; [lia|]. split; [done|]. split; [congruence|].
      intros a. rewrite W8, W4.
      destruct (Z.leb_spec (p_paddr ph) a), (Z.ltb_spec a (p_paddr ph + p_filesz ph)),
        (Z.ltb_spec a (p_paddr ph + p_memsz ph)); cbn [andb];
      destruct (Z.leb_spec (p_paddr ph + p_filesz ph - DRAM_BASE) (a - DRAM_BASE)),
        (Z.ltb_spec (a - DRAM_BASE) (p_paddr ph + p_filesz ph - DRAM_BASE + (p_memsz ph - p_filesz ph)));
        cbn [andb]; try lia; try done.
      rewrite nth_lookup. by rewrite lookup_replicate_2 by lia.
    + exfalso. destruct W5 as (_ & _ & W6). apply W6. lia.
  - unfold ret. split; [lia|]. split; [done|]. split; [done|]. intros a. rewrite W4.
    destruct (_ && _) eqn:E; [done|]. destruct ((p_paddr ph <=? a) && (a <? p_paddr ph + p_memsz ph)) eqn:E2; [|done].
    bool_hyps. exfalso. apply andb_false_iff in E as [E|E]; lia.
Qed.

(** *** The table and the header *)

(** The segments to load of [n] headers from [off]. *)
Fixpoint segments (n : nat) (off : Z) : option (list Elf64_Phdr) :=
  match n with
  | O => Some []
  | S n =>
      ph ← phdr_at file off;
      rest ← segments n (off + sizeof_Phdr);
      Some (match ph with None => rest | Some ph => ph :: rest end)
  end.

Lemma phdr_at_ok off ph : phdr_at file off = Some (Some ph) -> phdr_ok ph.
Proof.
  unfold phdr_at. destruct (file_field file off 4) as [t|]; [|done]. cbn [mbind option_bind].
  case_match; [done|].
  destruct (file_field file (off + 24) 8) as [a|] eqn:E1; [|done]. cbn [mbind option_bind].
  destruct (file_field file (off + 32) 8) as [b|] eqn:E2; [|done]. cbn [mbind option_bind].
  destruct (file_field file (off + 40) 8) as [c|] eqn:E3; [|done]. cbn [mbind option_bind].
  destruct (file_field file (off + 8) 8) as [o|] eqn:E4; [|done]. cbn [mbind option_bind].
  intros [= <-]. unfold phdr_ok. cbn [p_offset p_paddr p_filesz p_memsz].
  split_and!; by eapply (file_field_fits file _ 8).
Qed.

(** The byte the segments leave at an address, the later ones over the earlier. *)
Definition image_byte (segs : list Elf64_Phdr) (a old : Z) : Z :=
  foldl (fun b ph => seg_byte ph a b) old segs.

Lemma load_segments_spec n : forall off segs d, dram_wf d ->
  segments n off = Some segs -> Forall seg_readable segs ->
  match load_segments file n off d with
  | (Ok _, d') => Forall (seg_fits (size_ d)) segs /\ dram_wf d' /\ size_ d' = size_ d /\
      forall a, byte_at d' (a - DRAM_BASE) = image_byte segs a (byte_at d (a - DRAM_BASE))
  | (Throw e, d') => e = LThrow /\ dram_wf d' /\ size_ d' = size_ d /\
      ~ Forall (seg_fits (size_ d)) segs
  end.
Proof.
  induction n as [|n IH]; intros off segs d Hd Hs Hr; cbn [segments load_segments] in *.
  { injection Hs as <-. unfold ret. by split_and!. }
  destruct (phdr_at file off) as [ph|] eqn:Ep; [|done]. cbn [mbind option_bind] in Hs.
  destruct (segments n (off + sizeof_Phdr)) as [rest|] eqn:Er; [|done]. injection Hs as <-.
  cbn [lift]. unfold bind at 1, ret at 1. destruct ph as [ph|].
  - inversion Hr as [|? ? Hr1 Hr2]; subst. unfold bind.
    pose proof (load_segment_spec ph d Hd (phdr_at_ok off ph Ep) Hr1) as Hl.
    destruct (load_segment file ph d) as [[[]|e] d1].
    + destruct Hl as (F1 & Hd1 & S1 & B1). specialize (IH _ _ d1 Hd1 Er Hr2). rewrite S1 in IH.
      destruct (load_segments file n _ d1) as [[[]|e] d2].
      * destruct IH as (F2 & Hd2 & S2 & B2). split; [by constructor|]. split; [done|].
        split; [congruence|]. intros a. rewrite B2, B1. done.
      * destruct IH as (-> & Hd2 & S2 & F2). split; [done|]. split; [done|]. split; [congruence|].
        intros HF. inversion HF; subst. done.
    + destruct Hl as (-> & Hd1 & S1 & F1). split; [done|]. split; [done|]. split; [congruence|].
      intros HF. inversion HF; subst. done.
  - unfold bind, ret. by apply (IH (off + sizeof_Phdr)).
Qed.

Definition valid_header : bool :=
  bool_decide (file_bytes file 0 4 = Some ELFMAG) &&
  bool_decide (file_field file EI_CLASS 1 = Some ELFCLASS64) &&
  bool_decide (file_field file 18 2 = Some EM_RISCV).

Lemma file_field_some off n : 0 <= off -> off + Z.of_nat n <= Z.of_nat (length file) ->
  exists v, file_field file off n = Some v.
Proof.
  intros H1 H2. unfold file_field. destruct (file_bytes_some off n H1 H2) as (bs & -> & _).
  by eexists.
Qed.

Lemma validate_spec d : 64 <= Z.of_nat (length file) ->
  validate_elf_header file d = (if valid_header then Ok tt else Throw LThrow, d).
Proof.
  intros Hl. unfold validate_elf_header, valid_header.
  destruct (file_bytes_some 0 4) as (m & Em & _); [lia|lia|].
  destruct (file_field_some EI_CLASS 1) as [c Ec]; [done|unfold EI_CLASS; lia|].
  destruct (file_field_some 18 2) as [k Ek]; [done|lia|]. rewrite Em, Ec, Ek.
  cbn [lift]. unfold bind, ret, throw.
  assert (forall x y : list Z, bool_decide (Some x = Some y) = bool_decide (x = y)) as El
    by (intros; apply bool_decide_ext; naive_solver).
  assert (forall x y : Z, bool_decide (Some x = Some y) = (x =? y)) as Ez.
  { intros x y. destruct (Z.eqb_spec x y) as [->|]; [by apply bool_decide_true|].
    apply bool_decide_false. congruence. }
  rewrite El, !Ez. destruct (bool_decide (m = ELFMAG)); cbn [negb andb]; [|done].
  destruct (c =? ELFCLASS64); cbn [negb andb]; [|done]. by destruct (k =? EM_RISCV).
Qed.
End Spec.

(** The image can be read: the header, the program headers and the bytes of the
    segments to load are inside of the file. *)
Record elf_readable (file : list Z) (segs : list Elf64_Phdr) : Prop := {
  er_bytes : Forall (fits 8) file;
  er_header : 64 <= Z.of_nat (length file);
  er_table : exists phoff phnum, file_field file 32 8 = Some phoff /\
    file_field file 56 2 = Some phnum /\ segments file (Z.to_nat phnum) phoff = Some segs;
  er_segs : Forall (seg_readable file) segs;
}.

Lemma elf_load_lemma file segs d : elf_readable file segs -> dram_wf d ->
  match elf_load file d with
  | (Ok entry, d') =>
      valid_header file = true /\ Forall (seg_fits (size_ d)) segs /\
      file_field file 24 8 = Some entry /\ dram_wf d' /\ size_ d' = size_ d /\
      forall a, byte_at d' (a - DRAM_BASE) = image_byte file segs a (byte_at d (a - DRAM_BASE))
  | (Throw e, d') => e = LThrow /\ dram_wf d' /\ size_ d' = size_ d /\
      (valid_header file = false \/ ~ Forall (seg_fits (size_ d)) segs)
  end.
Proof.
  intros [Hb Hl (phoff & phnum & E1 & E2 & Es) Hr] Hd. unfold elf_load, bind at 1.
  rewrite validate_spec by done. destruct (valid_header file); [|by split_and!; auto].
  rewrite E1, E2. cbn [lift]. unfold bind at 1 2, ret at 1 2.
  pose proof (load_segments_spec file Hb _ _ segs d Hd Es Hr) as Hs. unfold bind.
  destruct (load_segments file _ phoff d) as [[[]|e] d1].
  - destruct (file_field_some file Hb 24 8) as [entry ->]; [done|lia|].
    destruct Hs as (? & ? & ? & ?). cbn [lift]. unfold ret. by split_and!.
  - destruct Hs as (-> & ? & ? & ?). split_and!; auto.
Qed.

(** C34. Loading an ELF file whose headers and segments lie within the file either
    returns its entry point, with every byte of DRAM as the last segment covering it
    says (the file's bytes, then zeros) and all others as before, or throws, and it
    throws exactly when the header is not that of a 64-bit RISC-V file or a segment
    does not fit in DRAM. *)
Theorem elf_load_spec file segs d : elf_readable file segs -> dram_wf d ->
  match elf_load file d with
  | (Ok entry, d') =>
      valid_header file = true /\ Forall (seg_fits (size_ d)) segs /\
      file_field file 24 8 = Some entry /\ dram_wf d' /\ size_ d' = size_ d /\
      forall a, byte_at d' (a - DRAM_BASE) = image_byte file segs a (byte_at d (a - DRAM_BASE))
  | (Throw e, d') => e = LThrow /\ dram_wf d' /\ size_ d' = size_ d /\
      (valid_header file = false \/ ~ Forall (seg_fits (size_ d)) segs)
  end.
Proof. apply elf_load_lemma. Qed.

(** A file with one segment of two bytes, four bytes long in memory, at DRAM_BASE + 16. *)
Definition le_bytes (n : nat) (v : Z) : list Z := map (fun i => u8 (Z.shiftr v (8 * Z.of_nat i))) (seq 0 n).
Definition small_elf : list Z :=
  ELFMAG ++ [2; 1; 1; 0] ++ replicate 8 0 ++ le_bytes 2 2 ++ le_bytes 2 EM_RISCV ++ le_bytes 4 1 ++
  le_bytes 8 0x80000010 ++ le_bytes 8 64 ++ le_bytes 8 0 ++ le_bytes 4 0 ++ le_bytes 2 64 ++
  le_bytes 2 56 ++ le_bytes 2 1 ++ replicate 6 0 ++
  (* the program header *)
  le_bytes 4 1 ++ le_bytes 4 7 ++ le_bytes 8 120 ++ le_bytes 8 0x80000010 ++ le_bytes 8 0x80000010 ++
  le_bytes 8 2 ++ le_bytes 8 4 ++ le_bytes 8 8 ++ [0xAB; 0xCD].

Definition small_segs : list Elf64_Phdr := [mkPhdr 1 120 0x80000010 2 4].

Lemma small_elf_readable : elf_readable small_elf small_segs.
Proof.
  split.
  - apply (bool_decide_unpack _). vm_compute. exact I.
  - vm_compute. discriminate.
  - exists 64, 1. vm_compute. done.
  - repeat constructor. vm_compute. discriminate.
Qed.

Lemma elf_load_spec_witness :
  match elf_load small_elf (Dram_init 0x1000) with
  | (Ok entry, d') => file_field small_elf 24 8 = Some entry /\ size_ d' = 0x1000
  | (Throw _, _) => False
  end.
Proof.
  pose proof (elf_load_spec small_elf small_segs (Dram_init 0x1000) small_elf_readable) as H.
  assert (dram_wf (Dram_init 0x1000)) as Hd by (split; [apply map_Forall_empty|split; vm_compute; discriminate]).
  specialize (H Hd). destruct (elf_load small_elf (Dram_init 0x1000)) as [[entry|e] d'].
  - destruct H as (_ & _ & E & _ & S & _). split; [exact E|exact S].
  - destruct H as (_ & _ & _ & [E|E]).
    + vm_compute in E. discriminate E.
    + apply E. repeat constructor; vm_compute; discriminate.
Defined.

Example elf_small :
  match elf_load small_elf (Dram_init 0x1000) with
  | (Ok entry, d) => (entry, map (byte_at d) [15; 16; 17; 18; 19]) = (0x80000010, [0; 0xAB; 0xCD; 0; 0])
  | _ => False
  end.
Proof. vm_compute. reflexivity. Qed.

(** A file that ends inside of its header makes the loader read outside of its
    buffer: nothing compares the offsets with the size of the file. *)
Lemma elf_truncated :
  fst (elf_load (take 50 small_elf) (Dram_init 0x1000)) = Throw LUndefined /\
  fst (elf_load (take 121 small_elf) (Dram_init 0x1000)) = Throw LUndefined.
Proof. vm_compute. repeat split. Qed.
