(* ===== verification/Ports.v ===== *)
(** * What the devices are connected to

    Each device is written against the ports it uses, for any world [W] behind them:
    the hart's interrupt lines, the interrupt callback, the host's clock, console and
    random numbers.  Emulator.v connects the ports to the machine. *)

From stdpp Require Import gmap.
From S2P Require Import Prelude Bits Hart HartInv.

(** The hart a device was constructed with. *)
Class HartPort (W : Type) := {
  w_hart : W -> Hart;
  w_upd_hart : (Hart -> Hart) -> W -> W;
}.
Class HartPortLaws (W : Type) `{HartPort W} := {
  w_hart_upd : forall f w, w_hart (w_upd_hart f w) = f (w_hart w);
}.

(* std::function<void(uint32_t id, bool lvl)>. *)
(* @src include/device/device.hpp 110-121 IrqDevice *)
Class IrqPort (W : Type) := irq_callback : Z -> bool -> W -> W.

(** What a client may rely on: the line of an interrupt is the level sent last, and
    the lines do not disturb each other. *)
Class IrqLines (W : Type) `{IrqPort W} := {
  irq_line : Z -> W -> bool;
  irq_line_same : forall id lvl w, irq_line id (irq_callback id lvl w) = lvl;
  irq_line_other : forall id id' lvl w, id <> id' ->
    irq_line id' (irq_callback id lvl w) = irq_line id' w;
}.

(** [std::chrono::steady_clock::now()], in nanoseconds since its epoch. *)
Class SteadyClock (W : Type) := steady_clock_now : W -> Z * W.

(** The callbacks of ui::ConsoleEndpoint. *)
(* @src include/ui/console_endpoint.hpp 30-42 ConsoleEndpoint *)
Class ConsolePort (W : Type) := {
  read_char : W -> option Z * W;
  write_char : Z -> W -> W;
}.

(** What a device may do to the hart: set and clear pending bits of mip. *)
Record mip_frame (h h' : Hart) : Prop := {
  pf_pc : pc h' = pc h;
  pf_gprs : gprs h' = gprs h;
  pf_fprs : fprs h' = fprs h;
  pf_priv : priv h' = priv h;
  pf_csr : forall a, a <> MIP_ADDRESS -> raw h' a = raw h a;
  pf_mip : fits 64 (raw h MIP_ADDRESS) -> sub (raw h MIP_ADDRESS) MIP_read_mask ->
    fits 64 (raw h' MIP_ADDRESS) /\ sub (raw h' MIP_ADDRESS) MIP_read_mask;
  pf_icp : interrupt_check_pending h' = interrupt_check_pending h;
  pf_is : increase_suppressed h' = increase_suppressed h;
}.

Lemma mip_frame_refl h : mip_frame h h.
Proof. split; auto. Qed.

Lemma mip_frame_trans h1 h2 h3 : mip_frame h1 h2 -> mip_frame h2 h3 -> mip_frame h1 h3.
Proof.
  intros [] []. split; try congruence.
  - intros a Ha. by rewrite pf_csr1, pf_csr0.
  - intros F S. destruct (pf_mip0 F S). auto.
Qed.

#[export] Hint Resolve mip_frame_refl : core.

Lemma set_interrupt_pending_frame flag lvl h : mip_frame h (set_interrupt_pending flag lvl h).
Proof.
  assert (forall v, (fits 64 (raw h MIP_ADDRESS) -> sub (raw h MIP_ADDRESS) MIP_read_mask ->
      sub v MIP_read_mask) -> mip_frame h (set_raw MIP_ADDRESS v h)) as Hset.
  { intros v Hv. split; try done.
    - intros a Ha. by rewrite raw_set_raw_ne.
    - intros F S. rewrite raw_set_raw_eq. split; [|auto].
      apply (sub_fits v MIP_read_mask); [by vm_compute|auto]. }
  unfold set_interrupt_pending, MIP_set_pending, MIP_clear_pending.
  destruct lvl; apply Hset; intros _ Hs.
  - apply sub_lor; [done|apply sub_land].
  - by apply sub_andn.
Qed.

(** The bit of one line after it is driven. *)
Lemma set_interrupt_pending_bit b lvl h i :
  0 <= b -> 0 <= i -> Z.testbit MIP_read_mask b = true ->
  Z.testbit (raw (set_interrupt_pending (Z.shiftl 1 b) lvl h) MIP_ADDRESS) i =
    if i =? b then lvl else Z.testbit (raw h MIP_ADDRESS) i.
Proof.
  intros Hb Hi Hm. unfold set_interrupt_pending, MIP_set_pending, MIP_clear_pending.
  destruct lvl; rewrite raw_set_raw_eq; unfold andn;
    rewrite ?Z.lor_spec, ?Z.ldiff_spec, ?Z.land_spec, testbit_flag by lia;
    (destruct (Z.eqb_spec i b) as [->|]; cbn [andb negb]);
    rewrite ?Hm, ?orb_true_r, ?orb_false_r, ?andb_false_r, ?andb_true_r; done.
Qed.

(** A world of interrupt lines alone, for the concrete runs. *)
Definition lines_port : IrqPort (Z -> bool) := fun id lvl w i => if i =? id then lvl else w i.
Definition lines_laws : @IrqLines (Z -> bool) lines_port.
Proof.
  refine {| irq_line := fun id w => w id |}.
  - intros id lvl w. unfold irq_callback, lines_port. by rewrite Z.eqb_refl.
  - intros id id' lvl w Hne. unfold irq_callback, lines_port. by destruct (Z.eqb_spec id' id).
Defined.
