(* ===== verification/SmallDevices.v ===== *)
(** * The small devices

    One Module per device of src/device/ that is a handful of registers: the interrupt
    generator of the compliance tests, the SiFive test finisher, the NEMU console, the
    framebuffer, the BCM2835 random-number generator and the goldfish battery. *)

From stdpp Require Import gmap.
From S2P Require Import Prelude Bits Hart HartInv Machine Ports ByteVec.

(** The 64-bit accesses of several devices: the low word, then the high word. *)
Definition read_twice {S} (read4 : Z -> S -> option Z * S) (offset : Z) (s : S) : option Z * S :=
  match read4 offset s with
  | (None, s) => (None, s)
  | (Some lo, s) =>
      match read4 (u64 (offset + 4)) s with
      | (None, s) => (None, s)
      | (Some hi, s) => (Some (Z.lor lo (u64 (Z.shiftl hi 32))), s)
      end
  end.
Definition write_twice {S} (write4 : Z -> Z -> S -> bool * S) (offset value : Z) (s : S) : bool * S :=
  match write4 offset (Z.land value 0xFFFFFFFF) s with
  | (false, s) => (false, s)
  | (true, s) => write4 (u64 (offset + 4)) (Z.shiftr value 32) s
  end.

Module TestIntrGen.
(* @src include/device/test_intr_gen.hpp 29-51 TestIntrGen *)
Definition SIG_BASE : Z := 0x40000000.
Definition SIG_SIZE : Z := 0x1000.
Definition VERSION_OFFSET : Z := 0.
Definition PLATFORM_OFFSET : Z := 4.
Definition SIG_VERSION : Z := 0x10000.
Definition SET_FLAG : Z := Z.shiftl 1 31.
Definition INTR_MASK : Z := flags [MEIP; SEIP; MSIP; SSIP].

Section TestIntrGen.
Context {W : Type} `{HartPort W}.

(* @src src/device/test_intr_gen.cpp 24-43 TestIntrGen::read_internal *)
Definition sig_read_internal (offset size : Z) (w : W) : option Z * W :=
  if negb (size =? 4) then (None, w)
  else if (VERSION_OFFSET <=? offset) && (offset <? VERSION_OFFSET + 4)
  then (Some (read_little_endian SIG_VERSION (offset - VERSION_OFFSET) size 0), w)
  else if (PLATFORM_OFFSET <=? offset) && (offset <? PLATFORM_OFFSET + 4) then (Some 0, w)
  else (None, w).

(* @src src/device/test_intr_gen.cpp 45-68 TestIntrGen::write_internal *)
Definition sig_write_internal (offset size value : Z) (w : W) : bool * W :=
  if negb (size =? 4) then (false, w)
  else if (VERSION_OFFSET <=? offset) && (offset <? VERSION_OFFSET + 4) then (true, w)
  else if (PLATFORM_OFFSET <=? offset) && (offset <? PLATFORM_OFFSET + 4) then
    let platform_val := u32 value in
    let set := nz (Z.land platform_val SET_FLAG) in
    let mip_mask := Z.land platform_val INTR_MASK in
    (true, if nz mip_mask then w_upd_hart (set_interrupt_pending mip_mask set) w else w)
  else (false, w).
End TestIntrGen.
End TestIntrGen.

Module SiFiveTest.
(** The callback of the constructor, with the code and the status. *)
Class ShutdownPort (W : Type) := on_shutdown : Z -> Z -> W -> W.

(* @src include/device/sifive_test.hpp 26-37 SiFiveTest *)
Definition SIFIVE_BASE : Z := 0x100000.
Definition SIFIVE_SIZE : Z := 0x1000.
Definition FAIL : Z := 0x3333.
Definition PASS : Z := 0x5555.
Definition RESET : Z := 0x7777.

Section SiFiveTest.
Context {W : Type} `{ShutdownPort W}.

(* @src src/device/sifive_test.cpp 21-25 SiFiveTest::read_internal *)
Definition sifive_read_internal (offset size : Z) (w : W) : option Z * W := (Some 0, w).

(* @src src/device/sifive_test.cpp 27-44 SiFiveTest::write_internal *)
Definition sifive_write_internal (offset size value : Z) (w : W) : bool * W :=
  (true,
   if offset =? 0 then
     let status := u16 (Z.land value 0xFFFF) in
     let code := u16 (Z.land (Z.shiftr value 16) 0xFFFF) in
     if (status =? FAIL) || (status =? PASS) || (status =? RESET)
     then on_shutdown code status w else w
   else w).
End SiFiveTest.
End SiFiveTest.

Module NemuConsole.
(** [std::print(out_, "{}", ch)]. *)
Class PrintPort (W : Type) := print_char : Z -> W -> W.

(* @src include/device/nemu_console.hpp 25-31 NemuConsole *)
Definition NEMU_BASE : Z := 0x10008000.
Definition NEMU_SIZE : Z := 8.

Section NemuConsole.
Context {W : Type} `{PrintPort W}.

(* @src src/device/nemu_console.cpp 23-27 NemuConsole::read_internal *)
Definition nemu_read_internal (offset size : Z) (w : W) : option Z * W := (Some 0, w).

(* @src src/device/nemu_console.cpp 29-38 NemuConsole::write_internal *)
Definition nemu_write_internal (offset size value : Z) (w : W) : bool * W :=
  if offset =? 0 then (true, print_char (Z.land value 0xFF) w) else (false, w).
End NemuConsole.
End NemuConsole.

Module SimpleFB.
(* @src include/device/simple_fb.hpp 24-43 SimpleFB *)
Definition DEFAULT_WIDTH : Z := 1024.
Definition DEFAULT_HEIGHT : Z := 768.
Definition BPP : Z := 4.
Definition FB_BASE : Z := 0x50000000.
Definition FB_SIZE : Z := DEFAULT_WIDTH * DEFAULT_HEIGHT * BPP.
Definition SimpleFB_init : bytevec := bv_new FB_SIZE 0.

(* The vector vram_ is the state; the mutex makes an access one step. *)
(* @src src/device/simple_fb.cpp 21-35 SimpleFB::read_internal *)
Definition fb_read_internal (offset size : Z) (vram : bytevec) : option Z * bytevec :=
  if (8 <? size) || (FB_SIZE <? u64 (offset + size)) then (None, vram)
  else (Some (foldl (fun v i => Z.lor v (Z.shiftl (bv_get vram (offset + i)) (8 * i))) 0
                (seqZ 0 size)), vram).

(* @src src/device/simple_fb.cpp 37-49 SimpleFB::write_internal *)
Definition fb_write_internal (offset size value : Z) (vram : bytevec) : bool * bytevec :=
  if (8 <? size) || (FB_SIZE <? u64 (offset + size)) then (false, vram)
  else (true, foldl (fun v i => bv_set (offset + i) (Z.land (Z.shiftr value (8 * i)) 0xFF) v) vram
                (seqZ 0 size)).
End SimpleFB.

Module BCM2835Rng.
(** The next output of the std::mt19937 the device seeds from std::random_device. *)
Class RandomPort (W : Type) := get_random_bytes : W -> Z * W.

(* @src include/device/bcm2835_rng.hpp 25-46 BCM2835Rng *)
Definition RNG_BASE : Z := 0x10004000.
Definition RNG_SIZE : Z := 0x10.
Definition RNG_CTRL : Z := 0.
Definition RNG_STATUS : Z := 4.
Definition RNG_DATA : Z := 8.
Record BCM2835Rng := mkRng { rng_ctrl_ : Z; rng_status_ : Z }.
Definition BCM2835Rng_init : BCM2835Rng := mkRng 0 0.

Section BCM2835Rng.
Context {W : Type} `{RandomPort W}.

(* @src src/device/bcm2835_rng.cpp 36-44 BCM2835Rng::read_internal *)
Definition rng_read_4 (offset : Z) (s : BCM2835Rng * W) : option Z * (BCM2835Rng * W) :=
  let '(d, w) := s in
  if offset =? RNG_CTRL then (Some (rng_ctrl_ d), s)
  else if offset =? RNG_STATUS then (Some (Z.lor (rng_status_ d) (Z.shiftl 1 24)), s)
  else if offset =? RNG_DATA then let '(x, w) := get_random_bytes w in (Some (u32 x), (d, w))
  else (None, s).

(* @src src/device/bcm2835_rng.cpp 21-47 BCM2835Rng::read_internal *)
Definition rng_read_internal (offset size : Z) (s : BCM2835Rng * W) : option Z * (BCM2835Rng * W) :=
  if size =? 8 then read_twice rng_read_4 offset s
  else if negb (size =? 4) then (None, s)
  else rng_read_4 offset s.

(* ~0xFFFFF is the int -0x100000, converted to uint32_t. *)
(* @src src/device/bcm2835_rng.cpp 57-66 BCM2835Rng::write_internal *)
Definition rng_write_4 (offset value : Z) (s : BCM2835Rng * W) : bool * (BCM2835Rng * W) :=
  let '(d, w) := s in
  let value := Z.land value 0xFFFFFFFF in
  if offset =? RNG_CTRL then (true, (mkRng (u32 value) (rng_status_ d), w))
  else if offset =? RNG_STATUS
  then (true, (mkRng (rng_ctrl_ d)
                (Z.lor (andn (rng_status_ d) 0xFFFFF) (Z.land value 0xFFFFF)), w))
  else (false, s).

(* @src src/device/bcm2835_rng.cpp 49-69 BCM2835Rng::write_internal *)
Definition rng_write_internal (offset size value : Z) (s : BCM2835Rng * W) : bool * (BCM2835Rng * W) :=
  if size =? 8 then write_twice rng_write_4 offset value s
  else if negb (size =? 4) then (false, s)
  else rng_write_4 offset value s.
End BCM2835Rng.
End BCM2835Rng.

Module GoldfishBattery.
(* @src include/device/goldfish_battery.hpp 23-61 GoldfishBattery *)
Definition BATTERY_BASE : Z := 0x10003000.
Definition BATTERY_SIZE : Z := 0x1000.
Definition BATTERY_ID : Z := 3.
Definition INT_STATUS : Z := 0x00.
Definition INT_ENABLE : Z := 0x04.
Definition AC_ONLINE : Z := 0x08.
Definition STATUS : Z := 0x0C.
Definition HEALTH : Z := 0x10.
Definition PRESENT : Z := 0x14.
Definition CAPACITY : Z := 0x18.
Record GoldfishBattery := mkBattery {
  int_status_ : Z;
  int_enable_ : Z;
  ac_online_ : Z;
  status_ : Z;
  health_ : Z;
  present_ : Z;
  capacity_ : Z;
}.

(* @src src/device/goldfish_battery.cpp 21-27 GoldfishBattery::GoldfishBattery *)
Definition GoldfishBattery_init (init_capacity : Z) : GoldfishBattery :=
  mkBattery 0 0 1 1 1 1 init_capacity.

Section GoldfishBattery.
Context {W : Type} `{IrqPort W}.
Variable interrupt_id : Z.

(* @src src/device/goldfish_battery.cpp 29-54 GoldfishBattery::read_internal *)
Definition battery_read_internal (offset size : Z) (s : GoldfishBattery * W) :
    option Z * (GoldfishBattery * W) :=
  let '(d, w) := s in
  if offset =? INT_STATUS then
    let r := Z.land (int_status_ d) (int_enable_ d) in
    (Some r,
     if nz r
     then (mkBattery 0 (int_enable_ d) (ac_online_ d) (status_ d) (health_ d) (present_ d) (capacity_ d),
           irq_callback interrupt_id false w)
     else s)
  else if offset =? INT_ENABLE then (Some (int_enable_ d), s)
  else if offset =? AC_ONLINE then (Some (ac_online_ d), s)
  else if offset =? STATUS then (Some (status_ d), s)
  else if offset =? HEALTH then (Some (health_ d), s)
  else if offset =? PRESENT then (Some (present_ d), s)
  else if offset =? CAPACITY then (Some (capacity_ d), s)
  else (Some 0, s).

(* @src src/device/goldfish_battery.cpp 56-63 GoldfishBattery::write_internal *)
Definition battery_write_internal (offset size value : Z) (s : GoldfishBattery * W) :
    bool * (GoldfishBattery * W) :=
  let '(d, w) := s in
  (true,
   if offset =? INT_ENABLE
   then (mkBattery (int_status_ d) (u32 value) (ac_online_ d) (status_ d) (health_ d) (present_ d)
           (capacity_ d), w)
   else s).
End GoldfishBattery.
End GoldfishBattery.
