(* ===== verification/Ns16550.v ===== *)
(** * The NS16550 UART (src/device/ns16550.cpp)

    The register file with the receive queue, on top of the console and the interrupt
    callback.  The mutex makes each access and each tick one step. *)

From S2P Require Import Prelude Bits Ports.

(* @src include/device/ns16550.hpp 38-55 NS16550 *)
Definition NS_BASE : Z := 0x10000000.
Definition NS_SIZE : Z := 0x100.
Definition NS_ID : Z := 10.
Definition QUEUE_SIZE : nat := 64.
Definition RX : Z := 0.
Definition TX : Z := 0.
Definition IER : Z := 1.
Definition IIR : Z := 2.
Definition FCR : Z := 2.
Definition LCR : Z := 3.
Definition MCR : Z := 4.
Definition LSR : Z := 5.
Definition MSR : Z := 6.
Definition SCR : Z := 7.

(* @src include/device/ns16550.hpp 58-116 NS16550 *)
Definition IER_THRI : Z := 0x02.
Definition IER_RDI : Z := 0x01.
Definition IIR_NO_INT : Z := 0x01.
Definition IIR_THRI : Z := 0x02.
Definition IIR_RDI : Z := 0x04.
Definition IIR_TYPE_BITS : Z := 0xc0.
Definition FCR_ENABLE_FIFO : Z := 0x01.
Definition FCR_CLEAR_RCVR : Z := 0x02.
Definition FCR_CLEAR_XMIT : Z := 0x04.
Definition LCR_DLAB : Z := 0x80.
Definition MCR_LOOP : Z := 0x10.
Definition MCR_OUT2 : Z := 0x08.
Definition LSR_TEMT : Z := 0x40.
Definition LSR_THRE : Z := 0x20.
Definition LSR_BI : Z := 0x10.
Definition LSR_DR : Z := 0x01.
Definition MSR_DCD : Z := 0x80.
Definition MSR_DSR : Z := 0x20.
Definition MSR_CTS : Z := 0x10.

(* core::MMU::PGSIZE *)
Definition NS_PGSIZE : Z := 4096.

(* @src include/device/ns16550.hpp 134-149 NS16550 *)
Record NS16550 := mkNs {
  reg_shift_ : Z;
  reg_io_width_ : Z;
  rx_queue_ : list Z;
  dll_ : Z;
  dlm_ : Z;
  iir_ : Z;
  ier_ : Z;
  fcr_ : Z;
  lcr_ : Z;
  mcr_ : Z;
  lsr_ : Z;
  msr_ : Z;
  scr_ : Z;
}.

Definition set_rx_queue q (d : NS16550) := mkNs (reg_shift_ d) (reg_io_width_ d) q (dll_ d) (dlm_ d) (iir_ d) (ier_ d) (fcr_ d) (lcr_ d) (mcr_ d) (lsr_ d) (msr_ d) (scr_ d).
Definition set_dll v (d : NS16550) := mkNs (reg_shift_ d) (reg_io_width_ d) (rx_queue_ d) v (dlm_ d) (iir_ d) (ier_ d) (fcr_ d) (lcr_ d) (mcr_ d) (lsr_ d) (msr_ d) (scr_ d).
Definition set_dlm v (d : NS16550) := mkNs (reg_shift_ d) (reg_io_width_ d) (rx_queue_ d) (dll_ d) v (iir_ d) (ier_ d) (fcr_ d) (lcr_ d) (mcr_ d) (lsr_ d) (msr_ d) (scr_ d).
Definition set_iir v (d : NS16550) := mkNs (reg_shift_ d) (reg_io_width_ d) (rx_queue_ d) (dll_ d) (dlm_ d) v (ier_ d) (fcr_ d) (lcr_ d) (mcr_ d) (lsr_ d) (msr_ d) (scr_ d).
Definition set_ier v (d : NS16550) := mkNs (reg_shift_ d) (reg_io_width_ d) (rx_queue_ d) (dll_ d) (dlm_ d) (iir_ d) v (fcr_ d) (lcr_ d) (mcr_ d) (lsr_ d) (msr_ d) (scr_ d).
Definition set_fcr v (d : NS16550) := mkNs (reg_shift_ d) (reg_io_width_ d) (rx_queue_ d) (dll_ d) (dlm_ d) (iir_ d) (ier_ d) v (lcr_ d) (mcr_ d) (lsr_ d) (msr_ d) (scr_ d).
Definition set_lcr v (d : NS16550) := mkNs (reg_shift_ d) (reg_io_width_ d) (rx_queue_ d) (dll_ d) (dlm_ d) (iir_ d) (ier_ d) (fcr_ d) v (mcr_ d) (lsr_ d) (msr_ d) (scr_ d).
Definition set_mcr v (d : NS16550) := mkNs (reg_shift_ d) (reg_io_width_ d) (rx_queue_ d) (dll_ d) (dlm_ d) (iir_ d) (ier_ d) (fcr_ d) (lcr_ d) v (lsr_ d) (msr_ d) (scr_ d).
Definition set_lsr v (d : NS16550) := mkNs (reg_shift_ d) (reg_io_width_ d) (rx_queue_ d) (dll_ d) (dlm_ d) (iir_ d) (ier_ d) (fcr_ d) (lcr_ d) (mcr_ d) v (msr_ d) (scr_ d).
Definition set_scr v (d : NS16550) := mkNs (reg_shift_ d) (reg_io_width_ d) (rx_queue_ d) (dll_ d) (dlm_ d) (iir_ d) (ier_ d) (fcr_ d) (lcr_ d) (mcr_ d) (lsr_ d) (msr_ d) v.

(** [lsr_ |= f] and [lsr_ &= ~f]. *)
Definition lsr_raise f (d : NS16550) := set_lsr (Z.lor (lsr_ d) f) d.
Definition lsr_drop f (d : NS16550) := set_lsr (andn (lsr_ d) f) d.

(* @src src/device/ns16550.cpp 31-37 NS16550::NS16550 *)
Definition NS16550_init (reg_shift reg_io_width : Z) : NS16550 :=
  mkNs reg_shift reg_io_width [] 0x0C 0 IIR_NO_INT 0 0 0 MCR_OUT2 (Z.lor LSR_TEMT LSR_THRE)
    (Z.lor (Z.lor MSR_DCD MSR_DSR) MSR_CTS) 0.

(* The FIFO resets, on the registers. *)
(* @src src/device/ns16550.cpp 163-177 NS16550::update_interrupt *)
Definition ns_clear (d : NS16550) : NS16550 :=
  let d := if nz (Z.land (fcr_ d) FCR_CLEAR_RCVR)
           then lsr_drop LSR_DR (set_rx_queue [] (set_fcr (andn (fcr_ d) FCR_CLEAR_RCVR) d)) else d in
  if nz (Z.land (fcr_ d) FCR_CLEAR_XMIT)
  then lsr_raise (Z.lor LSR_TEMT LSR_THRE) (set_fcr (andn (fcr_ d) FCR_CLEAR_XMIT) d) else d.

(* @src src/device/ns16550.cpp 179-185 NS16550::update_interrupt *)
Definition ns_interrupts (d : NS16550) : Z :=
  Z.lor (if nz (Z.land (ier_ d) IER_RDI) && nz (Z.land (lsr_ d) LSR_DR) then IIR_RDI else 0)
    (if nz (Z.land (ier_ d) IER_THRI) && nz (Z.land (lsr_ d) LSR_TEMT) then IIR_THRI else 0).

(* @src src/device/ns16550.cpp 204-222 NS16550::rx_byte *)
Definition rx_byte (d : NS16550) : Z * NS16550 :=
  match rx_queue_ d with
  | [] => (0, lsr_drop LSR_DR d)
  | c :: q =>
      if nz (Z.land (lsr_ d) LSR_BI) then (0, lsr_drop LSR_BI d)
      else
        let d := set_rx_queue q d in
        (c, match q with [] => lsr_drop LSR_DR d | _ => d end)
  end.

Section Ns16550.
Context {W : Type} `{IrqPort W} `{ConsolePort W}.
Variable interrupt_id : Z.
Abbreviation ns := (NS16550 * W)%type.

(* @src src/device/ns16550.cpp 160-202 NS16550::update_interrupt *)
Definition update_interrupt (s : ns) : ns :=
  let '(d, w) := s in
  let d := ns_clear d in
  let interrupts := ns_interrupts d in
  let '(d, w) := if interrupts =? 0
                 then (set_iir IIR_NO_INT d, irq_callback interrupt_id false w)
                 else (set_iir interrupts d, irq_callback interrupt_id true w) in
  (if nz (Z.land (ier_ d) IER_THRI) then d else lsr_raise (Z.lor LSR_TEMT LSR_THRE) d, w).

(* The callback is set by the UI backend before the CPU thread starts. *)
(* @src src/device/ns16550.cpp 224-229 NS16550::tx_byte *)
Definition tx_byte (val : Z) (s : ns) : ns :=
  let '(d, w) := s in (lsr_raise (Z.lor LSR_TEMT LSR_THRE) d, write_char val w).

(* @src src/device/ns16550.cpp 39-56 NS16550::tick *)
Definition ns_tick (s : ns) : ns :=
  let '(d, w) := s in
  if negb (nz (Z.land (fcr_ d) FCR_ENABLE_FIFO)) || nz (Z.land (mcr_ d) MCR_LOOP) ||
     (QUEUE_SIZE <=? length (rx_queue_ d))%nat
  then s
  else
    let '(c, w) := read_char w in
    match c with
    | None => (d, w)
    | Some c => update_interrupt (lsr_raise LSR_DR (set_rx_queue (rx_queue_ d ++ [u8 c]) d), w)
    end.

(* @src src/device/ns16550.cpp 58-89 NS16550::read_internal *)
Definition ns_read_internal (offset size : Z) (s : ns) : option Z * ns :=
  let '(d, w) := s in
  if negb (reg_io_width_ d =? size) then (None, s)
  else if NS_PGSIZE <? u64 (offset + size) then (None, s)
  else
    let offset := Z.land (Z.shiftr offset (reg_shift_ d)) 7 in
    let dlab := nz (Z.land (lcr_ d) LCR_DLAB) in
    if offset =? RX then
      let '(val, d) := if dlab then (dll_ d, d) else rx_byte d in
      (Some val, update_interrupt (d, w))
    else if offset =? IER then (Some (if dlab then dlm_ d else ier_ d), s)
    else if offset =? IIR then (Some (Z.lor (iir_ d) IIR_TYPE_BITS), s)
    else if offset =? LCR then (Some (lcr_ d), s)
    else if offset =? MCR then (Some (mcr_ d), s)
    else if offset =? LSR then (Some (lsr_ d), s)
    else if offset =? MSR then (Some (msr_ d), s)
    else if offset =? SCR then (Some (scr_ d), s)
    else (None, s).

(* The data register outside of the divisor latch. *)
(* @src src/device/ns16550.cpp 106-125 NS16550::write_internal *)
Definition ns_write_tx (value : Z) (s : ns) : ns :=
  let '(d, w) := s in
  if nz (Z.land (lcr_ d) LCR_DLAB) then update_interrupt (set_dll value d, w)
  else if nz (Z.land (mcr_ d) MCR_LOOP) then
    update_interrupt
      (if (length (rx_queue_ d) <? QUEUE_SIZE)%nat
       then lsr_raise LSR_DR (set_rx_queue (rx_queue_ d ++ [value]) d) else d, w)
  else update_interrupt (tx_byte value (d, w)).

(* @src src/device/ns16550.cpp 91-158 NS16550::write_internal *)
Definition ns_write_internal (offset size value : Z) (s : ns) : bool * ns :=
  let '(d, w) := s in
  if negb (reg_io_width_ d =? size) then (false, s)
  else if NS_PGSIZE <? u64 (offset + size) then (false, s)
  else
    let offset := Z.land (Z.shiftr offset (reg_shift_ d)) 7 in
    let value := Z.land value 0xFF in
    if offset =? TX then (true, ns_write_tx value s)
    else if offset =? IER then
      (true, update_interrupt
               (if nz (Z.land (lcr_ d) LCR_DLAB) then set_dlm value d
                else set_ier (Z.land value 0x0f) d, w))
    else if offset =? FCR then (true, update_interrupt (set_fcr value d, w))
    else if offset =? LCR then (true, update_interrupt (set_lcr value d, w))
    else if offset =? MCR then (true, update_interrupt (set_mcr value d, w))
    else if offset =? LSR then (true, s)
    else if offset =? MSR then (true, s)
    else if offset =? SCR then (true, (set_scr value d, w))
    else (false, s).
End Ns16550.
