(* ===== verification/GoldfishRtc.v ===== *)
(** * The goldfish real-time clock (src/device/goldfish_rtc.cpp)

    Guest time as an offset to the host's steady clock, the alarm and its interrupt.
    The mutex makes each access and each tick one step. *)

From S2P Require Import Prelude Bits Ports SmallDevices.

(** [system_clock::to_time_t(system_clock::now())]. *)
Class SystemClock (W : Type) := unix_time : W -> Z * W.

(* @src include/device/goldfish_rtc.hpp 27-39 GoldfishRTC *)
Definition RTC_BASE : Z := 0x101000.
Definition RTC_SIZE : Z := 0x100.
Definition RTC_ID : Z := 11.
Definition TIME_LOW : Z := 0x00.
Definition TIME_HIGH : Z := 0x04.
Definition ALARM_LOW : Z := 0x08.
Definition ALARM_HIGH : Z := 0x0c.
Definition IRQ_ENABLED : Z := 0x10.
Definition CLEAR_ALARM : Z := 0x14.
Definition ALARM_STATUS : Z := 0x18.
Definition CLEAR_INTERRUPT : Z := 0x1c.

(* uint32_t flags are kept as numbers. *)
(* @src include/device/goldfish_rtc.hpp 64-76 GoldfishRTC *)
Record GoldfishRTC := mkRtc {
  tick_offset_ : Z;
  alarm_next_ : Z;
  alarm_running_ : Z;
  irq_pending_ : Z;
  irq_enabled_ : Z;
  time_high_ : Z;
}.
Definition set_tick_offset v (d : GoldfishRTC) := mkRtc v (alarm_next_ d) (alarm_running_ d) (irq_pending_ d) (irq_enabled_ d) (time_high_ d).
Definition set_alarm_next v (d : GoldfishRTC) := mkRtc (tick_offset_ d) v (alarm_running_ d) (irq_pending_ d) (irq_enabled_ d) (time_high_ d).
Definition set_alarm_running v (d : GoldfishRTC) := mkRtc (tick_offset_ d) (alarm_next_ d) v (irq_pending_ d) (irq_enabled_ d) (time_high_ d).
Definition set_irq_pending v (d : GoldfishRTC) := mkRtc (tick_offset_ d) (alarm_next_ d) (alarm_running_ d) v (irq_enabled_ d) (time_high_ d).
Definition set_irq_enabled v (d : GoldfishRTC) := mkRtc (tick_offset_ d) (alarm_next_ d) (alarm_running_ d) (irq_pending_ d) v (time_high_ d).
Definition set_time_high v (d : GoldfishRTC) := mkRtc (tick_offset_ d) (alarm_next_ d) (alarm_running_ d) (irq_pending_ d) (irq_enabled_ d) v.

Definition HIGH_MASK : Z := 0xFFFFFFFF00000000.
Definition LOW_MASK : Z := 0x00000000FFFFFFFF.

Section GoldfishRtc.
Context {W : Type} `{IrqPort W} `{SteadyClock W}.
Variable interrupt_id : Z.
Abbreviation rtc := (GoldfishRTC * W)%type.

(* The clock's representation is a signed 64-bit count of nanoseconds. *)
(* @src src/device/goldfish_rtc.cpp 130-135 GoldfishRTC::get_host_time_ns *)
Definition get_host_time_ns (w : W) : Z * W :=
  let '(now, w) := steady_clock_now w in (u64 now, w).

(* @src src/device/goldfish_rtc.cpp 126-128 GoldfishRTC::get_count *)
Definition get_count (s : rtc) : Z * rtc :=
  let '(d, w) := s in
  let '(host, w) := get_host_time_ns w in (u64 (host + tick_offset_ d), (d, w)).

(* @src src/device/goldfish_rtc.cpp 23-32 GoldfishRTC::GoldfishRTC *)
Definition GoldfishRTC_init `{SystemClock W} (w : W) : rtc :=
  let '(unix, w) := unix_time w in
  let '(host, w) := get_host_time_ns w in
  (mkRtc (u64 (u64 (u64 unix * 1000000000) - host)) 0 0 0 0 0, w).

(* @src src/device/goldfish_rtc.cpp 154-157 GoldfishRTC::update_irq *)
Definition rtc_update_irq (s : rtc) : rtc :=
  let '(d, w) := s in
  (d, irq_callback interrupt_id (nz (irq_pending_ d) && nz (irq_enabled_ d)) w).

(* @src src/device/goldfish_rtc.cpp 148-152 GoldfishRTC::trigger_interrupt *)
Definition trigger_interrupt (s : rtc) : rtc :=
  let '(d, w) := s in rtc_update_irq (set_irq_pending 1 (set_alarm_running 0 d), w).

(* @src src/device/goldfish_rtc.cpp 146-146 GoldfishRTC::clear_alarm *)
Definition clear_alarm (s : rtc) : rtc := let '(d, w) := s in (set_alarm_running 0 d, w).

(* @src src/device/goldfish_rtc.cpp 137-144 GoldfishRTC::set_alarm *)
Definition set_alarm (s : rtc) : rtc :=
  let '(count, (d, w)) := get_count s in
  if alarm_next_ d <=? count then trigger_interrupt (clear_alarm (d, w))
  else (set_alarm_running 1 d, w).

(* The clock is read only when an alarm is set. *)
(* @src src/device/goldfish_rtc.cpp 34-39 GoldfishRTC::tick *)
Definition rtc_tick (s : rtc) : rtc :=
  if nz (alarm_running_ (fst s)) then
    let '(count, (d, w)) := get_count s in
    if alarm_next_ d <=? count then trigger_interrupt (d, w) else (d, w)
  else s.

(* @src src/device/goldfish_rtc.cpp 59-75 GoldfishRTC::read_internal *)
Definition rtc_read_4 (offset : Z) (s : rtc) : option Z * rtc :=
  let d := fst s in
  if offset =? TIME_LOW then
    let '(count, (d, w)) := get_count s in
    (Some (Z.land count 0xFFFFFFFF), (set_time_high (u32 (Z.shiftr count 32)) d, w))
  else if offset =? TIME_HIGH then (Some (time_high_ d), s)
  else if offset =? ALARM_LOW then (Some (Z.land (alarm_next_ d) 0xFFFFFFFF), s)
  else if offset =? ALARM_HIGH then (Some (Z.shiftr (alarm_next_ d) 32), s)
  else if offset =? IRQ_ENABLED then (Some (irq_enabled_ d), s)
  else if offset =? ALARM_STATUS then (Some (alarm_running_ d), s)
  else (None, s).

(* @src src/device/goldfish_rtc.cpp 41-76 GoldfishRTC::read_internal *)
Definition rtc_read_internal (offset size : Z) (s : rtc) : option Z * rtc :=
  if size =? 8 then read_twice rtc_read_4 offset s
  else if negb (size =? 4) then (None, s)
  else rtc_read_4 offset s.

(* The time is moved so that one half of the current count becomes the value. *)
(* @src src/device/goldfish_rtc.cpp 91-103 GoldfishRTC::write_internal *)
Definition rtc_move_time (new_tick : Z -> Z) (s : rtc) : rtc :=
  let '(current_tick, (d, w)) := get_count s in
  (set_tick_offset (u64 (tick_offset_ d + u64 (new_tick current_tick - current_tick))) d, w).

(* @src src/device/goldfish_rtc.cpp 86-123 GoldfishRTC::write_internal *)
Definition rtc_write_4 (offset value : Z) (s : rtc) : bool * rtc :=
  let '(d, w) := s in
  let value := Z.land value 0xFFFFFFFF in
  if offset =? TIME_LOW
  then (true, rtc_move_time (fun t => Z.lor (Z.land t HIGH_MASK) value) s)
  else if offset =? TIME_HIGH
  then (true, rtc_move_time (fun t => Z.lor (Z.land t LOW_MASK) (u64 (Z.shiftl value 32))) s)
  else if offset =? ALARM_LOW
  then (true, set_alarm (set_alarm_next (Z.lor (Z.land (alarm_next_ d) HIGH_MASK) value) d, w))
  else if offset =? ALARM_HIGH
  then (true, (set_alarm_next (Z.lor (Z.land (alarm_next_ d) LOW_MASK) (u64 (Z.shiftl value 32))) d, w))
  else if offset =? IRQ_ENABLED
  then (true, rtc_update_irq (set_irq_enabled (Z.land value 1) d, w))
  else if offset =? CLEAR_ALARM then (true, clear_alarm s)
  else if offset =? CLEAR_INTERRUPT then (true, rtc_update_irq (set_irq_pending 0 d, w))
  else (false, s).

(* @src src/device/goldfish_rtc.cpp 78-124 GoldfishRTC::write_internal *)
Definition rtc_write_internal (offset size value : Z) (s : rtc) : bool * rtc :=
  if size =? 8 then write_twice rtc_write_4 offset value s
  else if negb (size =? 4) then (false, s)
  else rtc_write_4 offset value s.
End GoldfishRtc.
