(* ===== verification/GoldfishEvents.v ===== *)
(** * The goldfish input device (src/device/goldfish_events.cpp)

    A ring buffer of event words between the UI and the guest driver, and the pages
    that describe the device.  The mutex makes each operation one step. *)

From S2P Require Import Prelude Bits Ports.

(* EV_SYN, EV_KEY, EV_ABS and EV_MAX of linux/input-event-codes.h. *)
Definition EV_SYN : Z := 0x00.
Definition EV_KEY : Z := 0x01.
Definition EV_ABS : Z := 0x03.
Definition EV_MAX : Z := 0x1f.

(* @src include/device/goldfish_events.hpp 28-44 GoldfishEvents *)
Definition EVENTS_BASE : Z := 0x10002000.
Definition EVENTS_SIZE : Z := 0x1000.
Definition EVENTS_ID : Z := 2.
Definition REG_READ : Z := 0x00.
Definition REG_SET_PAGE : Z := 0x00.
Definition REG_LEN : Z := 0x04.
Definition REG_DATA : Z := 0x08.
Definition PAGE_NAME : Z := 0x00000.
Definition PAGE_EVBITS : Z := 0x10000.
Definition PAGE_ABSDATA : Z := Z.lor 0x20000 EV_ABS.
Definition MAX_EVENTS : Z := 256 * 4.

(* @src include/device/goldfish_events.hpp 54-58 GoldfishEvents::State *)
Inductive EventsState := STATE_INIT | STATE_BUFFERED | STATE_LIVE.

(* @src include/device/goldfish_events.hpp 75-87 GoldfishEvents *)
Record GoldfishEvents := mkEvents {
  device_name_ : list Z;
  page_ : Z;
  state_ : EventsState;
  events_ : list Z;
  first_ : Z;
  last_ : Z;
  ev_bits_ : list (list Z);
}.

Definition set_page v (d : GoldfishEvents) := mkEvents (device_name_ d) v (state_ d) (events_ d) (first_ d) (last_ d) (ev_bits_ d).
Definition set_state v (d : GoldfishEvents) := mkEvents (device_name_ d) (page_ d) v (events_ d) (first_ d) (last_ d) (ev_bits_ d).
Definition set_events v (d : GoldfishEvents) := mkEvents (device_name_ d) (page_ d) (state_ d) v (first_ d) (last_ d) (ev_bits_ d).
Definition set_first v (d : GoldfishEvents) := mkEvents (device_name_ d) (page_ d) (state_ d) (events_ d) v (last_ d) (ev_bits_ d).
Definition set_last v (d : GoldfishEvents) := mkEvents (device_name_ d) (page_ d) (state_ d) (events_ d) (first_ d) v (ev_bits_ d).
Definition set_ev_bits v (d : GoldfishEvents) := mkEvents (device_name_ d) (page_ d) (state_ d) (events_ d) (first_ d) (last_ d) v.

Definition is_live (s : EventsState) : bool := match s with STATE_LIVE => true | _ => false end.
Definition is_buffered (s : EventsState) : bool := match s with STATE_BUFFERED => true | _ => false end.

(** [(i + 1) & (MAX_EVENTS - 1)]. *)
Definition ring_next (i : Z) : Z := Z.land (u64 (i + 1)) (MAX_EVENTS - 1).

(** ** The description pages *)

(* On one type's bit vector; the masks are truncated to uint8_t. *)
(* @src src/device/goldfish_events.cpp 124-149 GoldfishEvents::set_event_bits *)
Definition set_event_bits_in (bitl bith : Z) (bits : list Z) : list Z :=
  let il := u32 (bitl / 8) in
  let ih := u32 (bith / 8) in
  let bits := if Z.of_nat (length bits) <=? ih
              then bits ++ replicate (Z.to_nat (ih + 1) - length bits) 0 else bits in
  let maskl := u8 (Z.shiftl 0xFF (Z.land bitl 7)) in
  let maskh := u8 (Z.shiftr 0xFF (7 - Z.land bith 7)) in
  let or i m bits := <[Z.to_nat i := Z.lor (nth (Z.to_nat i) bits 0) m]> bits in
  if ih <=? il then or ih (Z.land maskh maskl) bits
  else
    let bits := or il maskl bits in
    let bits := foldl (fun bits i => <[Z.to_nat i := 0xFF]> bits) bits (seqZ (il + 1) (ih - (il + 1))) in
    or ih maskh bits.

(* @src src/device/goldfish_events.cpp 124-149 GoldfishEvents::set_event_bits *)
Definition set_event_bits (type bitl bith : Z) (d : GoldfishEvents) : GoldfishEvents :=
  if EV_MAX <? type then d
  else set_ev_bits (<[Z.to_nat type := set_event_bits_in bitl bith (nth (Z.to_nat type) (ev_bits_ d) [])]>
                     (ev_bits_ d)) d.

(* @src src/device/goldfish_events.cpp 151-153 GoldfishEvents::set_event_bit *)
Definition set_event_bit (type bit : Z) (d : GoldfishEvents) : GoldfishEvents := set_event_bits type bit bit d.

(* @src src/device/goldfish_events.cpp 21-36 GoldfishEvents::GoldfishEvents *)
Definition GoldfishEvents_init (device_name : list Z) : GoldfishEvents :=
  let d := mkEvents device_name 0 STATE_INIT (replicate 1024 0) 0 0 (replicate 32 []) in
  let d := set_event_bit EV_SYN EV_KEY d in
  let d := set_event_bits EV_KEY 1 0xff d in
  set_event_bits EV_KEY 0x160 0x1ff d.

(* @src src/device/goldfish_events.cpp 155-163 GoldfishEvents::get_page_len *)
Definition get_page_len (d : GoldfishEvents) : Z :=
  if page_ d =? PAGE_NAME then Z.of_nat (length (device_name_ d))
  else if (PAGE_EVBITS <=? page_ d) && (page_ d <=? PAGE_EVBITS + EV_MAX)
  then Z.of_nat (length (nth (Z.to_nat (page_ d - PAGE_EVBITS)) (ev_bits_ d) []))
  else 0.

(* @src src/device/goldfish_events.cpp 165-182 GoldfishEvents::get_page_data *)
Definition get_page_data (offset : Z) (d : GoldfishEvents) : Z :=
  if get_page_len d <=? offset then 0
  else if page_ d =? PAGE_NAME then u8 (nth (Z.to_nat offset) (device_name_ d) 0)
  else if (PAGE_EVBITS <=? page_ d) && (page_ d <=? PAGE_EVBITS + EV_MAX) then
    let bits := nth (Z.to_nat (page_ d - PAGE_EVBITS)) (ev_bits_ d) [] in
    if offset <? Z.of_nat (length bits) then nth (Z.to_nat offset) bits 0 else 0
  else 0.

(** ** The event queue *)

(* One of the three words of an event. *)
(* @src src/device/goldfish_events.cpp 96-101 GoldfishEvents::enqueue_event *)
Definition put_word (v : Z) (d : GoldfishEvents) : GoldfishEvents :=
  set_last (ring_next (last_ d)) (set_events (<[Z.to_nat (last_ d) := v]> (events_ d)) d).

Section GoldfishEvents.
Context {W : Type} `{IrqPort W}.
Variable interrupt_id : Z.
Abbreviation ev := (GoldfishEvents * W)%type.

(* @src src/device/goldfish_events.cpp 80-102 GoldfishEvents::enqueue_event *)
Definition enqueue_event (type code value : Z) (s : ev) : ev :=
  let '(d, w) := s in
  let enqueued := if first_ d <=? last_ d then last_ d - first_ d
                  else MAX_EVENTS + last_ d - first_ d in
  if MAX_EVENTS <? enqueued + 3 then s
  else
    let '(d, w) :=
      if first_ d =? last_ d
      then if is_live (state_ d) then (d, irq_callback interrupt_id true w)
           else (set_state STATE_BUFFERED d, w)
      else (d, w) in
    (put_word (u32 value) (put_word code (put_word type d)), w).

(* @src src/device/goldfish_events.cpp 104-122 GoldfishEvents::dequeue_event *)
Definition dequeue_event (s : ev) : Z * ev :=
  let '(d, w) := s in
  if first_ d =? last_ d then (0, s)
  else
    let event := nth (Z.to_nat (first_ d)) (events_ d) 0 in
    let d := set_first (ring_next (first_ d)) d in
    let w :=
      if first_ d =? last_ d then irq_callback interrupt_id false w
      else if (Z.land (u64 (first_ d + 2)) (MAX_EVENTS - 1) <? last_ d) ||
              (last_ d <? Z.land (first_ d) (MAX_EVENTS - 1))
      then irq_callback interrupt_id true (irq_callback interrupt_id false w)
      else w in
    (event, (d, w)).

(* @src src/device/goldfish_events.cpp 38-44 GoldfishEvents::push_key_event *)
Definition push_key_event (code : Z) (press : bool) (s : ev) : ev :=
  enqueue_event EV_KEY (u32 code) (if press then 1 else 0) s.

(* @src src/device/goldfish_events.cpp 46-68 GoldfishEvents::read_internal *)
Definition events_read_internal (offset size : Z) (s : ev) : option Z * ev :=
  let '(d, w) := s in
  let '(d, w) :=
    if (offset =? REG_LEN) && (page_ d =? PAGE_ABSDATA)
    then (set_state STATE_LIVE d,
          if is_buffered (state_ d) then irq_callback interrupt_id true w else w)
    else (d, w) in
  if offset =? REG_READ then let '(v, s) := dequeue_event (d, w) in (Some v, s)
  else if offset =? REG_LEN then (Some (get_page_len d), (d, w))
  else if REG_DATA <=? offset then (Some (get_page_data (offset - REG_DATA) d), (d, w))
  else (Some 0, (d, w)).

(* @src src/device/goldfish_events.cpp 70-78 GoldfishEvents::write_internal *)
Definition events_write_internal (offset size value : Z) (s : ev) : bool * ev :=
  let '(d, w) := s in
  (true, if offset =? REG_SET_PAGE then (set_page (u32 value) d, w) else s).
End GoldfishEvents.

(** The bit vectors of the device: EV_KEY in the synchronisation type, and the two
    ranges of keys. *)
Example events_bits :
  let d := GoldfishEvents_init [] in
  (nth 0 (ev_bits_ d) [], length (nth 1 (ev_bits_ d) []), nth 0 (nth 1 (ev_bits_ d) []) 0,
   nth 31 (nth 1 (ev_bits_ d) []) 0, nth 32 (nth 1 (ev_bits_ d) []) 0, nth 44 (nth 1 (ev_bits_ d) []) 0)
  = ([2], 64%nat, 0xFE, 0xFF, 0, 0xFF).
Proof. vm_compute. reflexivity. Qed.
