(* ===== verification/PFlash.v ===== *)
(** * The CFI parallel flash (src/device/pflash_cfi01.cpp)

    The Intel command set as a state machine over the array: the write cycle and the
    current command decide what the next access does. *)

From stdpp Require Import gmap.
From S2P Require Import Prelude Bits ByteVec SmallDevices.

(* @src include/device/pflash_cfi01.hpp 47-73 PFlashCFI01 *)
Record PFlashCFI01 := mkFlash {
  num_blocks_ : Z;
  sector_len_ : Z;
  total_size_ : Z;
  bank_width_ : Z;
  device_width_ : Z;
  max_device_width_ : Z;
  ident0_ : Z;
  ident1_ : Z;
  storage_ : bytevec;
  cfi_table_ : list Z;
  wcycle_ : Z;
  cmd_ : Z;
  status_ : Z;
  counter_ : Z;
  blk_bytes_ : bytevec;
  writeblock_size_ : Z;
  blk_offset_ : Z;
  read_mode_ : bool;
}.

(** The part of the state that accesses change; the rest is fixed by the constructor. *)
Definition upd_flash (st : bytevec) (wcycle cmd status counter : Z) (blk : bytevec) (blk_offset : Z)
    (read_mode : bool) (d : PFlashCFI01) : PFlashCFI01 :=
  mkFlash (num_blocks_ d) (sector_len_ d) (total_size_ d) (bank_width_ d) (device_width_ d)
    (max_device_width_ d) (ident0_ d) (ident1_ d) st (cfi_table_ d) wcycle cmd status counter blk
    (writeblock_size_ d) blk_offset read_mode.
Definition set_storage v d := upd_flash v (wcycle_ d) (cmd_ d) (status_ d) (counter_ d) (blk_bytes_ d) (blk_offset_ d) (read_mode_ d) d.
Definition set_wcycle v d := upd_flash (storage_ d) v (cmd_ d) (status_ d) (counter_ d) (blk_bytes_ d) (blk_offset_ d) (read_mode_ d) d.
Definition set_cmd v d := upd_flash (storage_ d) (wcycle_ d) v (status_ d) (counter_ d) (blk_bytes_ d) (blk_offset_ d) (read_mode_ d) d.
Definition set_status v d := upd_flash (storage_ d) (wcycle_ d) (cmd_ d) v (counter_ d) (blk_bytes_ d) (blk_offset_ d) (read_mode_ d) d.
Definition set_counter v d := upd_flash (storage_ d) (wcycle_ d) (cmd_ d) (status_ d) v (blk_bytes_ d) (blk_offset_ d) (read_mode_ d) d.
Definition set_blk_bytes v d := upd_flash (storage_ d) (wcycle_ d) (cmd_ d) (status_ d) (counter_ d) v (blk_offset_ d) (read_mode_ d) d.
Definition set_blk_offset v d := upd_flash (storage_ d) (wcycle_ d) (cmd_ d) (status_ d) (counter_ d) (blk_bytes_ d) v (read_mode_ d) d.
Definition set_read_mode v d := upd_flash (storage_ d) (wcycle_ d) (cmd_ d) (status_ d) (counter_ d) (blk_bytes_ d) (blk_offset_ d) v d.
Definition ready (d : PFlashCFI01) := set_status (Z.lor (status_ d) 0x80) d.

(** ** Construction *)

(* The entries from 0x10 on; the others are zero. *)
(* @src src/device/pflash_cfi01.cpp 39-84 PFlashCFI01::PFlashCFI01 *)
Definition cfi_entries (device_len blocks_per_device sector_len_per_device : Z) : list Z :=
  [ (* 0x10 *) 0x51; 0x52; 0x59; 0x01; 0x00; 0x31; 0x00; 0x00; 0x00; 0x00; 0x00;
    (* 0x1B *) 0x45; 0x55; 0x00; 0x00; 0x07;
    (* 0x20 *) 0x07; 0x0A; 0x00; 0x04; 0x04; 0x04; 0x00; u8 (ctz 64 device_len); 0x02; 0x00;
    (* 0x2A *) 0x0B; 0x00; 0x01; Z.land (blocks_per_device - 1) 0xFF;
    u8 (Z.shiftr (blocks_per_device - 1) 8); Z.land (Z.shiftr sector_len_per_device 8) 0xFF;
    (* 0x30 *) Z.land (Z.shiftr sector_len_per_device 16) 0xFF; 0x50; 0x52; 0x49; 0x31; 0x30;
    0x00; 0x00; 0x00; 0x00; 0x00; 0x00; 0x00; 0x00; 0x00; 0x01 ].
Definition CFI_TABLE_SIZE : Z := 0x52.

(* @src src/device/pflash_cfi01.cpp 24-88 PFlashCFI01::PFlashCFI01 *)
Definition PFlash_init (sector_len num_blocks : Z) : PFlashCFI01 :=
  let total := u64 (sector_len * num_blocks) in
  let num_devices := 2 in
  let blocks_per_device := num_blocks in
  let sector_len_per_device := sector_len / num_devices in
  let device_len := u64 (sector_len_per_device * blocks_per_device) in
  let entries := cfi_entries device_len blocks_per_device sector_len_per_device in
  let table := replicate 16 0 ++ entries ++ replicate (66 - length entries) 0 in
  let writeblock_size := u32 (u32 (Z.shiftl 1 (nth 0x2A table 0)) * num_devices) in
  mkFlash num_blocks sector_len total 4 2 2 0x89 0x18 (bv_new total 0xFF) table 0 0 0x80 0
    (bv_new writeblock_size 0) writeblock_size (-1) true.

(* The bytes of the file are read over the array; [None] is the std::runtime_error
   of a file that is too large. *)
(* @src src/device/pflash_cfi01.cpp 90-103 PFlashCFI01::load *)
Definition PFlash_load (bytes : list Z) (offset : Z) (d : PFlashCFI01) : option PFlashCFI01 :=
  if bv_size (storage_ d) <? u64 (offset + Z.of_nat (length bytes)) then None
  else Some (set_storage (foldl (fun v ib => bv_set (offset + Z.of_nat (fst ib)) (snd ib) v)
                            (storage_ d) (imap pair bytes)) d).

(** ** The array and the write block *)

(* @src src/device/pflash_cfi01.cpp 324-331 PFlashCFI01::data_read *)
Definition data_read (offset width : Z) (d : PFlashCFI01) : Z :=
  if (4 <? width) || (bv_size (storage_ d) <? u64 (offset + width)) then 0xFFFFFFFF
  else bv_load (storage_ d) offset (Z.to_nat width).

(* @src src/device/pflash_cfi01.cpp 333-356 PFlashCFI01::data_write *)
Definition data_write (offset value width : Z) (d : PFlashCFI01) : PFlashCFI01 :=
  if 4 <? width then d
  else if negb (blk_offset_ d =? -1) then
    if (offset <? blk_offset_ d) ||
       (u64 (u64 (blk_offset_ d) + writeblock_size_ d) <? u64 (offset + width))
    then set_status (Z.lor (status_ d) 0x10) d
    else set_blk_bytes (bv_store (offset - blk_offset_ d) (Z.to_nat width) value (blk_bytes_ d)) d
  else if bv_size (storage_ d) <? u64 (offset + width) then d
  else set_storage (bv_store offset (Z.to_nat width) value (storage_ d)) d.

(* The mask ~(writeblock_size_ - 1) is a uint32_t. *)
(* @src src/device/pflash_cfi01.cpp 358-362 PFlashCFI01::blk_write_start *)
Definition blk_write_start (offset : Z) (d : PFlashCFI01) : PFlashCFI01 :=
  let d := set_blk_offset (Z.land offset (u32 (Z.lnot (writeblock_size_ d - 1)))) d in
  set_blk_bytes (bv_memcpy 0 (storage_ d) (blk_offset_ d) (Z.to_nat (writeblock_size_ d)) (blk_bytes_ d)) d.

(* @src src/device/pflash_cfi01.cpp 364-371 PFlashCFI01::blk_write_flush *)
Definition blk_write_flush (d : PFlashCFI01) : PFlashCFI01 :=
  if blk_offset_ d =? -1 then d
  else
    set_blk_offset (-1)
      (set_storage (bv_memcpy (blk_offset_ d) (blk_bytes_ d) 0 (Z.to_nat (writeblock_size_ d)) (storage_ d)) d).

(* @src src/device/pflash_cfi01.cpp 373-373 PFlashCFI01::blk_write_abort *)
Definition blk_write_abort (d : PFlashCFI01) : PFlashCFI01 := set_blk_offset (-1) d.

(** ** Reads *)

(* The loop from device_width_ to bank_width_. *)
(* @src src/device/pflash_cfi01.cpp 299-301 PFlashCFI01::cfi_query *)
Fixpoint repeat_resp (fuel : nat) (i resp : Z) (d : PFlashCFI01) : Z :=
  match fuel with
  | O => resp
  | S fuel =>
      if i <? bank_width_ d
      then repeat_resp fuel (i + device_width_ d)
             (deposit 32 resp (8 * i) (8 * device_width_ d) resp) d
      else resp
  end.
Definition repeat_devices (resp : Z) (d : PFlashCFI01) : Z :=
  repeat_resp (Z.to_nat (bank_width_ d)) (device_width_ d) resp d.

(* @src src/device/pflash_cfi01.cpp 290-304 PFlashCFI01::cfi_query *)
Definition query_offset (offset : Z) (d : PFlashCFI01) : Z :=
  Z.shiftr offset (ctz 8 (bank_width_ d) + ctz 8 (max_device_width_ d) - ctz 8 (device_width_ d)).
Definition cfi_query (offset : Z) (d : PFlashCFI01) : Z :=
  let boff := query_offset offset d in
  if CFI_TABLE_SIZE <=? boff then 0
  else repeat_devices (nth (Z.to_nat boff) (cfi_table_ d) 0) d.

(* @src src/device/pflash_cfi01.cpp 306-322 PFlashCFI01::device_id_query *)
Definition device_id_query (offset : Z) (d : PFlashCFI01) : Z :=
  let b := Z.land (query_offset offset d) 0xFF in
  if b =? 0 then repeat_devices (ident0_ d) d
  else if b =? 1 then repeat_devices (ident1_ d) d
  else 0.

(* The loops over a bus wider than the bank run once for the accesses of at most
   four bytes that reach them. *)
(* @src src/device/pflash_cfi01.cpp 144-155 PFlashCFI01::read_internal *)
Definition query_loop (query : Z -> Z) (offset size : Z) (d : PFlashCFI01) : Z :=
  foldl (fun ret k => let i := k * bank_width_ d in
           deposit 32 ret (8 * i) (bank_width_ d * 8) (query (u64 (offset + i * bank_width_ d))))
    0 (seqZ 0 ((size + bank_width_ d - 1) / bank_width_ d)).

(* The status of each device of the bank. *)
(* @src src/device/pflash_cfi01.cpp 133-142 PFlashCFI01::read_internal *)
Fixpoint status_loop (fuel : nat) (shift size ret : Z) (d : PFlashCFI01) : Z :=
  match fuel with
  | O => ret
  | S fuel =>
      if shift + device_width_ d * 8 <=? size * 8
      then status_loop fuel (shift + device_width_ d * 8) size
             (Z.lor ret (u32 (Z.shiftl (status_ d) shift))) d
      else ret
  end.
Definition status_read (size : Z) (d : PFlashCFI01) : Z :=
  if device_width_ d <? size
  then status_loop (Z.to_nat size) (device_width_ d * 8) size (status_ d) d else status_ d.

(* @src src/device/pflash_cfi01.cpp 118-164 PFlashCFI01::read_internal *)
Definition flash_read_n (size offset : Z) (d : PFlashCFI01) : option Z * PFlashCFI01 :=
  if read_mode_ d then (Some (data_read offset size d), d)
  else if cmd_ d =? 0x00 then (Some (data_read offset size d), d)
  else if existsb (Z.eqb (cmd_ d)) [0x10; 0x20; 0x28; 0x40; 0x50; 0x60; 0x70; 0xe8]
  then (Some (status_read size d), d)
  else if cmd_ d =? 0x90
  then (Some (query_loop (fun o => device_id_query o d) offset size d), d)
  else if cmd_ d =? 0x98
  then (Some (query_loop (fun o => cfi_query o d) offset size d), d)
  else (Some (data_read offset size d), set_cmd 0x00 (set_wcycle 0 d)).

(* @src src/device/pflash_cfi01.cpp 105-164 PFlashCFI01::read_internal *)
Definition flash_read_internal (offset size : Z) (d : PFlashCFI01) : option Z * PFlashCFI01 :=
  if size =? 8 then read_twice (flash_read_n 4) offset d else flash_read_n size offset d.

(** ** Writes *)

(* The label at the end of write_internal. *)
(* @src src/device/pflash_cfi01.cpp 283-287 PFlashCFI01::write_internal *)
Definition mode_read_array (d : PFlashCFI01) : PFlashCFI01 := set_cmd 0x00 (set_wcycle 0 (set_read_mode true d)).

(* Block erase. *)
(* @src src/device/pflash_cfi01.cpp 184-189 PFlashCFI01::write_internal *)
Definition erase_block (offset : Z) (d : PFlashCFI01) : PFlashCFI01 :=
  let offset := Z.land offset (u64 (Z.lnot (sector_len_ d - 1))) in
  ready (set_storage (bv_memset offset (Z.to_nat (sector_len_ d)) 0xFF (storage_ d)) d).

(* The first cycle: the command byte. *)
(* @src src/device/pflash_cfi01.cpp 179-202 PFlashCFI01::write_internal *)
Definition write_cycle_0 (offset cmd : Z) (d : PFlashCFI01) : PFlashCFI01 :=
  let next d := set_cmd cmd (set_wcycle 1 d) in
  if cmd =? 0x00 then mode_read_array d
  else if (cmd =? 0x10) || (cmd =? 0x40) then next d
  else if (cmd =? 0x20) || (cmd =? 0x28) then next (erase_block offset d)
  else if cmd =? 0x50 then mode_read_array (set_status 0 d)
  else if cmd =? 0x60 then next d
  else if (cmd =? 0x70) || (cmd =? 0x90) then set_cmd cmd d
  else if cmd =? 0x98 then next d
  else if cmd =? 0xE8 then next (ready d)
  else mode_read_array d.

(* @src src/device/pflash_cfi01.cpp 204-239 PFlashCFI01::write_internal *)
Definition write_cycle_1 (offset size value cmd : Z) (d : PFlashCFI01) : PFlashCFI01 :=
  let c := cmd_ d in
  if (c =? 0x10) || (c =? 0x40) then set_wcycle 0 (ready (data_write offset value size d))
  else if (c =? 0x20) || (c =? 0x28) then
    if cmd =? 0xD0 then ready (set_wcycle 0 d) else mode_read_array d
  else if c =? 0xE8 then
    set_wcycle 2 (set_counter (Z.land value (Z.shiftl 1 (device_width_ d * 8) - 1)) d)
  else if c =? 0x60 then
    if (cmd =? 0xD0) || (cmd =? 0x01) then ready (set_wcycle 0 d)
    else if cmd =? 0xFF then mode_read_array d else d
  else if c =? 0x98 then if cmd =? 0xFF then mode_read_array d else d
  else mode_read_array d.

(* @src src/device/pflash_cfi01.cpp 241-260 PFlashCFI01::write_internal *)
Definition write_cycle_2 (offset size value : Z) (d : PFlashCFI01) : PFlashCFI01 :=
  if cmd_ d =? 0xE8 then
    let d := if (blk_offset_ d =? -1) && nz (counter_ d) then blk_write_start offset d else d in
    let d := if negb (blk_offset_ d =? -1) then data_write offset value size d
             else set_status (Z.lor (status_ d) 0x10) d in
    let d := ready d in
    if counter_ d =? 0 then set_wcycle 3 d else set_counter (u64 (counter_ d - 1)) d
  else mode_read_array d.

(* @src src/device/pflash_cfi01.cpp 262-276 PFlashCFI01::write_internal *)
Definition write_cycle_3 (cmd : Z) (d : PFlashCFI01) : PFlashCFI01 :=
  if cmd_ d =? 0xE8 then
    if (cmd =? 0xD0) && negb (nz (Z.land (status_ d) 0x10))
    then ready (set_wcycle 0 (blk_write_flush d))
    else mode_read_array (blk_write_abort d)
  else mode_read_array (blk_write_abort d).

(* @src src/device/pflash_cfi01.cpp 171-288 PFlashCFI01::write_internal *)
Definition flash_write_n (size offset value : Z) (d : PFlashCFI01) : bool * PFlashCFI01 :=
  let value := Z.land value 0xFFFFFFFF in
  let d := if wcycle_ d =? 0 then set_read_mode false d else d in
  let cmd := Z.land value 0xFF in
  (true,
   if wcycle_ d =? 0 then write_cycle_0 offset cmd d
   else if wcycle_ d =? 1 then write_cycle_1 offset size value cmd d
   else if wcycle_ d =? 2 then write_cycle_2 offset size value d
   else if wcycle_ d =? 3 then write_cycle_3 cmd d
   else mode_read_array d).

(* @src src/device/pflash_cfi01.cpp 166-288 PFlashCFI01::write_internal *)
Definition flash_write_internal (offset size value : Z) (d : PFlashCFI01) : bool * PFlashCFI01 :=
  if size =? 8 then write_twice (flash_write_n 4) offset value d
  else flash_write_n size offset value d.

(** The CFI query string, the identifiers, and a word programmed and read back. *)
Example flash_small :
  let d := PFlash_init 0x1000 4 in
  let w off v d := snd (flash_write_internal off 4 v d) in
  let r off d := default 0 (fst (flash_read_internal off 4 d)) in
  let q := w 0 0x98 d in
  let i := w 0 0x90 d in
  let p := w 0 0xFF (w 0x1230 0xCAFEBABE (w 0x1230 0x40 d)) in
  (r 0x40 q, r 0x44 q, r 0 i, r 4 i, r 0x1230 p, r 0x1234 p)
  = (0x510051, 0x520052, 0x890089, 0x180018, 0xCAFEBABE, 0xFFFFFFFF).
Proof. vm_compute. reflexivity. Qed.
