(* ===== verification/Clint.v ===== *)
(** * The core-local interruptor (src/device/clint.cpp)

    Machine time derived from the host's steady clock, the two timer comparators and
    the software interrupt.  The arithmetic on [std::chrono::duration<double>] is that
    of IEEE binary64 with rounding to nearest even; the conversion of a value out of
    range to an integer type, undefined in C++, is a parameter. *)

From stdpp Require Import gmap.
From Stdlib Require Import SpecFloat.
From S2P Require Import Prelude Bits Hart HartInv Machine Ports.

(** ** Durations *)

(** What the conversion of an out-of-range double gives. *)
Class UndefinedConversion := {
  undefined_u64 : spec_float -> Z;
  undefined_s64 : spec_float -> Z;
}.
Class UndefinedConversionLaws `{UndefinedConversion} := {
  undefined_u64_fits : forall f, fits 64 (undefined_u64 f);
}.

Definition dbl_of_Z (n : Z) : spec_float := binary_normalize 53 1024 n 0 false.
Definition dbl_mul : spec_float -> spec_float -> spec_float := SFmul 53 1024.
Definition dbl_div : spec_float -> spec_float -> spec_float := SFdiv 53 1024.

(** Truncation towards zero. *)
Definition dbl_trunc (f : spec_float) : option Z :=
  match f with
  | S754_zero _ => Some 0
  | S754_finite s m e =>
      let a := if 0 <=? e then Z.shiftl (Zpos m) e else Z.shiftr (Zpos m) (- e) in
      Some (if s then - a else a)
  | _ => None
  end.

Section Conversion.
Context `{UndefinedConversion}.
Definition dbl_to_u64 (f : spec_float) : Z :=
  match dbl_trunc f with
  | Some z => if (0 <=? z) && (z <? 2 ^ 64) then z else undefined_u64 f
  | None => undefined_u64 f
  end.
Definition dbl_to_s64 (f : spec_float) : Z :=
  match dbl_trunc f with
  | Some z => if (- 2 ^ 63 <=? z) && (z <? 2 ^ 63) then z else undefined_s64 f
  | None => undefined_s64 f
  end.
End Conversion.

(** ** The device *)

(* @src include/device/clint.hpp 27-56 Clint *)
Definition CLINT_BASE : Z := 0x2000000.
Definition CLINT_SIZE : Z := 0x10000.
Definition CLINT_FREQ : Z := 10000000.
Definition MSIP_OFFSET : Z := 0.
Definition MTIMECMP_OFFSET : Z := 0x4000.
Definition MTIME_OFFSET : Z := 0xBFF8.
Record Clint := mkClint {
  mtime_ : Z;
  mtimecmp_ : Z;
  start_time_ : Z;
  freq_hz_ : Z;
}.

Definition set_mtime (v : Z) (c : Clint) : Clint := mkClint v (mtimecmp_ c) (start_time_ c) (freq_hz_ c).
Definition set_mtimecmp (v : Z) (c : Clint) : Clint := mkClint (mtime_ c) v (start_time_ c) (freq_hz_ c).
Definition set_start_time (v : Z) (c : Clint) : Clint := mkClint (mtime_ c) (mtimecmp_ c) v (freq_hz_ c).

Section Clint.
Context {W : Type} `{HartPort W} `{SteadyClock W} `{UndefinedConversion}.

(* @src src/device/clint.cpp 116-118 Clint::handle_mtimecmp *)
Definition handle_mtimecmp (c : Clint) (w : W) : W :=
  w_upd_hart (set_interrupt_pending MTIP (mtimecmp_ c <=? mtime_ c)) w.

(* @src src/device/clint.cpp 120-130 Clint::handle_stimecmp *)
Definition handle_stimecmp (c : Clint) (w : W) : W :=
  if nz (Z.land (MENVCFG_read (w_hart w)) MENVCFG_STCE)
  then w_upd_hart (set_interrupt_pending STIP (STIMECMP_read (w_hart w) <=? mtime_ c)) w
  else w.

(* The difference of two time points is an int64 count of nanoseconds, converted to
   seconds in a double and multiplied by the frequency. *)
(* @src src/device/clint.cpp 106-112 Clint::tick_internal *)
Definition elapsed_seconds (ns : Z) : spec_float := dbl_div (dbl_of_Z ns) (dbl_of_Z 1000000000).
Definition mtime_at (c : Clint) (now : Z) : Z :=
  dbl_to_u64 (dbl_mul (elapsed_seconds (swrap 64 (now - start_time_ c))) (dbl_of_Z (freq_hz_ c))).

(* @src src/device/clint.cpp 106-114 Clint::tick_internal *)
Definition tick_internal (cw : Clint * W) : Clint * W :=
  let '(c, w) := cw in
  let '(now, w) := steady_clock_now w in
  let c := set_mtime (mtime_at c now) c in
  (c, handle_stimecmp c (handle_mtimecmp c w)).

(* @src src/device/clint.cpp 29-33 Clint::tick *)
Definition Clint_tick (cw : Clint * W) : Clint * W := tick_internal cw.

(* @src src/device/clint.cpp 35-39 Clint::get_mtime *)
Definition get_mtime (cw : Clint * W) : Z * (Clint * W) :=
  let '(c, w) := tick_internal cw in (mtime_ c, (c, w)).

(* @src src/device/clint.cpp 21-27 Clint::Clint *)
Definition Clint_init (freq_hz : Z) (w : W) : Clint * W :=
  let '(now, w) := steady_clock_now w in Clint_tick (mkClint 0 0 now freq_hz, w).

(* @src src/device/clint.cpp 41-74 Clint::read_internal *)
Definition clint_read_internal (offset size : Z) (cw : Clint * W) : option Z * (Clint * W) :=
  let '(c, w) := cw in
  if 8 <? size then (None, cw)
  else if (MSIP_OFFSET <=? offset) && (offset <? MSIP_OFFSET + 4) then
    let msip_val := if nz (Z.land (MIP_read (w_hart w)) MSIP) then 1 else 0 in
    (Some (read_little_endian msip_val (offset - MSIP_OFFSET) size 0), cw)
  else if (MTIMECMP_OFFSET <=? offset) && (offset <? MTIMECMP_OFFSET + 8) then
    (Some (read_little_endian (mtimecmp_ c) (offset - MTIMECMP_OFFSET) size 0), cw)
  else if (MTIME_OFFSET <=? offset) && (offset <? MTIME_OFFSET + 8) then
    let '(cur_mtime, cw) := get_mtime cw in
    (Some (read_little_endian cur_mtime (offset - MTIME_OFFSET) size 0), cw)
  else (None, cw).

(* The start time that makes the current time equal to the value written. *)
(* @src src/device/clint.cpp 92-97 Clint::write_internal *)
Definition new_start (now mtime freq : Z) : Z :=
  let new_elapsed := dbl_div (dbl_of_Z (swrap 64 mtime)) (dbl_of_Z freq) in
  swrap 64 (now - dbl_to_s64 (dbl_mul new_elapsed (dbl_of_Z 1000000000))).

(* @src src/device/clint.cpp 76-104 Clint::write_internal *)
Definition clint_write_internal (offset size value : Z) (cw : Clint * W) : bool * (Clint * W) :=
  let '(c, w) := cw in
  if (MSIP_OFFSET <=? offset) && (offset <? MSIP_OFFSET + 4) then
    let msip_val := write_little_endian 0 (offset - MSIP_OFFSET) size value in
    (true, (c, w_upd_hart (set_interrupt_pending MSIP (nz (Z.land msip_val 1))) w))
  else if (MTIMECMP_OFFSET <=? offset) && (offset <? MTIMECMP_OFFSET + 8) then
    let c := set_mtimecmp (write_little_endian (mtimecmp_ c) (offset - MTIMECMP_OFFSET) size value) c in
    (true, tick_internal (c, w))
  else if (MTIME_OFFSET <=? offset) && (offset <? MTIME_OFFSET + 8) then
    let c := set_mtime (write_little_endian (mtime_ c) (offset - MTIME_OFFSET) size value) c in
    let '(now, w) := steady_clock_now w in
    let c := set_start_time (new_start now (mtime_ c) (freq_hz_ c)) c in
    (true, (c, handle_stimecmp c (handle_mtimecmp c w)))
  else (false, cw).
End Clint.

(** Two seconds after the start the time is twenty million, less the rounding. *)
Section Small.
#[local] Instance small_undefined : UndefinedConversion := {
  undefined_u64 _ := 0;
  undefined_s64 _ := 0;
}.
Example clint_two_seconds : mtime_at (mkClint 0 0 500 CLINT_FREQ) (2000000000 + 500) = 20000000.
Proof. vm_compute. reflexivity. Qed.
Example clint_one_tick : map (mtime_at (mkClint 0 0 0 CLINT_FREQ)) [99; 100; 101; 200; 300; 700] = [0; 1; 1; 2; 3; 7].
Proof. vm_compute. reflexivity. Qed.
End Small.
