(* ===== verification/Plic.v ===== *)
(** * The platform-level interrupt controller (src/device/plic.cpp)

    The interrupt sources, the two contexts of the hart (machine, supervisor) and the
    memory-mapped registers, as functions of the controller and the hart whose
    external-interrupt lines it drives.  The mutex makes each operation atomic. *)

From stdpp Require Import gmap.
From S2P Require Import Prelude Bits Hart HartInv.

(* @src include/device/plic.hpp 38-64 Plic *)
Definition PLIC_BASE : Z := 0xC000000.
Definition PLIC_SIZE : Z := 0x1000000.
Definition PRIORITY_BASE : Z := 0.
Definition PENDING_BASE : Z := 0x1000.
Definition ENABLE_BASE : Z := 0x2000.
Definition ENABLE_PER_HART : Z := 0x80.
Definition CONTEXT_BASE : Z := 0x200000.
Definition CONTEXT_PER_HART : Z := 0x1000.
Definition CONTEXT_THRESHOLD : Z := 0.
Definition CONTEXT_CLAIM : Z := 4.
Definition PRIO_BITS : Z := 4.

(* uint32_t arrays of MAX_DEVICES / 32 words, uint8_t arrays of MAX_DEVICES bytes. *)
(* @src include/device/plic.hpp 71-82 Plic::Context *)
Record PlicContext := mkPlicContext {
  mmode_ : bool;
  priority_threshold : Z;
  c_enable : list Z;
  c_pending : list Z;
  pending_priority : list Z;
  c_claimed : list Z;
}.

(* @src include/device/plic.hpp 98-107 Plic *)
Record Plic := mkPlic {
  contexts_ : list PlicContext;
  num_ids_ : Z;
  num_ids_word_ : Z;
  max_prio_ : Z;
  priority_ : list Z;
  level_ : list Z;
}.

(** Array accesses; the indices are in range (see PlicSpec.v). *)
Definition arr_get (l : list Z) (i : Z) : Z := nth (Z.to_nat i) l 0.
Definition arr_set (l : list Z) (i v : Z) : list Z := <[Z.to_nat i := v]> l.
(** [a\[i\] |= mask] and [a\[i\] &= ~mask]. *)
Definition arr_or (l : list Z) (i mask : Z) : list Z := arr_set l i (Z.lor (arr_get l i) mask).
Definition arr_clear (l : list Z) (i mask : Z) : list Z := arr_set l i (andn (arr_get l i) mask).

(* @src include/device/plic.hpp 72-81 Plic::Context::Context *)
Definition PlicContext_init (mmode : bool) : PlicContext :=
  mkPlicContext mmode 0 (replicate 32 0) (replicate 32 0) (replicate 1024 0) (replicate 32 0).

(* @src src/device/plic.cpp 30-36 Plic::Plic *)
Definition Plic_init (ndev : Z) : Plic :=
  mkPlic [PlicContext_init true; PlicContext_init false] (u32 (ndev + 1))
    (u32 (u32 (ndev + 1) + 31) / 32) (Z.shiftl 1 PRIO_BITS - 1) (replicate 1024 0) (replicate 32 0).

Definition set_contexts (cs : list PlicContext) (p : Plic) : Plic :=
  mkPlic cs (num_ids_ p) (num_ids_word_ p) (max_prio_ p) (priority_ p) (level_ p).
Definition set_pending (c : PlicContext) (pend prio claim : list Z) : PlicContext :=
  mkPlicContext (mmode_ c) (priority_threshold c) (c_enable c) pend prio claim.

(** ** The contexts *)

(* The body of the inner loop, on (best_id, best_id_prio). *)
(* @src src/device/plic.cpp 157-166 Plic::context_best_pending *)
Definition best_step (p : Plic) (c : PlicContext) (i : Z) (best : Z * Z) (j : Z) : Z * Z :=
  let id := i * 32 + j in
  if (num_ids_ p <=? id) || negb (Z.testbit (arr_get (c_pending c) i) j) ||
     Z.testbit (arr_get (c_claimed c) i) j
  then best
  else if (best.1 =? 0) || (best.2 <? arr_get (pending_priority c) id)
  then (id, arr_get (pending_priority c) id)
  else best.

(* @src src/device/plic.cpp 148-174 Plic::context_best_pending *)
Definition context_best_pending (p : Plic) (c : PlicContext) : Z :=
  let '(best_id, best_id_prio) :=
    foldl (fun best i =>
        if arr_get (c_pending c) i =? 0 then best
        else foldl (best_step p c i) best (seqZ 0 32))
      (0, 0) (seqZ 0 (num_ids_word_ p)) in
  if best_id_prio <=? priority_threshold c then 0 else best_id.

(* @src src/device/plic.cpp 176-181 Plic::context_update *)
Definition context_line (c : PlicContext) : Z := if mmode_ c then MEIP else SEIP.
Definition context_update (p : Plic) (c : PlicContext) (h : Hart) : Hart :=
  set_interrupt_pending (context_line c) (negb (context_best_pending p c =? 0)) h.

(* @src src/device/plic.cpp 183-193 Plic::context_claim *)
Definition context_claim (p : Plic) (c : PlicContext) (h : Hart) : Z * PlicContext * Hart :=
  let best_id := context_best_pending p c in
  let c := if best_id =? 0 then c
           else set_pending c (c_pending c) (pending_priority c)
                  (arr_or (c_claimed c) (best_id / 32) (Z.shiftl 1 (best_id mod 32))) in
  (best_id, c, context_update p c h).

(* @src src/device/plic.cpp 195-202 Plic::priority_read *)
Definition priority_read (p : Plic) (offset : Z) : Z :=
  let id := u32 (Z.shiftr offset 2) in
  if (0 <? id) && (id <? num_ids_ p) then arr_get (priority_ p) id else 0.

(* @src src/device/plic.cpp 204-211 Plic::priority_write *)
Definition priority_write (offset val : Z) (p : Plic) : Plic :=
  let id := u32 (Z.shiftr offset 2) in
  if (0 <? id) && (id <? num_ids_ p)
  then mkPlic (contexts_ p) (num_ids_ p) (num_ids_word_ p) (max_prio_ p)
         (arr_set (priority_ p) id (Z.land val (Z.shiftl 1 PRIO_BITS - 1))) (level_ p)
  else p.

(* @src src/device/plic.cpp 213-222 Plic::pending_read *)
Definition pending_read (p : Plic) (offset : Z) : Z :=
  let id_word := u32 (Z.shiftr offset 2) in
  if id_word <? num_ids_word_ p
  then foldl (fun val c => Z.lor val (arr_get (c_pending c) id_word)) 0 (contexts_ p)
  else 0.

(* @src src/device/plic.cpp 224-231 Plic::context_enable_read *)
Definition context_enable_read (p : Plic) (c : PlicContext) (offset : Z) : Z :=
  let id_word := u32 (Z.shiftr offset 2) in
  if id_word <? num_ids_word_ p then arr_get (c_enable c) id_word else 0.

(* One turn of the loop over the bits of the word. *)
(* @src src/device/plic.cpp 244-260 Plic::context_enable_write *)
Definition enable_step (p : Plic) (id_word old_val new_val : Z) (c : PlicContext) (i : Z) : PlicContext :=
  let id := id_word * 32 + i in
  let id_mask := Z.shiftl 1 i in
  if negb (Z.testbit (Z.lxor old_val new_val) i) then c
  else if Z.testbit new_val i && Z.testbit (arr_get (level_ p) id_word) i
  then set_pending c (arr_or (c_pending c) id_word id_mask)
         (arr_set (pending_priority c) id (arr_get (priority_ p) id)) (c_claimed c)
  else if negb (Z.testbit new_val i)
  then set_pending c (arr_clear (c_pending c) id_word id_mask)
         (arr_set (pending_priority c) id 0) (arr_clear (c_claimed c) id_word id_mask)
  else c.

(* @src src/device/plic.cpp 233-263 Plic::context_enable_write *)
Definition context_enable_write (p : Plic) (c : PlicContext) (offset val : Z) (h : Hart) :
    PlicContext * Hart :=
  let id_word := u32 (Z.shiftr offset 2) in
  if num_ids_word_ p <=? id_word then (c, h)
  else
    let old_val := arr_get (c_enable c) id_word in
    let new_val := if id_word =? 0 then andn val 1 else val in
    let c := mkPlicContext (mmode_ c) (priority_threshold c) (arr_set (c_enable c) id_word new_val)
               (c_pending c) (pending_priority c) (c_claimed c) in
    let c := foldl (enable_step p id_word old_val new_val) c (seqZ 0 32) in
    (c, context_update p c h).

(* @src src/device/plic.cpp 265-271 Plic::context_read *)
Definition context_read (p : Plic) (c : PlicContext) (offset : Z) (h : Hart) : Z * PlicContext * Hart :=
  if offset =? CONTEXT_THRESHOLD then (priority_threshold c, c, h)
  else if offset =? CONTEXT_CLAIM then context_claim p c h
  else (0, c, h).

(* @src src/device/plic.cpp 273-303 Plic::context_write *)
Definition context_write (p : Plic) (c : PlicContext) (offset val : Z) (h : Hart) :
    bool * PlicContext * Hart :=
  if offset =? CONTEXT_THRESHOLD then
    let val := Z.land val (Z.shiftl 1 PRIO_BITS - 1) in
    if val <=? max_prio_ p then
      let c := mkPlicContext (mmode_ c) val (c_enable c) (c_pending c) (pending_priority c)
                 (c_claimed c) in
      (true, c, context_update p c h)
    else (false, c, h)
  else if offset =? CONTEXT_CLAIM then
    let id_word := val / 32 in
    let id_mask := Z.shiftl 1 (val mod 32) in
    if (val <? num_ids_ p) && nz (Z.land (arr_get (c_enable c) id_word) id_mask) then
      let c := set_pending c (c_pending c) (pending_priority c)
                 (arr_clear (c_claimed c) id_word id_mask) in
      (true, c, context_update p c h)
    else (true, c, h)
  else (false, c, h).

(** ** The device *)

(** The context number [k] of the controller is replaced by [c]. *)
Definition put_context (k : Z) (c : PlicContext) (p : Plic) : Plic :=
  set_contexts (<[Z.to_nat k := c]> (contexts_ p)) p.
Definition get_context (k : Z) (p : Plic) : option PlicContext := contexts_ p !! Z.to_nat k.

(* The test and the update of one turn of the loop over the contexts. *)
(* @src src/device/plic.cpp 53-66 Plic::set_interrupt_level *)
Definition level_context (lvl : bool) (id id_prio : Z) (c : PlicContext) : PlicContext :=
  let id_word := id / 32 in
  let id_mask := Z.shiftl 1 (id mod 32) in
  if lvl
  then set_pending c (arr_or (c_pending c) id_word id_mask)
         (arr_set (pending_priority c) id id_prio) (c_claimed c)
  else set_pending c (arr_clear (c_pending c) id_word id_mask)
         (arr_set (pending_priority c) id 0) (arr_clear (c_claimed c) id_word id_mask).

(* @src src/device/plic.cpp 53-66 Plic::set_interrupt_level *)
Fixpoint level_loop (p : Plic) (lvl : bool) (id id_prio : Z) (cs : list PlicContext) (h : Hart) :
    list PlicContext * Hart :=
  match cs with
  | [] => ([], h)
  | c :: cs =>
      if Z.testbit (arr_get (c_enable c) (id / 32)) (id mod 32) then
        let c := level_context lvl id id_prio c in (c :: cs, context_update p c h)
      else
        let '(cs, h) := level_loop p lvl id id_prio cs h in (c :: cs, h)
  end.

(* @src src/device/plic.cpp 38-67 Plic::set_interrupt_level *)
Definition set_interrupt_level (id : Z) (lvl : bool) (ph : Plic * Hart) : Plic * Hart :=
  let '(p, h) := ph in
  if (id <=? 0) || (num_ids_ p <=? id) then (p, h)
  else
    let id_prio := arr_get (priority_ p) id in
    let id_mask := Z.shiftl 1 (id mod 32) in
    let level := if lvl then arr_or (level_ p) (id / 32) id_mask
                 else arr_clear (level_ p) (id / 32) id_mask in
    let p := mkPlic (contexts_ p) (num_ids_ p) (num_ids_word_ p) (max_prio_ p) (priority_ p) level in
    let '(cs, h) := level_loop p lvl id id_prio (contexts_ p) h in
    (set_contexts cs p, h).

(* The 32-bit accesses; an offset that names no context is reduced before it falls
   through to the next test, as in the code. *)
(* @src src/device/plic.cpp 87-110 Plic::read_internal *)
Definition plic_read_4 (offset : Z) (ph : Plic * Hart) : option Z * (Plic * Hart) :=
  let '(p, h) := ph in
  if (PRIORITY_BASE <=? offset) && (offset <? PENDING_BASE) then (Some (priority_read p offset), ph)
  else if (PENDING_BASE <=? offset) && (offset <? ENABLE_BASE)
  then (Some (pending_read p (offset - PENDING_BASE)), ph)
  else if (ENABLE_BASE <=? offset) && (offset <? CONTEXT_BASE) then
    let cntx := (offset - ENABLE_BASE) / ENABLE_PER_HART in
    let offset := offset - (cntx * ENABLE_PER_HART + ENABLE_BASE) in
    match get_context cntx p with
    | Some c => (Some (context_enable_read p c offset), ph)
    | None => (None, ph)
    end
  else if (CONTEXT_BASE <=? offset) && (offset <? PLIC_SIZE) then
    let cntx := (offset - CONTEXT_BASE) / CONTEXT_PER_HART in
    let offset := offset - (cntx * CONTEXT_PER_HART + CONTEXT_BASE) in
    match get_context cntx p with
    | Some c => let '(v, c, h) := context_read p c offset h in (Some v, (put_context cntx c p, h))
    | None => (None, ph)
    end
  else (None, ph).

(* @src src/device/plic.cpp 69-110 Plic::read_internal *)
Definition plic_read_internal (offset size : Z) (ph : Plic * Hart) : option Z * (Plic * Hart) :=
  if size =? 8 then
    match plic_read_4 offset ph with
    | (None, ph) => (None, ph)
    | (Some lo, ph) =>
        match plic_read_4 (u64 (offset + 4)) ph with
        | (None, ph) => (None, ph)
        | (Some hi, ph) => (Some (Z.lor lo (u64 (Z.shiftl hi 32))), ph)
        end
    end
  else if negb (size =? 4) then (None, ph)
  else plic_read_4 offset ph.

(* The value is converted to uint32_t by the callees. *)
(* @src src/device/plic.cpp 120-146 Plic::write_internal *)
Definition plic_write_4 (offset value : Z) (ph : Plic * Hart) : bool * (Plic * Hart) :=
  let '(p, h) := ph in
  let val := u32 value in
  if (PRIORITY_BASE <=? offset) && (offset <? ENABLE_BASE) then (true, (priority_write offset val p, h))
  else if (ENABLE_BASE <=? offset) && (offset <? CONTEXT_BASE) then
    let cntx := (offset - ENABLE_BASE) / ENABLE_PER_HART in
    let offset := offset - (cntx * ENABLE_PER_HART + ENABLE_BASE) in
    match get_context cntx p with
    | Some c => let '(c, h) := context_enable_write p c offset val h in (true, (put_context cntx c p, h))
    | None => (false, ph)
    end
  else if (CONTEXT_BASE <=? offset) && (offset <? PLIC_SIZE) then
    let cntx := (offset - CONTEXT_BASE) / CONTEXT_PER_HART in
    let offset := offset - (cntx * CONTEXT_PER_HART + CONTEXT_BASE) in
    match get_context cntx p with
    | Some c => let '(b, c, h) := context_write p c offset val h in (b, (put_context cntx c p, h))
    | None => (false, ph)
    end
  else (false, ph).

(* @src src/device/plic.cpp 112-146 Plic::write_internal *)
Definition plic_write_internal (offset size value : Z) (ph : Plic * Hart) : bool * (Plic * Hart) :=
  if size =? 8 then
    match plic_write_4 offset (Z.land value 0xFFFFFFFF) ph with
    | (false, ph) => (false, ph)
    | (true, ph) => plic_write_4 (u64 (offset + 4)) (Z.shiftr value 32) ph
    end
  else if negb (size =? 4) then (false, ph)
  else plic_write_4 offset value ph.

(** A source is configured, raised, claimed and completed by the machine context. *)
Example plic_small :
  let ph := (Plic_init 31, Hart_init 0) in
  let ph := snd (plic_write_internal (4 * 10) 4 3 ph) in          (* priority of source 10 *)
  let ph := snd (plic_write_internal 0x2000 4 (2 ^ 10) ph) in     (* enable it for M *)
  let ph := set_interrupt_level 10 true ph in
  let '(claim, ph1) := plic_read_internal 0x200004 4 ph in
  let '(claim2, ph2) := plic_read_internal 0x200004 4 ph1 in
  let ph3 := snd (plic_write_internal 0x200004 4 10 ph2) in
  (Z.testbit (MIP_read (snd ph)) 11, claim, Z.testbit (MIP_read (snd ph1)) 11, claim2,
   Z.testbit (MIP_read (snd ph3)) 11) = (true, Some 10, false, Some 0, true).
Proof. vm_compute. reflexivity. Qed.
