(* ===== verification/PlicSpec.v ===== *)
(** * What the interrupt controller guarantees

    Arbitration picks the claimable source of highest priority; the external-interrupt
    lines of the hart always tell whether a context has something to claim; claiming
    and completing a source is a round trip. *)

From stdpp Require Import gmap.
From S2P Require Import Prelude Bits Hart HartInv Plic.

(** ** Bit arrays *)

Definition bit_of (l : list Z) (id : Z) : bool := Z.testbit (arr_get l (id / 32)) (id mod 32).

Lemma arr_get_set l i j v : 0 <= i < Z.of_nat (length l) -> 0 <= j ->
  arr_get (arr_set l i v) j = if j =? i then v else arr_get l j.
Proof.
  intros Hi Hj. unfold arr_get, arr_set. destruct (Z.eqb_spec j i) as [->|Hne].
  - by rewrite nth_lookup, list_lookup_insert_eq by lia.
  - by rewrite !nth_lookup, list_lookup_insert_ne by lia.
Qed.

Lemma length_arr_set l i v : length (arr_set l i v) = length l.
Proof. apply length_insert. Qed.
Lemma length_arr_or l i v : length (arr_or l i v) = length l.
Proof. apply length_insert. Qed.
Lemma length_arr_clear l i v : length (arr_clear l i v) = length l.
Proof. apply length_insert. Qed.

Lemma id_split id w j : 0 <= j < 32 -> 0 <= id -> (id =? w * 32 + j) = (id / 32 =? w) && (id mod 32 =? j).
Proof.
  intros Hj Hid. destruct (Z.eqb_spec id (w * 32 + j)), (Z.eqb_spec (id / 32) w),
    (Z.eqb_spec (id mod 32) j); simpl; try done; lia.
Qed.

Lemma bit_of_or l w j id : 0 <= w < Z.of_nat (length l) -> 0 <= j < 32 -> 0 <= id ->
  bit_of (arr_or l w (Z.shiftl 1 j)) id = (id =? w * 32 + j) || bit_of l id.
Proof.
  intros Hw Hj Hid. unfold bit_of, arr_or. rewrite arr_get_set, id_split by lia.
  destruct (Z.eqb_spec (id / 32) w) as [->|]; simpl; [|done].
  rewrite Z.lor_spec, testbit_flag by lia. apply orb_comm.
Qed.

Lemma bit_of_clear l w j id : 0 <= w < Z.of_nat (length l) -> 0 <= j < 32 -> 0 <= id ->
  bit_of (arr_clear l w (Z.shiftl 1 j)) id = negb (id =? w * 32 + j) && bit_of l id.
Proof.
  intros Hw Hj Hid. unfold bit_of, arr_clear. rewrite arr_get_set, id_split by lia.
  destruct (Z.eqb_spec (id / 32) w) as [->|]; simpl; [|done].
  unfold andn. rewrite Z.ldiff_spec, testbit_flag by lia. apply andb_comm.
Qed.

Lemma bit_of_set l w v id : 0 <= w < Z.of_nat (length l) -> 0 <= id ->
  bit_of (arr_set l w v) id = if id / 32 =? w then Z.testbit v (id mod 32) else bit_of l id.
Proof.
  intros Hw Hid. unfold bit_of. rewrite arr_get_set by lia. by destruct (id / 32 =? w).
Qed.

Lemma id_again id : id / 32 * 32 + id mod 32 = id.
Proof. lia. Qed.

(** ** Arbitration *)

(** A source the context may claim. *)
Definition claimable (p : Plic) (c : PlicContext) (id : Z) : bool :=
  (id <? num_ids_ p) && bit_of (c_pending c) id && negb (bit_of (c_claimed c) id).
Definition prio (c : PlicContext) (id : Z) : Z := arr_get (pending_priority c) id.

Definition src_step (p : Plic) (c : PlicContext) (best : Z * Z) (id : Z) : Z * Z :=
  if claimable p c id
  then if (best.1 =? 0) || (best.2 <? prio c id) then (id, prio c id) else best
  else best.

Section Arbitration.
Variables (p : Plic) (c : PlicContext).

Lemma best_step_src i best j : 0 <= i -> 0 <= j < 32 ->
  best_step p c i best j = src_step p c best (i * 32 + j).
Proof.
  intros Hi Hj. unfold best_step, src_step, claimable, bit_of, prio. cbv zeta.
  replace ((i * 32 + j) / 32) with i by lia. replace ((i * 32 + j) mod 32) with j by lia.
  rewrite (Z.ltb_antisym (num_ids_ p)).
  by destruct (num_ids_ p <=? _), (Z.testbit (arr_get (c_pending c) i) j),
    (Z.testbit (arr_get (c_claimed c) i) j).
Qed.

Lemma foldl_best_src i best js : 0 <= i -> (forall j, j ∈ js -> 0 <= j < 32) ->
  foldl (best_step p c i) best js = foldl (src_step p c) best (map (fun j => i * 32 + j) js).
Proof.
  intros Hi. revert best. induction js as [|j js IH]; intros best Hj; [done|]. simpl.
  rewrite best_step_src by (done || apply Hj; left). apply IH. intros k Hk. apply Hj. by right.
Qed.

Lemma foldl_src_none best ids : (forall id, id ∈ ids -> claimable p c id = false) ->
  foldl (src_step p c) best ids = best.
Proof.
  revert best. induction ids as [|id ids IH]; intros best H; [done|]. simpl.
  unfold src_step at 2. rewrite H by left. apply IH. intros k Hk. apply H. by right.
Qed.

Lemma word_seq i : map (fun j => i * 32 + j) (seqZ 0 32) = seqZ (i * 32) 32.
Proof. pose proof (fmap_add_seqZ (i * 32) 0 32) as E. by rewrite Z.add_0_r in E. Qed.

(** The nested loops visit the sources in increasing order; skipping a word without
    pending bits skips no claimable source. *)
Lemma loops_src (n : nat) best :
  foldl (fun best i => if arr_get (c_pending c) i =? 0 then best
           else foldl (best_step p c i) best (seqZ 0 32)) best (seqZ 0 (Z.of_nat n))
  = foldl (src_step p c) best (seqZ 0 (32 * Z.of_nat n)).
Proof.
  revert best. induction n as [|n IH]; intros best; [done|].
  replace (Z.of_nat (S n)) with (Z.of_nat n + 1) by lia.
  rewrite seqZ_app, foldl_app, IH by lia. rewrite Z.mul_add_distr_l.
  rewrite (seqZ_app 0 (32 * Z.of_nat n)), foldl_app by lia.
  generalize (foldl (src_step p c) best (seqZ 0 (32 * Z.of_nat n))). intros b.
  rewrite !Z.add_0_l. change (32 * 1) with 32. change (seqZ (Z.of_nat n) 1) with [Z.of_nat n].
  cbn [foldl]. replace (32 * Z.of_nat n) with (Z.of_nat n * 32) by lia.
  destruct (Z.eqb_spec (arr_get (c_pending c) (Z.of_nat n)) 0) as [E|_].
  - rewrite foldl_src_none; [done|]. intros id Hid%elem_of_seqZ. unfold claimable, bit_of.
    replace (id / 32) with (Z.of_nat n) by lia. rewrite E, Z.bits_0. by rewrite andb_false_r.
  - rewrite foldl_best_src; [by rewrite word_seq|lia|]. intros j Hj%elem_of_seqZ. lia.
Qed.

(** The best of a list of sources: none claimable, or the lowest of those with the
    highest priority. *)
Definition is_best (P : Z -> Prop) (b : Z * Z) : Prop :=
  (b = (0, 0) /\ forall id, P id -> claimable p c id = false) \/
  (P b.1 /\ claimable p c b.1 = true /\ b.2 = prio c b.1 /\
   forall id, P id -> claimable p c id = true ->
     prio c id <= b.2 /\ (prio c id = b.2 -> b.1 <= id)).

Lemma src_fold_best (n : nat) : claimable p c 0 = false ->
  is_best (fun id => 0 <= id < Z.of_nat n) (foldl (src_step p c) (0, 0) (seqZ 0 (Z.of_nat n))).
Proof.
  intros H0. induction n as [|n IH]; [left; split; [done|lia]|].
  replace (Z.of_nat (S n)) with (Z.of_nat n + 1) by lia.
  rewrite seqZ_app, foldl_app, Z.add_0_l by lia.
  change (seqZ (Z.of_nat n) 1) with [Z.of_nat n]. cbn [foldl].
  set (b := foldl _ _ _) in *. clearbody b. unfold src_step.
  assert (forall id, 0 <= id < Z.of_nat n + 1 -> 0 <= id < Z.of_nat n \/ id = Z.of_nat n) as Hs by lia.
  destruct (claimable p c (Z.of_nat n)) eqn:Ec.
  - assert (Z.of_nat n <> 0) by (intros E; rewrite E in Ec; congruence).
    destruct IH as [[-> Hn]|(Hb & Hc & Ep & Hmax)].
    + change ((0, 0).1 =? 0) with true. cbn [orb]. right. cbn [fst snd]. split; [lia|]; split_and!; [done|done|].
      intros id [Hid| ->]%Hs Hcl; [by rewrite Hn in Hcl|lia].
    + destruct (Z.eqb_spec b.1 0) as [E0|_]; [rewrite E0 in Hc; congruence|]. cbn [orb].
      destruct (Z.ltb_spec b.2 (prio c (Z.of_nat n))); right; cbn [fst snd].
      * split; [lia|]; split_and!; [done|done|]. intros id [Hid| ->]%Hs Hcl; [|lia].
        destruct (Hmax id Hid Hcl). lia.
      * split; [lia|]; split_and!; [done|done|]. intros id [Hid| ->]%Hs Hcl; [by apply Hmax|lia].
  - destruct IH as [[-> Hn]|(Hb & Hc & Ep & Hmax)].
    + left. split; [done|]. intros id [Hid| ->]%Hs; auto.
    + right. split; [lia|]; split_and!; [done|done|]. intros id [Hid| ->]%Hs Hcl; [by apply Hmax|congruence].
Qed.
End Arbitration.

(** ** Well-formed contexts *)

Record ctx_ok (p : Plic) (c : PlicContext) : Prop := {
  co_len : length (c_enable c) = 32%nat /\ length (c_pending c) = 32%nat /\
    length (pending_priority c) = 1024%nat /\ length (c_claimed c) = 32%nat;
  co_ids : 0 < num_ids_ p <= 1024 /\ num_ids_word_ p = (num_ids_ p + 31) / 32;
  co_thr : 0 <= priority_threshold c;
  co_zero : bit_of (c_enable c) 0 = false;
  co_pending : forall id, 0 <= id -> bit_of (c_pending c) id = true -> bit_of (c_enable c) id = true;
  co_claimed : forall id, 0 <= id -> bit_of (c_claimed c) id = true -> bit_of (c_pending c) id = true;
}.

Lemma ctx_ok_0 p c : ctx_ok p c -> claimable p c 0 = false.
Proof.
  intros [_ _ _ Hz Hp _]. unfold claimable. destruct (bit_of (c_pending c) 0) eqn:E; [|by rewrite andb_false_r].
  apply Hp in E; [congruence|lia].
Qed.

(** The specification of arbitration: nothing above the threshold, or the claimable
    source of highest priority, the lowest of them on a tie. *)
Definition arbitrated (p : Plic) (c : PlicContext) (r : Z) : Prop :=
  (r = 0 /\ forall id, 0 <= id -> claimable p c id = true -> prio c id <= priority_threshold c) \/
  (0 < r < num_ids_ p /\ claimable p c r = true /\ priority_threshold c < prio c r /\
   forall id, 0 <= id -> claimable p c id = true ->
     prio c id <= prio c r /\ (prio c id = prio c r -> r <= id)).

Lemma best_pending_arbitrated p c : ctx_ok p c -> arbitrated p c (context_best_pending p c).
Proof.
  intros Hc. pose proof (ctx_ok_0 p c Hc) as H0. destruct Hc as [_ [Hn Hw] Ht _ _ _].
  unfold context_best_pending.
  rewrite <- (Z2Nat.id (num_ids_word_ p)) by lia. rewrite loops_src.
  replace (32 * Z.of_nat (Z.to_nat (num_ids_word_ p)))
    with (Z.of_nat (Z.to_nat (32 * num_ids_word_ p))) by lia.
  pose proof (src_fold_best p c (Z.to_nat (32 * num_ids_word_ p)) H0) as Hb.
  set (b := foldl _ _ _) in *. clearbody b. destruct b as [bid bp].
  assert (forall id, 0 <= id -> claimable p c id = true ->
    0 <= id < Z.of_nat (Z.to_nat (32 * num_ids_word_ p)) /\ id < num_ids_ p) as Hrange.
  { intros id Hid Hcl. unfold claimable in Hcl. bool_hyps. lia. }
  destruct Hb as [[[= -> ->] Hnone]|(Hin & Hcl & Ep & Hmax)]; cbn [fst snd] in *.
  - destruct (Z.leb_spec 0 (priority_threshold c)); [|lia]. left. split; [done|].
    intros id Hid Hc'. rewrite Hnone in Hc'; [done|]. by apply Hrange.
  - destruct (Z.leb_spec bp (priority_threshold c)).
    + left. split; [done|]. intros id Hid Hc'. destruct (Hmax id); [by apply Hrange|done|lia].
    + right. subst bp. destruct (Hrange bid ltac:(lia) Hcl).
      assert (bid <> 0) by (intros ->; congruence). split_and!; try lia; try done.
      intros id Hid Hc'. apply Hmax; [by apply Hrange|done].
Qed.

(** ** The operations keep contexts well formed *)

Lemma ctx_ok_ext p p' c : num_ids_ p' = num_ids_ p -> num_ids_word_ p' = num_ids_word_ p ->
  ctx_ok p c -> ctx_ok p' c.
Proof. intros E1 E2 []. split; try done. by rewrite E1, E2. Qed.

(** Changing the pending and claimed bits of one enabled source. *)
Lemma ctx_ok_source p c id pend pr claim : ctx_ok p c ->
  length pend = 32%nat -> length pr = 1024%nat -> length claim = 32%nat ->
  (bit_of pend id = true -> bit_of (c_enable c) id = true) ->
  (bit_of claim id = true -> bit_of pend id = true) ->
  (forall k, 0 <= k -> k <> id -> bit_of pend k = bit_of (c_pending c) k /\
     bit_of claim k = bit_of (c_claimed c) k) ->
  ctx_ok p (set_pending c pend pr claim).
Proof.
  intros [(L1 & L2 & L3 & L4) Hi Ht Hz Hp Hc] Lp Lr Lc H1 H2 Hk.
  split; cbn [c_enable c_pending pending_priority c_claimed set_pending priority_threshold]; try done.
  - intros k Hk0. destruct (Z.eq_dec k id) as [->|Hne]; [done|].
    destruct (Hk k Hk0 Hne) as [-> _]. by apply Hp.
  - intros k Hk0. destruct (Z.eq_dec k id) as [->|Hne]; [done|].
    destruct (Hk k Hk0 Hne) as [-> ->]. by apply Hc.
Qed.

Lemma level_context_ok p c lvl id pr : ctx_ok p c -> 0 <= id < num_ids_ p ->
  bit_of (c_enable c) id = true -> ctx_ok p (level_context lvl id pr c).
Proof.
  intros Hc Hid He. pose proof Hc as [(L1 & L2 & L3 & L4) [Hn Hw] _ _ _ Hcl].
  assert (0 <= id / 32 < 32 /\ 0 <= id mod 32 < 32) as [Hw1 Hj] by lia.
  unfold level_context. cbv zeta. destruct lvl; apply (ctx_ok_source p c id); try done;
    rewrite ?length_arr_set, ?length_arr_or, ?length_arr_clear; try done.
  - intros Hb. rewrite bit_of_or by lia. rewrite id_again, Z.eqb_refl. done.
  - intros k Hk Hne. rewrite bit_of_or by lia. rewrite id_again. by destruct (Z.eqb_spec k id).
  - rewrite !bit_of_clear by lia. rewrite id_again, Z.eqb_refl. done.
  - intros k Hk Hne. rewrite !bit_of_clear by lia. rewrite id_again. by destruct (Z.eqb_spec k id).
Qed.

Lemma claim_ok p c r : ctx_ok p c -> 0 < r < num_ids_ p -> bit_of (c_pending c) r = true ->
  ctx_ok p (set_pending c (c_pending c) (pending_priority c)
    (arr_or (c_claimed c) (r / 32) (Z.shiftl 1 (r mod 32)))).
Proof.
  intros Hc Hr Hp. pose proof Hc as [(L1 & L2 & L3 & L4) [Hn Hw] _ _ Hpe Hcl].
  apply (ctx_ok_source p c r); rewrite ?length_arr_or; try done.
  - intros _. apply Hpe; [lia|done].
  - intros k Hk Hne. rewrite bit_of_or by lia. rewrite id_again. by destruct (Z.eqb_spec k r).
Qed.

Lemma complete_ok p c r : ctx_ok p c -> 0 <= r < num_ids_ p ->
  ctx_ok p (set_pending c (c_pending c) (pending_priority c)
    (arr_clear (c_claimed c) (r / 32) (Z.shiftl 1 (r mod 32)))).
Proof.
  intros Hc Hr. pose proof Hc as [(L1 & L2 & L3 & L4) [Hn Hw] _ _ Hpe Hcl].
  apply (ctx_ok_source p c r); rewrite ?length_arr_clear; try done.
  - apply Hpe. lia.
  - rewrite bit_of_clear by lia. rewrite id_again, Z.eqb_refl. done.
  - intros k Hk Hne. rewrite bit_of_clear by lia. rewrite id_again. by destruct (Z.eqb_spec k r).
Qed.

Lemma threshold_ok p c v : ctx_ok p c -> 0 <= v ->
  ctx_ok p (mkPlicContext (mmode_ c) v (c_enable c) (c_pending c) (pending_priority c) (c_claimed c)).
Proof. intros [] Hv. by split. Qed.

(** *** Writing a word of enable bits *)

Section EnableWrite.
Variables (p : Plic) (c0 : PlicContext) (w old_val new_val : Z).
Hypothesis Hc0 : ctx_ok p c0.
Hypothesis Hw : 0 <= w < 32.
Hypothesis Hold : old_val = arr_get (c_enable c0) w.
Hypothesis Hnew0 : Z.testbit new_val 0 = false \/ w <> 0.

(** After the first [n] bits: those sources follow the new word, the rest the old. *)
Definition enable_inv (n : Z) (c : PlicContext) : Prop :=
  mmode_ c = mmode_ c0 /\ priority_threshold c = priority_threshold c0 /\
  c_enable c = arr_set (c_enable c0) w new_val /\
  length (c_pending c) = 32%nat /\ length (pending_priority c) = 1024%nat /\
  length (c_claimed c) = 32%nat /\
  (forall id, 0 <= id -> bit_of (c_pending c) id = true ->
     if (id / 32 =? w) && (id mod 32 <? n) then Z.testbit new_val (id mod 32) = true
     else bit_of (c_enable c0) id = true) /\
  (forall id, 0 <= id -> bit_of (c_claimed c) id = true -> bit_of (c_pending c) id = true).

Lemma enable_step_inv n c : 0 <= n < 32 -> enable_inv n c ->
  enable_inv (n + 1) (enable_step p w old_val new_val c n).
Proof.
  intros Hn (I1 & I2 & I3 & I4 & I5 & I6 & Hp & Hcl). unfold enable_step. cbv zeta.
  assert (forall id, 0 <= id -> id <> w * 32 + n ->
    (id / 32 =? w) && (id mod 32 <? n + 1) = (id / 32 =? w) && (id mod 32 <? n)) as Hother.
  { intros id Hid Hne. destruct (Z.eqb_spec (id / 32) w); [|done]. cbn [andb].
    destruct (Z.ltb_spec (id mod 32) (n + 1)), (Z.ltb_spec (id mod 32) n); try done; lia. }
  assert ((w * 32 + n) / 32 = w /\ (w * 32 + n) mod 32 = n) as [Ew En] by lia.
  (* the pending sources of the new word, if the bit is set or the source not pending *)
  assert (forall pend, (forall id, 0 <= id -> id <> w * 32 + n -> bit_of pend id = true ->
      bit_of (c_pending c) id = true) ->
    Z.testbit new_val n = true \/ bit_of pend (w * 32 + n) = false ->
    forall id, 0 <= id -> bit_of pend id = true ->
      if (id / 32 =? w) && (id mod 32 <? n + 1) then Z.testbit new_val (id mod 32) = true
      else bit_of (c_enable c0) id = true) as Hset.
  { intros pend Hsub Hb id Hid Hpe. destruct (Z.eq_dec id (w * 32 + n)) as [->|Hne].
    - rewrite Ew, En, Z.eqb_refl. destruct (Z.ltb_spec n (n + 1)); [|lia]. cbn [andb].
      destruct Hb; [done|congruence].
    - rewrite Hother by done. apply Hp; auto. }
  rewrite Z.lxor_spec. destruct (Z.testbit new_val n) eqn:Eb; cbn [andb negb];
    destruct (Z.testbit old_val n) eqn:Eo; cbn [xorb negb].
  - split_and!; try done. apply Hset; auto.
  - destruct (Z.testbit (arr_get (level_ p) w) n); cbn [andb]; [|split_and!; try done; apply Hset; auto].
    split_and!; cbn [set_pending mmode_ priority_threshold c_enable c_pending pending_priority
      c_claimed]; rewrite ?length_arr_or, ?length_arr_set; try done.
    + apply Hset; [|by left]. intros id Hid Hne. rewrite bit_of_or by lia.
      by destruct (Z.eqb_spec id (w * 32 + n)).
    + intros id Hid Hb. rewrite bit_of_or by lia. rewrite (Hcl id Hid Hb). apply orb_true_r.
  - split_and!; cbn [set_pending mmode_ priority_threshold c_enable c_pending pending_priority
      c_claimed]; rewrite ?length_arr_clear, ?length_arr_set; try done.
    + apply Hset; [|right]; [|by rewrite bit_of_clear, Z.eqb_refl by lia].
      intros id Hid Hne. rewrite bit_of_clear by lia. by intros [_ ?]%andb_true_iff.
    + intros id Hid Hb. rewrite bit_of_clear in Hb |- * by lia. bool_hyps.
      rewrite (Hcl id) by done. by destruct (Z.eqb_spec id (w * 32 + n)).
  - split_and!; try done. apply Hset; [auto|right].
    destruct (bit_of (c_pending c) (w * 32 + n)) eqn:E; [exfalso|done].
    specialize (Hp (w * 32 + n) ltac:(lia) E). rewrite Ew, En, Z.eqb_refl, Z.ltb_irrefl in Hp.
    unfold bit_of in Hp. rewrite Ew, En, <- Hold in Hp. cbn [andb] in Hp. congruence.
Qed.

Lemma enable_loop_inv (n : nat) c : (n <= 32)%nat -> enable_inv 0 c ->
  enable_inv (Z.of_nat n) (foldl (enable_step p w old_val new_val) c (seqZ 0 (Z.of_nat n))).
Proof.
  intros Hn Hi. induction n as [|n IH]; [done|].
  replace (Z.of_nat (S n)) with (Z.of_nat n + 1) by lia.
  rewrite seqZ_app, foldl_app by lia. change (seqZ (0 + Z.of_nat n) 1) with [Z.of_nat n].
  cbn [foldl]. apply enable_step_inv; [lia|]. apply IH. lia.
Qed.

Lemma enable_write_ok :
  let c := mkPlicContext (mmode_ c0) (priority_threshold c0) (arr_set (c_enable c0) w new_val)
             (c_pending c0) (pending_priority c0) (c_claimed c0) in
  let c' := foldl (enable_step p w old_val new_val) c (seqZ 0 32) in
  ctx_ok p c' /\ mmode_ c' = mmode_ c0.
Proof.
  intros c c'. pose proof Hc0 as [(L1 & L2 & L3 & L4) Hi Ht Hz Hp Hcl].
  assert (enable_inv 0 c) as H0.
  { split_and!; try done. intros id Hid Hb. rewrite andb_comm.
    destruct (Z.ltb_spec (id mod 32) 0); [lia|]. by apply Hp. }
  destruct (enable_loop_inv 32 c (le_n 32) H0) as (I1 & I2 & I3 & I4 & I5 & I6 & I7 & I8).
  change (Z.of_nat 32) with 32 in *. fold c' in I1, I2, I3, I4, I5, I6, I7, I8.
  split; [|done]. split; try done.
  - rewrite I3, length_arr_set. done.
  - by rewrite I2.
  - rewrite I3, bit_of_set by lia. change (0 / 32) with 0. change (0 mod 32) with 0.
    destruct (Z.eqb_spec 0 w); [|done]. destruct Hnew0; [done|congruence].
  - intros id Hid Hb. specialize (I7 id Hid Hb). rewrite I3, bit_of_set by lia.
    destruct (Z.ltb_spec (id mod 32) 32); [|lia]. rewrite andb_true_r in I7.
    by destruct (id / 32 =? w).
Qed.
End EnableWrite.

(** ** The controller and the lines it drives *)

Definition line_bit (c : PlicContext) : Z := if mmode_ c then 11 else 9.

(** The line of a context is up exactly when it has something to claim. *)
Definition line_ok (p : Plic) (h : Hart) (c : PlicContext) : Prop :=
  Z.testbit (raw h MIP_ADDRESS) (line_bit c) = negb (context_best_pending p c =? 0).

Record plic_ok (p : Plic) (h : Hart) : Prop := {
  po_contexts : exists cm cs, contexts_ p = [cm; cs] /\ mmode_ cm = true /\ mmode_ cs = false /\
    ctx_ok p cm /\ ctx_ok p cs /\ line_ok p h cm /\ line_ok p h cs;
}.

Lemma line_flag c : context_line c = Z.shiftl 1 (line_bit c).
Proof. unfold context_line, line_bit. by destruct (mmode_ c). Qed.
Lemma line_bit_range c : 0 <= line_bit c /\ Z.testbit MIP_read_mask (line_bit c) = true.
Proof. unfold line_bit. by destruct (mmode_ c). Qed.

Lemma context_update_bit p c h i : 0 <= i ->
  Z.testbit (raw (context_update p c h) MIP_ADDRESS) i =
    if i =? line_bit c then negb (context_best_pending p c =? 0)
    else Z.testbit (raw h MIP_ADDRESS) i.
Proof.
  intros Hi. destruct (line_bit_range c) as [Hl Hm].
  unfold context_update, set_interrupt_pending, MIP_set_pending, MIP_clear_pending.
  rewrite line_flag. destruct (negb _); rewrite raw_set_raw_eq; unfold andn;
    rewrite ?Z.lor_spec, ?Z.ldiff_spec, ?Z.land_spec, testbit_flag by lia;
    (destruct (Z.eqb_spec i (line_bit c)) as [->|]; cbn [andb negb]);
    rewrite ?Hm, ?orb_true_r, ?orb_false_r, ?andb_false_r, ?andb_true_r; done.
Qed.

(** What an operation on a context may do. *)
Definition ctx_step (p : Plic) (c : PlicContext) (h : Hart) (c' : PlicContext) (h' : Hart) : Prop :=
  (c' = c /\ h' = h) \/ (ctx_ok p c' /\ mmode_ c' = mmode_ c /\ h' = context_update p c' h).

Lemma best_pending_ext p p' c : num_ids_ p' = num_ids_ p -> num_ids_word_ p' = num_ids_word_ p ->
  context_best_pending p' c = context_best_pending p c.
Proof. intros E1 E2. unfold context_best_pending, best_step. by rewrite E1, E2. Qed.

Lemma line_ok_ext p p' h c : num_ids_ p' = num_ids_ p -> num_ids_word_ p' = num_ids_word_ p ->
  line_ok p h c -> line_ok p' h c.
Proof. intros E1 E2. unfold line_ok. by rewrite (best_pending_ext p p'). Qed.

Lemma line_ok_own p c h : line_ok p (context_update p c h) c.
Proof.
  unfold line_ok. rewrite context_update_bit by apply line_bit_range. by rewrite Z.eqb_refl.
Qed.
Lemma line_ok_other p c c' h : mmode_ c <> mmode_ c' -> line_ok p h c' ->
  line_ok p (context_update p c h) c'.
Proof.
  intros Hne. unfold line_ok. rewrite context_update_bit by apply line_bit_range.
  destruct (Z.eqb_spec (line_bit c') (line_bit c)) as [E|]; [|done]. exfalso. apply Hne.
  unfold line_bit in E. by destruct (mmode_ c), (mmode_ c').
Qed.

(** An update of one context keeps the invariant of the controller. *)
Lemma plic_put p h k c c' h' : plic_ok p h -> get_context k p = Some c -> ctx_step p c h c' h' ->
  plic_ok (put_context k c' p) h'.
Proof.
  intros Hp Hk [[-> ->]|(Hc' & Hm & ->)].
  - replace (put_context k c p) with p; [done|]. unfold put_context, set_contexts.
    rewrite list_insert_id by done. by destruct p.
  - destruct Hp as [(cm & cs & Ec & M1 & M2 & C1 & C2 & L1 & L2)]. split.
    unfold get_context in Hk. rewrite Ec in Hk. unfold put_context. rewrite Ec.
    cbn [contexts_ set_contexts].
    destruct (Z.to_nat k) as [|[|n]]; [| |by destruct n]; injection Hk as ->.
    + exists c', cs. cbn [list_insert]. split_and!; try done; try congruence;
        [by apply (ctx_ok_ext p)..|by apply (line_ok_ext p), line_ok_own|].
      apply (line_ok_ext p), line_ok_other; try done. congruence.
    + exists cm, c'. cbn [list_insert]. split_and!; try done; try congruence;
        [by apply (ctx_ok_ext p)..| |by apply (line_ok_ext p), line_ok_own].
      apply (line_ok_ext p), line_ok_other; try done. congruence.
Qed.

Lemma get_context_ok p h k c : plic_ok p h -> get_context k p = Some c ->
  ctx_ok p c /\ line_ok p h c.
Proof.
  intros [(cm & cs & Ec & _ & _ & C1 & C2 & L1 & L2)]. unfold get_context. rewrite Ec.
  destruct (Z.to_nat k) as [|[|n]]; [| |by destruct n]; by intros [= <-].
Qed.

(** *** The operations on a context *)

Lemma claim_step p c h : ctx_ok p c ->
  let '(r, c', h') := context_claim p c h in ctx_step p c h c' h' \/ c' = c /\ h' = context_update p c h.
Proof.
  intros Hc. unfold context_claim. cbv zeta.
  destruct (Z.eqb_spec (context_best_pending p c) 0) as [E|Hne]; [by right|].
  left. right. destruct (best_pending_arbitrated p c Hc) as [[? _]|(Hr & Hcl & _)]; [done|].
  unfold claimable in Hcl. bool_hyps. split_and!; try done. by apply claim_ok.
Qed.

(** Splitting equations of results without simplifying the results. *)
Lemma pair_inv {A B} (a a' : A) (b b' : B) : (a, b) = (a', b') -> a = a' /\ b = b'.
Proof. by intros [= -> ->]. Qed.
Lemma triple_inv {A B C} (a a' : A) (b b' : B) (c c' : C) :
  (a, b, c) = (a', b', c') -> a = a' /\ b = b' /\ c = c'.
Proof. by intros [= -> -> ->]. Qed.

Lemma enable_write_step p c offset val h c' h' : ctx_ok p c ->
  context_enable_write p c offset val h = (c', h') -> ctx_step p c h c' h'.
Proof.
  intros Hc. unfold context_enable_write. cbv zeta. set (w := u32 (Z.shiftr offset 2)).
  pose proof (uwrap_fits 32 (Z.shiftr offset 2) ltac:(lia)) as Hw. fold w in Hw.
  unfold fits in Hw. destruct (Z.leb_spec (num_ids_word_ p) w); intros [<- <-]%pair_inv; [by left|right].
  destruct (co_ids p c Hc) as [Hn Ew].
  destruct (enable_write_ok p c w (arr_get (c_enable c) w) (if w =? 0 then andn val 1 else val))
    as [Hok Hm]; [done|lia|done| |by split_and!].
  destruct (Z.eqb_spec w 0); [left|by right]. unfold andn. by rewrite Z.ldiff_spec, andb_false_r.
Qed.

Lemma context_write_step p c offset val h b c' h' : ctx_ok p c -> 0 <= val ->
  context_write p c offset val h = (b, c', h') -> ctx_step p c h c' h'.
Proof.
  intros Hc Hv. unfold context_write. cbv zeta.
  destruct (offset =? CONTEXT_THRESHOLD).
  - destruct (_ <=? max_prio_ p); intros (<- & <- & <-)%triple_inv; [|by left]. right. split_and!; try done.
    apply threshold_ok; [done|]. apply Z.land_nonneg. by left.
  - destruct (offset =? CONTEXT_CLAIM); [|intros (<- & <- & <-)%triple_inv; by left].
    destruct (_ && _) eqn:E; intros (<- & <- & <-)%triple_inv; [|by left]. bool_hyps. right.
    split_and!; try done. apply complete_ok; [done|]. lia.
Qed.

Lemma level_loop_ok p lvl id pr cm cs h cs' h' :
  0 <= id < num_ids_ p -> mmode_ cm = true -> mmode_ cs = false -> ctx_ok p cm -> ctx_ok p cs ->
  line_ok p h cm -> line_ok p h cs -> level_loop p lvl id pr [cm; cs] h = (cs', h') ->
  exists cm' cs2, cs' = [cm'; cs2] /\ mmode_ cm' = true /\ mmode_ cs2 = false /\
    ctx_ok p cm' /\ ctx_ok p cs2 /\ line_ok p h' cm' /\ line_ok p h' cs2.
Proof.
  intros Hid M1 M2 C1 C2 L1 L2. cbn [level_loop].
  assert (forall c, mmode_ (level_context lvl id pr c) = mmode_ c) as Hm by (by destruct lvl).
  destruct (Z.testbit (arr_get (c_enable cm) (id / 32)) (id mod 32)) eqn:E1;
    [|destruct (Z.testbit (arr_get (c_enable cs) (id / 32)) (id mod 32)) eqn:E2];
    intros [<- <-]%pair_inv; do 2 eexists; (split; [reflexivity|]); rewrite ?Hm; split_and!; try done;
    try (by apply level_context_ok); try apply line_ok_own;
    apply line_ok_other; try done; rewrite Hm; congruence.
Qed.

(** ** The properties *)

Lemma plic_ok_fields p p' h : contexts_ p' = contexts_ p -> num_ids_ p' = num_ids_ p ->
  num_ids_word_ p' = num_ids_word_ p -> plic_ok p h -> plic_ok p' h.
Proof.
  intros E1 E2 E3 [(cm & cs & Ec & M1 & M2 & C1 & C2 & L1 & L2)]. split. exists cm, cs.
  split_and!; try done; try congruence; try (by apply (ctx_ok_ext p)); by apply (line_ok_ext p).
Qed.

Lemma set_level_ok id lvl p h : plic_ok p h ->
  plic_ok (fst (set_interrupt_level id lvl (p, h))) (snd (set_interrupt_level id lvl (p, h))).
Proof.
  intros Hp. unfold set_interrupt_level. destruct (_ || _) eqn:E; [done|]. bool_hyps. cbv zeta.
  set (p1 := mkPlic _ _ _ _ _ _).
  assert (plic_ok p1 h) as [(cm & cs & Ec & M1 & M2 & C1 & C2 & L1 & L2)] by (by apply (plic_ok_fields p)).
  change (contexts_ p1) with (contexts_ p) in Ec. cbn [contexts_ p1]. rewrite Ec.
  destruct (level_loop _ _ _ _ _ _) as [cs' h'] eqn:El.
  destruct (level_loop_ok p1 lvl id (arr_get (priority_ p) id) cm cs h cs' h')
    as (cm' & cs2 & -> & ? & ? & ? & ? & ? & ?); try done.
  { change (num_ids_ p1) with (num_ids_ p). lia. }
  split. exists cm', cs2. split_and!; try done; try (by apply (ctx_ok_ext p1)); by apply (line_ok_ext p1).
Qed.

Lemma plic_write_4_ok offset value p h : plic_ok p h ->
  let ph := snd (plic_write_4 offset value (p, h)) in plic_ok (fst ph) (snd ph).
Proof.
  intros Hp. unfold plic_write_4. cbv zeta.
  pose proof (uwrap_fits 32 value ltac:(lia)) as [Hv _].
  destruct (_ && _).
  { unfold priority_write. cbv zeta. destruct (_ && _); [|done]. by apply (plic_ok_fields p). }
  destruct (_ && _).
  { destruct (get_context _ p) as [c|] eqn:Ec; [|done].
    destruct (get_context_ok _ _ _ _ Hp Ec) as [Hc _].
    destruct (context_enable_write _ _ _ _ _) as [c' h'] eqn:Ew.
    eapply plic_put; [done..|]. by eapply enable_write_step. }
  destruct (_ && _); [|done].
  destruct (get_context _ p) as [c|] eqn:Ec; [|done].
  destruct (get_context_ok _ _ _ _ Hp Ec) as [Hc _].
  destruct (context_write _ _ _ _ _) as [[b c'] h'] eqn:Ew.
  eapply plic_put; [done..|]. by eapply context_write_step.
Qed.

Lemma claim_put p h k c r c' h' : plic_ok p h -> get_context k p = Some c ->
  context_claim p c h = (r, c', h') -> plic_ok (put_context k c' p) h'.
Proof.
  intros Hp Ec E. destruct (get_context_ok _ _ _ _ Hp Ec) as [Hc _].
  pose proof (claim_step p c h Hc) as Hs. rewrite E in Hs.
  destruct Hs as [Hs|[-> ->]]; (eapply plic_put; [done..|]); [done|]. right. done.
Qed.

Lemma plic_read_4_ok offset p h : plic_ok p h ->
  let ph := snd (plic_read_4 offset (p, h)) in plic_ok (fst ph) (snd ph).
Proof.
  intros Hp. unfold plic_read_4. cbv zeta. destruct (_ && _); [done|]. destruct (_ && _); [done|].
  destruct (_ && _); [by destruct (get_context _ p)|]. destruct (_ && _); [|done].
  destruct (get_context _ p) as [c|] eqn:Ec; [|done].
  destruct (context_read _ _ _ _) as [[v c'] h'] eqn:Er. cbn [fst snd]. unfold context_read in Er.
  destruct (_ =? CONTEXT_THRESHOLD); [apply triple_inv in Er as (<- & <- & <-); eapply plic_put; [done..|by left]|].
  destruct (_ =? CONTEXT_CLAIM); [by eapply claim_put|].
  apply triple_inv in Er as (<- & <- & <-). eapply plic_put; [done..|by left].
Qed.

(** Setting and clearing a bit that was clear. *)
Lemma arr_set_clear l w j : 0 <= w < Z.of_nat (length l) -> 0 <= j ->
  Z.testbit (arr_get l w) j = false ->
  arr_clear (arr_or l w (Z.shiftl 1 j)) w (Z.shiftl 1 j) = l.
Proof.
  intros Hw Hj Hb. unfold arr_clear, arr_or at 2. rewrite arr_get_set, Z.eqb_refl by lia.
  unfold arr_or, arr_set. rewrite list_insert_insert_eq. apply list_insert_id.
  replace (andn (Z.lor (arr_get l w) (Z.shiftl 1 j)) (Z.shiftl 1 j)) with (arr_get l w).
  { unfold arr_get. rewrite nth_lookup. destruct (lookup_lt_is_Some_2 l (Z.to_nat w)) as [x ->]; [lia|done]. }
  apply Z.bits_inj'. intros i Hi. unfold andn. rewrite Z.ldiff_spec, Z.lor_spec, testbit_flag by lia.
  destruct (Z.eqb_spec i j) as [->|]; [by rewrite andb_false_r|by rewrite orb_false_r, andb_true_r].
Qed.

(** C25. The external-interrupt lines of the hart are right after every operation of
    the controller: a register read or write of any size at any offset, or a source
    changing level, keeps MEIP (SEIP) equal to "the machine (supervisor) context has
    a source to claim", and keeps the contexts well formed. *)
Theorem plic_lines (p : Plic) (h : Hart) offset size value id lvl : plic_ok p h ->
  (let ph := snd (plic_read_internal offset size (p, h)) in plic_ok (fst ph) (snd ph)) /\
  (let ph := snd (plic_write_internal offset size value (p, h)) in plic_ok (fst ph) (snd ph)) /\
  (let ph := set_interrupt_level id lvl (p, h) in plic_ok (fst ph) (snd ph)).
Proof.
  intros Hp. split_and!; [| |by apply set_level_ok].
  - unfold plic_read_internal. pose proof (plic_read_4_ok offset p h Hp) as H1. cbv zeta in H1.
    destruct (size =? 8); [|by destruct (negb _)].
    destruct (plic_read_4 offset (p, h)) as [[lo|] [p1 h1]]; [|done].
    pose proof (plic_read_4_ok (u64 (offset + 4)) p1 h1 H1) as H2. cbv zeta in H2.
    by destruct (plic_read_4 _ (p1, h1)) as [[hi|] ph2].
  - unfold plic_write_internal. destruct (size =? 8); [|destruct (negb _); [done|by apply plic_write_4_ok]].
    pose proof (plic_write_4_ok offset (Z.land value 0xFFFFFFFF) p h Hp) as H1. cbv zeta in H1.
    destruct (plic_write_4 _ _ (p, h)) as [[] [p1 h1]]; [|done]. by apply plic_write_4_ok.
Qed.

(** C26. Arbitration, claim and completion: claiming a context returns its claimable
    source of highest priority above the threshold (the lowest number on a tie), or
    0 when there is none; the source is then no longer claimable, and completing it
    puts the context back exactly as it was. *)
Theorem plic_claim_complete (p : Plic) (c : PlicContext) (h : Hart) : ctx_ok p c ->
  let '(r, c1, h1) := context_claim p c h in
  arbitrated p c r /\ claimable p c1 r = false /\
  (r <> 0 -> let '(b, c2, h2) := context_write p c1 CONTEXT_CLAIM r h1 in
     b = true /\ c2 = c /\ h2 = context_update p c h1).
Proof.
  intros Hc. pose proof (best_pending_arbitrated p c Hc) as Ha. unfold context_claim. cbv zeta.
  set (r := context_best_pending p c) in *. split; [done|].
  destruct Ha as [[-> _]|(Hr & Hcl & _ & _)]; [split; [by apply ctx_ok_0|done]|].
  destruct (Z.eqb_spec r 0) as [|Hne]; [lia|].
  pose proof Hc as [(L1 & L2 & L3 & L4) [Hn Hw] _ _ Hpe _].
  unfold claimable in Hcl. bool_hyps.
  assert (0 <= r / 32 < 32 /\ 0 <= r mod 32 < 32) as [Hw1 Hj] by lia.
  split.
  { unfold claimable. cbn [c_claimed c_pending set_pending].
    rewrite bit_of_or, id_again, Z.eqb_refl by lia. apply andb_false_r. }
  intros _. unfold context_write. cbv zeta. change (CONTEXT_CLAIM =? CONTEXT_THRESHOLD) with false.
  change (CONTEXT_CLAIM =? CONTEXT_CLAIM) with true. cbv iota. cbn [c_enable set_pending].
  rewrite nz_land_bit by lia. fold (bit_of (c_enable c) r). rewrite Hpe by (lia || done).
  destruct (Z.ltb_spec r (num_ids_ p)); [|lia]. cbn [andb]. split; [done|].
  assert (arr_clear (arr_or (c_claimed c) (r / 32) (Z.shiftl 1 (r mod 32))) (r / 32)
    (Z.shiftl 1 (r mod 32)) = c_claimed c) as E.
  { apply arr_set_clear; [lia..|]. fold (bit_of (c_claimed c) r). by destruct (bit_of (c_claimed c) r). }
  cbn [c_claimed set_pending mmode_ priority_threshold c_enable c_pending pending_priority].
  rewrite E. unfold set_pending. cbn. by destruct c.
Qed.

(** *** The controller after construction *)

Lemma bit_of_zeros n id : bit_of (replicate n 0) id = false.
Proof.
  unfold bit_of, arr_get. rewrite nth_lookup.
  destruct (replicate n 0 !! Z.to_nat (id / 32)) as [x|] eqn:E; [|apply Z.bits_0].
  apply lookup_replicate in E as [-> _]. apply Z.bits_0.
Qed.

Lemma ctx_init_ok mmode : ctx_ok (Plic_init 31) (PlicContext_init mmode).
Proof.
  split; [done|split; [split; vm_compute; done|done]|done| | |];
    cbn [c_enable c_pending c_claimed PlicContext_init]; intros; by rewrite ?bit_of_zeros in *.
Qed.

Lemma plic_init_ok : plic_ok (Plic_init 31) (Hart_init 0).
Proof.
  split. exists (PlicContext_init true), (PlicContext_init false).
  split_and!; first [reflexivity | apply ctx_init_ok | vm_compute; reflexivity].
Qed.

(** Source 10 enabled for the machine context with priority 3, then raised. *)
Definition plic_setup : Plic * Hart :=
  let ph := (Plic_init 31, Hart_init 0) in
  let ph := snd (plic_write_internal (4 * 10) 4 3 ph) in
  snd (plic_write_internal 0x2000 4 (2 ^ 10) ph).

Lemma plic_setup_ok : plic_ok (fst plic_setup) (snd plic_setup).
Proof.
  unfold plic_setup. cbv zeta.
  pose proof (plic_write_4_ok (4 * 10) 3 _ _ plic_init_ok) as H1. cbv zeta in H1.
  change (plic_write_internal (4 * 10) 4 3) with (plic_write_4 (4 * 10) 3).
  change (plic_write_internal 0x2000 4 (2 ^ 10)) with (plic_write_4 0x2000 (2 ^ 10)).
  destruct (plic_write_4 (4 * 10) 3 _) as [b [p1 h1]]. by apply plic_write_4_ok.
Qed.

Lemma plic_lines_witness :
  let ph := set_interrupt_level 10 true plic_setup in
  plic_ok (fst ph) (snd ph) /\ Z.testbit (raw (snd ph) MIP_ADDRESS) 11 = true.
Proof.
  destruct (plic_lines (fst plic_setup) (snd plic_setup) 0 4 0 10 true plic_setup_ok) as (_ & _ & H).
  split; [exact H|vm_compute; reflexivity].
Defined.

(** A context of a one-word controller with sources 10 and 11 pending. *)
Definition two_pending : PlicContext :=
  set_pending
    (mkPlicContext true 1 (arr_set (replicate 32 0) 0 0xC00) (replicate 32 0) (replicate 1024 0) (replicate 32 0))
    (arr_set (replicate 32 0) 0 0xC00) (arr_set (arr_set (replicate 1024 0) 10 2) 11 5) (replicate 32 0).

Lemma two_pending_ok : ctx_ok (Plic_init 31) two_pending.
Proof.
  split; [done|split; [split; vm_compute; done|done]|done|reflexivity| |];
    cbn [c_enable c_pending c_claimed two_pending set_pending]; intros; by rewrite ?bit_of_zeros in *.
Qed.

Lemma plic_claim_complete_witness :
  let '(r, c1, h1) := context_claim (Plic_init 31) two_pending (Hart_init 0) in
  r = 11 /\ snd (fst (context_write (Plic_init 31) c1 CONTEXT_CLAIM r h1)) = two_pending.
Proof.
  pose proof (plic_claim_complete (Plic_init 31) two_pending (Hart_init 0) two_pending_ok) as H.
  destruct (context_claim (Plic_init 31) two_pending (Hart_init 0)) as [[r c1] h1] eqn:E.
  assert (r = 11) as Hr.
  { change r with (fst (fst (r, c1, h1))). rewrite <- E. vm_compute. reflexivity. }
  split; [exact Hr|]. destruct H as (_ & _ & H). assert (r <> 0) as Hne by (rewrite Hr; discriminate).
  specialize (H Hne). destruct (context_write _ _ _ _ _) as [[b c2] h2]. exact (proj1 (proj2 H)).
Defined.
