(* ===== verification/Ns16550Spec.v ===== *)
(** * What the UART guarantees

    The receive queue is a bounded FIFO, LSR.DR says whether it holds a character, IIR
    and the interrupt line say which enabled conditions hold; characters written in
    loopback mode come back in order. *)

From S2P Require Import Prelude Bits Hart HartInv Ports Ns16550.

(** The tests of single bits. *)
Lemma nz_bit x f b : f = Z.shiftl 1 b -> 0 <= b -> nz (Z.land x f) = Z.testbit x b.
Proof. intros -> Hb. by apply nz_land_bit. Qed.

Lemma testbit_raise x f i : 0 <= i -> Z.testbit (Z.lor x f) i = Z.testbit x i || Z.testbit f i.
Proof. intros. apply Z.lor_spec. Qed.
Lemma testbit_drop x f i : 0 <= i -> Z.testbit (andn x f) i = Z.testbit x i && negb (Z.testbit f i).
Proof. intros. apply Z.ldiff_spec. Qed.

Definition nonempty {A} (q : list A) : bool := match q with [] => false | _ => true end.

(** The three low bits of an offset. *)
Lemma land_7 x : Z.land x 7 = x mod 8.
Proof. change 7 with (Z.ones 3). by rewrite Z.land_ones by lia. Qed.

(** ** The registers *)

Record ns_ok (d : NS16550) : Prop := {
  no_shift : reg_shift_ d = 0;
  no_width : reg_io_width_ d = 1;
  no_queue : (length (rx_queue_ d) <= QUEUE_SIZE)%nat;
  no_dr : Z.testbit (lsr_ d) 0 = nonempty (rx_queue_ d);
  no_bi : Z.testbit (lsr_ d) 4 = false;
  no_temt : Z.testbit (lsr_ d) 6 = true;
  no_fcr : Z.testbit (fcr_ d) 1 = false /\ Z.testbit (fcr_ d) 2 = false;
}.

(** The conditions that raise the interrupt: received data, and an idle transmitter
    (it always is). *)
Definition rx_cond (d : NS16550) : bool := Z.testbit (ier_ d) 0 && nonempty (rx_queue_ d).
Definition tx_cond (d : NS16550) : bool := Z.testbit (ier_ d) 1.
Definition ns_irq (d : NS16550) : bool := rx_cond d || tx_cond d.
Definition iir_value (d : NS16550) : Z :=
  match rx_cond d, tx_cond d with
  | false, false => IIR_NO_INT
  | true, false => IIR_RDI
  | false, true => IIR_THRI
  | true, true => Z.lor IIR_RDI IIR_THRI
  end.

(** The registers just before update_interrupt: a FIFO reset may be pending. *)
Record ns_pre (d : NS16550) : Prop := {
  np_shift : reg_shift_ d = 0;
  np_width : reg_io_width_ d = 1;
  np_queue : (length (rx_queue_ d) <= QUEUE_SIZE)%nat;
  np_dr : Z.testbit (lsr_ d) 0 = nonempty (rx_queue_ d);
  np_bi : Z.testbit (lsr_ d) 4 = false;
  np_temt : Z.testbit (lsr_ d) 6 = true;
}.

Lemma ns_ok_pre d : ns_ok d -> ns_pre d.
Proof. by intros []. Qed.

(** The queue after a pending reset. *)
Definition reset_queue (d : NS16550) : list Z :=
  if Z.testbit (fcr_ d) 1 then [] else rx_queue_ d.

Lemma ns_clear_ok d : ns_pre d ->
  ns_ok (ns_clear d) /\ rx_queue_ (ns_clear d) = reset_queue d /\ ier_ (ns_clear d) = ier_ d /\
  lcr_ (ns_clear d) = lcr_ d /\ mcr_ (ns_clear d) = mcr_ d.
Proof.
  intros [S W Q D B T]. unfold ns_clear, reset_queue. cbv zeta.
  rewrite (nz_bit (fcr_ d) FCR_CLEAR_RCVR 1) by done.
  set (d1 := if Z.testbit (fcr_ d) 1 then _ else d).
  assert (ns_pre d1 /\ Z.testbit (fcr_ d1) 1 = false /\
    rx_queue_ d1 = (if Z.testbit (fcr_ d) 1 then [] else rx_queue_ d) /\
    ier_ d1 = ier_ d /\ lcr_ d1 = lcr_ d /\ mcr_ d1 = mcr_ d) as (P1 & F1 & Q1 & I1 & L1 & M1).
  { subst d1. destruct (Z.testbit (fcr_ d) 1) eqn:E; [|done].
    unfold lsr_drop. split_and!; try done;
      [split|]; cbn [set_lsr set_rx_queue set_fcr reg_shift_ reg_io_width_ rx_queue_ lsr_ fcr_];
      try done; rewrite ?testbit_drop by lia; rewrite ?B, ?T, ?D, ?E, ?andb_false_r; try done.
    cbn [length]. lia. }
  rewrite (nz_bit (fcr_ d1) FCR_CLEAR_XMIT 2) by done. rewrite <- Q1.
  destruct P1 as [S1 W1 Q1' D1 B1 T1]. destruct (Z.testbit (fcr_ d1) 2) eqn:E.
  - unfold lsr_raise. split_and!; try done.
    split; [done|done|done|..|split];
      cbn [set_lsr set_fcr rx_queue_ lsr_ fcr_];
      rewrite ?testbit_raise, ?testbit_drop by lia; rewrite ?D1, ?B1, ?T1, ?F1, ?E, ?orb_false_r; done.
  - split_and!; try done.
Qed.

Lemma ns_interrupts_value d : ns_ok d ->
  ns_interrupts d = if ns_irq d then iir_value d else 0.
Proof.
  intros [_ _ _ D _ T _]. unfold ns_interrupts, ns_irq, iir_value, rx_cond, tx_cond.
  rewrite (nz_bit _ IER_RDI 0), (nz_bit _ IER_THRI 1), (nz_bit _ LSR_DR 0), (nz_bit _ LSR_TEMT 6) by done.
  rewrite D, T, andb_true_r.
  by destruct (Z.testbit (ier_ d) 0 && nonempty (rx_queue_ d)), (Z.testbit (ier_ d) 1).
Qed.

(** ** The operations *)

(** What the console port must not do: drive an interrupt line. *)
Class ConsoleQuiet (W : Type) `{IrqLines W} `{ConsolePort W} := {
  read_char_quiet : forall id w, irq_line id (snd (read_char w)) = irq_line id w;
  write_char_quiet : forall id c w, irq_line id (write_char c w) = irq_line id w;
}.

Section Uart.
Context {W : Type} `{ConsoleQuiet W}.
Variable id : Z.
Abbreviation ns := (NS16550 * W)%type.

(** The invariant of the device and its interrupt line. *)
Definition ns_inv (s : ns) : Prop :=
  ns_ok (fst s) /\ iir_ (fst s) = iir_value (fst s) /\ irq_line id (snd s) = ns_irq (fst s).

Lemma update_interrupt_ok d w : ns_pre d ->
  let s := update_interrupt id (d, w) in
  ns_inv s /\ rx_queue_ (fst s) = reset_queue d /\ lcr_ (fst s) = lcr_ d /\ mcr_ (fst s) = mcr_ d.
Proof.
  intros Hd. unfold update_interrupt. cbv zeta.
  destruct (ns_clear_ok d Hd) as (Hok & Eq & Ei & El & Em).
  set (c := ns_clear d) in *. clearbody c. rewrite ns_interrupts_value by done.
  assert (forall v, ns_ok (set_iir v c)) as Hset by (by destruct Hok).
  assert (forall e, ns_ok e -> ns_ok (lsr_raise (Z.lor LSR_TEMT LSR_THRE) e)) as Hraise.
  { intros e [S Wd Q D B T F]. split; try done; cbn [lsr_raise set_lsr lsr_ rx_queue_];
      rewrite testbit_raise by lia; rewrite ?D, ?B, ?T; [apply orb_false_r|done|done]. }
  (* the state returned, for the value [v] of IIR and the level [lvl] *)
  assert (forall v lvl, v = iir_value c -> lvl = ns_irq c ->
    let d' := if nz (Z.land (ier_ (set_iir v c)) IER_THRI) then set_iir v c
              else lsr_raise (Z.lor LSR_TEMT LSR_THRE) (set_iir v c) in
    ns_inv (d', irq_callback id lvl w) /\ rx_queue_ d' = reset_queue d /\ lcr_ d' = lcr_ d /\
    mcr_ d' = mcr_ d) as Hfin.
  { intros v lvl Hv Hl. destruct (nz _); (split; [split; [|split]|]); cbn [fst snd]; auto;
      rewrite irq_line_same; exact Hl. }
  destruct (ns_irq c) eqn:Eirq.
  - destruct (Z.eqb_spec (iir_value c) 0) as [E0|_]; [|by apply Hfin].
    exfalso. unfold iir_value in E0. by destruct (rx_cond c), (tx_cond c).
  - change (0 =? 0) with true. cbv iota. apply Hfin; [|done].
    unfold ns_irq, iir_value in *. by destruct (rx_cond c), (tx_cond c).
Qed.

(** *** The specification: a bounded FIFO *)

Inductive uart_event : Set :=
  | Tick
  | Load (offset : Z)
  | Store (offset value : Z).

(** An access or a tick of the device, with the value returned. *)
Definition uart_exec (e : uart_event) (s : ns) : Z * ns :=
  match e with
  | Tick => (0, ns_tick id s)
  | Load off => let '(v, s) := ns_read_internal id off 1 s in (default 0 v, s)
  | Store off v => (0, snd (ns_write_internal id off 1 v s))
  end.

Definition dlab (d : NS16550) : bool := Z.testbit (lcr_ d) 7.
Definition loopback (d : NS16550) : bool := Z.testbit (mcr_ d) 4.
Definition fifo_enabled (d : NS16550) : bool := Z.testbit (fcr_ d) 0.
Definition push (x : Z) (q : list Z) : list Z :=
  if (length q <? QUEUE_SIZE)%nat then q ++ [x] else q.

(** What an event does to the queue, given the character the console offers. *)
Definition fifo_step (d : NS16550) (offered : option Z) (e : uart_event) (q : list Z) : list Z :=
  match e with
  | Tick => if fifo_enabled d && negb (loopback d)
            then match offered with Some c => push (u8 c) q | None => q end else q
  | Load off => if (off mod 8 =? RX) && negb (dlab d) then tl q else q
  | Store off v =>
      if (off mod 8 =? TX) && negb (dlab d) && loopback d then push (Z.land v 0xFF) q
      else if (off mod 8 =? FCR) && Z.testbit v 1 then [] else q
  end.

Lemma push_pre d q x : ns_pre d -> rx_queue_ d = q -> (length q < QUEUE_SIZE)%nat ->
  ns_pre (lsr_raise LSR_DR (set_rx_queue (q ++ [x]) d)).
Proof.
  intros [S Wd Q D B T] <- Hl. split; try done; cbn [lsr_raise set_lsr set_rx_queue lsr_ rx_queue_];
    rewrite ?testbit_raise, ?B, ?T by lia; try done.
  - rewrite length_app. cbn [length]. lia.
  - rewrite orb_true_r. by destruct (rx_queue_ d).
Qed.

Lemma reset_none d : Z.testbit (fcr_ d) 1 = false -> reset_queue d = rx_queue_ d.
Proof. intros E. unfold reset_queue. by rewrite E. Qed.

Lemma rx_byte_pre d : ns_ok d ->
  let '(v, d') := rx_byte d in
  ns_pre d' /\ v = hd 0 (rx_queue_ d) /\ rx_queue_ d' = tl (rx_queue_ d) /\ fcr_ d' = fcr_ d.
Proof.
  intros Hok. pose proof (ns_ok_pre d Hok) as [S Wd Q D B T]. unfold rx_byte.
  destruct (rx_queue_ d) as [|c q] eqn:Eq.
  - split_and!; try done. split; try done; cbn [lsr_drop set_lsr lsr_ rx_queue_];
      rewrite ?testbit_drop, ?Eq, ?D, ?B, ?T by lia; try done; cbn [length]; lia.
  - rewrite (nz_bit _ LSR_BI 4), B by done. cbn [length hd tl] in *.
    destruct q as [|c' q].
    + split_and!; try done. split; try done; cbn [lsr_drop set_lsr set_rx_queue lsr_ rx_queue_];
        rewrite ?testbit_drop, ?D, ?B, ?T by lia; try done; cbn [length]; lia.
    + split_and!; try done. split; try done; cbn [set_rx_queue lsr_ rx_queue_ length nonempty] in *;
        first [lia|by rewrite D].
Qed.

Lemma ns_tick_inv s : ns_inv s ->
  ns_inv (ns_tick id s) /\
  rx_queue_ (fst (ns_tick id s)) = fifo_step (fst s) (fst (read_char (snd s))) Tick (rx_queue_ (fst s)) /\
  lcr_ (fst (ns_tick id s)) = lcr_ (fst s) /\ mcr_ (fst (ns_tick id s)) = mcr_ (fst s).
Proof.
  destruct s as [d w]. intros (Hok & Hi & Hl). unfold ns_tick, fifo_step, fifo_enabled, loopback, push.
  cbn [fst snd] in *. rewrite (nz_bit _ FCR_ENABLE_FIFO 0), (nz_bit _ MCR_LOOP 4) by done.
  destruct (Z.testbit (fcr_ d) 0); [|done]. destruct (Z.testbit (mcr_ d) 4); [done|]. cbn [negb orb andb].
  rewrite Nat.leb_antisym. destruct (Nat.ltb_spec (length (rx_queue_ d)) QUEUE_SIZE) as [Hq|]; cbn [negb].
  2:{ destruct (read_char w) as [[c|] w1]; done. }
  pose proof (read_char_quiet id w) as Hr. destruct (read_char w) as [[c|] w1]; cbn [fst snd] in *.
  - destruct (update_interrupt_ok (lsr_raise LSR_DR (set_rx_queue (rx_queue_ d ++ [u8 c]) d)) w1)
      as (Hinv & Eq & El & Em); [by apply push_pre; [apply ns_ok_pre|..]|].
    split; [done|]. rewrite Eq. rewrite reset_none by apply Hok. done.
  - split; [|done]. split; [done|]. split; [done|]. cbn [snd fst]. congruence.
Qed.

Lemma ns_read_inv off s : ns_inv s -> 0 <= off < 0x100 ->
  let '(v, s') := uart_exec (Load off) s in
  ns_inv s' /\ rx_queue_ (fst s') = fifo_step (fst s) None (Load off) (rx_queue_ (fst s)) /\
  lcr_ (fst s') = lcr_ (fst s) /\ mcr_ (fst s') = mcr_ (fst s) /\
  (off mod 8 = RX -> dlab (fst s) = false -> v = hd 0 (rx_queue_ (fst s))).
Proof.
  destruct s as [d w]. intros (Hok & Hi & Hl) Ho. unfold uart_exec, ns_read_internal, fifo_step, dlab.
  cbn [fst snd] in *. cbv zeta. rewrite (no_width d Hok), (no_shift d Hok).
  change (1 =? 1) with true. cbn [negb]. rewrite Z.shiftr_0_r.
  destruct (Z.ltb_spec NS_PGSIZE (u64 (off + 1))) as [Hp|_].
  { rewrite uwrap_id in Hp by (split; lia). unfold NS_PGSIZE in Hp. lia. }
  rewrite land_7.
  rewrite (nz_bit _ LCR_DLAB 7) by done.
  destruct (Z.eqb_spec (off mod 8) RX) as [E|Hne].
  - destruct (Z.testbit (lcr_ d) 7) eqn:Ed; cbn [negb andb].
    + destruct (update_interrupt_ok d w (ns_ok_pre d Hok)) as (Hinv & Eq & El & Em).
      rewrite reset_none in Eq by apply Hok. by split_and!.
    + pose proof (rx_byte_pre d Hok) as Hr.
      assert (lcr_ (snd (rx_byte d)) = lcr_ d /\ mcr_ (snd (rx_byte d)) = mcr_ d) as [Kl Km].
      { unfold rx_byte. repeat case_match; done. }
      destruct (rx_byte d) as [v d1]. destruct Hr as (Hp & Ev & Eq1 & Ef). cbn [snd] in Kl, Km.
      destruct (update_interrupt_ok d1 w Hp) as (Hinv & Eq & El & Em).
      rewrite reset_none in Eq by (rewrite Ef; apply Hok). split_and!; try done; congruence.
  - cbn [andb]. repeat (destruct (_ =? _); [split_and!; done|]). split_and!; done.
Qed.

Lemma ns_write_tx_inv v s : ns_inv s ->
  let s' := ns_write_tx id v s in
  ns_inv s' /\ lcr_ (fst s') = lcr_ (fst s) /\ mcr_ (fst s') = mcr_ (fst s) /\
  rx_queue_ (fst s') =
    if negb (dlab (fst s)) && loopback (fst s) then push v (rx_queue_ (fst s)) else rx_queue_ (fst s).
Proof.
  destruct s as [d w]. intros (Hok & _ & _). unfold ns_write_tx, dlab, loopback, push. cbn [fst snd].
  rewrite (nz_bit _ LCR_DLAB 7), (nz_bit _ MCR_LOOP 4) by done.
  pose proof (ns_ok_pre d Hok) as Hpre. destruct (no_fcr d Hok) as [F1 _].
  destruct (Z.testbit (lcr_ d) 7); cbn [negb andb];
    [|destruct (Z.testbit (mcr_ d) 4); [destruct (Nat.ltb_spec (length (rx_queue_ d)) QUEUE_SIZE)|]].
  - destruct (update_interrupt_ok (set_dll v d) w) as (Hinv & Eq & El & Em); [by destruct Hpre|].
    rewrite reset_none in Eq by done. by split_and!.
  - destruct (update_interrupt_ok (lsr_raise LSR_DR (set_rx_queue (rx_queue_ d ++ [v]) d)) w)
      as (Hinv & Eq & El & Em); [by apply push_pre|].
    rewrite reset_none in Eq by done. by split_and!.
  - destruct (update_interrupt_ok d w Hpre) as (Hinv & Eq & El & Em).
    rewrite reset_none in Eq by done. by split_and!.
  - unfold tx_byte.
    destruct (update_interrupt_ok (lsr_raise (Z.lor LSR_TEMT LSR_THRE) d) (write_char v w))
      as (Hinv & Eq & El & Em).
    { destruct Hpre as [S Wd Q D B T]. split; try done; cbn [lsr_raise set_lsr lsr_ rx_queue_];
        rewrite testbit_raise by lia; rewrite ?D, ?B, ?T; [apply orb_false_r|done|done]. }
    rewrite reset_none in Eq by done. by split_and!.
Qed.

Lemma ns_write_inv off v s : ns_inv s -> 0 <= off < 0x100 ->
  let s' := snd (uart_exec (Store off v) s) in
  ns_inv s' /\ rx_queue_ (fst s') = fifo_step (fst s) None (Store off v) (rx_queue_ (fst s)) /\
  (off mod 8 <> LCR -> lcr_ (fst s') = lcr_ (fst s)) /\
  (off mod 8 <> MCR -> mcr_ (fst s') = mcr_ (fst s)).
Proof.
  intros Hinv Ho. pose proof (ns_write_tx_inv (Z.land v 0xFF) s Hinv) as Ht.
  destruct s as [d w]. destruct Hinv as (Hok & Hi & Hl).
  pose proof (ns_ok_pre d Hok) as Hpre. destruct (no_fcr d Hok) as [F1 _].
  unfold uart_exec, ns_write_internal, fifo_step. cbn [fst snd] in *. cbv zeta.
  rewrite (no_width d Hok), (no_shift d Hok). change (1 =? 1) with true. cbn [negb].
  rewrite Z.shiftr_0_r. destruct (Z.ltb_spec NS_PGSIZE (u64 (off + 1))) as [Hp|_].
  { rewrite uwrap_id in Hp by (split; lia). unfold NS_PGSIZE in Hp. lia. }
  rewrite land_7.
  rewrite (nz_bit _ LCR_DLAB 7) by done.
  destruct (Z.eqb_spec (off mod 8) TX) as [E|_].
  { cbn [snd andb]. rewrite E in *. change (TX =? FCR) with false. cbn [andb].
    destruct Ht as (? & ? & ? & ?). by split_and!. }
  cbn [andb].
  assert (forall d', ns_pre d' -> Z.testbit (fcr_ d') 1 = false -> rx_queue_ d' = rx_queue_ d ->
    let s' := update_interrupt id (d', w) in
    ns_inv s' /\ rx_queue_ (fst s') = rx_queue_ d /\ lcr_ (fst s') = lcr_ d' /\ mcr_ (fst s') = mcr_ d')
    as Hupd.
  { intros d' Hp' Hf Hq. destruct (update_interrupt_ok d' w Hp') as (? & Eq & ? & ?).
    rewrite reset_none in Eq by done. split_and!; try done. congruence. }
  destruct (Z.eqb_spec (off mod 8) IER) as [E|_].
  { cbn [snd]. rewrite E. change (IER =? FCR) with false. cbn [andb].
    destruct (Hupd (if Z.testbit (lcr_ d) 7 then set_dlm (Z.land v 0xFF) d
                    else set_ier (Z.land (Z.land v 0xFF) 15) d)) as (? & ? & ? & ?);
      [destruct (Z.testbit (lcr_ d) 7); by destruct Hpre|by destruct (Z.testbit (lcr_ d) 7)..|].
    split_and!; try done; intros _; by destruct (Z.testbit (lcr_ d) 7). }
  destruct (Z.eqb_spec (off mod 8) FCR) as [E|_].
  { cbn [snd andb].
    destruct (update_interrupt_ok (set_fcr (Z.land v 0xFF) d) w) as (? & Eq & ? & ?);
      [by destruct Hpre|]. split_and!; try done. rewrite Eq. unfold reset_queue. cbn [fcr_ set_fcr].
    rewrite Z.land_spec. change (Z.testbit 0xFF 1) with true. by rewrite andb_true_r. }
  cbn [andb]. destruct (Z.eqb_spec (off mod 8) LCR) as [E|_].
  { destruct (Hupd (set_lcr (Z.land v 0xFF) d)) as (? & ? & ? & ?); [by destruct Hpre|done..|].
    cbn [snd]. split_and!; try done. }
  destruct (Z.eqb_spec (off mod 8) MCR) as [E|_].
  { destruct (Hupd (set_mcr (Z.land v 0xFF) d)) as (? & ? & ? & ?); [by destruct Hpre|done..|].
    cbn [snd]. split_and!; try done. }
  destruct (_ =? LSR); [by split_and!|]. destruct (_ =? MSR); [by split_and!|].
  destruct (_ =? SCR); [|by split_and!]. cbn [snd fst]. split_and!; try done. by destruct Hok.
Qed.

(** *** Sequences of events *)

Fixpoint uart_run (es : list uart_event) (s : ns) : list Z * ns :=
  match es with
  | [] => ([], s)
  | e :: es => let '(v, s) := uart_exec e s in let '(vs, s) := uart_run es s in (v :: vs, s)
  end.

Lemma uart_writes bs : forall s, ns_inv s -> dlab (fst s) = false -> loopback (fst s) = true ->
  Forall (fits 8) bs -> (length (rx_queue_ (fst s)) + length bs <= QUEUE_SIZE)%nat ->
  let s' := snd (uart_run (map (Store TX) bs) s) in
  ns_inv s' /\ dlab (fst s') = false /\ rx_queue_ (fst s') = rx_queue_ (fst s) ++ bs.
Proof.
  induction bs as [|b bs IH]; intros s Hs Hd Hl Hb Hq; [by rewrite app_nil_r|].
  inversion Hb as [|? ? Hb1 Hb2]; subst. cbn [length] in Hq. cbn [map uart_run].
  destruct (ns_write_inv TX b s Hs) as (Hi & Eq & El & Em); [by vm_compute|].
  destruct (uart_exec (Store TX b) s) as [v s1]. cbn [snd] in *. unfold fifo_step, push in Eq.
  rewrite Hd, Hl in Eq. change (TX mod 8 =? TX) with true in Eq. cbn [negb andb] in Eq.
  destruct (Nat.ltb_spec (length (rx_queue_ (fst s))) QUEUE_SIZE); [|lia].
  assert (Z.land b 0xFF = b) as Eb.
  { change 0xFF with (Z.ones 8). rewrite Z.land_ones by lia. by apply uwrap_id. }
  rewrite Eb in Eq. unfold dlab, loopback in *.
  destruct (IH s1) as (Hi2 & Hd2 & Eq2); try done.
  - rewrite El by done. done.
  - rewrite Em by done. done.
  - rewrite Eq, length_app. cbn [length]. lia.
  - destruct (uart_run (map (Store TX) bs) s1) as [vs s2]. cbn [snd] in *. split_and!; try done.
    rewrite Eq2, Eq, <- app_assoc. done.
Qed.

Lemma uart_reads bs : forall s, ns_inv s -> dlab (fst s) = false -> rx_queue_ (fst s) = bs ->
  fst (uart_run (map (fun _ => Load RX) bs) s) = bs.
Proof.
  induction bs as [|b bs IH]; intros s Hs Hd Hq; [done|]. cbn [map uart_run].
  pose proof (ns_read_inv RX s Hs) as Hr. destruct (uart_exec (Load RX) s) as [v s1].
  destruct Hr as (Hi & Eq & El & _ & Hv); [by vm_compute|]. rewrite (Hv eq_refl Hd), Hq.
  unfold fifo_step in Eq. rewrite Hd, Hq in Eq. change (RX mod 8 =? RX) with true in Eq. cbn in Eq.
  unfold dlab in *. specialize (IH s1 Hi ltac:(by rewrite El) Eq).
  destruct (uart_run _ s1) as [vs s2]. cbn [fst hd] in *. by rewrite IH.
Qed.

(** C23. The UART's receive side refines a bounded FIFO: every tick, register read and
    register write does to the queue what the specification says (a character of the
    console or of the loopback is pushed when there is room, a read of RX pops and
    returns the oldest, a FIFO reset empties), never exceeds 64 characters, keeps
    LSR.DR equal to "not empty", and leaves the interrupt line up exactly when an
    enabled condition holds, with IIR naming it. *)
Theorem uart_refines_fifo e s : ns_inv s ->
  (match e with Tick => True | Load off | Store off _ => 0 <= off < 0x100 end) ->
  let '(v, s') := uart_exec e s in
  let q := rx_queue_ (fst s) in
  ns_inv s' /\ rx_queue_ (fst s') = fifo_step (fst s) (fst (read_char (snd s))) e q /\
  (length (rx_queue_ (fst s')) <= QUEUE_SIZE)%nat /\
  Z.testbit (lsr_ (fst s')) 0 = nonempty (rx_queue_ (fst s')) /\
  irq_line id (snd s') = ns_irq (fst s') /\
  (forall off, e = Load off -> off mod 8 = RX -> dlab (fst s) = false -> v = hd 0 q).
Proof.
  intros Hs He. destruct e as [|off|off v].
  - destruct (ns_tick_inv s Hs) as (Hi & Eq & _). cbn [uart_exec].
    pose proof Hi as (Hok & _ & Hl). split_and!; try done; apply Hok.
  - pose proof (ns_read_inv off s Hs He) as Hr. destruct (uart_exec (Load off) s) as [v s'].
    destruct Hr as (Hi & Eq & _ & _ & Hv). pose proof Hi as (Hok & _ & Hl).
    split_and!; try done; try apply Hok. by intros ? [= <-].
  - destruct (ns_write_inv off v s Hs He) as (Hi & Eq & _). pose proof Hi as (Hok & _ & Hl).
    cbn [uart_exec snd] in *. split_and!; try done; apply Hok.
Qed.

(** Characters written in loopback mode, at most as many as the queue holds, are
    read back in the same order. *)
Theorem uart_loopback bs s : ns_inv s -> dlab (fst s) = false -> loopback (fst s) = true ->
  rx_queue_ (fst s) = [] -> Forall (fits 8) bs -> (length bs <= QUEUE_SIZE)%nat ->
  let s1 := snd (uart_run (map (Store TX) bs) s) in
  fst (uart_run (map (fun _ => Load RX) bs) s1) = bs.
Proof.
  intros Hs Hd Hl Hq Hb Hn. destruct (uart_writes bs s Hs Hd Hl Hb) as (Hi & Hd' & Eq).
  { rewrite Hq. done. }
  apply uart_reads; [done|done|]. by rewrite Eq, Hq.
Qed.
End Uart.

(** ** A world of one interrupt line and a console *)

Section Small.
Record small_world := mkSmall { sw_lines : Z -> bool; sw_input : list Z; sw_output : list Z }.
#[local] Instance small_irq : IrqPort small_world := fun id lvl w =>
  mkSmall (fun i => if i =? id then lvl else sw_lines w i) (sw_input w) (sw_output w).
#[local] Instance small_lines : IrqLines small_world.
Proof.
  refine {| irq_line := fun id w => sw_lines w id |}.
  - intros id lvl w. cbn. by rewrite Z.eqb_refl.
  - intros id id' lvl w Hne. cbn. by destruct (Z.eqb_spec id' id).
Defined.
#[local] Instance small_console : ConsolePort small_world := {
  read_char w := match sw_input w with
                 | [] => (None, w)
                 | c :: cs => (Some c, mkSmall (sw_lines w) cs (sw_output w))
                 end;
  write_char c w := mkSmall (sw_lines w) (sw_input w) (sw_output w ++ [c]);
}.
#[local] Instance small_quiet : ConsoleQuiet small_world.
Proof. split; [|done]. intros id w. cbn. by destruct (sw_input w). Qed.

(** The FIFO enabled and the receive interrupt on, in loopback mode or not. *)
Definition uart_small (mcr : Z) (input : list Z) : NS16550 * small_world :=
  (set_mcr mcr (set_fcr FCR_ENABLE_FIFO (set_ier IER_RDI (NS16550_init 0 1))),
   mkSmall (fun _ => false) input []).
Lemma uart_small_inv mcr input : ns_inv NS_ID (uart_small mcr input).
Proof. split; [|done]. split; try done. unfold QUEUE_SIZE. cbn. lia. Qed.

(** A character arrives and raises the interrupt. *)
Lemma uart_refines_fifo_witness :
  let s' := snd (uart_exec NS_ID Tick (uart_small MCR_OUT2 [0x41])) in
  rx_queue_ (fst s') = [0x41] /\ irq_line NS_ID (snd s') = ns_irq (fst s') /\ ns_irq (fst s') = true.
Proof.
  pose proof (uart_refines_fifo NS_ID Tick (uart_small MCR_OUT2 [0x41]) (uart_small_inv _ _) I) as H.
  change (uart_exec NS_ID Tick ?s) with (0, ns_tick NS_ID s) in *. cbv beta iota zeta in H.
  cbv zeta. destruct H as (_ & Eq & _ & _ & El & _). split; [exact Eq|]. split; [exact El|reflexivity].
Defined.

Lemma uart_loopback_witness :
  let s := uart_small MCR_LOOP [] in
  fst (uart_run NS_ID (map (fun _ => Load RX) [0x48; 0x69])
         (snd (uart_run NS_ID (map (Store TX) [0x48; 0x69]) s))) = [0x48; 0x69].
Proof.
  apply (uart_loopback NS_ID [0x48; 0x69] (uart_small MCR_LOOP []) (uart_small_inv _ _));
    [reflexivity..|repeat constructor; by vm_compute|unfold QUEUE_SIZE; cbn; lia].
Defined.
End Small.
