(* ===== verification/GoldfishEventsSpec.v ===== *)
(** * What the input device guarantees

    The ring buffer refines a queue of words, except that the event that exactly fills
    it empties it; an event waiting for a driver that is ready keeps the interrupt up. *)

From S2P Require Import Prelude Bits Hart HartInv Ports GoldfishEvents.

(** ** The ring *)

Record ev_ok (d : GoldfishEvents) : Prop := {
  eo_events : length (events_ d) = 1024%nat;
  eo_first : 0 <= first_ d < MAX_EVENTS;
  eo_last : 0 <= last_ d < MAX_EVENTS;
}.

Definition ring_get (d : GoldfishEvents) (i : Z) : Z := nth (Z.to_nat (i mod MAX_EVENTS)) (events_ d) 0.
Definition ring_len (d : GoldfishEvents) : Z := (last_ d - first_ d) mod MAX_EVENTS.

(** The words between the two indices, oldest first. *)
Definition contents (d : GoldfishEvents) : list Z :=
  map (fun k => ring_get d (first_ d + k)) (seqZ 0 (ring_len d)).

Lemma ring_len_range d : 0 <= ring_len d < MAX_EVENTS.
Proof. unfold ring_len, MAX_EVENTS. lia. Qed.

Lemma length_contents d : Z.of_nat (length (contents d)) = ring_len d.
Proof. unfold contents. rewrite length_map, length_seqZ. pose proof (ring_len_range d). lia. Qed.

Lemma ring_next_mod i : 0 <= i < MAX_EVENTS -> ring_next i = (i + 1) mod MAX_EVENTS.
Proof.
  unfold ring_next, MAX_EVENTS. intros Hi. rewrite uwrap_id by (split; lia).
  change (256 * 4 - 1) with (Z.ones 10). by rewrite Z.land_ones by lia.
Qed.

Lemma ring_empty d : ev_ok d -> (first_ d =? last_ d) = (ring_len d =? 0).
Proof.
  intros [_ Hf Hl]. unfold ring_len, MAX_EVENTS in *. destruct (Z.eqb_spec (first_ d) (last_ d)); lia.
Qed.

Lemma enqueued_len d : ev_ok d ->
  (if first_ d <=? last_ d then last_ d - first_ d else MAX_EVENTS + last_ d - first_ d) = ring_len d.
Proof.
  intros [_ Hf Hl]. unfold ring_len, MAX_EVENTS in *. destruct (Z.leb_spec (first_ d) (last_ d)); lia.
Qed.

Lemma put_word_ok v d : ev_ok d -> ev_ok (put_word v d).
Proof.
  intros [He Hf Hl]. split; cbn [put_word set_last set_events events_ first_ last_]; [|done|].
  - by rewrite length_insert.
  - rewrite ring_next_mod by done. unfold MAX_EVENTS. lia.
Qed.

(** One word is appended, as long as it is not the last free place. *)
Lemma put_word_contents v d : ev_ok d -> ring_len d + 1 < MAX_EVENTS ->
  contents (put_word v d) = contents d ++ [v] /\ ring_len (put_word v d) = ring_len d + 1.
Proof.
  intros [He Hf Hl] Hn.
  assert (ring_len (put_word v d) = ring_len d + 1) as En.
  { unfold ring_len in *. cbn [put_word set_last set_events first_ last_].
    rewrite ring_next_mod by done. unfold MAX_EVENTS in *. lia. }
  split; [|done]. unfold contents. rewrite En. pose proof (ring_len_range d) as Hr.
  rewrite seqZ_app, map_app by lia. f_equal.
  - apply map_ext_in. intros k Hk%list_elem_of_In%elem_of_seqZ. unfold ring_get.
    cbn [put_word set_last set_events events_ first_].
    rewrite !nth_lookup, list_lookup_insert_ne; [done|].
    unfold ring_len, MAX_EVENTS in *. lia.
  - rewrite Z.add_0_l. change (seqZ (ring_len d) 1) with [ring_len d]. cbn [map]. f_equal.
    unfold ring_get. cbn [put_word set_last set_events events_ first_].
    assert ((first_ d + ring_len d) mod MAX_EVENTS = last_ d) as ->
      by (unfold ring_len, MAX_EVENTS in *; lia).
    rewrite nth_lookup, list_lookup_insert_eq; [done|]. rewrite He. unfold MAX_EVENTS in *. lia.
Qed.

(** Counting from one is counting from zero, shifted. *)
Lemma map_seqZ_shift {A} (f : Z -> A) n : map f (seqZ 1 n) = map (fun k => f (1 + k)) (seqZ 0 n).
Proof.
  assert (map (Z.add 1) (seqZ 0 n) = seqZ 1 n) as <- by exact (fmap_add_seqZ 1 0 n).
  by rewrite map_map.
Qed.

Lemma pop_contents d x q : ev_ok d -> contents d = x :: q ->
  nth (Z.to_nat (first_ d)) (events_ d) 0 = x /\
  contents (set_first (ring_next (first_ d)) d) = q /\
  ev_ok (set_first (ring_next (first_ d)) d).
Proof.
  intros [He Hf Hl] Hc. pose proof (length_contents d) as Hlen. rewrite Hc in Hlen. cbn [length] in Hlen.
  assert (ring_len (set_first (ring_next (first_ d)) d) = ring_len d - 1) as En.
  { unfold ring_len in *. cbn [set_first first_ last_]. rewrite ring_next_mod by done.
    unfold MAX_EVENTS in *. lia. }
  unfold contents in Hc. rewrite (seqZ_cons 0 (ring_len d)) in Hc by lia. cbn [map] in Hc.
  injection Hc as Hx Hq. split_and!.
  - rewrite <- Hx. unfold ring_get. rewrite Z.add_0_r, Z.mod_small by done. done.
  - rewrite <- Hq. unfold contents. rewrite En. change (Z.succ 0) with 1. rewrite map_seqZ_shift.
    replace (Z.pred (ring_len d)) with (ring_len d - 1) by lia.
    apply map_ext. intros k. unfold ring_get. cbn [set_first first_ events_].
    rewrite ring_next_mod by done. f_equal. f_equal. unfold MAX_EVENTS. lia.
  - split; cbn [set_first events_ first_ last_]; [done| |done].
    rewrite ring_next_mod by done. unfold MAX_EVENTS. lia.
Qed.

(** ** The queue *)

(** What pushing the three words of an event does: nothing when they do not fit; when
    they take the last free places the indices meet, and the queue is taken for empty. *)
Definition push_event (ws q : list Z) : list Z :=
  if (1024 <? length q + 3)%nat then q
  else if (length q + 3 =? 1024)%nat then [] else q ++ ws.

Section Events.
Context {W : Type} `{IrqLines W}.
Variable id : Z.
Abbreviation ev := (GoldfishEvents * W)%type.

Lemma put_words_contents a b c d : ev_ok d -> ring_len d + 3 <= MAX_EVENTS ->
  ev_ok (put_word c (put_word b (put_word a d))) /\
  contents (put_word c (put_word b (put_word a d))) =
    if ring_len d + 3 =? MAX_EVENTS then [] else contents d ++ [a; b; c].
Proof.
  intros Hd Hn. split; [by repeat apply put_word_ok|].
  destruct (put_word_contents a d Hd) as [E1 L1]; [lia|].
  pose proof (put_word_ok a d Hd) as Hd1.
  destruct (put_word_contents b _ Hd1) as [E2 L2]; [lia|].
  pose proof (put_word_ok b _ Hd1) as Hd2. set (d2 := put_word b (put_word a d)) in *.
  destruct (Z.eqb_spec (ring_len d + 3) MAX_EVENTS) as [E|Hne].
  - assert (ring_len (put_word c d2) = 0) as E0.
    { clear E1 E2. destruct Hd2 as [_ Hf Hl]. unfold ring_len in *.
      cbn [put_word set_last set_events first_ last_]. rewrite ring_next_mod by done.
      unfold MAX_EVENTS in *. lia. }
    unfold contents. by rewrite E0.
  - destruct (put_word_contents c d2 Hd2) as [E3 _]; [lia|]. rewrite E3, E2, E1.
    by rewrite <- !app_assoc.
Qed.

Lemma enqueue_contents t c v (s : ev) : ev_ok (fst s) ->
  let s' := enqueue_event id t c v s in
  ev_ok (fst s') /\ page_ (fst s') = page_ (fst s) /\
  contents (fst s') = push_event [t; c; u32 v] (contents (fst s)).
Proof.
  destruct s as [d w]. cbn [fst]. intros Hd. unfold enqueue_event, push_event. cbv zeta.
  rewrite enqueued_len by done. pose proof (length_contents d) as Hlen.
  destruct (Z.ltb_spec MAX_EVENTS (ring_len d + 3)) as [Hn|Hn].
  { destruct (Nat.ltb_spec 1024 (length (contents d) + 3)); [done|]. unfold MAX_EVENTS in *. lia. }
  destruct (Nat.ltb_spec 1024 (length (contents d) + 3)); [unfold MAX_EVENTS in *; lia|].
  assert (forall st, ev_ok (set_state st d) /\ contents (set_state st d) = contents d) as Hst.
  { intros st. by destruct Hd. }
  set (r := if first_ d =? last_ d then _ else _).
  assert (ev_ok (fst r) /\ contents (fst r) = contents d /\ ring_len (fst r) = ring_len d /\
    page_ (fst r) = page_ d) as (Hr & Ec & El & Ep).
  { subst r. destruct (first_ d =? last_ d); [|done]. destruct (is_live (state_ d)); [done|].
    by destruct (Hst STATE_BUFFERED). }
  destruct r as [d1 w1]. cbn [fst] in *.
  destruct (put_words_contents t c (u32 v) d1 Hr) as [Hok Eq]; [lia|].
  split; [done|]. split; [done|]. rewrite Eq, El, Ec.
  destruct (Z.eqb_spec (ring_len d + 3) MAX_EVENTS), (Nat.eqb_spec (length (contents d) + 3) 1024);
    try done; unfold MAX_EVENTS in *; lia.
Qed.

Lemma dequeue_contents (s : ev) : ev_ok (fst s) ->
  let '(v, s') := dequeue_event id s in
  ev_ok (fst s') /\ page_ (fst s') = page_ (fst s) /\ state_ (fst s') = state_ (fst s) /\
  v = hd 0 (contents (fst s)) /\ contents (fst s') = tl (contents (fst s)).
Proof.
  destruct s as [d w]. cbn [fst]. intros Hd. unfold dequeue_event. cbv zeta.
  rewrite ring_empty by done. pose proof (length_contents d) as Hlen.
  destruct (contents d) as [|x q] eqn:Ec; cbn [length] in Hlen.
  - destruct (Z.eqb_spec (ring_len d) 0); [|lia]. cbn [fst]. by rewrite Ec.
  - destruct (Z.eqb_spec (ring_len d) 0); [lia|].
    destruct (pop_contents d x q Hd Ec) as (Ex & Eq & Hok). cbn [fst hd tl].
    split_and!; try done.
Qed.

(** ** The device and its interrupt *)

(** An event that waits for a driver that is ready keeps the interrupt up; before the
    first event the queue is empty. *)
Definition ev_inv (s : ev) : Prop :=
  ev_ok (fst s) /\ (state_ (fst s) = STATE_INIT -> contents (fst s) = []) /\
  (state_ (fst s) = STATE_LIVE -> contents (fst s) <> [] -> irq_line id (snd s) = true).

Inductive ev_event : Set :=
  | Push (code : Z) (press : bool)      (* from the UI *)
  | Read (offset : Z)
  | Write (offset value : Z).

Definition ev_exec (e : ev_event) (s : ev) : Z * ev :=
  match e with
  | Push code press => (0, push_key_event id code press s)
  | Read off => let '(v, s) := events_read_internal id off 4 s in (default 0 v, s)
  | Write off v => (0, snd (events_write_internal off 4 v s))
  end.

Definition queue_step (e : ev_event) (q : list Z) : list Z :=
  match e with
  | Push code press => push_event [EV_KEY; u32 code; if press then 1 else 0] q
  | Read off => if off =? REG_READ then tl q else q
  | Write _ _ => q
  end.

Lemma state_words a b c d : state_ (put_word c (put_word b (put_word a d))) = state_ d.
Proof. done. Qed.

Lemma enqueue_inv t c v s : ev_inv s -> ev_inv (enqueue_event id t c v s).
Proof.
  intros (Hok & Hi & Hl). destruct (enqueue_contents t c v s Hok) as (Hok' & _ & Eq).
  split; [done|]. destruct s as [d w]. cbn [fst snd] in *.
  unfold push_event in Eq. pose proof (length_contents d) as Hlen.
  unfold enqueue_event in *. cbv zeta in *. rewrite enqueued_len, ring_empty in * by done.
  destruct (Z.ltb_spec MAX_EVENTS (ring_len d + 3)); [done|].
  destruct (Z.eqb_spec (ring_len d) 0) as [E|Hne].
  - destruct (is_live (state_ d)) eqn:El; cbn [fst snd] in *; rewrite ?state_words in *.
    + split; [by destruct (state_ d)|]. intros _ _. apply irq_line_same.
    + by split.
  - cbn [fst snd] in *. rewrite ?state_words in *. split.
    + intros Ei. specialize (Hi Ei). rewrite Hi in Hlen. cbn in Hlen. lia.
    + intros Ei _. apply Hl; [done|]. intros E0. rewrite E0 in Hlen. cbn in Hlen. lia.
Qed.

Lemma dequeue_inv s : ev_inv s -> ev_inv (snd (dequeue_event id s)).
Proof.
  intros (Hok & Hi & Hl). pose proof (dequeue_contents s Hok) as Hd.
  destruct (dequeue_event id s) as [v s'] eqn:E. cbn [snd].
  destruct Hd as (Hok' & _ & Est & _ & Eq). split; [done|]. rewrite Est, Eq. split.
  - intros Ei. by rewrite Hi.
  - intros Ei Hne. destruct s as [d w]. cbn [fst snd] in *. specialize (Hl Ei).
    assert (contents d <> []) as Hc by (intros E0; by rewrite E0 in Hne). specialize (Hl Hc).
    unfold dequeue_event in E. cbv zeta in E. destruct (first_ d =? last_ d); [by injection E as <- <-|].
    apply (f_equal (fun x => irq_line id (snd (snd x)))) in E. cbn [snd] in E. rewrite <- E. clear E.
    assert ((first_ (set_first (ring_next (first_ d)) d) =?
      last_ (set_first (ring_next (first_ d)) d)) = false)
      as ->.
    { destruct (contents d) as [|x q] eqn:Ec; [done|]. cbn [tl] in Hne.
      destruct (pop_contents d x q Hok Ec) as (_ & Eq2 & Hok2). rewrite ring_empty by done.
      pose proof (length_contents (set_first (ring_next (first_ d)) d)) as Hlen. rewrite Eq2 in Hlen.
      destruct q; [done|]. cbn [length] in Hlen. lia. }
    destruct (_ || _); [apply irq_line_same|done].
Qed.

Lemma read_state_inv off s : ev_inv s ->
  let s1 := (if (off =? REG_LEN) && (page_ (fst s) =? PAGE_ABSDATA)
             then (set_state STATE_LIVE (fst s),
                   if is_buffered (state_ (fst s)) then irq_callback id true (snd s) else snd s)
             else s) in
  ev_inv s1 /\ contents (fst s1) = contents (fst s) /\ page_ (fst s1) = page_ (fst s).
Proof.
  intros (Hok & Hi & Hl). destruct (_ && _); [|done]. cbv zeta. cbn [fst snd]. split; [|done].
  split; [by destruct Hok|]. split; [done|]. intros _ Hc. change (contents _) with (contents (fst s)) in Hc.
  destruct s as [d w]. cbn [fst snd] in *. destruct (state_ d) eqn:E; cbn [is_buffered].
  - by rewrite Hi in Hc.
  - apply irq_line_same.
  - by apply Hl.
Qed.

(** C24. The input device's ring buffer refines a queue of words: a key pushed by the UI
    appends the three words of its event (nothing when they do not fit; when they take
    the last places the queue becomes empty, see [events_overflow]), a read of the data
    register removes and returns the oldest word (zero when there is none), no other
    access touches it; and while the driver is ready an event that waits keeps the
    interrupt line up, so no interrupt is lost. *)
Theorem events_refine_queue e s : ev_inv s ->
  let '(v, s') := ev_exec e s in
  ev_inv s' /\ contents (fst s') = queue_step e (contents (fst s)) /\
  (e = Read REG_READ -> v = hd 0 (contents (fst s))).
Proof.
  intros Hs. pose proof Hs as (Hok & _). destruct e as [code press|off|off v]; cbn [ev_exec queue_step].
  - unfold push_key_event.
    destruct (enqueue_contents EV_KEY (u32 code) (if press then 1 else 0) s Hok) as (_ & _ & Eq).
    split; [by apply enqueue_inv|]. split; [|done]. rewrite Eq. by destruct press.
  - unfold events_read_internal. pose proof (read_state_inv off s Hs) as (H1 & C1 & _).
    destruct s as [d w]. cbn [fst snd] in *.
    match goal with |- context [if (off =? REG_LEN) && _ then ?a else ?b] =>
      set (s1 := if (off =? REG_LEN) && _ then a else b) in * end.
    destruct s1 as [d1 w1]. cbn [fst snd] in *. destruct (Z.eqb_spec off REG_READ) as [->|Hne].
    + pose proof (dequeue_contents (d1, w1) (proj1 H1)) as Hd.
      pose proof (dequeue_inv (d1, w1) H1) as Hi.
      destruct (dequeue_event id (d1, w1)) as [v s']. cbn [fst snd default] in *.
      destruct Hd as (_ & _ & _ & Ev & Eq). split; [done|]. rewrite Eq, Ev, C1. done.
    + destruct (off =? REG_LEN); [|destruct (REG_DATA <=? off)]; cbn [default fst snd];
        (split; [done|]); (split; [done|]); intros [= E]; done.
  - destruct s as [d w]. unfold events_write_internal. cbn [snd fst].
    destruct (off =? REG_SET_PAGE); cbn [fst snd]; [|done].
    split; [|done]. destruct Hs as (? & Hi & Hl). split; [by destruct Hok|]. by split.
Qed.
End Events.

(** ** Concrete runs *)

Section Small.
#[local] Existing Instance lines_port.
#[local] Existing Instance lines_laws.

Definition events_run (es : list ev_event) (s : GoldfishEvents * (Z -> bool)) : GoldfishEvents * (Z -> bool) :=
  foldl (fun s e => snd (ev_exec EVENTS_ID e s)) s es.
Definition events_start : GoldfishEvents * (Z -> bool) := (GoldfishEvents_init [], fun _ => false).

Lemma events_start_inv : ev_inv EVENTS_ID events_start.
Proof.
  split; [|by split]. split; [reflexivity|split; vm_compute; (reflexivity || discriminate)..].
Qed.

(** A key pressed before the driver is ready raises the interrupt when it gets ready. *)
Lemma events_refine_queue_witness :
  let s := events_run [Push 30 true; Write 0 PAGE_ABSDATA] events_start in
  let s' := snd (ev_exec EVENTS_ID (Read REG_LEN) s) in
  contents (fst s') = [EV_KEY; 30; 1] /\ snd s' EVENTS_ID = true.
Proof.
  assert (forall e s, ev_inv EVENTS_ID s -> let s' := snd (ev_exec EVENTS_ID e s) in
    ev_inv EVENTS_ID s' /\ contents (fst s') = queue_step e (contents (fst s))) as Hstep.
  { intros e s Hs. pose proof (events_refine_queue EVENTS_ID e s Hs) as H.
    destruct (ev_exec EVENTS_ID e s) as [v s']. by destruct H as (? & ? & _). }
  destruct (Hstep (Push 30 true) events_start events_start_inv) as [I1 C1].
  destruct (Hstep (Write 0 PAGE_ABSDATA) _ I1) as [I2 C2].
  destruct (Hstep (Read REG_LEN) _ I2) as [(_ & _ & L3) C3].
  cbv zeta. unfold events_run. cbn [foldl].
  assert (contents (fst (snd (ev_exec EVENTS_ID (Read REG_LEN)
    (snd (ev_exec EVENTS_ID (Write 0 PAGE_ABSDATA)
      (snd (ev_exec EVENTS_ID (Push 30 true) events_start))))))) = [EV_KEY; 30; 1]) as C.
  { rewrite C3, C2, C1. vm_compute. reflexivity. }
  split; [exact C|]. apply L3; [vm_compute; reflexivity|by rewrite C].
Defined.

(** The queue loses everything it holds when an event exactly fills it: after 341
    keys and two reads of the guest 1021 words wait; the next key is accepted, the two
    indices meet, and the queue is empty.  The test for a full queue admits as many
    words as the ring has places. *)
Theorem events_overflow :
  let s := events_run (replicate 341 (Push 30 true) ++ [Read REG_READ; Read REG_READ]) events_start in
  let s' := events_run [Push 31 true] s in
  length (contents (fst s)) = 1021%nat /\ contents (fst s') = [] /\ first_ (fst s') = last_ (fst s').
Proof. vm_compute. repeat split. Qed.
End Small.
