(* ===== verification/GoldfishRtcSpec.v ===== *)
(** * What the real-time clock guarantees

    The guest reads the time it has set, advanced by the host's clock; an alarm raises
    the interrupt at the first tick at or after its time and at no earlier one. *)

From S2P Require Import Prelude Bits Hart HartInv Ports SmallDevices GoldfishRtc.

(** The clock and the interrupt lines are independent ports. *)
Class ClockQuiet (W : Type) `{IrqLines W} `{SteadyClock W} := {
  clock_quiet : forall id w, irq_line id (snd (steady_clock_now w)) = irq_line id w;
  irq_callback_clock : forall id lvl w,
    steady_clock_now (irq_callback id lvl w) =
    (fst (steady_clock_now w), irq_callback id lvl (snd (steady_clock_now w)));
}.

(** The two halves of a 64-bit word. *)
Lemma word_high x : fits 64 x -> Z.land x HIGH_MASK = x / 2 ^ 32 * 2 ^ 32.
Proof.
  intros Hx. change HIGH_MASK with (Z.shiftl (Z.ones 32) 32).
  rewrite <- (Z.shiftl_mul_pow2 _ 32), <- Z.shiftr_div_pow2 by lia.
  apply Z.bits_inj'. intros i Hi. rewrite Z.land_spec, !Z.shiftl_spec by lia.
  destruct (Z.ltb_spec i 32).
  { rewrite !(Z.testbit_neg_r _ (i - 32)) by lia. apply andb_false_r. }
  rewrite Z.shiftr_spec by lia. replace (i - 32 + 32) with i by lia.
  destruct (Z.ltb_spec i 64).
  - rewrite Z.ones_spec_low by lia. apply andb_true_r.
  - rewrite Z.ones_spec_high by lia. rewrite andb_false_r. symmetry.
    rewrite <- (Z.mod_small x (2 ^ 64)) by exact Hx. apply Z.mod_pow2_bits_high. lia.
Qed.

Lemma word_low x : Z.land x LOW_MASK = x mod 2 ^ 32.
Proof. change LOW_MASK with (Z.ones 32). apply Z.land_ones. lia. Qed.

(** Disjoint halves: the disjunction is the sum. *)
Lemma halves_or h l : 0 <= h -> 0 <= l < 2 ^ 32 -> Z.lor (h * 2 ^ 32) l = h * 2 ^ 32 + l.
Proof.
  intros Hh Hl. rewrite <- Z.shiftl_mul_pow2 by lia.
  assert (Z.land (Z.shiftl h 32) l = 0) as Hn.
  { apply Z.bits_inj'. intros i Hi. rewrite Z.land_spec, Z.bits_0, Z.shiftl_spec by lia.
    destruct (Z.ltb_spec i 32); [by rewrite (Z.testbit_neg_r _ (i - 32)) by lia|].
    rewrite <- (Z.mod_small l (2 ^ 32)), Z.mod_pow2_bits_high by lia. apply andb_false_r. }
  rewrite Z.add_nocarry_lxor by done. symmetry. by apply Z.lxor_lor.
Qed.

Section Rtc.
Context {W : Type} `{ClockQuiet W}.
Variable id : Z.
Abbreviation rtc := (GoldfishRTC * W)%type.

(** The guest time, in nanoseconds, when the host's clock shows [t]. *)
Definition rtc_count (d : GoldfishRTC) (t : Z) : Z := u64 (u64 t + tick_offset_ d).
(** What the next reading of the clock will show. *)
Definition clock_of (s : rtc) : Z := fst (steady_clock_now (snd s)).
Definition after_clock (s : rtc) : rtc := (fst s, snd (steady_clock_now (snd s))).

Lemma get_count_eq s : get_count s = (rtc_count (fst s) (clock_of s), after_clock s).
Proof.
  destruct s as [d w]. unfold get_count, get_host_time_ns, clock_of, after_clock. cbn [fst snd].
  by destruct (steady_clock_now w).
Qed.

Lemma move_time_count f s t : fits 64 (f (rtc_count (fst s) (clock_of s))) ->
  rtc_count (fst (rtc_move_time f s)) t =
    u64 (f (rtc_count (fst s) (clock_of s)) + (t - clock_of s)).
Proof.
  intros Hf. unfold rtc_move_time. rewrite get_count_eq. cbn [after_clock fst].
  unfold rtc_count at 1. cbn [set_tick_offset tick_offset_]. unfold rtc_count, uwrap in *.
  set (c := f _) in *. clearbody c. set (n := clock_of s). clearbody n.
  set (o := tick_offset_ (fst s)). clearbody o.
  rewrite !Zplus_mod_idemp_r, !Zplus_mod_idemp_l.
  rewrite Z.add_assoc, Zplus_mod_idemp_r, Z.add_sub_assoc, Zminus_mod_idemp_r. f_equal. lia.
Qed.

(** ** Reading and setting the time *)

(** A 64-bit read returns the count at the instant of its first half. *)
Lemma rtc_read_time s :
  fst (rtc_read_internal TIME_LOW 8 s) = Some (rtc_count (fst s) (clock_of s)).
Proof.
  unfold rtc_read_internal, read_twice. change (8 =? 8) with true. cbv iota.
  unfold rtc_read_4 at 1. change (TIME_LOW =? TIME_LOW) with true. cbv iota. rewrite get_count_eq.
  cbn [after_clock]. set (c := rtc_count _ _).
  assert (fits 64 c) as Hc by (apply uwrap_fits; lia). clearbody c.
  change (u64 (TIME_LOW + 4)) with TIME_HIGH. unfold rtc_read_4.
  change (TIME_HIGH =? TIME_LOW) with false. change (TIME_HIGH =? TIME_HIGH) with true. cbv iota.
  cbn [fst time_high_ set_time_high]. f_equal.
  change 0xFFFFFFFF with (Z.ones 32). rewrite Z.land_ones by lia.
  unfold fits in Hc. rewrite Z.shiftr_div_pow2 by lia.
  rewrite (uwrap_id 32 (c / 2 ^ 32)) by (unfold fits; lia).
  rewrite Z.shiftl_mul_pow2 by lia. rewrite uwrap_id by (unfold fits; lia).
  rewrite Z.lor_comm, halves_or by lia. lia.
Qed.

Lemma rtc_move_time_world f s : snd (rtc_move_time f s) = snd (after_clock s).
Proof. unfold rtc_move_time. by rewrite get_count_eq. Qed.

Lemma rtc_write_8_eq v s :
  rtc_write_internal id TIME_LOW 8 v s =
  (true, rtc_move_time (fun t => Z.lor (Z.land t LOW_MASK) (u64 (Z.shiftl (v / 2 ^ 32 mod 2 ^ 32) 32)))
           (rtc_move_time (fun t => Z.lor (Z.land t HIGH_MASK) (v mod 2 ^ 32)) s)).
Proof.
  unfold rtc_write_internal, write_twice. change (8 =? 8) with true. cbv iota.
  unfold rtc_write_4 at 1. destruct s as [d w]. change (TIME_LOW =? TIME_LOW) with true. cbv iota zeta.
  replace (Z.land (Z.land v 0xFFFFFFFF) 0xFFFFFFFF) with (v mod 2 ^ 32).
  2:{ change 0xFFFFFFFF with (Z.ones 32). rewrite !Z.land_ones by lia. by rewrite Z.mod_mod by lia. }
  set (s1 := rtc_move_time _ (d, w)). clearbody s1. destruct s1 as [d1 w1].
  change (u64 (TIME_LOW + 4)) with TIME_HIGH. unfold rtc_write_4.
  change (TIME_HIGH =? TIME_LOW) with false. change (TIME_HIGH =? TIME_HIGH) with true. cbv iota zeta.
  replace (Z.land (Z.shiftr v 32) 0xFFFFFFFF) with (v / 2 ^ 32 mod 2 ^ 32); [done|].
  change 0xFFFFFFFF with (Z.ones 32). by rewrite Z.land_ones, Z.shiftr_div_pow2 by lia.
Qed.

Lemma rtc_count_fits d t : fits 64 (rtc_count d t).
Proof. apply uwrap_fits. lia. Qed.

(** A 64-bit write at clock readings [n1] and [n2] sets the time as of [n1], unless the
    low half carries in between. *)
Lemma rtc_set_time v s t : fits 64 v ->
  clock_of s <= clock_of (after_clock s) ->
  v mod 2 ^ 32 + (clock_of (after_clock s) - clock_of s) < 2 ^ 32 ->
  rtc_count (fst (snd (rtc_write_internal id TIME_LOW 8 v s))) t = u64 (v + (t - clock_of s)).
Proof.
  intros Hv Hle Hlt. rewrite rtc_write_8_eq. cbn [snd].
  set (s1 := rtc_move_time (fun t0 => Z.lor (Z.land t0 HIGH_MASK) (v mod 2 ^ 32)) s).
  set (n1 := clock_of s) in *. set (n2 := clock_of (after_clock s)) in *.
  set (c := rtc_count (fst s) n1).
  assert (fits 64 c) as Hc by apply rtc_count_fits. unfold fits in *.
  assert (clock_of s1 = n2) as E2.
  { unfold clock_of, s1. by rewrite rtc_move_time_world. }
  assert (rtc_count (fst s1) n2 = u64 (c / 2 ^ 32 * 2 ^ 32 + (v mod 2 ^ 32 + (n2 - n1)))) as E1.
  { unfold s1. rewrite move_time_count; fold n1 c; rewrite word_high, halves_or by (unfold fits; lia).
    - f_equal. lia.
    - unfold fits. lia. }
  rewrite uwrap_id in E1 by (unfold fits; lia).
  assert (Z.lor (Z.land (rtc_count (fst s1) n2) LOW_MASK) (u64 (Z.shiftl (v / 2 ^ 32 mod 2 ^ 32) 32))
          = v + (n2 - n1)) as E3.
  { rewrite E1, word_low, Z.add_comm, Z.mod_add, Z.mod_small by lia.
    rewrite (Z.mod_small (v / 2 ^ 32)) by lia. rewrite Z.shiftl_mul_pow2 by lia.
    rewrite uwrap_id by (unfold fits; lia). rewrite Z.lor_comm, halves_or by lia. lia. }
  rewrite move_time_count; rewrite E2; cbv beta; rewrite E3; [f_equal; lia|unfold fits; lia].
Qed.

(** Set-and-read round trip of the guest's clock: after a 64-bit store of [v] to TIME,
    whose two halves are written at the host times [n1 <= n2], a 64-bit load at host time
    [n3] returns exactly [v] advanced by the elapsed nanoseconds [n3 - n1] (modulo 2^64);
    the one condition is that the low word does not carry between the two halves of
    the store. *)
Theorem rtc_time_roundtrip v s w : fits 64 v ->
  clock_of s <= clock_of (after_clock s) ->
  v mod 2 ^ 32 + (clock_of (after_clock s) - clock_of s) < 2 ^ 32 ->
  let '(ok, (d, _)) := rtc_write_internal id TIME_LOW 8 v s in
  ok = true /\
  fst (rtc_read_internal TIME_LOW 8 (d, w)) =
    Some (u64 (v + (fst (steady_clock_now w) - clock_of s))).
Proof.
  intros Hv Hle Hlt. pose proof (fun t => rtc_set_time v s t Hv Hle Hlt) as E.
  assert (fst (rtc_write_internal id TIME_LOW 8 v s) = true) as Eok.
  { by rewrite rtc_write_8_eq. }
  destruct (rtc_write_internal id TIME_LOW 8 v s) as [ok [d w']]. cbn [fst snd] in *.
  split; [done|]. rewrite rtc_read_time. cbn [fst]. by rewrite E.
Qed.

(** ** The alarm *)

(** The host times of the successive readings. *)
Definition reading (s : rtc) (i : nat) : Z := clock_of (Nat.iter i after_clock s).
(** Some of the readings [first, ..., first + n - 1] shows that the alarm is due. *)
Definition due (d : GoldfishRTC) (s : rtc) (first n : nat) : bool :=
  existsb (fun i => alarm_next_ d <=? rtc_count d (reading s i)) (seq first n).

Definition rtc_line (s : rtc) : bool := irq_line id (snd s).

Lemma iter_after_fst n s : fst (Nat.iter n after_clock s) = fst s.
Proof. induction n as [|n IH]; [done|]. cbn [Nat.iter nat_rect]. unfold after_clock at 1. exact IH. Qed.

(** Armed: the alarm runs and its interrupt is enabled and not yet pending. *)
Definition armed (d : GoldfishRTC) : Prop :=
  alarm_running_ d = 1 /\ irq_enabled_ d = 1 /\ irq_pending_ d = 0.

Lemma tick_armed s : armed (fst s) ->
  rtc_tick id s = if alarm_next_ (fst s) <=? rtc_count (fst s) (clock_of s)
                  then trigger_interrupt id (after_clock s) else after_clock s.
Proof.
  intros (Hr & _ & _). unfold rtc_tick. rewrite Hr, get_count_eq. change (nz 1) with true. cbv iota.
  by unfold after_clock.
Qed.

Lemma trigger_line s : irq_enabled_ (fst s) = 1 ->
  rtc_line (trigger_interrupt id s) = true /\ alarm_running_ (fst (trigger_interrupt id s)) = 0.
Proof.
  destruct s as [d w]. cbn [fst]. intros He. unfold rtc_line, trigger_interrupt, rtc_update_irq.
  cbn [set_irq_pending set_alarm_running irq_pending_ irq_enabled_ fst snd alarm_running_].
  by rewrite irq_line_same, He.
Qed.

(** Ticks of a stopped alarm do nothing. *)
Lemma ticks_stopped n s : alarm_running_ (fst s) = 0 -> Nat.iter n (rtc_tick id) s = s.
Proof.
  intros Hr. induction n as [|n IH]; [done|]. cbn [Nat.iter nat_rect]. fold (Nat.iter n (rtc_tick id) s).
  rewrite IH. unfold rtc_tick. by rewrite Hr.
Qed.

Lemma iter_succ_inner {A} (f : A -> A) n x : Nat.iter (S n) f x = Nat.iter n f (f x).
Proof. apply Nat.iter_succ_r. Qed.

Lemma due_ext d d' s s' n k k' :
  (forall i, (alarm_next_ d <=? rtc_count d (reading s (k + i))) =
             (alarm_next_ d' <=? rtc_count d' (reading s' (k' + i)))) ->
  due d s k n = due d' s' k' n.
Proof.
  revert k k'. induction n as [|n IH]; intros k k' E; [done|]. unfold due. cbn [seq existsb].
  pose proof (E O) as E0. rewrite !Nat.add_0_r in E0. rewrite E0. f_equal. apply IH.
  intros i. pose proof (E (S i)) as Ei. by rewrite !Nat.add_succ_r in Ei.
Qed.

Lemma reading_succ s i : reading s (S i) = reading (after_clock s) i.
Proof. unfold reading. by rewrite iter_succ_inner. Qed.

Lemma ticks_armed n : forall s, armed (fst s) -> rtc_line s = false ->
  rtc_line (Nat.iter n (rtc_tick id) s) = due (fst s) s 0 n.
Proof.
  induction n as [|n IH]; intros s Ha Hl; [exact Hl|].
  rewrite iter_succ_inner, tick_armed by done. unfold due. cbn [seq existsb].
  change (reading s 0) with (clock_of s). destruct (alarm_next_ (fst s) <=? _); cbn [orb].
  - assert (irq_enabled_ (fst (after_clock s)) = 1) as He by apply Ha.
    destruct (trigger_line _ He) as [Ht Hr]. by rewrite ticks_stopped.
  - rewrite IH.
    + apply due_ext. intros i. change (Nat.add 1 i) with (S i). by rewrite reading_succ.
    + exact Ha.
    + unfold rtc_line, after_clock. cbn [snd]. by rewrite clock_quiet.
Qed.

(** Driving the line leaves the readings to come. *)
Lemma reading_irq d d' w i lvl : reading (d, irq_callback id lvl w) i = reading (d', w) i.
Proof.
  unfold reading, clock_of.
  assert (snd (Nat.iter i after_clock (d, irq_callback id lvl w)) =
          irq_callback id lvl (snd (Nat.iter i after_clock (d', w)))) as ->.
  { induction i as [|i IH]; [done|]. cbn [Nat.iter nat_rect]. unfold after_clock at 1 3.
    cbn [snd]. unfold Nat.iter in IH. by rewrite IH, irq_callback_clock. }
  by rewrite irq_callback_clock.
Qed.

(** The driver's sequence: the high half of the alarm, the low half, the enable bit. *)
Definition arm_alarm (alarm : Z) (s : rtc) : rtc :=
  let '(_, s) := rtc_write_internal id ALARM_HIGH 4 (Z.shiftr alarm 32) s in
  let '(_, s) := rtc_write_internal id ALARM_LOW 4 (Z.land alarm LOW_MASK) s in
  let '(_, s) := rtc_write_internal id IRQ_ENABLED 4 1 s in s.

Lemma alarm_halves alarm x : fits 64 alarm ->
  Z.lor (Z.land (Z.lor (Z.land x LOW_MASK) (u64 (Z.shiftl (Z.land (Z.shiftr alarm 32) 0xFFFFFFFF) 32)))
           HIGH_MASK) (Z.land (Z.land alarm LOW_MASK) 0xFFFFFFFF) = alarm.
Proof.
  intros Ha. unfold fits in Ha. change 0xFFFFFFFF with LOW_MASK. rewrite !word_low.
  rewrite Z.shiftr_div_pow2, Z.mod_mod, (Z.mod_small (alarm / _)) by lia.
  rewrite Z.shiftl_mul_pow2, uwrap_id by (unfold fits; lia).
  rewrite (Z.lor_comm (x mod _)), halves_or by lia.
  rewrite word_high by (unfold fits; lia).
  rewrite Z.add_comm, Z.div_add, Z.div_small by lia.
  rewrite halves_or by lia. lia.
Qed.

Lemma rtc_write_alarm_high v d w :
  rtc_write_internal id ALARM_HIGH 4 v (d, w) =
  (true, (set_alarm_next (Z.lor (Z.land (alarm_next_ d) LOW_MASK)
                            (u64 (Z.shiftl (Z.land v 0xFFFFFFFF) 32))) d, w)).
Proof. reflexivity. Qed.

Lemma rtc_write_alarm_low v d w :
  rtc_write_internal id ALARM_LOW 4 v (d, w) =
  (true, set_alarm id (set_alarm_next (Z.lor (Z.land (alarm_next_ d) HIGH_MASK)
                                         (Z.land v 0xFFFFFFFF)) d, w)).
Proof. reflexivity. Qed.

Lemma rtc_write_irq_enable d w :
  rtc_write_internal id IRQ_ENABLED 4 1 (d, w) = (true, rtc_update_irq id (set_irq_enabled 1 d, w)).
Proof. reflexivity. Qed.

Lemma arm_alarm_eq alarm d w : fits 64 alarm ->
  arm_alarm alarm (d, w) =
  let s1 := set_alarm id (set_alarm_next alarm d, w) in
  rtc_update_irq id (set_irq_enabled 1 (fst s1), snd s1).
Proof.
  intros Ha. unfold arm_alarm. rewrite rtc_write_alarm_high, rtc_write_alarm_low.
  cbn [set_alarm_next alarm_next_]. rewrite alarm_halves by done.
  change (set_alarm_next alarm (set_alarm_next ?x d)) with (set_alarm_next alarm d).
  destruct (set_alarm id _) as [d1 w1]. by rewrite rtc_write_irq_enable.
Qed.

(** C33. The alarm fires on time: after the driver's sequence (high word, low word, enable) on
    a device with no interrupt pending, the interrupt line after [n] ticks of the
    machine's loop is high if and only if one of the host-clock readings taken so far
    (one when the alarm is set and one per tick) shows a guest time at or after the
    alarm: never early, and no later than the first such tick. *)
Theorem rtc_alarm_fires alarm d w n : fits 64 alarm ->
  irq_pending_ d = 0 -> irq_enabled_ d = 0 ->
  rtc_line (Nat.iter n (rtc_tick id) (arm_alarm alarm (d, w))) =
    due (set_alarm_next alarm d) (d, w) 0 (S n).
Proof.
  intros Ha Hp He. rewrite arm_alarm_eq by done. cbv zeta. unfold set_alarm.
  rewrite get_count_eq. cbn [fst after_clock snd]. set (d1 := set_alarm_next alarm d).
  change (alarm_next_ d1) with alarm.
  change (due d1 (d, w) 0 (S n)) with
    ((alarm <=? rtc_count d1 (reading (d, w) 0)) || due d1 (d, w) 1 n).
  change (reading (d, w) 0) with (clock_of (d1, w)).
  destruct (alarm <=? rtc_count d1 (clock_of (d1, w))); cbn [orb].
  - rewrite ticks_stopped by reflexivity. unfold rtc_line, rtc_update_irq. cbn [snd].
    by rewrite irq_line_same.
  - rewrite ticks_armed.
    + apply due_ext. intros i. unfold rtc_update_irq. cbn [fst snd].
      change (Nat.add 1 i) with (S i).
      by rewrite (reading_irq _ d), reading_succ.
    + done.
    + unfold rtc_line, rtc_update_irq. cbn [snd]. rewrite irq_line_same.
      cbn [fst]. change (irq_pending_ (set_irq_enabled 1 (set_alarm_running 1 d1))) with (irq_pending_ d).
      by rewrite Hp.
Qed.
End Rtc.

(** ** Concrete runs: a clock that advances 5 ns per reading, next to the lines *)

Definition ticking_clock : SteadyClock ((Z -> bool) * Z) := fun '(l, t) => (t, (l, t + 5)).
Definition ticking_lines : IrqPort ((Z -> bool) * Z) := fun id lvl '(l, t) =>
  (fun i => if i =? id then lvl else l i, t).
Definition ticking_laws : @IrqLines _ ticking_lines.
Proof.
  refine (@Build_IrqLines _ ticking_lines (fun id w => fst w id) _ _).
  - intros id lvl [l t]. apply (@irq_line_same _ _ lines_laws id lvl l).
  - intros id id' lvl [l t] Hne. by apply (@irq_line_other _ _ lines_laws id id' lvl l).
Defined.
Definition ticking_quiet : @ClockQuiet _ ticking_lines ticking_laws ticking_clock.
Proof. split; by intros id; repeat intros [l t] || intros ?. Defined.

Definition rtc_start : GoldfishRTC * ((Z -> bool) * Z) := (mkRtc 1000 0 0 0 0 0, (fun _ => false, 100)).

Lemma rtc_time_roundtrip_witness :
  let '(ok, (d, _)) := rtc_write_internal (H := ticking_lines) (H0 := ticking_clock)
                         11 TIME_LOW 8 0x1234567890 rtc_start in
  ok = true /\
  fst (rtc_read_internal (H0 := ticking_clock) TIME_LOW 8 (d, (fun _ => false, 700))) =
    Some (0x1234567890 + 600).
Proof.
  apply (rtc_time_roundtrip (H := ticking_lines) (H1 := ticking_clock) 11 0x1234567890 rtc_start (fun _ => false, 700));
    vm_compute; intuition congruence.
Defined.

(** The alarm at 1120 is not due at the readings 1100, 1105 and 1110; it is at the fifth. *)
Lemma rtc_alarm_fires_witness :
  map (fun n => rtc_line (H0 := ticking_laws) 11
         (Nat.iter n (rtc_tick (H := ticking_lines) (H0 := ticking_clock) 11)
            (arm_alarm (H := ticking_lines) (H1 := ticking_clock) 11 1120 rtc_start)))
    [2%nat; 3%nat; 4%nat] = [false; false; true].
Proof.
  pose proof (fun n => rtc_alarm_fires (H2 := ticking_quiet) 11 1120 (fst rtc_start) (snd rtc_start) n
    ltac:(unfold fits; lia) eq_refl eq_refl) as E.
  cbn [map]. rewrite !E. reflexivity.
Defined.
