(* ===== verification/PFlashSpec.v ===== *)
(** * What the flash guarantees

    The command state machine stays in its reachable states, where every copy between
    the array and the write block is inside both; a block program writes all its words
    or none of them. *)

From stdpp Require Import gmap.
From S2P Require Import Prelude Bits HartInv ByteVec SmallDevices PFlash.

(** ** The invariant *)

(** The commands the device can be in: the arm of read_internal for an unknown command
    is never taken. *)
Definition flash_commands : list Z := [0x00; 0x10; 0x20; 0x28; 0x40; 0x60; 0x70; 0x90; 0x98; 0xE8].

(** A write block is in use only between the count and the confirmation of a buffered
    write, and lies within the array. *)
Definition block_ok (blk_offset wcycle size : Z) : Prop :=
  blk_offset = -1 \/ (2 <= wcycle /\ 0 <= blk_offset /\ blk_offset mod 4096 = 0 /\ blk_offset + 4096 <= size).

Record flash_inv (array_size : Z) (d : PFlashCFI01) : Prop := {
  fo_size : bv_size (storage_ d) = array_size;
  fo_array : exists k n, 12 <= k <= 32 /\ sector_len_ d = 2 ^ k /\ bv_size (storage_ d) = 2 ^ k * n /\
    2 ^ k * n <= 2 ^ 32;
  fo_width : device_width_ d = 2;
  fo_block : writeblock_size_ d = 4096 /\ bv_size (blk_bytes_ d) = 4096;
  fo_wf : bv_wf (storage_ d) /\ bv_wf (blk_bytes_ d);
  fo_cycle : 0 <= wcycle_ d <= 3;
  fo_cmd : In (cmd_ d) flash_commands /\ (2 <= wcycle_ d -> cmd_ d = 0xE8);
  fo_regs : fits 8 (status_ d) /\ fits 16 (counter_ d);
  fo_offset : block_ok (blk_offset_ d) (wcycle_ d) (bv_size (storage_ d));
}.
Arguments fo_size {_} _ _.
Arguments fo_array {_} _ _.
Arguments fo_width {_} _ _.
Arguments fo_block {_} _ _.
Arguments fo_wf {_} _ _.
Arguments fo_cycle {_} _ _.
Arguments fo_cmd {_} _ _.
Arguments fo_regs {_} _ _.
Arguments fo_offset {_} _ _.

(** Solves the side conditions of [upd_flash_ok] from an invariant in the context. *)
Ltac flash_side :=
  match goal with
  | H : flash_inv _ ?d |- _ => destruct H as [? ? ? [? ?] [? ?] ? [? ?] [? ?] ?]
  end;
  cbn [upd_flash storage_ wcycle_ cmd_ status_ counter_ blk_bytes_ blk_offset_ read_mode_] in *;
  first [ done | lia | by apply fits_lor; [lia|done|unfold fits; lia]
        | by left | by repeat (first [by left | right]) ].

Ltac case_or E :=
  match goal with |- context [if ?a || ?b then _ else _] => destruct (a || b) eqn:E end.
Ltac cmd_in := by repeat (first [by left | right]).

Section Flash.
Variable array_size : Z.
Abbreviation flash_ok := (flash_inv array_size).


Lemma upd_flash_ok d st wc cmd status counter blk bo rm : flash_ok d ->
  bv_size st = bv_size (storage_ d) -> bv_wf st -> 0 <= wc <= 3 ->
  In cmd flash_commands -> (2 <= wc -> cmd = 0xE8) -> fits 8 status -> fits 16 counter ->
  bv_size blk = 4096 -> bv_wf blk -> block_ok bo wc (bv_size (storage_ d)) ->
  flash_ok (upd_flash st wc cmd status counter blk bo rm d).
Proof.
  intros [Hsz Ha Hw Hb Hf Hc Hm Hr Ho] Es Ws Hwc Hcmd Hcmd' Hst Hcn Eb Wb Hbo.
  split; cbn [upd_flash sector_len_ storage_ device_width_ writeblock_size_ blk_bytes_ wcycle_ cmd_
              status_ counter_ blk_offset_]; rewrite ?Es; auto.
  split; [apply Hb|done].
Qed.

(** Rounding an offset down to a sector or to a write block. *)
Lemma land_not_pow2 w k x : 0 <= k <= w -> fits w x ->
  Z.land x (uwrap w (Z.lnot (2 ^ k - 1))) = x / 2 ^ k * 2 ^ k.
Proof.
  intros Hk Hx. replace (2 ^ k - 1) with (Z.ones k) by (rewrite Z.ones_equiv; lia).
  rewrite <- (Z.shiftl_mul_pow2 _ k), <- Z.shiftr_div_pow2 by lia.
  apply Z.bits_inj'. intros i Hi. rewrite Z.land_spec, Z.shiftl_spec by lia. unfold uwrap.
  destruct (Z.ltb_spec i w).
  - rewrite Z.mod_pow2_bits_low, Z.lnot_spec by lia. destruct (Z.ltb_spec i k).
    + rewrite Z.ones_spec_low, (Z.testbit_neg_r _ (i - k)) by lia. apply andb_false_r.
    + rewrite Z.ones_spec_high, Z.shiftr_spec by lia. replace (i - k + k) with i by lia.
      apply andb_true_r.
  - rewrite Z.mod_pow2_bits_high, Z.shiftr_spec by lia. rewrite andb_false_r.
    replace (i - k + k) with i by lia. symmetry.
    rewrite <- (Z.mod_small x (2 ^ w)) by exact Hx. apply Z.mod_pow2_bits_high. lia.
Qed.


(** The start of the write block of an offset. *)
Definition block_start (offset : Z) (d : PFlashCFI01) : Z :=
  Z.land offset (u32 (Z.lnot (writeblock_size_ d - 1))).

Lemma block_start_in d offset : flash_ok d -> 0 <= offset < bv_size (storage_ d) ->
  block_start offset d = offset / 4096 * 4096 /\ block_start offset d + 4096 <= bv_size (storage_ d).
Proof.
  intros Hok Ho. destruct (fo_array d Hok) as (k & n & Hk & El & Es & Hn). unfold block_start.
  destruct (fo_block d Hok) as [-> _]. change (4096 - 1) with (2 ^ 12 - 1).
  rewrite land_not_pow2 by (unfold fits; lia). split; [done|]. rewrite Es in *.
  replace k with (k - 12 + 12) in * by lia. rewrite Z.pow_add_r in * by lia.
  change (2 ^ 12) with 4096 in *. set (p := 2 ^ (k - 12)) in *. clearbody p.
  assert (offset / 4096 < p * n) by (apply Z.div_lt_upper_bound; lia). lia.
Qed.

(** ** Preservation *)

Lemma status_ok d v rm : flash_ok d -> fits 8 v ->
  flash_ok (upd_flash (storage_ d) (wcycle_ d) (cmd_ d) v (counter_ d) (blk_bytes_ d) (blk_offset_ d) rm d).
Proof. intros Hok Hv. apply upd_flash_ok; flash_side. Qed.

Lemma ready_ok d : flash_ok d -> flash_ok (ready d).
Proof.
  intros Hok. apply status_ok; [done|]. apply fits_lor; [lia|apply (fo_regs d Hok)|unfold fits; lia].
Qed.

Lemma error_ok d : flash_ok d -> flash_ok (set_status (Z.lor (status_ d) 0x10) d).
Proof.
  intros Hok. apply status_ok; [done|]. apply fits_lor; [lia|apply (fo_regs d Hok)|unfold fits; lia].
Qed.

Lemma array_ok d st : flash_ok d -> bv_size st = bv_size (storage_ d) -> bv_wf st ->
  flash_ok (set_storage st d).
Proof. intros Hok Hs Hw. apply upd_flash_ok; flash_side. Qed.

Lemma block_bytes_ok d b : flash_ok d -> bv_size b = 4096 -> bv_wf b -> flash_ok (set_blk_bytes b d).
Proof. intros Hok Hs Hw. apply upd_flash_ok; flash_side. Qed.

Lemma updated_size off n f v v' : bv_updated off n f v v' -> bv_size v' = bv_size v.
Proof. by intros (S & _). Qed.
Lemma updated_wf off n f v v' : bv_updated off n f v v' -> bv_wf v -> bv_wf v'.
Proof. by intros (_ & _ & W & _). Qed.

Lemma data_write_ok offset value width d : flash_ok d -> flash_ok (data_write offset value width d).
Proof.
  intros Hok. unfold data_write. pose proof (fo_wf d Hok) as [Hs Hb]. pose proof (fo_block d Hok) as [_ Eb].
  destruct (4 <? width); [done|]. destruct (negb _).
  - destruct (_ || _); [by apply error_ok|].
    pose proof (bv_store_updated (offset - blk_offset_ d) (Z.to_nat width) value (blk_bytes_ d)) as U.
    apply block_bytes_ok; [done| |by eapply updated_wf]. by rewrite (updated_size _ _ _ _ _ U).
  - destruct (_ <? _); [done|].
    pose proof (bv_store_updated offset (Z.to_nat width) value (storage_ d)) as U.
    apply array_ok; [done| |by eapply updated_wf]. by rewrite (updated_size _ _ _ _ _ U).
Qed.

Lemma data_write_frame offset value width d :
  wcycle_ (data_write offset value width d) = wcycle_ d /\
  cmd_ (data_write offset value width d) = cmd_ d /\
  counter_ (data_write offset value width d) = counter_ d /\
  blk_offset_ (data_write offset value width d) = blk_offset_ d.
Proof.
  unfold data_write. destruct (4 <? width); [done|].
  destruct (negb _); [destruct (_ || _)|destruct (_ <? _)]; done.
Qed.

Lemma blk_write_start_ok offset d : flash_ok d -> wcycle_ d = 2 -> 0 <= offset < bv_size (storage_ d) ->
  flash_ok (blk_write_start offset d).
Proof.
  intros Hok Hc Ho. destruct (block_start_in d offset Hok Ho) as [E Hi]. unfold blk_write_start.
  pose proof (fo_wf d Hok) as [Hs Hb]. pose proof (fo_block d Hok) as [_ Eb].
  apply block_bytes_ok.
  - fold (block_start offset d). unfold set_blk_offset. rewrite E. rewrite E in Hi.
    apply upd_flash_ok; try flash_side. right. rewrite Hc. split_and!; [lia|lia| |lia].
    apply Z_mod_mult.
  - cbn [set_blk_offset upd_flash blk_bytes_ storage_ blk_offset_ writeblock_size_].
    rewrite (updated_size _ _ _ _ _ (bv_memcpy_updated _ _ _ _ _ Hs)). done.
  - cbn [set_blk_offset upd_flash blk_bytes_ storage_ blk_offset_ writeblock_size_].
    by eapply updated_wf; [apply bv_memcpy_updated|].
Qed.

Lemma blk_write_abort_ok d : flash_ok d -> flash_ok (blk_write_abort d).
Proof. intros Hok. apply upd_flash_ok; flash_side. Qed.

Lemma blk_write_flush_ok d : flash_ok d -> flash_ok (blk_write_flush d) /\ blk_offset_ (blk_write_flush d) = -1.
Proof.
  intros Hok. unfold blk_write_flush. destruct (Z.eqb_spec (blk_offset_ d) (-1)) as [E|E]; [done|].
  split; [|done]. pose proof (fo_wf d Hok) as [Hs Hb].
  pose proof (bv_memcpy_updated (blk_offset_ d) (blk_bytes_ d) 0 (Z.to_nat (writeblock_size_ d))
    (storage_ d) Hb) as U.
  change (set_blk_offset (-1) ?x) with (blk_write_abort x). apply blk_write_abort_ok.
  apply array_ok; [done|by apply updated_size in U|by eapply updated_wf].
Qed.

Lemma mode_read_array_ok d : flash_ok d -> blk_offset_ d = -1 -> flash_ok (mode_read_array d).
Proof. 
  intros Hok Ho. apply (upd_flash_ok d (storage_ d) 0 0 (status_ d) (counter_ d) (blk_bytes_ d)
    (blk_offset_ d) true); flash_side.
Qed.

Lemma erase_block_ok offset d : flash_ok d -> flash_ok (erase_block offset d).
Proof.
  intros Hok. apply ready_ok. cbv zeta. apply array_ok; [done| |].
  - eapply updated_size, bv_memset_updated.
  - eapply updated_wf; [apply bv_memset_updated|apply (fo_wf d Hok)].
Qed.


(** No block is in use before the third cycle. *)
Lemma no_block d : flash_ok d -> wcycle_ d < 2 -> blk_offset_ d = -1.
Proof. intros Hok Hc. destruct (fo_offset d Hok) as [?|(? & _)]; [done|lia]. Qed.

(** Moving to another cycle with no block in use. *)
Lemma cycle_ok d wc cmd : flash_ok d -> blk_offset_ d = -1 -> 0 <= wc <= 3 ->
  In cmd flash_commands -> (2 <= wc -> cmd = 0xE8) -> flash_ok (set_cmd cmd (set_wcycle wc d)).
Proof. 
  intros Hok Ho Hwc Hin Hc. apply (upd_flash_ok d (storage_ d) wc cmd (status_ d) (counter_ d)
    (blk_bytes_ d) (blk_offset_ d) (read_mode_ d)); flash_side.
Qed.

Lemma write_cycle_0_ok offset cmd d : flash_ok d -> wcycle_ d = 0 -> flash_ok (write_cycle_0 offset cmd d).
Proof.
  intros Hok Hc. pose proof (no_block d Hok ltac:(lia)) as Hb. unfold write_cycle_0.
  assert (forall c d', flash_ok d' -> blk_offset_ d' = -1 -> In c flash_commands ->
    flash_ok (set_cmd c (set_wcycle 1 d'))) as Hnext by (intros; apply cycle_ok; auto; lia).
  destruct (cmd =? 0x00); [by apply mode_read_array_ok|].
  case_or E1.
  { apply orb_true_iff in E1. apply Hnext; auto. destruct E1 as [->%Z.eqb_eq| ->%Z.eqb_eq]; cmd_in. }
  case_or E2.
  { apply orb_true_iff in E2. apply Hnext; [by apply erase_block_ok|done|].
    destruct E2 as [->%Z.eqb_eq| ->%Z.eqb_eq]; cmd_in. }
  destruct (cmd =? 0x50).
  { apply mode_read_array_ok; [|done]. apply status_ok; [done|unfold fits; lia]. }
  destruct (Z.eqb_spec cmd 0x60) as [->|]; [apply Hnext; auto; cmd_in|].
  case_or E3.
  { apply orb_true_iff in E3. apply (cycle_ok d (wcycle_ d)); try done; [lia| |lia].
    destruct E3 as [->%Z.eqb_eq| ->%Z.eqb_eq]; cmd_in. }
  destruct (Z.eqb_spec cmd 0x98) as [->|]; [apply Hnext; auto; cmd_in|].
  destruct (Z.eqb_spec cmd 0xE8) as [->|]; [apply Hnext; [by apply ready_ok|done|cmd_in]|].
  by apply mode_read_array_ok.
Qed.

Lemma write_cycle_1_ok offset size value cmd d : flash_ok d -> wcycle_ d = 1 ->
  flash_ok (write_cycle_1 offset size value cmd d).
Proof.
  intros Hok Hc. pose proof (no_block d Hok ltac:(lia)) as Hb. unfold write_cycle_1.
  assert (forall d', flash_ok d' -> blk_offset_ d' = -1 -> flash_ok (set_wcycle 0 d')) as H0.
  { intros d' Hd' Hb'. apply (cycle_ok d' 0 (cmd_ d')); try done. apply (fo_cmd d' Hd'). }
  destruct (_ || _).
  { destruct (data_write_frame offset value size d) as (_ & _ & _ & Eb).
    apply H0; [by apply ready_ok, data_write_ok|by rewrite <- Hb]. }
  destruct (_ || _).
  { destruct (_ =? _); [by apply ready_ok, H0|by apply mode_read_array_ok]. }
  destruct (Z.eqb_spec (cmd_ d) 0xE8) as [E|E].
  { assert (fits 16 (Z.land value (Z.shiftl 1 (device_width_ d * 8) - 1))) as Hf.
    { rewrite (fo_width d Hok). change (Z.shiftl 1 (2 * 8) - 1) with (Z.ones 16).
      rewrite Z.land_ones by lia. apply uwrap_fits. lia. }
    apply (upd_flash_ok d (storage_ d) 2 (cmd_ d) (status_ d) _ (blk_bytes_ d)
      (blk_offset_ d) (read_mode_ d)); flash_side. }
  destruct (cmd_ d =? 0x60).
  { destruct (_ || _); [by apply ready_ok, H0|]. destruct (_ =? _); [by apply mode_read_array_ok|done]. }
  destruct (cmd_ d =? 0x98); [destruct (_ =? _); [by apply mode_read_array_ok|done]|].
  by apply mode_read_array_ok.
Qed.

(** The second part of the third cycle. *)
Definition after_word (d : PFlashCFI01) : PFlashCFI01 :=
  let d := ready d in if counter_ d =? 0 then set_wcycle 3 d else set_counter (u64 (counter_ d - 1)) d.

Lemma after_word_ok d : flash_ok d -> wcycle_ d = 2 -> flash_ok (after_word d).
Proof.
  intros Hok Hc. unfold after_word. pose proof (ready_ok d Hok) as Hr. set (r := ready d) in *.
  assert (wcycle_ r = 2) as Hcr by done. clearbody r.
  pose proof (fo_cmd r Hr) as [_ Hcmd]. specialize (Hcmd ltac:(lia)).
  destruct (Z.eqb_spec (counter_ r) 0) as [E|E].
  - apply (upd_flash_ok r (storage_ r) 3 (cmd_ r) (status_ r) (counter_ r) (blk_bytes_ r)
      (blk_offset_ r) (read_mode_ r)); try flash_side.
    destruct (fo_offset r Hr) as [|(? & ?)]; [by left|right; split; [lia|done]].
  - pose proof (proj2 (fo_regs r Hr)) as Hf. unfold fits in Hf.
    apply (upd_flash_ok r (storage_ r) (wcycle_ r) (cmd_ r) (status_ r) (u64 (counter_ r - 1)) (blk_bytes_ r)
      (blk_offset_ r) (read_mode_ r)); try flash_side.
    rewrite uwrap_id; unfold fits; lia.
Qed.

Lemma write_cycle_2_ok offset size value d : flash_ok d -> wcycle_ d = 2 ->
  0 <= offset < bv_size (storage_ d) -> flash_ok (write_cycle_2 offset size value d).
Proof.
  intros Hok Hc Ho. unfold write_cycle_2. pose proof (fo_cmd d Hok) as [_ Hcmd].
  rewrite Hcmd by lia. change (0xE8 =? 0xE8) with true. cbv iota.
  set (d1 := if (_ && _) then _ else d).
  assert (flash_ok d1 /\ wcycle_ d1 = 2) as [H1 Hc1].
  { unfold d1. destruct (_ && _); [|done]. by split; [apply blk_write_start_ok|]. }
  clearbody d1. set (d2 := if negb _ then _ else _).
  assert (flash_ok d2 /\ wcycle_ d2 = 2) as [H2 Hc2].
  { unfold d2. destruct (negb _); [|by split; [apply error_ok|]].
    destruct (data_write_frame offset value size d1) as (E & _).
    by split; [apply data_write_ok|rewrite E]. }
  by apply after_word_ok.
Qed.

Lemma write_cycle_3_ok cmd d : flash_ok d -> flash_ok (write_cycle_3 cmd d).
Proof.
  intros Hok. unfold write_cycle_3.
  assert (flash_ok (mode_read_array (blk_write_abort d))) as Ha.
  { by apply mode_read_array_ok; [apply blk_write_abort_ok|]. }
  destruct (cmd_ d =? 0xE8); [|done]. destruct (_ && _); [|done].
  destruct (blk_write_flush_ok d Hok) as [Hf Eo]. apply ready_ok.
  apply (cycle_ok _ 0 (cmd_ (blk_write_flush d))); try done. apply (fo_cmd _ Hf).
Qed.

Lemma set_read_mode_ok rm d : flash_ok d -> flash_ok (set_read_mode rm d).
Proof. intros Hok. apply status_ok; [done|apply (fo_regs d Hok)]. Qed.

Lemma flash_write_n_ok size offset value d : flash_ok d -> 0 <= offset < bv_size (storage_ d) ->
  flash_ok (snd (flash_write_n size offset value d)) /\ fst (flash_write_n size offset value d) = true.
Proof.
  intros Hok Ho. split; [|done]. unfold flash_write_n. cbv zeta. cbn [snd].
  pose proof (fo_cycle d Hok) as Hc.
  destruct (Z.eqb_spec (wcycle_ d) 0) as [E0|E0].
  - cbn [set_read_mode upd_flash wcycle_]. rewrite E0. change (0 =? 0) with true. cbv iota.
    apply write_cycle_0_ok; [by apply set_read_mode_ok|done].
  - destruct (Z.eqb_spec (wcycle_ d) 0); [done|].
    destruct (Z.eqb_spec (wcycle_ d) 1); [by apply write_cycle_1_ok|].
    destruct (Z.eqb_spec (wcycle_ d) 2); [by apply write_cycle_2_ok|].
    destruct (Z.eqb_spec (wcycle_ d) 3); [by apply write_cycle_3_ok|lia].
Qed.


Lemma write_twice_true (f : Z -> Z -> PFlashCFI01 -> bool * PFlashCFI01) offset value d :
  (forall o v d', fst (f o v d') = true) ->
  write_twice f offset value d =
    (true, snd (f (u64 (offset + 4)) (Z.shiftr value 32) (snd (f offset (Z.land value 0xFFFFFFFF) d)))).
Proof.
  intros Hf. unfold write_twice. pose proof (Hf offset (Z.land value 0xFFFFFFFF) d) as E.
  destruct (f offset _ d) as [ok d1]. cbn [fst snd] in *. rewrite E.
  rewrite <- (Hf (u64 (offset + 4)) (Z.shiftr value 32) d1). by destruct (f _ _ d1).
Qed.

Lemma flash_write_ok offset size value d : flash_ok d ->
  In size [1; 2; 4; 8] -> 0 <= offset /\ offset + size <= array_size ->
  flash_ok (snd (flash_write_internal offset size value d)) /\
  fst (flash_write_internal offset size value d) = true.
Proof.
  intros Hok Hs Ho. pose proof (fo_size d Hok) as Es. unfold flash_write_internal.
  assert (1 <= size) by (cbn [In] in Hs; lia).
  destruct (Z.eqb_spec size 8) as [->|]; [|apply flash_write_n_ok; [done|lia]].
  rewrite write_twice_true by done. split; [|done]. cbn [snd].
  destruct (flash_write_n_ok 4 offset (Z.land value 0xFFFFFFFF) d Hok ltac:(lia)) as [H1 _].
  set (d1 := snd _) in *. pose proof (fo_size d1 H1) as E1.
  destruct (fo_array d Hok) as (k & n & _ & _ & Ea & Hn).
  apply flash_write_n_ok; [done|]. rewrite uwrap_id by (unfold fits; lia). lia.
Qed.









(** ** Buffered programming *)

(** A sequence of 32-bit writes. *)
Definition writes (l : list (Z * Z)) (d : PFlashCFI01) : PFlashCFI01 :=
  foldl (fun d ov => snd (flash_write_internal (fst ov) 4 (snd ov) d)) d l.

(** The driver's sequence: the command, the number of words less one, the words with
    their offsets, and the confirmation. *)
Definition block_program (base : Z) (ws : list (Z * Z)) : list (Z * Z) :=
  (base, 0xE8) :: (base, Z.of_nat (length ws) - 1) :: ws ++ [(base, 0xD0)].

Definition in_block (b o : Z) : bool := (b <=? o) && (o + 4 <=? b + 4096).
(** All words fall in the block of the first. *)
Definition one_block (ws : list (Z * Z)) : bool :=
  match ws with
  | [] => false
  | (o, _) :: _ => forallb (fun ov => in_block (o / 4096 * 4096) (fst ov)) ws
  end.

(** The array after the words are stored one by one. *)
Definition store_words (ws : list (Z * Z)) (v : bytevec) : bytevec :=
  foldl (fun v ov => bv_store (fst ov) 4 (u32 (snd ov)) v) v ws.

Definition error_bit (d : PFlashCFI01) : bool := Z.testbit (status_ d) 4.

Lemma land_u32 v : Z.land v 0xFFFFFFFF = u32 v.
Proof. change 0xFFFFFFFF with (Z.ones 32). apply Z.land_ones. lia. Qed.

Lemma ready_error d : error_bit (ready d) = error_bit d.
Proof.
  unfold error_bit, ready. cbn [set_status upd_flash status_]. rewrite Z.lor_spec.
  change (Z.testbit 0x80 4) with false. apply orb_false_r.
Qed.

Lemma set_error d : error_bit (set_status (Z.lor (status_ d) 0x10) d) = true.
Proof. unfold error_bit. cbn [set_status upd_flash status_]. rewrite Z.lor_spec. apply orb_true_r. Qed.

Lemma nz_error d : fits 8 (status_ d) -> nz (Z.land (status_ d) 0x10) = error_bit d.
Proof.
  intros Hf. unfold error_bit. change 0x10 with (Z.shiftl 1 4). apply nz_land_bit. lia.
Qed.

(** What one word does to an open block. *)
Definition store_word (b : Z) (ov : Z * Z) (blk : bytevec) : bytevec :=
  bv_store (fst ov - b) 4 (u32 (snd ov)) blk.

Record word_written (ov : Z * Z) (d d' : PFlashCFI01) : Prop := {
  ww_storage : storage_ d' = storage_ d;
  ww_mode : read_mode_ d' = read_mode_ d;
  ww_offset : blk_offset_ d' = blk_offset_ d;
  ww_cycle : wcycle_ d' = if counter_ d =? 0 then 3 else 2;
  ww_counter : counter_ d <> 0 -> counter_ d' = counter_ d - 1;
  ww_error : error_bit d' = error_bit d || negb (in_block (blk_offset_ d) (fst ov));
  ww_bytes : blk_bytes_ d' = if in_block (blk_offset_ d) (fst ov)
                             then store_word (blk_offset_ d) ov (blk_bytes_ d) else blk_bytes_ d;
}.

Lemma data_write_block o v d : flash_ok d -> blk_offset_ d <> -1 -> 0 <= o -> o + 4 <= array_size ->
  data_write o v 4 d =
    if in_block (blk_offset_ d) o
    then set_blk_bytes (bv_store (o - blk_offset_ d) 4 v (blk_bytes_ d)) d
    else set_status (Z.lor (status_ d) 0x10) d.
Proof.
  intros Hok Hb Ho Hs. destruct (fo_array d Hok) as (k & n & _ & _ & Ea & Hn).
  pose proof (fo_size d Hok) as Es. destruct (fo_offset d Hok) as [?|(_ & H1 & _ & H2)]; [done|].
  unfold data_write. change (4 <? 4) with false. cbv iota.
  destruct (Z.eqb_spec (blk_offset_ d) (-1)); [done|]. cbn [negb].
  destruct (fo_block d Hok) as [-> _].
  rewrite (uwrap_id 64 (blk_offset_ d)), !uwrap_id by (unfold fits; lia).
  unfold in_block. rewrite (Z.ltb_antisym (blk_offset_ d) o), (Z.ltb_antisym (o + 4)), <- negb_andb.
  by destruct (_ && _).
Qed.

Lemma word_step ov d : flash_ok d -> wcycle_ d = 2 -> blk_offset_ d <> -1 ->
  0 <= fst ov /\ fst ov + 4 <= array_size ->
  word_written ov d (snd (flash_write_internal (fst ov) 4 (snd ov) d)).
Proof.
  intros Hok Hc Hb Ho. pose proof (fo_cmd d Hok) as [_ Hcmd]. specialize (Hcmd ltac:(lia)).
  assert (snd (flash_write_internal (fst ov) 4 (snd ov) d) =
          after_word (data_write (fst ov) (u32 (snd ov)) 4 d)) as ->.
  { unfold flash_write_internal, flash_write_n. change (4 =? 8) with false. cbv iota zeta.
    rewrite Hc. change (2 =? 0) with false. change (2 =? 1) with false. change (2 =? 2) with true.
    cbn [snd]. rewrite Hc. change (2 =? 0) with false. change (2 =? 1) with false.
    change (2 =? 2) with true. cbv iota. unfold write_cycle_2. rewrite Hcmd.
    change (0xE8 =? 0xE8) with true. cbv iota. rewrite land_u32.
    destruct (Z.eqb_spec (blk_offset_ d) (-1)) as [|]; [done|]. cbn [andb]. cbv zeta.
    destruct (Z.eqb_spec (blk_offset_ d) (-1)) as [|]; [done|]. done. }
  rewrite data_write_block by (done || lia).
  pose proof (proj2 (fo_regs d Hok)) as Hf. unfold fits in Hf.
  assert (forall d1, counter_ d1 = counter_ d -> wcycle_ d1 = 2 ->
    let d' := after_word d1 in
    storage_ d' = storage_ d1 /\ read_mode_ d' = read_mode_ d1 /\ blk_offset_ d' = blk_offset_ d1 /\
    wcycle_ d' = (if counter_ d =? 0 then 3 else 2) /\
    (counter_ d <> 0 -> counter_ d' = counter_ d - 1) /\ error_bit d' = error_bit d1 /\
    blk_bytes_ d' = blk_bytes_ d1) as Hafter.
  { intros d1 E1 E2. unfold after_word. change (counter_ (ready d1)) with (counter_ d1). rewrite E1.
    destruct (Z.eqb_spec (counter_ d) 0); cbn [set_wcycle set_counter upd_flash storage_ read_mode_
      blk_offset_ wcycle_ counter_ blk_bytes_]; split_and!; try done; try apply (ready_error d1).
    intros _. rewrite uwrap_id by (unfold fits; lia). lia. }
  destruct (in_block (blk_offset_ d) (fst ov)) eqn:Ei.
  - destruct (Hafter (set_blk_bytes (bv_store (fst ov - blk_offset_ d) 4 (u32 (snd ov)) (blk_bytes_ d)) d)
      eq_refl Hc) as (H1 & H2 & H3 & H4 & H5 & H6 & H7).
    split; rewrite ?Ei, ?H1, ?H2, ?H3, ?H6, ?H7; try done. cbn [negb]. by rewrite orb_false_r.
  - destruct (Hafter (set_status (Z.lor (status_ d) 0x10) d) eq_refl Hc) as (H1 & H2 & H3 & H4 & H5 & H6 & H7).
    split; rewrite ?Ei, ?H1, ?H2, ?H3, ?H6, ?H7; try done. rewrite set_error. by rewrite orb_true_r.
Qed.

Definition in_array (ov : Z * Z) : Prop := 0 <= fst ov /\ fst ov + 4 <= array_size.

Record words_written (ws : list (Z * Z)) (d d' : PFlashCFI01) : Prop := {
  wws_ok : flash_ok d';
  wws_storage : storage_ d' = storage_ d;
  wws_mode : read_mode_ d' = read_mode_ d;
  wws_offset : blk_offset_ d' = blk_offset_ d;
  wws_cycle : wcycle_ d' = 3;
  wws_error : error_bit d' = error_bit d || negb (forallb (fun ov => in_block (blk_offset_ d) (fst ov)) ws);
  wws_bytes : forallb (fun ov => in_block (blk_offset_ d) (fst ov)) ws = true ->
    blk_bytes_ d' = foldl (fun b ov => store_word (blk_offset_ d) ov b) (blk_bytes_ d) ws;
}.

Lemma words_run ws : forall ov d, flash_ok d -> wcycle_ d = 2 -> blk_offset_ d <> -1 ->
  counter_ d = Z.of_nat (length ws) -> Forall in_array (ov :: ws) ->
  words_written (ov :: ws) d (writes (ov :: ws) d).
Proof.
  induction ws as [|ov' ws IH]; intros ov d Hok Hc Hb Hn [Ho Hws]%Forall_cons_1;
    destruct (flash_write_ok (fst ov) 4 (snd ov) d Hok ltac:(cmd_in) Ho) as [H1 _];
    pose proof (word_step ov d Hok Hc Hb Ho) as W;
    change (writes (ov :: ?l) d) with (writes l (snd (flash_write_internal (fst ov) 4 (snd ov) d)));
    set (d1 := snd (flash_write_internal (fst ov) 4 (snd ov) d)) in *; clearbody d1;
    destruct W as [Es Em Eo Ec En Ee Eb].
  - change (writes [] d1) with d1. rewrite Hn in *. split; try done; cbn [forallb foldl].
    + by rewrite andb_true_r.
    + rewrite andb_true_r. intros Ei. by rewrite Eb, Ei.
  - rewrite Hn in Ec, En. cbn [length] in *.
    destruct (Z.eqb_spec (Z.of_nat (S (length ws))) 0); [lia|].
    destruct (IH ov' d1 H1 Ec ltac:(congruence) ltac:(rewrite En; lia) Hws) as [Ik Is Im Io Ic Ie Ib].
    rewrite Eo in *. split; try congruence.
    + rewrite Ie, Ee. cbn [forallb]. rewrite !negb_andb. by rewrite !orb_assoc.
    + cbn [forallb foldl] in *. intros [Ei Er]%andb_true_iff. rewrite Ib, Eb, Ei; [done|].
      by rewrite Er.
Qed.

(** The write block as an image of the array. *)
Lemma block_image b ws : forall blk st st0,
  forallb (fun ov => in_block b (fst ov)) ws = true ->
  (forall j, 0 <= j < 4096 -> bv_get blk j = bv_get st (b + j)) ->
  (forall i, ~ (b <= i < b + 4096) -> bv_get st i = bv_get st0 i) ->
  let blk' := foldl (fun v ov => store_word b ov v) blk ws in
  let st' := store_words ws st in
  (forall j, 0 <= j < 4096 -> bv_get blk' j = bv_get st' (b + j)) /\
  (forall i, ~ (b <= i < b + 4096) -> bv_get st' i = bv_get st0 i).
Proof.
  induction ws as [|[o v] ws IH]; intros blk st st0 Hin H1 H2; [done|].
  cbn [forallb foldl store_words fst] in *. apply andb_true_iff in Hin. destruct Hin as [Ho Hin].
  unfold in_block in Ho. apply andb_true_iff in Ho. rewrite !Z.leb_le in Ho.
  apply IH; [done| |].
  - intros j Hj. unfold store_word. cbn [fst snd].
    destruct (bv_store_updated (o - b) 4 (u32 v) blk) as (_ & _ & _ & ->).
    destruct (bv_store_updated o 4 (u32 v) st) as (_ & _ & _ & ->).
    rewrite H1 by done. change (Z.of_nat 4) with 4. replace (b + j - o) with (j - (o - b)) by lia.
    destruct (Z.leb_spec (o - b) j), (Z.leb_spec o (b + j)), (Z.ltb_spec j (o - b + 4)),
      (Z.ltb_spec (b + j) (o + 4)); try lia; done.
  - intros i Hi. destruct (bv_store_updated o 4 (u32 v) st) as (_ & _ & _ & ->).
    change (Z.of_nat 4) with 4.
    destruct (Z.leb_spec o i), (Z.ltb_spec i (o + 4)); try lia; by apply H2.
Qed.

(** The two writes before the words. *)
Definition flash_opened (counter : Z) (d : PFlashCFI01) : PFlashCFI01 :=
  upd_flash (storage_ d) 2 0xE8 (Z.lor (status_ d) 0x80) counter (blk_bytes_ d) (blk_offset_ d) false d.

Lemma open_block base n d : flash_ok d -> wcycle_ d = 0 -> 0 <= n < 65536 ->
  writes [(base, 0xE8); (base, n)] d = flash_opened n d.
Proof.
  intros Hok Hc Hn. cbn [writes foldl fst snd].
  assert (snd (flash_write_internal base 4 0xE8 d) = set_cmd 0xE8 (set_wcycle 1 (ready (set_read_mode false d))))
    as ->.
  { unfold flash_write_internal, flash_write_n. change (4 =? 8) with false. cbv iota zeta.
    rewrite Hc. change (0 =? 0) with true. cbn [snd set_read_mode upd_flash wcycle_]. rewrite Hc. reflexivity. }
  set (d1 := set_cmd _ _).
  transitivity (set_wcycle 2 (set_counter (Z.land (Z.land n 0xFFFFFFFF)
    (Z.shiftl 1 (device_width_ d1 * 8) - 1)) d1)); [reflexivity|].
  change (device_width_ d1) with (device_width_ d). rewrite (fo_width d Hok), land_u32, uwrap_id
    by (unfold fits; lia).
  change (Z.shiftl 1 (2 * 8) - 1) with (Z.ones 16). rewrite Z.land_ones, Z.mod_small by lia. reflexivity.
Qed.

Lemma flash_opened_ok n d : flash_ok d -> wcycle_ d = 0 -> 0 <= n < 65536 -> flash_ok (flash_opened n d).
Proof.
  intros Hok Hc Hn. pose proof (no_block d Hok ltac:(lia)).
  apply upd_flash_ok; flash_side.
Qed.

(** The word that opens the block. *)
Lemma first_word o v d : wcycle_ d = 2 -> cmd_ d = 0xE8 -> blk_offset_ d = -1 -> counter_ d <> 0 ->
  blk_offset_ (blk_write_start o d) <> -1 ->
  snd (flash_write_internal o 4 v d) = snd (flash_write_internal o 4 v (blk_write_start o d)).
Proof.
  intros Hc Hcmd Hb Hn Hs. unfold flash_write_internal, flash_write_n. change (4 =? 8) with false.
  cbv iota zeta. cbn [snd]. change (wcycle_ (blk_write_start o d)) with (wcycle_ d). rewrite Hc.
  change (2 =? 0) with false. change (2 =? 1) with false. change (2 =? 2) with true. cbv iota.
  rewrite Hc. change (wcycle_ (blk_write_start o d)) with (wcycle_ d). rewrite Hc.
  change (2 =? 0) with false. change (2 =? 1) with false. change (2 =? 2) with true. cbv iota.
  unfold write_cycle_2. change (cmd_ (blk_write_start o d)) with (cmd_ d). rewrite Hcmd, Hb.
  change (0xE8 =? 0xE8) with true. change (-1 =? -1) with true. cbv iota.
  apply nz_true in Hn. rewrite Hn. cbn [andb].
  destruct (Z.eqb_spec (blk_offset_ (blk_write_start o d)) (-1)); [done|]. cbn [andb].
  destruct (Z.eqb_spec (blk_offset_ (blk_write_start o d)) (-1)); done.
Qed.

(** The confirmation. *)
Lemma confirm base d : flash_ok d -> wcycle_ d = 3 ->
  writes [(base, 0xD0)] d =
    if error_bit d then mode_read_array (blk_write_abort d)
    else ready (set_wcycle 0 (blk_write_flush d)).
Proof.
  intros Hok Hc. cbn [writes foldl fst snd]. unfold flash_write_internal, flash_write_n.
  change (4 =? 8) with false. cbv iota zeta. cbn [snd]. rewrite Hc. change (3 =? 0) with false.
  cbv iota. rewrite Hc. change (3 =? 0) with false. change (3 =? 1) with false.
  change (3 =? 2) with false. change (3 =? 3) with true. cbv iota. unfold write_cycle_3.
  pose proof (fo_cmd d Hok) as [_ Hcmd]. rewrite Hcmd by lia. change (0xE8 =? 0xE8) with true. cbv iota.
  rewrite nz_error by apply (fo_regs d Hok).
  change (Z.land (Z.land 0xD0 0xFFFFFFFF) 0xFF =? 0xD0) with true. by destruct (error_bit d).
Qed.

Lemma writes_app l1 l2 d : writes (l1 ++ l2) d = writes l2 (writes l1 d).
Proof. apply foldl_app. Qed.

(** A single word: the block never opens. *)
Lemma single_word ov d : flash_ok d -> wcycle_ d = 2 -> blk_offset_ d = -1 -> counter_ d = 0 ->
  writes [ov] d = set_wcycle 3 (ready (set_status (Z.lor (status_ d) 0x10) d)).
Proof.
  intros Hok Hc Hb Hn. pose proof (fo_cmd d Hok) as [_ Hcmd]. specialize (Hcmd ltac:(lia)).
  cbn [writes foldl]. unfold flash_write_internal, flash_write_n. change (4 =? 8) with false. cbv iota zeta.
  cbn [snd]. rewrite Hc. change (2 =? 0) with false. cbv iota. rewrite Hc. change (2 =? 0) with false.
  change (2 =? 1) with false. change (2 =? 2) with true. cbv iota. unfold write_cycle_2.
  rewrite Hcmd, Hb, Hn. change (0xE8 =? 0xE8) with true. change (-1 =? -1) with true.
  change (nz 0) with false. cbn [andb negb]. rewrite Hb. change (-1 =? -1) with true. cbn [negb]. cbv iota zeta.
  change (counter_ (ready (set_status (Z.lor (status_ d) 0x10) d))) with (counter_ d). by rewrite Hn.
Qed.

Lemma block_program_eq base ws d : flash_ok d -> wcycle_ d = 0 -> 1 <= Z.of_nat (length ws) <= 65536 ->
  writes (block_program base ws) d =
    writes [(base, 0xD0)] (writes ws (flash_opened (Z.of_nat (length ws) - 1) d)).
Proof.
  intros Hok Hc Hn. unfold block_program.
  change ((base, 0xE8) :: (base, Z.of_nat (length ws) - 1) :: ws ++ [(base, 0xD0)])
    with ([(base, 0xE8); (base, Z.of_nat (length ws) - 1)] ++ ws ++ [(base, 0xD0)]).
  rewrite !writes_app. by rewrite open_block by (done || lia).
Qed.

(** The end of a failed program. *)
Lemma confirm_error base d d0 : flash_ok d -> wcycle_ d = 3 -> error_bit d = true -> storage_ d = storage_ d0 ->
  let d' := writes [(base, 0xD0)] d in
  wcycle_ d' = 0 /\ error_bit d' = true /\ storage_ d' = storage_ d0.
Proof. intros Hok Hc He Hs. cbv zeta. rewrite confirm by done. rewrite He. done. Qed.

(** Two words or more. *)
Lemma block_program_many base ov ws d : flash_ok d -> wcycle_ d = 0 -> error_bit d = false ->
  1 <= Z.of_nat (length ws) <= 65535 -> Forall in_array (ov :: ws) ->
  let d' := writes (block_program base (ov :: ws)) d in
  wcycle_ d' = 0 /\ error_bit d' = negb (one_block (ov :: ws)) /\
  if one_block (ov :: ws)
  then forall i, bv_get (storage_ d') i = bv_get (store_words (ov :: ws) (storage_ d)) i
  else storage_ d' = storage_ d.
Proof.
  intros Hok Hc He Hn Hws. cbv zeta. rewrite block_program_eq by (done || cbn [length]; lia).
  replace (Z.of_nat (length (ov :: ws)) - 1) with (Z.of_nat (length ws)) by (cbn [length]; lia).
  set (n := Z.of_nat (length ws)) in *. set (d1 := flash_opened n d).
  assert (flash_ok d1) as H1 by (apply flash_opened_ok; done || lia).
  assert (blk_offset_ d1 = -1) as Hb1 by (apply (no_block d Hok); lia).
  pose proof Hws as Ho%Forall_inv. assert (0 <= fst ov < bv_size (storage_ d1)) as Ho'.
  { change (storage_ d1) with (storage_ d). rewrite (fo_size d Hok). unfold in_array in Ho. lia. }
  destruct (block_start_in d1 (fst ov) H1 Ho') as [Es Ei].
  set (d2 := blk_write_start (fst ov) d1).
  assert (flash_ok d2) as H2 by (by apply blk_write_start_ok).
  assert (blk_offset_ d2 = fst ov / 4096 * 4096) as Eo by exact Es.
  assert (0 <= fst ov / 4096 * 4096) as Hpos by lia. set (b := fst ov / 4096 * 4096) in *.
  assert (writes (ov :: ws) d1 = writes (ov :: ws) d2) as ->.
  { cbn [writes foldl]. rewrite (first_word (fst ov) (snd ov) d1); try done.
    - change (counter_ d1) with n. lia.
    - fold d2. lia. }
  destruct (words_run ws ov d2 H2 eq_refl ltac:(lia) eq_refl Hws) as [H3 Es3 Em3 Eo3 Ec3 Ee3 Eb3].
  set (d3 := writes (ov :: ws) d2) in *. rewrite Eo in *.
  assert (one_block (ov :: ws) = forallb (fun ov => in_block b (fst ov)) (ov :: ws)) as ->
    by (by destruct ov).
  assert (error_bit d2 = false) as He2.
  { unfold d2. change (error_bit (ready d) = false). by rewrite ready_error. }
  rewrite He2 in Ee3. cbn [orb] in Ee3.
  destruct (forallb _ (ov :: ws)) eqn:Ea; cbn [negb] in *; [|by apply confirm_error].
  rewrite confirm, Ee3 by done. split_and!; [done| |].
  { rewrite ready_error. unfold blk_write_flush. by destruct (_ =? _). }
  intros i. unfold blk_write_flush. destruct (Z.eqb_spec (blk_offset_ d3) (-1)); [lia|].
  change (storage_ (ready (set_wcycle 0 (set_blk_offset (-1) (set_storage ?x d3))))) with x.
  destruct (bv_memcpy_updated (blk_offset_ d3) (blk_bytes_ d3) 0 (Z.to_nat (writeblock_size_ d3))
    (storage_ d3) (proj2 (fo_wf d3 H3))) as (_ & _ & _ & ->).
  destruct (fo_block d3 H3) as [-> _]. rewrite Eo3, Es3, Eb3 by done.
  change (storage_ d2) with (storage_ d). change (Z.of_nat (Z.to_nat 4096)) with 4096.
  destruct (block_image b (ov :: ws) (blk_bytes_ d2) (storage_ d) (storage_ d) Ea) as [I1 I2]; [|done|].
  { intros j Hj. unfold d2, blk_write_start.
    change (blk_bytes_ (set_blk_bytes ?x _)) with x.
    destruct (bv_memcpy_updated 0 (storage_ d) (blk_offset_ d2) (Z.to_nat (writeblock_size_ d1))
      (blk_bytes_ d) (proj1 (fo_wf d Hok))) as (_ & _ & _ & G).
    etransitivity; [apply G|]. destruct (fo_block d1 H1) as [-> _]. rewrite Eo.
    change (Z.of_nat (Z.to_nat 4096)) with 4096.
    destruct (Z.leb_spec 0 j), (Z.ltb_spec j (0 + 4096)); try lia. cbn [andb]. f_equal. lia. }
  destruct (Z.leb_spec b i), (Z.ltb_spec i (b + 4096)); cbn [andb].
  - rewrite I1 by lia. f_equal. lia.
  - symmetry. apply I2. lia.
  - symmetry. apply I2. lia.
  - symmetry. apply I2. lia.
Qed.

(** C32. Buffered programming is all or nothing: the driver's sequence (0xE8, the count, up to
    65536 words at offsets of the array, 0xD0), started in command mode with the error
    bit clear, ends in command mode; if there are at least two words and all lie in
    the 4096-byte block of the first, every byte of the array is what storing the
    words one by one gives and the error bit stays clear; otherwise the array is
    unchanged and the error bit is set.  (A count of zero, one word, never opens the
    block: it fails even though the command set allows it.) *)
Theorem flash_block_program base ws d : flash_ok d -> wcycle_ d = 0 -> error_bit d = false ->
  1 <= Z.of_nat (length ws) <= 65536 -> Forall in_array ws ->
  let d' := writes (block_program base ws) d in
  let good := (2 <=? Z.of_nat (length ws)) && one_block ws in
  wcycle_ d' = 0 /\ error_bit d' = negb good /\
  if good then forall i, bv_get (storage_ d') i = bv_get (store_words ws (storage_ d)) i
  else storage_ d' = storage_ d.
Proof.
  intros Hok Hc He Hn Hws. destruct ws as [|ov [|ov' ws]]; [cbn [length] in Hn; lia| |].
  - cbn [length]. change (2 <=? Z.of_nat 1) with false. cbv zeta. cbn [andb negb].
    rewrite block_program_eq by done.
    change (Z.of_nat (length [ov]) - 1) with 0. set (d1 := flash_opened 0 d).
    assert (flash_ok d1) as H1 by (apply flash_opened_ok; done || lia).
    assert (blk_offset_ d1 = -1) as Hb1 by (apply (no_block d Hok); lia).
    apply Forall_inv in Hws.
    pose proof (single_word ov d1 H1 eq_refl Hb1 eq_refl) as E.
    destruct (flash_write_ok (fst ov) 4 (snd ov) d1 H1 ltac:(cmd_in) Hws) as [H2 _].
    change (snd (flash_write_internal (fst ov) 4 (snd ov) d1)) with (writes [ov] d1) in H2.
    apply (confirm_error base _ d); [done| | |]; rewrite E; try done.
    change (error_bit (ready (set_status (Z.lor (status_ d1) 0x10) d1)) = true).
    rewrite ready_error. apply set_error.
  - cbv zeta. destruct (Z.leb_spec 2 (Z.of_nat (length (ov :: ov' :: ws)))); [|cbn [length] in *; lia].
    cbn [andb]. apply block_program_many; try done. cbn [length] in *. lia.
Qed.
End Flash.

(** The flash the machine is built with. *)
Lemma flash_init_ok : flash_inv 0x2000000 (PFlash_init 0x10000 512).
Proof.
  assert (device_width_ (PFlash_init 0x10000 512) = 2) as E1 by reflexivity.
  split; try reflexivity; cbn [PFlash_init storage_ blk_bytes_ wcycle_ cmd_ status_ counter_ blk_offset_
    sector_len_ writeblock_size_].
  - exists 16, 512. by vm_compute.
  - split; [by vm_compute|]. by vm_compute.
  - split; apply bv_new_wf; unfold fits; lia.
  - lia.
  - split; [by left|lia].
  - unfold fits. lia.
  - by left.
Qed.






Ltac words_in :=
  repeat (apply Forall_cons_2; [unfold in_array; cbn [fst]; lia|]); apply Forall_nil_2.

(** Two words of one block are programmed; the second program crosses a block and
    leaves the array as it was. *)
Lemma flash_block_program_witness :
  let d := writes (block_program 0x1000 [(0x1000, 0x11223344); (0x1010, 0xAABBCCDD)])
             (PFlash_init 0x10000 512) in
  let d' := writes (block_program 0x1000 [(0x1000, 1); (0x2000, 2)]) (PFlash_init 0x10000 512) in
  bv_get (storage_ d) 0x1011 = 0xCC /\ error_bit d = false /\
  error_bit d' = true /\ storage_ d' = bv_new 0x2000000 0xFF.
Proof.
  destruct (flash_block_program 0x2000000 0x1000 [(0x1000, 0x11223344); (0x1010, 0xAABBCCDD)]
    _ flash_init_ok eq_refl eq_refl ltac:(cbn; lia) ltac:(words_in)) as (_ & E1 & G1).
  destruct (flash_block_program 0x2000000 0x1000 [(0x1000, 1); (0x2000, 2)]
    _ flash_init_ok eq_refl eq_refl ltac:(cbn; lia) ltac:(words_in)) as (_ & E2 & G2).
  cbv zeta. split; [etransitivity; [apply (G1 0x1011)|vm_compute; reflexivity]|].
  split; [exact E1|]. split; [exact E2|exact G2].
Defined.
