(* ===== verification/ClintSpec.v ===== *)
(** * What the CLINT guarantees

    The timer and software interrupt lines after each of its operations. *)

From stdpp Require Import gmap.
From S2P Require Import Prelude Bits Hart HartInv Machine Ports Clint.

(** Reading the clock leaves the hart alone. *)
Class ClockHart (W : Type) `{HartPort W} `{SteadyClock W} := {
  clock_hart : forall w, w_hart (snd (steady_clock_now w)) = w_hart w;
}.

Section ClintLines.
Context {W : Type} `{HartPortLaws W} `{!SteadyClock W} `{!ClockHart W} `{UndefinedConversion}.

Definition mip_bit (w : W) (i : Z) : bool := Z.testbit (raw (w_hart w) MIP_ADDRESS) i.
Definition stce (w : W) : bool := nz (Z.land (MENVCFG_read (w_hart w)) MENVCFG_STCE).
Definition stimecmp (w : W) : Z := STIMECMP_read (w_hart w).

(** After the comparators ran on [c]: MTIP (bit 7) and, when the supervisor comparator is
    enabled, STIP (bit 5) show whether the time has reached them; no other bit of mip
    and no other part of the hart changed. *)
Record timer_lines (c : Clint) (w w' : W) : Prop := {
  tl_mtip : mip_bit w' 7 = (mtimecmp_ c <=? mtime_ c);
  tl_stip : mip_bit w' 5 = if stce w then stimecmp w <=? mtime_ c else mip_bit w 5;
  tl_other : forall i, 0 <= i -> i <> 5 -> i <> 7 -> mip_bit w' i = mip_bit w i;
  tl_hart : mip_frame (w_hart w) (w_hart w');
}.

(** Driving one line of the hart. *)
Lemma hart_line b lvl w i : 0 <= b -> 0 <= i -> Z.testbit MIP_read_mask b = true ->
  mip_bit (w_upd_hart (set_interrupt_pending (Z.shiftl 1 b) lvl) w) i = if i =? b then lvl else mip_bit w i.
Proof. intros Hb Hi Hm. unfold mip_bit. rewrite w_hart_upd. by apply set_interrupt_pending_bit. Qed.

Lemma hart_line_frame flag lvl w : mip_frame (w_hart w) (w_hart (w_upd_hart (set_interrupt_pending flag lvl) w)).
Proof. rewrite w_hart_upd. apply set_interrupt_pending_frame. Qed.

Lemma mip_frame_stce w w' : mip_frame (w_hart w) (w_hart w') -> stce w' = stce w /\ stimecmp w' = stimecmp w.
Proof.
  intros F. unfold stce, stimecmp, MENVCFG_read, STIMECMP_read.
  by rewrite (pf_csr _ _ F MENVCFG_ADDRESS), (pf_csr _ _ F STIMECMP_ADDRESS).
Qed.

Lemma compare_lines c w : timer_lines c w (handle_stimecmp c (handle_mtimecmp c w)).
Proof.
  set (w1 := handle_mtimecmp c w). pose proof (hart_line_frame MTIP (mtimecmp_ c <=? mtime_ c) w) as F1.
  fold (handle_mtimecmp c w) w1 in F1. destruct (mip_frame_stce w w1 F1) as [Ec Es].
  assert (forall i, 0 <= i -> mip_bit w1 i = if i =? 7 then mtimecmp_ c <=? mtime_ c else mip_bit w i) as E1.
  { intros i Hi. by apply (hart_line 7). }
  unfold handle_stimecmp. fold (stce w1). rewrite Ec. destruct (stce w) eqn:Hs.
  - fold (stimecmp w1). rewrite Es. set (lvl := stimecmp w <=? mtime_ c).
    assert (forall i, 0 <= i -> mip_bit (w_upd_hart (set_interrupt_pending STIP lvl) w1) i
                                = if i =? 5 then lvl else mip_bit w1 i) as E2.
    { intros i Hi. by apply (hart_line 5). }
    split.
    + rewrite E2, E1 by lia. done.
    + rewrite Hs, E2 by lia. done.
    + intros i Hi H5 H7. rewrite E2, E1 by lia. apply Z.eqb_neq in H5, H7. by rewrite H5, H7.
    + eapply mip_frame_trans; [exact F1|apply hart_line_frame].
  - split.
    + by rewrite E1 by lia.
    + by rewrite Hs, E1 by lia.
    + intros i Hi H5 H7. rewrite E1 by lia. apply Z.eqb_neq in H7. by rewrite H7.
    + exact F1.
Qed.

(** The comparators see the hart as it was before the clock was read. *)
Lemma timer_lines_hart c w w1 w' : w_hart w1 = w_hart w -> timer_lines c w1 w' -> timer_lines c w w'.
Proof.
  intros E [T1 T2 T3 T4]. unfold mip_bit, stce, stimecmp in *. rewrite E in *. by split.
Qed.

Lemma tick_lines c w :
  let '(c', w') := tick_internal (c, w) in
  c' = set_mtime (mtime_at c (fst (steady_clock_now w))) c /\ timer_lines c' w w'.
Proof.
  unfold tick_internal. pose proof (clock_hart w) as Eh.
  destruct (steady_clock_now w) as [now w1]. cbn [fst snd] in *. split; [done|].
  eapply timer_lines_hart; [exact Eh|apply compare_lines].
Qed.

(** The value a write of [size] bytes at [offset] leaves in an eight-byte register. *)
Definition merged (old offset size value : Z) : Z := write_little_endian old offset size value.

(** C27. The timer lines follow the time: after a tick, a reading of the time or a write of
    MTIMECMP, MTIP is [mtime >= mtimecmp] for the time just taken from the host's clock
    (the written bytes of the comparator merged in), STIP is [mtime >= stimecmp] when
    menvcfg.STCE is set and is left alone otherwise, and nothing else of the hart
    changes; after a write of MTIME the same holds of the time written.  A write of
    MSIP copies bit 0 of the merged value to MSIP and changes no other bit. *)
Theorem clint_lines offset size value c w :
  let now := fst (steady_clock_now w) in
  (let '(c', w') := Clint_tick (c, w) in
   c' = set_mtime (mtime_at c now) c /\ timer_lines c' w w') /\
  (let '(v, (c', w')) := get_mtime (c, w) in
   v = mtime_at c now /\ c' = set_mtime v c /\ timer_lines c' w w') /\
  let '(ok, (c', w')) := clint_write_internal offset size value (c, w) in
  if (0 <=? offset) && (offset <? 4) then
    ok = true /\ c' = c /\ mip_frame (w_hart w) (w_hart w') /\
    forall i, 0 <= i -> mip_bit w' i = if i =? 3 then Z.testbit (merged 0 offset size value) 0 else mip_bit w i
  else if (0x4000 <=? offset) && (offset <? 0x4008) then
    ok = true /\ timer_lines c' w w' /\ mtime_ c' = mtime_at c now /\
    mtimecmp_ c' = merged (mtimecmp_ c) (offset - 0x4000) size value
  else if (0xBFF8 <=? offset) && (offset <? 0xC000) then
    ok = true /\ timer_lines c' w w' /\ mtimecmp_ c' = mtimecmp_ c /\
    mtime_ c' = merged (mtime_ c) (offset - 0xBFF8) size value
  else ok = false /\ c' = c /\ w' = w.
Proof.
  cbv zeta. split; [apply tick_lines|]. split.
  { unfold get_mtime. pose proof (tick_lines c w) as T. destruct (tick_internal (c, w)) as [c' w'].
    destruct T as [-> T]. done. }
  unfold clint_write_internal. unfold MSIP_OFFSET, MTIMECMP_OFFSET, MTIME_OFFSET.
  change (0 + 4) with 4. change (0x4000 + 8) with 0x4008. change (0xBFF8 + 8) with 0xC000.
  rewrite Z.sub_0_r. destruct ((0 <=? offset) && (offset <? 4)).
  { split_and!; [done|done|apply hart_line_frame|]. intros i Hi. unfold merged.
    change 1 with (Z.shiftl 1 0) at 1. rewrite nz_land_bit by lia. by apply (hart_line 3). }
  destruct ((0x4000 <=? offset) && (offset <? 0x4008)).
  { set (c1 := set_mtimecmp _ c). pose proof (tick_lines c1 w) as T.
    destruct (tick_internal (c1, w)) as [c' w']. destruct T as [-> T]. done. }
  destruct ((0xBFF8 <=? offset) && (offset <? 0xC000)); [|done].
  set (c1 := set_mtime _ c). pose proof (clock_hart w) as Eh.
  destruct (steady_clock_now w) as [now w1]. cbn [fst snd] in *. split_and!; [done| |done|done].
  eapply timer_lines_hart; [exact Eh|apply compare_lines].
Qed.
End ClintLines.

(** A world of a hart and a clock. *)
Section Small.
#[local] Instance small_hart : HartPort (Hart * Z) := {
  w_hart := fst;
  w_upd_hart f '(h, t) := (f h, t);
}.
#[local] Instance small_hart_laws : HartPortLaws (Hart * Z).
Proof. split. by intros f []. Qed.
#[local] Instance small_clock : SteadyClock (Hart * Z) := fun '(h, t) => (t, (h, t + 50)).
#[local] Instance small_clock_hart : ClockHart (Hart * Z).
Proof. split. by intros []. Qed.
#[local] Instance small_conversion : UndefinedConversion := {
  undefined_u64 _ := 0;
  undefined_s64 _ := 0;
}.

(** At 600 ns the time is 6: a comparator of 6 raises the line, one of 7 does not. *)
Lemma clint_lines_witness :
  let h := Hart_init 0x80000000 in
  mip_bit (snd (snd (clint_write_internal 0x4000 8 6 (mkClint 0 0 0 CLINT_FREQ, (h, 600))))) 7 = true /\
  mip_bit (snd (snd (clint_write_internal 0x4000 8 7 (mkClint 0 0 0 CLINT_FREQ, (h, 600))))) 7 = false.
Proof.
  intros h. destruct (clint_lines 0x4000 8 6 (mkClint 0 0 0 CLINT_FREQ) (h, 600)) as (_ & _ & T6).
  destruct (clint_lines 0x4000 8 7 (mkClint 0 0 0 CLINT_FREQ) (h, 600)) as (_ & _ & T7).
  cbv zeta in T6, T7.
  destruct (clint_write_internal 0x4000 8 6 _) as [ok6 [c6 w6]].
  destruct (clint_write_internal 0x4000 8 7 _) as [ok7 [c7 w7]].
  change ((0 <=? 0x4000) && (0x4000 <? 4)) with false in T6, T7.
  change ((0x4000 <=? 0x4000) && (0x4000 <? 0x4008)) with true in T6, T7. cbv iota in T6, T7.
  destruct T6 as (_ & L6 & M6 & C6), T7 as (_ & L7 & M7 & C7). cbn [fst snd].
  rewrite (tl_mtip _ _ _ L6), (tl_mtip _ _ _ L7), M6, M7, C6, C7.
  split; vm_compute; reflexivity.
Defined.
End Small.
