(* ===== verification/VirtioBlk.v ===== *)
(** * The virtio block device (src/device/virtio_blk.cpp)

    The registers, the virtqueue and the requests on the disk.  The device works on
    DRAM through unchecked accesses and through [read_bytes] and [write_bytes], whose
    exceptions leave a [noexcept] function: the ways a call can end badly are outcomes of
    their own. *)

From stdpp Require Import gmap.
From S2P Require Import Prelude Bits Ports ByteVec.
From S2P Require Export Dram.
Export Dram.

(** The DRAM the device was constructed with. *)
Class DramPort (W : Type) := {
  w_dram : W -> Dram;
  w_set_dram : Dram -> W -> W;
}.

(** The std::fstream of the disk image: what a read gives ([None] is a failed stream),
    whether the stream is good after a write, and flush. *)
Class DiskPort (W : Type) := {
  disk_read : Z -> Z -> W -> option (list Z) * W;
  disk_write : Z -> list Z -> W -> bool * W;
  disk_flush : W -> W;
}.

Inductive blk_exn : Set :=
  | BTerminate     (* an exception leaves a noexcept function: std::terminate *)
  | BStatusByte    (* the status byte is written outside of the DRAM array *)
  | BOutside       (* any other access outside of the DRAM array *)
  | BDivide        (* a division by zero *)
  | BFuel.         (* the loop of queue_notify_handler ran out of fuel *)

(** ** Constants and state *)

(* @src include/device/virtio_blk.hpp 28-54 VIRTIO_VENDOR_ID *)
Definition VIRTIO_VENDOR_ID : Z := 0x12345678.
Definition VIRTIO_MAGIC_NUMBER : Z := 0x74726976.
Definition VIRTIO_VERSION : Z := 2.
Definition VIRTIO_CONFIG_GENERATE : Z := 0.
Definition VIRTIO_STATUS_DRIVER_OK : Z := 4.
Definition VIRTIO_STATUS_DEVICE_NEEDS_RESET : Z := 64.
Definition VIRTIO_INT_USED_RING : Z := 1.
Definition VIRTIO_INT_CONF_CHANGE : Z := 2.
Definition VIRTIO_DESC_F_NEXT : Z := 1.
Definition VIRTIO_DESC_F_WRITE : Z := 2.
Definition VIRTIO_BLK_DEV_ID : Z := 2.
Definition VIRTIO_BLK_T_IN : Z := 0.
Definition VIRTIO_BLK_T_OUT : Z := 1.
Definition VIRTIO_BLK_T_FLUSH : Z := 4.
Definition VIRTIO_BLK_T_GET_ID : Z := 8.
Definition VIRTIO_BLK_S_OK : Z := 0.
Definition VIRTIO_BLK_S_IOERR : Z := 1.
Definition VIRTIO_BLK_S_UNSUPP : Z := 2.
Definition VIRTIO_BLK_F_RO : Z := Z.shiftl 1 5.
Definition DISK_BLK_SIZE : Z := 512.
Definition VBLK_FEATURES_0 : Z := 0.
Definition VBLK_FEATURES_1 : Z := 1.
Definition VBLK_QUEUE_NUM_MAX : Z := 1024.
Definition DEFAULT_DISK_SIZE : Z := 64 * 1024 * 1024.

(* @src include/device/virtio_blk.hpp 143-145 VirtioBlk *)
Definition BLK_BASE : Z := 0x10001000.
Definition BLK_SIZE : Z := 0x1000.
Definition BLK_ID : Z := 12.

(* @src include/device/virtio_blk.hpp 57-82 VirtioReg *)
Definition VIRTIO_MagicValue : Z := 0x000.
Definition VIRTIO_Version : Z := 0x004.
Definition VIRTIO_DeviceID : Z := 0x008.
Definition VIRTIO_VendorID : Z := 0x00c.
Definition VIRTIO_DeviceFeatures : Z := 0x010.
Definition VIRTIO_DeviceFeaturesSel : Z := 0x014.
Definition VIRTIO_DriverFeatures : Z := 0x020.
Definition VIRTIO_DriverFeaturesSel : Z := 0x024.
Definition VIRTIO_QueueSel : Z := 0x030.
Definition VIRTIO_QueueNumMax : Z := 0x034.
Definition VIRTIO_QueueNum : Z := 0x038.
Definition VIRTIO_QueueReady : Z := 0x044.
Definition VIRTIO_QueueNotify : Z := 0x050.
Definition VIRTIO_InterruptStatus : Z := 0x060.
Definition VIRTIO_InterruptACK : Z := 0x064.
Definition VIRTIO_Status : Z := 0x070.
Definition VIRTIO_QueueDescLow : Z := 0x080.
Definition VIRTIO_QueueDescHigh : Z := 0x084.
Definition VIRTIO_QueueDriverLow : Z := 0x090.
Definition VIRTIO_QueueDriverHigh : Z := 0x094.
Definition VIRTIO_QueueDeviceLow : Z := 0x0a0.
Definition VIRTIO_QueueDeviceHigh : Z := 0x0a4.
Definition VIRTIO_ConfigGeneration : Z := 0x0fc.
Definition VIRTIO_Config : Z := 0x100.

(* @src include/device/virtio_blk.hpp 86-91 VirtqDesc *)
Record VirtqDesc := mkDesc {
  vd_addr : Z;
  vd_len : Z;
  vd_flags : Z;
  vd_next : Z;
}.

(* The packed struct as its bytes; the offsets of the fields the code names. *)
(* @src include/device/virtio_blk.hpp 93-123 VirtioBlkConfig *)
Definition sizeof_config : Z := 68.
Definition capacity_at : Z := 0.
Definition blk_size_at : Z := 20.
Definition disk_size_at : Z := 60.

(* @src include/device/virtio_blk.hpp 133-140 VirtioBlkQueue *)
Record VirtioBlkQueue := mkQueue {
  queue_num : Z;
  queue_desc : Z;
  queue_avail : Z;
  queue_used : Z;
  last_avail : Z;
  q_ready : bool;
}.
Definition queue_init : VirtioBlkQueue := mkQueue 0 0 0 0 0 false.
Definition set_queue_num v (q : VirtioBlkQueue) := mkQueue v (queue_desc q) (queue_avail q) (queue_used q) (last_avail q) (q_ready q).
Definition set_queue_desc v (q : VirtioBlkQueue) := mkQueue (queue_num q) v (queue_avail q) (queue_used q) (last_avail q) (q_ready q).
Definition set_queue_avail v (q : VirtioBlkQueue) := mkQueue (queue_num q) (queue_desc q) v (queue_used q) (last_avail q) (q_ready q).
Definition set_queue_used v (q : VirtioBlkQueue) := mkQueue (queue_num q) (queue_desc q) (queue_avail q) v (last_avail q) (q_ready q).
Definition set_last_avail v (q : VirtioBlkQueue) := mkQueue (queue_num q) (queue_desc q) (queue_avail q) (queue_used q) v (q_ready q).
Definition set_q_ready v (q : VirtioBlkQueue) := mkQueue (queue_num q) (queue_desc q) (queue_avail q) (queue_used q) (last_avail q) v.

(* @src include/device/virtio_blk.hpp 177-189 VirtioBlk *)
Record VirtioBlk := mkBlk {
  device_features_ : Z;
  device_features_sel_ : Z;
  driver_features_ : Z;
  driver_features_sel_ : Z;
  queue_sel_ : Z;
  queues_ : list VirtioBlkQueue;
  blk_status_ : Z;
  interrupt_status_ : Z;
  disk_size_ : Z;
  config_ : bytevec;
}.
Definition set_device_features_sel v d := mkBlk (device_features_ d) v (driver_features_ d) (driver_features_sel_ d) (queue_sel_ d) (queues_ d) (blk_status_ d) (interrupt_status_ d) (disk_size_ d) (config_ d).
Definition set_driver_features v d := mkBlk (device_features_ d) (device_features_sel_ d) v (driver_features_sel_ d) (queue_sel_ d) (queues_ d) (blk_status_ d) (interrupt_status_ d) (disk_size_ d) (config_ d).
Definition set_driver_features_sel v d := mkBlk (device_features_ d) (device_features_sel_ d) (driver_features_ d) v (queue_sel_ d) (queues_ d) (blk_status_ d) (interrupt_status_ d) (disk_size_ d) (config_ d).
Definition set_queue_sel v d := mkBlk (device_features_ d) (device_features_sel_ d) (driver_features_ d) (driver_features_sel_ d) v (queues_ d) (blk_status_ d) (interrupt_status_ d) (disk_size_ d) (config_ d).
Definition set_queues v d := mkBlk (device_features_ d) (device_features_sel_ d) (driver_features_ d) (driver_features_sel_ d) (queue_sel_ d) v (blk_status_ d) (interrupt_status_ d) (disk_size_ d) (config_ d).
Definition set_blk_status v d := mkBlk (device_features_ d) (device_features_sel_ d) (driver_features_ d) (driver_features_sel_ d) (queue_sel_ d) (queues_ d) v (interrupt_status_ d) (disk_size_ d) (config_ d).
Definition set_interrupt_status v d := mkBlk (device_features_ d) (device_features_sel_ d) (driver_features_ d) (driver_features_sel_ d) (queue_sel_ d) (queues_ d) (blk_status_ d) v (disk_size_ d) (config_ d).
Definition set_config v d := mkBlk (device_features_ d) (device_features_sel_ d) (driver_features_ d) (driver_features_sel_ d) (queue_sel_ d) (queues_ d) (blk_status_ d) (interrupt_status_ d) (disk_size_ d) v.

Definition capacity (d : VirtioBlk) : Z := bv_load (config_ d) capacity_at 8.
Definition queue_at (i : Z) (d : VirtioBlk) : VirtioBlkQueue := nth (Z.to_nat i) (queues_ d) queue_init.
Definition upd_queue (i : Z) (f : VirtioBlkQueue -> VirtioBlkQueue) (d : VirtioBlk) : VirtioBlk :=
  set_queues (<[Z.to_nat i := f (queue_at i d)]> (queues_ d)) d.
Definition set_disk_size v d := mkBlk (device_features_ d) (device_features_sel_ d) (driver_features_ d) (driver_features_sel_ d) (queue_sel_ d) (queues_ d) (blk_status_ d) (interrupt_status_ d) v (config_ d).

(** What the host does with the path of the image: what [open_disk] learns from its file
    streams, in the order in which it uses them. *)
Record DiskPath := mkDiskPath {
  test_file : option (list Z);   (* the std::ifstream is good, and the bytes of the file *)
  create_file : bool;            (* the std::ofstream opens *)
  create_closed : bool;          (* it is good after seekp, put and close *)
  disk_opens : bool;             (* the std::fstream opens for input and output *)
  disk_tells : bool;             (* tellg at the end gives the size, not -1 *)
}.

(* A new image has DEFAULT_DISK_SIZE bytes; [None] is the result false. *)
(* @src src/device/virtio_blk.cpp 37-74 VirtioBlk::open_disk *)
Definition open_disk (path : DiskPath) (d : VirtioBlk) : option VirtioBlk :=
  let file_exists := match test_file path with Some _ => true | None => false end in
  if negb file_exists && negb (create_file path) then None
  else if negb file_exists && negb (create_closed path) then None
  else if negb (disk_opens path) then None
  else
    let length_ := match test_file path with
                   | Some bytes => Z.of_nat (length bytes)
                   | None => DEFAULT_DISK_SIZE
                   end in
    let file_size := if disk_tells path then length_ else -1 in
    if file_size <=? 0 then None
    else
      let d := set_disk_size file_size d in
      let d := set_config (bv_store disk_size_at 8 (disk_size_ d) (config_ d)) d in
      Some (set_config (bv_store capacity_at 8 ((disk_size_ d - 1) / DISK_BLK_SIZE + 1) (config_ d)) d).

(* [None] is the std::runtime_error. *)
(* @src src/device/virtio_blk.cpp 23-33 VirtioBlk::VirtioBlk *)
Definition VirtioBlk_init (path : DiskPath) : option VirtioBlk :=
  open_disk path (mkBlk 0 0 0 0 0 [queue_init; queue_init] 0 0 0
    (bv_store blk_size_at 4 DISK_BLK_SIZE (bv_new sizeof_config 0))).

Section VirtioBlk.
Context {W : Type} `{IrqPort W} `{DramPort W} `{DiskPort W}.
Variable interrupt_id : Z.
Abbreviation blk := (M (VirtioBlk * W) blk_exn).

Definition upd (f : VirtioBlk -> VirtioBlk) : blk unit := modify (fun s => (f (fst s), snd s)).
Definition get {A} (f : VirtioBlk -> A) : blk A := gets (fun s => f (fst s)).
Definition world {A} (f : W -> A * W) : blk A :=
  state (fun s => let '(a, w) := f (snd s) in (a, (fst s, w))).
Definition blk_update_irq (lvl : bool) : blk unit := world (fun w => (tt, irq_callback interrupt_id lvl w)).

(** DRAM: the test, the unchecked accesses, and the checked copies that throw. *)
Definition dram_valid (addr len : Z) : blk bool := gets (fun s => is_valid_addr (w_dram (snd s)) addr len).
Definition dram_read (n : nat) (addr : Z) : blk Z :=
  let! ok := dram_valid addr (Z.of_nat n) in
  if ok then gets (fun s => Dram.read n addr (w_dram (snd s))) else throw BOutside.
Definition dram_write (outside : blk_exn) (n : nat) (addr value : Z) : blk unit :=
  let! ok := dram_valid addr (Z.of_nat n) in
  if ok then modify (fun s => (fst s, w_set_dram (Dram.write n addr value (w_dram (snd s))) (snd s)))
  else throw outside.
Definition dram_write_bytes (addr : Z) (bytes : list Z) : blk unit :=
  let! d := gets (fun s => write_bytes addr bytes (w_dram (snd s))) in
  match d with
  | Some d => modify (fun s => (fst s, w_set_dram d (snd s)))
  | None => throw BTerminate
  end.
Definition dram_read_bytes (addr len : Z) : blk (list Z) :=
  let! bs := gets (fun s => read_bytes addr (Z.to_nat len) (w_dram (snd s))) in
  match bs with Some bs => ret bs | None => throw BTerminate end.

(* @src src/device/virtio_blk.cpp 83-92 VirtioBlk::set_fail *)
Definition set_fail : blk unit :=
  upd (fun d => set_blk_status (Z.lor (blk_status_ d) VIRTIO_STATUS_DEVICE_NEEDS_RESET) d) ;;;
  let! status := get blk_status_ in
  when (nz (Z.land status VIRTIO_STATUS_DRIVER_OK))
    (upd (fun d => set_interrupt_status (Z.lor (interrupt_status_ d) VIRTIO_INT_CONF_CHANGE) d) ;;;
     blk_update_irq true).

(* The reset keeps the features and the capacity, not the interrupt line. *)
(* @src src/device/virtio_blk.cpp 97-116 VirtioBlk::update_status *)
Definition blk_reset (d : VirtioBlk) : VirtioBlk :=
  mkBlk (device_features_ d) 0 0 0 0 [queue_init; queue_init] 0 0 (disk_size_ d)
    (bv_store blk_size_at 4 DISK_BLK_SIZE
       (bv_store capacity_at 8 (capacity d) (bv_memset 0 (Z.to_nat sizeof_config) 0 (config_ d)))).

(* @src src/device/virtio_blk.cpp 94-117 VirtioBlk::update_status *)
Definition update_status (status : Z) : blk unit :=
  upd (fun d => set_blk_status (Z.lor (blk_status_ d) status) d) ;;;
  when (status =? 0) (upd blk_reset).

(* @src src/device/virtio_blk.cpp 119-137 VirtioBlk::read_handler *)
Definition read_handler (sector desc_addr len : Z) : blk bool :=
  let offset := u64 (sector * DISK_BLK_SIZE) in
  let! size := get disk_size_ in
  if (size <=? offset) || (size <? u64 (offset + len)) then ret false
  else
    let! buffer := world (disk_read offset len) in
    match buffer with
    | None => ret false
    | Some buffer => dram_write_bytes desc_addr buffer ;;; ret true
    end.

(* @src src/device/virtio_blk.cpp 139-155 VirtioBlk::write_handler *)
Definition write_handler (sector desc_addr len : Z) : blk bool :=
  let offset := u64 (sector * DISK_BLK_SIZE) in
  let! size := get disk_size_ in
  if (size <=? offset) || (size <? u64 (offset + len)) then ret false
  else
    let! buffer := dram_read_bytes desc_addr len in
    world (disk_write offset buffer).

(* The packed struct at an address that was tested; [None] after set_fail. *)
(* @src src/device/virtio_blk.cpp 164-172 VirtioBlk::desc_handler *)
Definition read_desc (q : VirtioBlkQueue) (desc_idx : Z) : blk (option VirtqDesc) :=
  let desc_addr := u64 (queue_desc q + desc_idx * 16) in
  let! ok := dram_valid desc_addr 16 in
  if negb ok then set_fail ;;; ret None
  else
    let! a := dram_read 8 desc_addr in
    let! l := dram_read 4 (u64 (desc_addr + 8)) in
    let! f := dram_read 2 (u64 (desc_addr + 12)) in
    let! n := dram_read 2 (u64 (desc_addr + 14)) in
    ret (Some (mkDesc a l f n)).

(* @src src/device/virtio_blk.cpp 159-173 VirtioBlk::desc_handler *)
Fixpoint read_chain (n : nat) (q : VirtioBlkQueue) (desc_idx : Z) : blk (option (list VirtqDesc)) :=
  match n with
  | O => ret (Some [])
  | S n =>
      let! i := read_desc q desc_idx in
      match i with
      | None => ret None
      | Some i =>
          let! rest := read_chain n q (vd_next i) in
          ret (match rest with Some rest => Some (i :: rest) | None => None end)
      end
  end.

Definition has_flag (f : Z) (i : VirtqDesc) : bool := nz (Z.land (vd_flags i) f).

(* The tests on the flags of the three descriptors. *)
(* @src src/device/virtio_blk.cpp 175-190 VirtioBlk::desc_handler *)
Definition bad_flags (d0 d1 d2 : VirtqDesc) : bool :=
  negb (has_flag VIRTIO_DESC_F_NEXT d0) || negb (has_flag VIRTIO_DESC_F_NEXT d1)
  || has_flag VIRTIO_DESC_F_NEXT d2
  || has_flag VIRTIO_DESC_F_WRITE d0 || negb (has_flag VIRTIO_DESC_F_WRITE d2).

Definition SERIAL0001 : list Z := [0x53; 0x45; 0x52; 0x49; 0x41; 0x4c; 0x30; 0x30; 0x30; 0x31].

(* The status of a request; [None] after set_fail. *)
(* @src src/device/virtio_blk.cpp 201-241 VirtioBlk::desc_handler *)
Definition blk_request (type sector : Z) (d1 : VirtqDesc) : blk (option Z) :=
  let! cap := get capacity in
  let beyond := u64 (cap - 1) <? sector in
  let status (ok : bool) : blk (option Z) :=
    ret (Some (if ok then VIRTIO_BLK_S_OK else VIRTIO_BLK_S_IOERR)) in
  if type =? VIRTIO_BLK_T_IN then
    if has_flag VIRTIO_DESC_F_WRITE d1 then
      if beyond then status false
      else let! ok := read_handler sector (vd_addr d1) (vd_len d1) in status ok
    else set_fail ;;; ret None
  else if type =? VIRTIO_BLK_T_OUT then
    if negb (has_flag VIRTIO_DESC_F_WRITE d1) then
      let! ro := get (fun d => nz (Z.land (device_features_ d) VIRTIO_BLK_F_RO)) in
      if ro || beyond then status false
      else let! ok := write_handler sector (vd_addr d1) (vd_len d1) in status ok
    else set_fail ;;; ret None
  else if type =? VIRTIO_BLK_T_FLUSH then
    world (fun w => (tt, disk_flush w)) ;;; status true
  else if type =? VIRTIO_BLK_T_GET_ID then
    if negb (has_flag VIRTIO_DESC_F_WRITE d1) then set_fail ;;; ret None
    else
      let write_len := if vd_len d1 <? 10 then vd_len d1 else 10 in
      dram_write_bytes (vd_addr d1) (take (Z.to_nat write_len) SERIAL0001) ;;; status true
  else ret (Some VIRTIO_BLK_S_UNSUPP).

(* The length for the used ring; [None] is the result -1. *)
(* @src src/device/virtio_blk.cpp 157-248 VirtioBlk::desc_handler *)
Definition desc_handler (q : VirtioBlkQueue) (desc_idx : Z) : blk (option Z) :=
  let! chain := read_chain 3 q desc_idx in
  match chain with
  | Some [d0; d1; d2] =>
      if bad_flags d0 d1 d2 then set_fail ;;; ret None
      else
        let! ok := dram_valid (vd_addr d0) 16 in
        if negb ok then set_fail ;;; ret None
        else
          let! type := dram_read 4 (vd_addr d0) in
          let! sector := dram_read 8 (u64 (vd_addr d0 + 8)) in
          let! r := blk_request type sector d1 in
          match r with
          | None => ret None
          | Some status =>
              dram_write BStatusByte 1 (vd_addr d2) status ;;;
              ret (Some (if status =? VIRTIO_BLK_S_OK then vd_len d1 else 0))
          end
  | _ => ret None
  end.

(* One turn of the loop, for the element of the available ring at last_avail. *)
(* @src src/device/virtio_blk.cpp 302-329 VirtioBlk::queue_notify_handler *)
Definition handle_one (index new_used_idx : Z) : blk bool :=
  let! q := get (queue_at index) in
  if queue_num q =? 0 then throw BDivide
  else
    let queue_idx := u16 (last_avail q mod queue_num q) in
    let avail_elem_addr := u64 (queue_avail q + 4 + queue_idx * 2) in
    let! ok := dram_valid avail_elem_addr 2 in
    if negb ok then set_fail ;;; ret false
    else
      let! head_desc_idx := dram_read 2 avail_elem_addr in
      let! r := desc_handler q head_desc_idx in
      match r with
      | None => set_fail ;;; ret false
      | Some len =>
          let used_elem_addr := u64 (queue_used q + 4 + u32 (new_used_idx mod queue_num q * 8)) in
          let! ok := dram_valid used_elem_addr 8 in
          if negb ok then set_fail ;;; ret false
          else
            dram_write BOutside 4 used_elem_addr head_desc_idx ;;;
            dram_write BOutside 4 (u64 (used_elem_addr + 4)) len ;;;
            upd (upd_queue index (fun q => set_last_avail (u16 (last_avail q + 1)) q)) ;;;
            ret true
      end.

(* The while loop; the used index, or [None] after a return. *)
(* @src src/device/virtio_blk.cpp 301-331 VirtioBlk::queue_notify_handler *)
Fixpoint handle_all (fuel : nat) (index new_avail_idx new_used_idx : Z) : blk (option Z) :=
  match fuel with
  | O => throw BFuel
  | S fuel =>
      let! last := get (fun d => last_avail (queue_at index d)) in
      if last =? new_avail_idx then ret (Some new_used_idx)
      else
        let! ok := handle_one index new_used_idx in
        if ok then handle_all fuel index new_avail_idx (u16 (new_used_idx + 1)) else ret None
  end.
Definition notify_fuel : nat := Z.to_nat (2 ^ 16).

(* @src src/device/virtio_blk.cpp 333-340 VirtioBlk::queue_notify_handler *)
Definition publish_used (q : VirtioBlkQueue) (new_used_idx : Z) : blk unit :=
  dram_write BOutside 2 (u64 (queue_used q + 2)) new_used_idx ;;;
  let! avail_flags := dram_read 2 (queue_avail q) in
  when (negb (nz (Z.land avail_flags 1)))
    (upd (fun d => set_interrupt_status (Z.lor (interrupt_status_ d) VIRTIO_INT_USED_RING) d) ;;;
     blk_update_irq true).

(* The difference of the two indices is an int: negative when the index wrapped. *)
(* @src src/device/virtio_blk.cpp 271-340 VirtioBlk::queue_notify_handler *)
Definition queue_handler (index : Z) : blk unit :=
  let! q := get (queue_at index) in
  let! ok := dram_valid (queue_avail q) 4 in
  if negb ok then set_fail
  else
    let! new_avail_idx := dram_read 2 (u64 (queue_avail q + 2)) in
    if u16 (queue_num q) <? new_avail_idx - last_avail q then set_fail
    else if last_avail q =? new_avail_idx then ret tt
    else
      let! ok := dram_valid (queue_used q) 4 in
      if negb ok then set_fail
      else
        let! new_used_idx := dram_read 2 (u64 (queue_used q + 2)) in
        let! r := handle_all notify_fuel index new_avail_idx new_used_idx in
        match r with None => ret tt | Some used => publish_used q used end.

(* @src src/device/virtio_blk.cpp 250-341 VirtioBlk::queue_notify_handler *)
Definition queue_notify_handler (index : Z) : blk unit :=
  let! n := get (fun d => Z.of_nat (length (queues_ d))) in
  if n <=? index then set_fail
  else
    let! status := get blk_status_ in
    if nz (Z.land status VIRTIO_STATUS_DEVICE_NEEDS_RESET) then ret tt
    else
      let! r := get (fun d => q_ready (queue_at index d)) in
      if negb (nz (Z.land status VIRTIO_STATUS_DRIVER_OK) && r) then set_fail
      else queue_handler index.

(** ** Registers *)

(* @src src/device/virtio_blk.cpp 358-394 VirtioBlk::read_internal *)
Definition blk_read_4 (size offset : Z) (d : VirtioBlk) : option Z :=
  if (offset <? VIRTIO_Config) && negb (size =? 4) then None
  else if offset =? VIRTIO_MagicValue then Some VIRTIO_MAGIC_NUMBER
  else if offset =? VIRTIO_Version then Some VIRTIO_VERSION
  else if offset =? VIRTIO_DeviceID then Some VIRTIO_BLK_DEV_ID
  else if offset =? VIRTIO_VendorID then Some VIRTIO_VENDOR_ID
  else if offset =? VIRTIO_DeviceFeatures then
    if device_features_sel_ d =? 0 then Some (Z.lor VBLK_FEATURES_0 (device_features_ d))
    else if device_features_sel_ d =? 1 then Some VBLK_FEATURES_1
    else Some 0
  else if offset =? VIRTIO_QueueNumMax then Some VBLK_QUEUE_NUM_MAX
  else if offset =? VIRTIO_QueueReady then Some (b2z (q_ready (queue_at (queue_sel_ d) d)))
  else if offset =? VIRTIO_InterruptStatus then Some (interrupt_status_ d)
  else if offset =? VIRTIO_Status then Some (blk_status_ d)
  else if offset =? VIRTIO_ConfigGeneration then Some VIRTIO_CONFIG_GENERATE
  else if VIRTIO_Config <=? offset then
    let config_offset := u32 (offset - VIRTIO_Config) in
    if config_offset + size <=? sizeof_config
    then Some (bv_load (config_ d) config_offset (Z.to_nat size))
    else Some 0
  else Some 0.

(* @src src/device/virtio_blk.cpp 343-395 VirtioBlk::read_internal *)
Definition blk_read_internal (offset size : Z) (d : VirtioBlk) : option Z :=
  if size =? 8 then
    match blk_read_4 4 offset d with
    | None => None
    | Some lo =>
        match blk_read_4 4 (u64 (offset + 4)) d with
        | None => None
        | Some hi => Some (Z.lor lo (u64 (Z.shiftl hi 32)))
        end
    end
  else blk_read_4 size offset d.

Definition low_half (old val : Z) : Z := Z.lor (Z.land old 0xFFFFFFFF00000000) val.
Definition high_half (old val : Z) : Z := Z.lor (Z.land old 0x00000000FFFFFFFF) (Z.shiftl val 32).
(** The selected queue. *)
Definition upd_selected (f : VirtioBlkQueue -> VirtioBlkQueue) : blk unit :=
  upd (fun d => upd_queue (queue_sel_ d) f d).

(* @src src/device/virtio_blk.cpp 426-434 VirtioBlk::write_internal *)
Definition write_ready (val : Z) : blk unit :=
  upd_selected (set_q_ready (nz (Z.land val 1))) ;;;
  when (nz (Z.land val 1))
    (let! a := get (fun d => u64 (queue_avail (queue_at (queue_sel_ d) d) + 2)) in
     let! ok := dram_valid a 2 in
     when ok (let! v := dram_read 2 a in upd_selected (set_last_avail v))).

(* @src src/device/virtio_blk.cpp 463-467 VirtioBlk::write_internal *)
Definition interrupt_ack (val : Z) : blk unit :=
  upd (fun d => set_interrupt_status (Z.land (interrupt_status_ d) (u32 (Z.lnot val))) d) ;;;
  let! s := get interrupt_status_ in
  when (s =? 0) (blk_update_irq false).

(* @src src/device/virtio_blk.cpp 469-479 VirtioBlk::write_internal *)
Definition write_config (offset size val : Z) : blk unit :=
  when (VIRTIO_Config <=? offset)
    (let config_offset := u32 (offset - VIRTIO_Config) in
     when (config_offset + size <=? sizeof_config)
       (upd (fun d => set_config (bv_store config_offset (Z.to_nat size) val (config_ d)) d))).

(* @src src/device/virtio_blk.cpp 402-482 VirtioBlk::write_internal *)
Definition blk_write_4 (size offset value : Z) : blk bool :=
  if (offset <? VIRTIO_Config) && negb (size =? 4) then ret false
  else
    let val := u32 value in
    (if offset =? VIRTIO_DeviceFeaturesSel then upd (set_device_features_sel val)
     else if offset =? VIRTIO_DriverFeatures then
       let! sel := get driver_features_sel_ in
       when (sel =? 0) (upd (set_driver_features val))
     else if offset =? VIRTIO_DriverFeaturesSel then upd (set_driver_features_sel val)
     else if offset =? VIRTIO_QueueSel then
       let! n := get (fun d => Z.of_nat (length (queues_ d))) in
       if val <? n then upd (set_queue_sel val) else set_fail
     else if offset =? VIRTIO_QueueNum then
       if (0 <? val) && (val <=? VBLK_QUEUE_NUM_MAX)
       then upd_selected (set_queue_num val) else set_fail
     else if offset =? VIRTIO_QueueReady then write_ready val
     else if offset =? VIRTIO_QueueDescLow
     then upd_selected (fun q => set_queue_desc (low_half (queue_desc q) val) q)
     else if offset =? VIRTIO_QueueDescHigh
     then upd_selected (fun q => set_queue_desc (high_half (queue_desc q) val) q)
     else if offset =? VIRTIO_QueueDriverLow
     then upd_selected (fun q => set_queue_avail (low_half (queue_avail q) val) q)
     else if offset =? VIRTIO_QueueDriverHigh
     then upd_selected (fun q => set_queue_avail (high_half (queue_avail q) val) q)
     else if offset =? VIRTIO_QueueDeviceLow
     then upd_selected (fun q => set_queue_used (low_half (queue_used q) val) q)
     else if offset =? VIRTIO_QueueDeviceHigh
     then upd_selected (fun q => set_queue_used (high_half (queue_used q) val) q)
     else if offset =? VIRTIO_QueueNotify then queue_notify_handler val
     else if offset =? VIRTIO_InterruptACK then interrupt_ack val
     else if offset =? VIRTIO_Status then update_status val
     else write_config offset size val) ;;;
    ret true.

(* @src src/device/virtio_blk.cpp 397-483 VirtioBlk::write_internal *)
Definition blk_write_internal (offset size value : Z) : blk bool :=
  if size =? 8 then
    let! ok := blk_write_4 4 offset (Z.land value 0xFFFFFFFF) in
    if ok then blk_write_4 4 (u64 (offset + 4)) (Z.shiftr value 32) else ret false
  else blk_write_4 size offset value.
End VirtioBlk.
