(* ===== verification/VirtioBlkSpec.v ===== *)
(** * What the block device guarantees

    Which ways a register access can end, that the loop over the available ring ends,
    what a completed request leaves in DRAM and on the disk, and the requests that
    bring the emulator down. *)

From stdpp Require Import gmap.
From S2P Require Import Prelude Bits Ports ByteVec VirtioBlk.

(** ** Triples

    From a state satisfying [P], [c] returns with [Q] of the value and the state, or
    throws an exception satisfying [X]. *)
Section Triples.
Context {S E : Type} (X : E -> Prop).

Definition triple (P : S -> Prop) {A} (c : M S E A) (Q : A -> S -> Prop) : Prop :=
  forall s, P s -> match c s with (Ok a, s') => Q a s' | (Throw e, _) => X e end.

Lemma triple_ret P {A} (a : A) (Q : A -> S -> Prop) : (forall s, P s -> Q a s) -> triple P (ret a) Q.
Proof. intros H s Hs. by apply H. Qed.

Lemma triple_throw (P : S -> Prop) {A} e (Q : A -> S -> Prop) :
  (forall s, P s -> X e) -> triple P (throw e) Q.
Proof. intros H s Hs. by apply (H s). Qed.

Lemma triple_bind P {A B} (c : M S E A) (k : A -> M S E B) R Q :
  triple P c R -> (forall a, triple (R a) (k a) Q) -> triple P (bind c k) Q.
Proof.
  intros Hc Hk s Hs. unfold bind. specialize (Hc s Hs). destruct (c s) as [[a|e] s']; [|done].
  by apply Hk.
Qed.

Lemma triple_weaken P P' {A} (c : M S E A) (Q Q' : A -> S -> Prop) :
  triple P c Q -> (forall s, P' s -> P s) -> (forall a s, Q a s -> Q' a s) -> triple P' c Q'.
Proof.
  intros H HP HQ s Hs. specialize (H s (HP s Hs)). destruct (c s) as [[a|e] s']; auto.
Qed.

Lemma triple_gets P {A} (f : S -> A) : triple P (gets f) (fun a s => P s /\ a = f s).
Proof. by intros s Hs. Qed.

Lemma triple_modify P f (Q : unit -> S -> Prop) : (forall s, P s -> Q tt (f s)) -> triple P (modify f) Q.
Proof. intros H s Hs. by apply H. Qed.

Lemma triple_when P b c : (b = true -> triple P c (fun _ => P)) -> triple P (when b c) (fun _ => P).
Proof. intros H. destruct b; [by apply H|]. by apply triple_ret. Qed.

(** A fact of the precondition that does not depend on the state. *)
Lemma triple_pure (F : Prop) P {A} (c : M S E A) Q :
  (F -> triple P c Q) -> triple (fun s => P s /\ F) c Q.
Proof. intros H s [Hs HF]. by apply (H HF). Qed.

Lemma triple_forget P (F : S -> Prop) {A} (c : M S E A) Q : triple P c Q -> triple (fun s => P s /\ F s) c Q.
Proof. intros H s [Hs _]. by apply H. Qed.

Lemma triple_if P (b : bool) {A} (c c' : M S E A) Q :
  (b = true -> triple P c Q) -> (b = false -> triple P c' Q) -> triple P (if b then c else c') Q.
Proof. intros H1 H2. destruct b; auto. Qed.
End Triples.

(** ** The DRAM range test *)

Definition in_dram (size addr len : Z) : bool := (DRAM_BASE <=? addr) && (addr + len <=? DRAM_BASE + size).

Lemma valid_in_dram d addr len : dram_wf d -> fits 64 addr -> 0 <= len < 2 ^ 64 ->
  is_valid_addr d addr len = in_dram (size_ d) addr len.
Proof.
  intros Hd Ha Hl. apply Bool.eq_true_iff_eq. rewrite valid_addr_range by done.
  unfold in_dram. by rewrite andb_true_iff, !Z.leb_le.
Qed.

(** A part of a range of DRAM. *)
Lemma in_dram_part size addr len k n : 0 <= size <= 2 ^ 64 - DRAM_BASE ->
  in_dram size addr len = true -> 0 <= k -> 0 < n -> k + n <= len ->
  in_dram size (u64 (addr + k)) n = true.
Proof.
  unfold in_dram, DRAM_BASE. intros Hs H Hk Hn Hl. bool_hyps. rewrite uwrap_id by (unfold fits; lia).
  apply andb_true_iff. rewrite !Z.leb_le. lia.
Qed.

(** ** Laws of the ports *)

Class DramPortLaws (W : Type) `{IrqPort W} `{DramPort W} `{DiskPort W} := {
  w_dram_set : forall d w, w_dram (w_set_dram d w) = d;
  irq_dram : forall id lvl w, w_dram (irq_callback id lvl w) = w_dram w;
  disk_read_dram : forall off len w, w_dram (snd (disk_read off len w)) = w_dram w;
  disk_write_dram : forall off bs w, w_dram (snd (disk_write off bs w)) = w_dram w;
  disk_flush_dram : forall w, w_dram (disk_flush w) = w_dram w;
}.

Definition queue_ok (q : VirtioBlkQueue) : Prop :=
  0 <= queue_num q <= 1024 /\ fits 64 (queue_desc q) /\ fits 64 (queue_avail q) /\
  fits 64 (queue_used q) /\ fits 16 (last_avail q).

Record regs_ok (d : VirtioBlk) : Prop := {
  ro_queues : length (queues_ d) = 2%nat;
  ro_queue : Forall queue_ok (queues_ d);
  ro_sel : 0 <= queue_sel_ d < 2;
}.

Section Safe.
Context {W : Type} `{DramPortLaws W}.
Variable id : Z.
Variable size : Z.
(** The exceptions allowed for a queue of size zero. *)
Variable no_queue : Prop.
Abbreviation st := (VirtioBlk * W)%type.
Abbreviation blk := (M st blk_exn).

Record blk_inv (s : st) : Prop := {
  bi_regs : regs_ok (fst s);
  bi_dram : dram_wf (w_dram (snd s));
  bi_size : size_ (w_dram (snd s)) = size;
}.

(** The invariant with the queues fixed. *)
Definition with_queues (qs : list VirtioBlkQueue) (s : st) : Prop := blk_inv s /\ queues_ (fst s) = qs.

Definition allowed (e : blk_exn) : Prop :=
  e = BTerminate \/ e = BStatusByte \/ (e = BDivide /\ no_queue).

Lemma inv_size s : blk_inv s -> 0 <= size <= 2 ^ 64 - DRAM_BASE.
Proof. intros [_ [_ Hd] Hs]. by rewrite Hs in Hd. Qed.

(** A change of the registers that keeps the queues. *)
Lemma upd_keeps qs f : (forall d, queues_ (f d) = queues_ d) -> (forall d, queue_sel_ (f d) = queue_sel_ d) ->
  triple allowed (with_queues qs) (upd f) (fun _ => with_queues qs).
Proof.
  intros Hq Hs. apply triple_modify. intros [d w] [[[Hl Hf Hc] Hd Hz] Eq]. cbn [fst snd] in *.
  split; [|by cbn; rewrite Hq]. split; [|done|done].
  split; cbn [fst]; rewrite ?Hq, ?Hs; done.
Qed.

Lemma world_keeps qs {A} (f : W -> A * W) : (forall w, w_dram (snd (f w)) = w_dram w) ->
  triple allowed (with_queues qs) (world f) (fun _ => with_queues qs).
Proof.
  intros Hf [d w] [[Hr Hd Hz] Eq]. unfold world, state. cbn [fst snd] in *. specialize (Hf w).
  destruct (f w) as [a w']. cbn [fst snd] in *. rewrite <- Hf in Hd, Hz. by split.
Qed.

Lemma irq_keeps qs lvl : triple allowed (with_queues qs) (blk_update_irq id lvl) (fun _ => with_queues qs).
Proof. apply world_keeps. intros w. cbn [snd]. apply irq_dram. Qed.

Lemma set_fail_keeps qs : triple allowed (with_queues qs) (set_fail id) (fun _ => with_queues qs).
Proof.
  unfold set_fail. eapply triple_bind; [by apply upd_keeps|]. intros [].
  eapply triple_bind; [apply triple_gets|]. intros status. apply triple_forget.
  apply triple_when. intros _. eapply triple_bind; [by apply upd_keeps|]. intros []. apply irq_keeps.
Qed.

(** set_fail before a result. *)
Lemma fail_then qs {A} (a : A) (Q : A -> st -> Prop) : (forall s, with_queues qs s -> Q a s) ->
  triple allowed (with_queues qs) (set_fail id ;;; ret a) Q.
Proof. intros HQ. eapply triple_bind; [apply set_fail_keeps|]. intros []. by apply triple_ret. Qed.

(** ** DRAM accesses *)

Lemma dram_valid_spec qs addr len : fits 64 addr -> 0 <= len < 2 ^ 64 ->
  triple allowed (with_queues qs) (dram_valid addr len)
    (fun b s => with_queues qs s /\ b = in_dram size addr len).
Proof.
  intros Ha Hl s Hs. split; [done|]. destruct Hs as [[_ Hd Hz] _]. rewrite <- Hz. by apply valid_in_dram.
Qed.

Lemma dram_read_spec qs n addr : fits 64 addr -> (0 < n <= 8)%nat -> in_dram size addr (Z.of_nat n) = true ->
  triple allowed (with_queues qs) (dram_read n addr)
    (fun v s => with_queues qs s /\ fits (8 * Z.of_nat n) v).
Proof.
  intros Ha Hn Hin. unfold dram_read. eapply triple_bind; [apply dram_valid_spec; [done|lia]|].
  intros b. apply triple_pure. rewrite Hin. intros ->. intros s Hs. split; [done|].
  apply read_fits, (bi_dram s), Hs.
Qed.

Lemma dram_set qs (f : Dram -> Dram) : (forall d, dram_wf d -> dram_wf (f d)) ->
  (forall d, size_ (f d) = size_ d) ->
  triple allowed (with_queues qs) (modify (fun s => (fst s, w_set_dram (f (w_dram (snd s))) (snd s))))
    (fun _ => with_queues qs).
Proof.
  intros Hw Hs. apply triple_modify. intros [d w] [[Hr Hd Hz] Eq]. cbn [fst snd] in *.
  split; [|done]. split; cbn [fst snd]; rewrite ?w_dram_set, ?Hs; auto.
Qed.

Lemma dram_write_spec qs e n addr v : fits 64 addr -> (n <= 8)%nat ->
  (in_dram size addr (Z.of_nat n) = false -> allowed e) ->
  triple allowed (with_queues qs) (dram_write e n addr v) (fun _ => with_queues qs).
Proof.
  intros Ha Hn He. unfold dram_write. eapply triple_bind; [apply dram_valid_spec; [done|lia]|].
  intros b. apply triple_pure. intros ->. apply triple_if; intros E.
  - apply dram_set; [intros; by apply write_wf|intros; by apply store_le_size].
  - apply triple_throw. auto.
Qed.

Lemma dram_write_bytes_spec qs addr bytes :
  triple allowed (with_queues qs) (dram_write_bytes addr bytes) (fun _ => with_queues qs).
Proof.
  intros [d w] [[Hr Hd Hz] Eq]. cbn [fst snd] in *. unfold dram_write_bytes, bind, gets. cbn [fst snd].
  destruct (write_bytes addr bytes (w_dram w)) as [d'|] eqn:E; [|by left].
  cbn. split; [|done]. split; cbn [fst snd]; rewrite ?w_dram_set; [done| |].
  - by apply (write_bytes_wf addr bytes (w_dram w)).
  - unfold write_bytes in E. destruct (is_valid_addr _ _ _); [|done]. injection E as <-.
    rewrite <- Hz. apply copy_size.
Qed.

Lemma dram_read_bytes_spec qs addr len :
  triple allowed (with_queues qs) (dram_read_bytes addr len) (fun _ => with_queues qs).
Proof.
  intros s Hs. unfold dram_read_bytes, bind, gets. by destruct (read_bytes _ _ _); [|left].
Qed.

(** ** Requests *)

Abbreviation keeps qs c := (triple allowed (with_queues qs) c (fun _ => with_queues qs)).

Lemma get_keeps qs {A} (f : VirtioBlk -> A) : keeps qs (get (W := W) f).
Proof. by intros s Hs. Qed.

Lemma bind_keeps qs {A B} (c : blk A) (k : A -> blk B) Q :
  keeps qs c -> (forall a, triple allowed (with_queues qs) (k a) Q) ->
  triple allowed (with_queues qs) (bind c k) Q.
Proof. intros Hc Hk. eapply triple_bind; [exact Hc|]. exact Hk. Qed.

Lemma ret_keeps qs {A} (a : A) : keeps qs (ret a).
Proof. by apply triple_ret. Qed.

Lemma read_handler_keeps qs sector addr len : keeps qs (read_handler sector addr len).
Proof.
  unfold read_handler. apply bind_keeps; [apply get_keeps|]. intros n.
  apply triple_if; intros _; [apply ret_keeps|].
  apply bind_keeps; [apply world_keeps; intros w; apply disk_read_dram|]. intros [buffer|]; [|apply ret_keeps].
  apply bind_keeps; [apply dram_write_bytes_spec|]. intros []. apply ret_keeps.
Qed.

Lemma write_handler_keeps qs sector addr len : keeps qs (write_handler sector addr len).
Proof.
  unfold write_handler. apply bind_keeps; [apply get_keeps|]. intros n.
  apply triple_if; intros _; [apply ret_keeps|].
  apply bind_keeps; [apply dram_read_bytes_spec|]. intros buffer.
  apply world_keeps. intros w. apply disk_write_dram.
Qed.

Lemma blk_request_keeps qs type sector d1 : keeps qs (blk_request id type sector d1).
Proof.
  unfold blk_request. apply bind_keeps; [apply get_keeps|]. intros cap.
  assert (keeps qs (set_fail id ;;; ret (A := option Z) None)) as Hf by by apply fail_then.
  apply triple_if; intros _.
  { apply triple_if; intros _; [|exact Hf]. apply triple_if; intros _; [apply ret_keeps|].
    apply bind_keeps; [apply read_handler_keeps|]. intros ok. apply ret_keeps. }
  apply triple_if; intros _.
  { apply triple_if; intros _; [|exact Hf]. apply bind_keeps; [apply get_keeps|]. intros ro.
    apply triple_if; intros _; [apply ret_keeps|].
    apply bind_keeps; [apply write_handler_keeps|]. intros ok. apply ret_keeps. }
  apply triple_if; intros _.
  { apply bind_keeps; [apply world_keeps; intros w; apply disk_flush_dram|]. intros []. apply ret_keeps. }
  apply triple_if; intros _; [|apply ret_keeps].
  apply triple_if; intros _; [exact Hf|].
  apply bind_keeps; [apply dram_write_bytes_spec|]. intros []. apply ret_keeps.
Qed.

(** A descriptor read from DRAM. *)
Definition desc_ok (i : VirtqDesc) : Prop :=
  fits 64 (vd_addr i) /\ fits 32 (vd_len i) /\ fits 16 (vd_flags i) /\ fits 16 (vd_next i).

Lemma part_fits addr k : fits 64 (u64 (addr + k)).
Proof. apply uwrap_fits. lia. Qed.

(** A read inside a range that was tested. *)
Lemma read_part qs addr len k n : fits 64 addr -> in_dram size addr len = true ->
  0 <= k -> (0 < n <= 8)%nat -> k + Z.of_nat n <= len ->
  triple allowed (with_queues qs) (dram_read n (u64 (addr + k)))
    (fun v s => with_queues qs s /\ fits (8 * Z.of_nat n) v).
Proof.
  intros Ha Hin Hk Hn Hl s Hs. apply dram_read_spec; [apply part_fits|done| |done].
  apply (in_dram_part size addr len); [by apply (inv_size s), Hs|done|done|lia|lia].
Qed.

Lemma u64_0 addr : fits 64 addr -> u64 (addr + 0) = addr.
Proof. rewrite Z.add_0_r. apply uwrap_id. Qed.

Lemma read_desc_keeps qs q i :
  triple allowed (with_queues qs) (read_desc id q i)
    (fun r s => with_queues qs s /\ match r with Some d => desc_ok d | None => True end).
Proof.
  unfold read_desc. set (a := u64 _). assert (fits 64 a) as Ha by apply part_fits.
  eapply triple_bind; [apply dram_valid_spec; [done|lia]|]. intros b. apply triple_pure. intros ->.
  apply triple_if; intros E; [by apply fail_then|]. apply negb_false_iff in E.
  rewrite <- (u64_0 a Ha) at 1.
  eapply triple_bind; [apply (read_part qs a 16); done || lia|]. intros x. apply triple_pure. intros H8.
  eapply triple_bind; [apply (read_part qs a 16); done || lia|]. intros l. apply triple_pure. intros H4.
  eapply triple_bind; [apply (read_part qs a 16); done || lia|]. intros f. apply triple_pure. intros H2'.
  eapply triple_bind; [apply (read_part qs a 16); done || lia|]. intros n. apply triple_pure. intros H2''.
  by apply triple_ret.
Qed.

Lemma read_chain_keeps n q : forall qs i,
  triple allowed (with_queues qs) (read_chain id n q i)
    (fun r s => with_queues qs s /\ match r with Some l => Forall desc_ok l | None => True end).
Proof.
  induction n as [|n IH]; intros qs i; cbn [read_chain]; [by apply triple_ret|].
  eapply triple_bind; [apply read_desc_keeps|]. intros [d|]; apply triple_pure; intros Hd; [|by apply triple_ret].
  eapply triple_bind; [apply IH|]. intros r. apply triple_pure. intros Hr. apply triple_ret.
  intros s Hs. split; [done|]. destruct r; [|done]. by apply Forall_cons_2.
Qed.

Lemma desc_handler_keeps qs q i : keeps qs (desc_handler id q i).
Proof.
  unfold desc_handler. eapply triple_bind; [apply read_chain_keeps|]. intros r. apply triple_pure. intros Hr.
  destruct r as [[|d0 [|d1 [|d2 [|]]]]|]; try apply ret_keeps.
  apply Forall_cons_1 in Hr. destruct Hr as [(Ha0 & _) Hr]. apply Forall_cons_1 in Hr.
  destruct Hr as [_ Hr]. apply Forall_cons_1 in Hr. destruct Hr as [(Ha2 & _) _].
  apply triple_if; intros _; [by apply fail_then|].
  eapply triple_bind; [apply dram_valid_spec; [done|lia]|]. intros b. apply triple_pure. intros ->.
  apply triple_if; intros E; [by apply fail_then|]. apply negb_false_iff in E.
  rewrite <- (u64_0 (vd_addr d0) Ha0) at 1.
  eapply triple_bind; [apply (read_part qs (vd_addr d0) 16); done || lia|]. intros type. apply triple_pure. intros _.
  eapply triple_bind; [apply (read_part qs (vd_addr d0) 16); done || lia|]. intros sector. apply triple_pure. intros _.
  apply bind_keeps; [apply blk_request_keeps|]. intros [status|]; [|apply ret_keeps].
  apply bind_keeps; [apply dram_write_spec; [done|lia|by right; left]|]. intros []. apply ret_keeps.
Qed.

(** ** The available ring *)

Definition queue_of (i : Z) (qs : list VirtioBlkQueue) : VirtioBlkQueue := nth (Z.to_nat i) qs queue_init.
Definition advance (q : VirtioBlkQueue) : VirtioBlkQueue := set_last_avail (u16 (last_avail q + 1)) q.

Lemma queue_of_ok qs s i : with_queues qs s -> 0 <= i < 2 -> queue_ok (queue_of i qs).
Proof.
  intros [[[Hl Hf _] _ _] Eq] Hi. rewrite Eq in *. unfold queue_of.
  apply (proj1 (List.Forall_nth _ qs) Hf). rewrite Hl. lia.
Qed.

(** A change of one queue. *)
Lemma upd_queue_spec qs i f : 0 <= i < 2 -> queue_ok (f (queue_of i qs)) ->
  triple allowed (with_queues qs) (upd (upd_queue i f))
    (fun _ => with_queues (<[Z.to_nat i := f (queue_of i qs)]> qs)).
Proof.
  intros Hi Hf. apply triple_modify. intros [d w] [[[Hl Hq Hs] Hd Hz] Eq]. cbn [fst snd] in *. subst qs.
  split; [|done]. split; [|done|done]. split; cbn [fst upd_queue set_queues queues_ queue_sel_]; [by rewrite length_insert| |done].
  by apply Forall_insert.
Qed.

Lemma get_queue qs i {B} (k : VirtioBlkQueue -> blk B) Q :
  triple allowed (with_queues qs) (k (queue_of i qs)) Q ->
  triple allowed (with_queues qs) (bind (get (queue_at i)) k) Q.
Proof.
  intros H' s Hs. unfold bind, get, gets, queue_at. destruct Hs as [Hi Eq]. rewrite Eq.
  by apply (H' s).
Qed.

(** A goal that only needs the invariant may be proved for the queue being well formed. *)
Lemma with_queue_ok qs i {A} (c : blk A) Q : 0 <= i < 2 ->
  (queue_ok (queue_of i qs) -> triple allowed (with_queues qs) c Q) -> triple allowed (with_queues qs) c Q.
Proof. intros Hi Hc s Hs. by apply (Hc (queue_of_ok qs s i Hs Hi)). Qed.

Lemma handle_one_spec qs i used : 0 <= i < 2 -> 0 <= used -> (queue_num (queue_of i qs) = 0 -> no_queue) ->
  triple allowed (with_queues qs) (handle_one id i used)
    (fun ok => with_queues (if ok then <[Z.to_nat i := advance (queue_of i qs)]> qs else qs)).
Proof.
  intros Hi Hu Hz. apply (with_queue_ok qs i); [done|]. intros (Hn & Hd & Ha & Hus & Hl).
  unfold handle_one. apply get_queue. set (q := queue_of i qs) in *.
  destruct (Z.eqb_spec (queue_num q) 0) as [E0|E0]; [by apply triple_throw; right; right; auto|].
  eapply triple_bind; [apply dram_valid_spec; [apply uwrap_fits|]; lia|]. intros b. apply triple_pure. intros ->.
  apply triple_if; intros E; [by apply fail_then|]. apply negb_false_iff in E.
  eapply triple_bind; [apply dram_read_spec; [apply uwrap_fits; lia|lia|done]|].
  intros head. apply triple_pure. intros _.
  apply bind_keeps; [apply desc_handler_keeps|]. intros [len|]; [|by apply fail_then].
  set (ua := u64 (queue_used q + 4 + _)). assert (fits 64 ua) as Hua by (apply uwrap_fits; lia).
  eapply triple_bind; [apply dram_valid_spec; [done|lia]|]. intros b. apply triple_pure. intros ->.
  apply triple_if; intros Eu; [by apply fail_then|]. apply negb_false_iff in Eu.
  apply (triple_weaken allowed (fun s => with_queues qs s /\ (0 <= size <= 2 ^ 64 - DRAM_BASE)) (with_queues qs)
    _ (fun ok : bool => with_queues (if ok then <[Z.to_nat i := advance q]> qs else qs)));
    [|intros s Hs; split; [done|apply (inv_size s), Hs]|done].
  apply triple_pure. intros Hsz.
  apply bind_keeps.
  { apply dram_write_spec; [done|lia|]. intros E4. exfalso. rewrite <- (u64_0 ua Hua) in E4.
    rewrite (in_dram_part size ua 8) in E4; [done|done|done|lia|lia|lia]. }
  intros []. apply bind_keeps.
  { apply dram_write_spec; [apply part_fits|lia|]. intros E4. exfalso.
    rewrite (in_dram_part size ua 8) in E4; [done|done|done|lia|lia|lia]. }
  intros []. eapply triple_bind; [apply (upd_queue_spec qs i _ Hi)|intros []; by apply triple_ret].
  exact (conj Hn (conj Hd (conj Ha (conj Hus (uwrap_fits 16 _ ltac:(lia)))))).
Qed.

(** The elements left. *)
Definition pending (new last : Z) : Z := u16 (new - last).

Lemma pending_step new last : fits 16 new -> fits 16 last -> last <> new ->
  0 <= pending new (u16 (last + 1)) < pending new last.
Proof.
  unfold pending, uwrap, fits. intros Hn Hl Hne. rewrite Zminus_mod_idemp_r.
  replace (new - (last + 1)) with (new - last - 1) by lia.
  destruct (Z.ltb_spec last new).
  - rewrite !Z.mod_small by lia. lia.
  - rewrite <- (Z.mod_add (new - last - 1) 1), <- (Z.mod_add (new - last) 1) by lia.
    rewrite !Z.mod_small by lia. lia.
Qed.

Lemma handle_all_spec fuel : forall qs i new used, 0 <= i < 2 -> fits 16 new -> 0 <= used ->
  (queue_num (queue_of i qs) = 0 -> no_queue) ->
  pending new (last_avail (queue_of i qs)) < Z.of_nat fuel ->
  triple allowed (with_queues qs) (handle_all id fuel i new used)
    (fun r s => blk_inv s /\ match r with Some u => 0 <= u | None => True end).
Proof.
  induction fuel as [|fuel IH]; intros qs i new used Hi Hn Hu Hz Hf.
  { exfalso. pose proof (uwrap_fits 16 (new - last_avail (queue_of i qs)) ltac:(lia)) as B.
    unfold pending, fits in *. lia. }
  cbn [handle_all]. apply (with_queue_ok qs i); [done|]. intros Hq.
  eapply (triple_bind _ _ _ _ (fun last s => with_queues qs s /\ last = last_avail (queue_of i qs))).
  { intros s [Hs Eq]. unfold get, gets, queue_at. rewrite Eq. done. }
  intros last. apply triple_pure. intros ->.
  destruct (Z.eqb_spec (last_avail (queue_of i qs)) new) as [E|E].
  { apply triple_ret. by intros s [Hs _]. }
  eapply triple_bind; [by apply handle_one_spec|]. intros [|]; cbv beta iota.
  - eapply (triple_weaken _ (with_queues (<[Z.to_nat i:=advance (queue_of i qs)]> qs)));
      [|done|intros r s Hr; exact Hr].
    destruct (decide (length qs = 2%nat)) as [Hl|Hl].
    2:{ intros s [[[Hl' _ _] _ _] Eq]. rewrite Eq, length_insert in Hl'. done. }
    assert (queue_of i (<[Z.to_nat i:=advance (queue_of i qs)]> qs) = advance (queue_of i qs)) as Eq.
    { unfold queue_of at 1. apply list.nth_lookup_Some. apply list_lookup_insert_eq. lia. }
    apply IH; rewrite ?Eq; try done; [pose proof (uwrap_fits 16 (used + 1) ltac:(lia)) as B; apply B|].
    cbn [advance set_last_avail last_avail].
    destruct (pending_step new (last_avail (queue_of i qs))); [done|apply Hq|done|lia].
  - apply triple_ret. by intros s [Hs _].
Qed.

Lemma publish_keeps qs q used : fits 64 (queue_used q) -> fits 64 (queue_avail q) ->
  in_dram size (queue_used q) 4 = true -> in_dram size (queue_avail q) 4 = true ->
  keeps qs (publish_used id q used).
Proof.
  intros Hu Ha Iu Ia s0 Hs0. pose proof (inv_size s0 (proj1 Hs0)) as Hsz. revert s0 Hs0.
  change (keeps qs (publish_used id q used)). unfold publish_used. apply bind_keeps.
  { apply dram_write_spec; [apply part_fits|lia|]. intros E. exfalso.
    rewrite (in_dram_part size (queue_used q) 4) in E; [done|done|done|lia|lia|lia]. }
  intros []. rewrite <- (u64_0 (queue_avail q) Ha).
  eapply triple_bind; [apply (read_part qs (queue_avail q) 4); done || lia|]. intros fl. apply triple_pure. intros _.
  apply triple_when. intros _. apply bind_keeps; [by apply upd_keeps|]. intros []. apply irq_keeps.
Qed.

Lemma notify_spec qs i : 0 <= i -> (i < 2 -> queue_num (queue_of i qs) = 0 -> no_queue) ->
  triple allowed (with_queues qs) (queue_notify_handler id i) (fun _ => blk_inv).
Proof.
  intros Hi Hz.
  assert (forall c, keeps qs c -> triple allowed (with_queues qs) c (fun _ : unit => blk_inv)) as Hk.
  { intros c Hc. eapply triple_weaken; [exact Hc|done|]. by intros _ s [Hs _]. }
  pose proof (Hk _ (set_fail_keeps qs)) as Hf. pose proof (Hk _ (ret_keeps qs tt)) as Hr.
  unfold queue_notify_handler.
  eapply (triple_bind _ _ _ _ (fun n s => with_queues qs s /\ n = 2)).
  { intros s [Hs Eq]. split; [done|]. by rewrite (ro_queues _ (bi_regs _ Hs)). }
  intros n. apply triple_pure. intros ->. destruct (Z.leb_spec 2 i) as [H2'|H2']; [done|].
  apply bind_keeps; [apply get_keeps|]. intros status. apply triple_if; intros _; [done|].
  apply bind_keeps; [apply get_keeps|]. intros rd. apply triple_if; intros _; [done|].
  apply (with_queue_ok qs i); [lia|]. intros (Hn & Hd & Ha & Hu & Hl).
  unfold queue_handler. apply get_queue. set (q := queue_of i qs) in *.
  eapply triple_bind; [apply dram_valid_spec; [done|lia]|]. intros b. apply triple_pure. intros ->.
  apply triple_if; intros Ea; [done|]. apply negb_false_iff in Ea.
  eapply triple_bind; [apply (read_part qs (queue_avail q) 4); done || lia|].
  intros new. apply triple_pure. intros Hnew.
  apply triple_if; intros _; [done|]. apply triple_if; intros _; [done|].
  eapply triple_bind; [apply dram_valid_spec; [done|lia]|]. intros b. apply triple_pure. intros ->.
  apply triple_if; intros Eu; [done|]. apply negb_false_iff in Eu.
  eapply triple_bind; [apply (read_part qs (queue_used q) 4); done || lia|].
  intros used. apply triple_pure. intros Hused.
  eapply triple_bind; [apply handle_all_spec; try done; [apply Hused|auto|]|].
  { unfold notify_fuel. rewrite Z2Nat.id by lia. apply uwrap_fits. lia. }
  intros [u|]; [|by apply triple_ret; intros s [Hs _]].
  intros s [Hs _]. pose proof (publish_keeps (queues_ (fst s)) q u Hu Ha Eu Ea s (conj Hs eq_refl)) as Hp.
  by destruct (publish_used id q u s) as [[[]|e] s']; [apply Hp|].
Qed.

(** ** Registers *)

Lemma upd_inv f : (forall d, regs_ok d -> regs_ok (f d)) ->
  triple allowed blk_inv (upd f) (fun _ => blk_inv).
Proof. intros Hf. apply triple_modify. intros [d w] [Hr Hd Hz]. split; auto. by apply Hf. Qed.

Lemma keeps_inv {A} (c : blk A) : (forall qs, keeps qs c) -> triple allowed blk_inv c (fun _ => blk_inv).
Proof.
  intros Hc s Hs. specialize (Hc (queues_ (fst s)) s (conj Hs eq_refl)).
  destruct (c s) as [[a|e] s']; [apply Hc|done].
Qed.

Lemma upd_queue_ok i f d : 0 <= i < 2 -> (forall q, queue_ok q -> queue_ok (f q)) -> regs_ok d ->
  regs_ok (upd_queue i f d).
Proof.
  intros Hi Hf [Hl Hq Hs].
  split; cbn [upd_queue set_queues queues_ queue_sel_]; [by rewrite length_insert| |done].
  apply Forall_insert; [done|]. apply Hf. apply (proj1 (List.Forall_nth _ (queues_ d)) Hq). rewrite Hl. lia.
Qed.

Lemma selected_inv f : (forall q, queue_ok q -> queue_ok (f q)) ->
  triple allowed blk_inv (upd_selected f) (fun _ => blk_inv).
Proof. intros Hf. apply upd_inv. intros d Hd. apply upd_queue_ok; [apply Hd|done|done]. Qed.

Lemma low_half_fits old val : fits 64 old -> fits 32 val -> fits 64 (low_half old val).
Proof.
  intros Ho Hv. apply fits_lor; [lia|by apply fits_land_l; [lia|]|]. by apply (fits_le 32); [lia|].
Qed.
Lemma high_half_fits old val : fits 64 old -> fits 32 val -> fits 64 (high_half old val).
Proof.
  intros Ho Hv. apply fits_lor; [lia|by apply fits_land_l; [lia|]|]. unfold fits in *.
  rewrite Z.shiftl_mul_pow2 by lia. lia.
Qed.

Ltac half_fits :=
  cbn [set_queue_desc set_queue_avail set_queue_used queue_desc queue_avail queue_used];
  first [by apply low_half_fits | by apply high_half_fits].

Lemma inv_get {A} (f : VirtioBlk -> A) : triple allowed blk_inv (get (W := W) f) (fun _ => blk_inv).
Proof. by intros s Hs. Qed.

Lemma write_ready_inv val : triple allowed blk_inv (write_ready val) (fun _ => blk_inv).
Proof.
  unfold write_ready.
  eapply triple_bind; [by apply selected_inv|]. intros [].
  apply triple_when. intros _. intros s Hs. set (qs := queues_ (fst s)).
  assert (with_queues qs s) as Hq by done. revert s Hs qs Hq.
  intros s Hs qs Hq. unfold bind at 1, get at 1, gets at 1. set (a := u64 _). assert (fits 64 a) as Ha by apply part_fits.
  assert (triple allowed (with_queues qs) (let! ok := dram_valid a 2 in
     when ok (let! v := dram_read 2 a in upd_selected (set_last_avail v))) (fun _ => blk_inv)) as T;
    [|apply (T s Hq)].
  eapply triple_bind; [apply dram_valid_spec; [done|lia]|]. intros b. apply triple_pure. intros ->.
  destruct (in_dram size a 2) eqn:E; [|by apply triple_ret; intros s1 [Hs1 _]].
  eapply triple_bind; [apply dram_read_spec; [done|lia|done]|]. intros v. apply triple_pure. intros Hv.
  eapply (triple_weaken _ blk_inv); [apply (selected_inv (set_last_avail v))| |done].
  - intros q (H1' & H2' & H3 & H4 & _). done.
  - by intros s1 [Hs1 _].
Qed.

Lemma blk_reset_ok d : regs_ok d -> regs_ok (blk_reset d).
Proof.
  intros Hd. split; cbn [blk_reset queues_ queue_sel_]; [done| |lia].
  assert (queue_ok queue_init) by (unfold queue_ok, fits, queue_init; cbn; lia).
  by repeat apply Forall_cons_2.
Qed.

Lemma blk_write_4_inv n offset value : no_queue ->
  triple allowed blk_inv (blk_write_4 id n offset value) (fun _ => blk_inv).
Proof.
  intros Hz. unfold blk_write_4. apply triple_if; intros _; [by apply triple_ret|]. cbv zeta.
  set (val := u32 value). assert (fits 32 val) as Hv by (apply uwrap_fits; lia). clearbody val.
  eapply (triple_bind _ _ _ _ (fun _ => blk_inv)); [|intros []; by apply triple_ret].
  assert (triple allowed blk_inv (set_fail id) (fun _ => blk_inv)) as Hf by (apply keeps_inv; intros; apply set_fail_keeps).
  assert (forall f : VirtioBlk -> VirtioBlk, (forall d, queues_ (f d) = queues_ d) -> (forall d, queue_sel_ (f d) = queue_sel_ d) ->
    triple allowed blk_inv (upd f) (fun _ => blk_inv)) as Hu.
  { intros f F1 F2. apply keeps_inv. intros qs. by apply upd_keeps. }
  apply triple_if; intros _; [by apply Hu|].
  apply triple_if; intros _; [eapply triple_bind; [apply inv_get|]; intros sel; apply triple_when; intros _; by apply Hu|].
  apply triple_if; intros _; [by apply Hu|].
  apply triple_if; intros _.
  { intros s Hs. unfold bind, get, gets. rewrite (ro_queues _ (bi_regs _ Hs)).
    destruct (Z.ltb_spec val (Z.of_nat 2)); [|by apply Hf].
    apply (upd_inv (set_queue_sel val)); [|done]. intros d [? ? ?].
    split; [done|done|]. unfold fits in Hv. cbn [set_queue_sel queue_sel_]. lia. }
  apply triple_if; intros _.
  { apply triple_if; intros E; [|done]. bool_hyps. apply selected_inv. intros q (_ & Hq).
    split; [|exact Hq]. cbn [set_queue_num queue_num]. unfold VBLK_QUEUE_NUM_MAX in *. lia. }
  apply triple_if; intros _; [apply write_ready_inv|].
  do 2 (apply triple_if; intros _; [apply selected_inv; intros q (Hq1 & Hq2 & Hq3);
    refine (conj Hq1 (conj _ Hq3)); half_fits|]).
  do 2 (apply triple_if; intros _; [apply selected_inv; intros q (Hq1 & Hq2 & Hq3 & Hq4);
    refine (conj Hq1 (conj Hq2 (conj _ Hq4))); half_fits|]).
  do 2 (apply triple_if; intros _; [apply selected_inv; intros q (Hq1 & Hq2 & Hq3 & Hq4 & Hq5);
    refine (conj Hq1 (conj Hq2 (conj Hq3 (conj _ Hq5)))); half_fits|]).
  apply triple_if; intros _.
  { intros s Hs. apply (notify_spec (queues_ (fst s))); [apply Hv|done|done]. }
  apply triple_if; intros _.
  { apply keeps_inv. intros qs. unfold interrupt_ack. apply bind_keeps; [by apply upd_keeps|]. intros [].
    apply bind_keeps; [apply get_keeps|]. intros x. apply triple_when. intros _. apply irq_keeps. }
  apply triple_if; intros _.
  { unfold update_status. eapply triple_bind; [by apply Hu|]. intros []. apply triple_when. intros _.
    apply upd_inv, blk_reset_ok. }
  unfold write_config. apply triple_when. intros _. apply triple_when. intros _. by apply Hu.
Qed.

Lemma blk_write_inv offset n value : no_queue ->
  triple allowed blk_inv (blk_write_internal id offset n value) (fun _ => blk_inv).
Proof.
  intros Hz. unfold blk_write_internal. apply triple_if; intros _; [|by apply blk_write_4_inv].
  eapply triple_bind; [by apply blk_write_4_inv|]. intros [|]; [by apply blk_write_4_inv|by apply triple_ret].
Qed.
End Safe.

(** ** Safety and termination *)

Section Guarantees.
Context {W : Type} `{DramPortLaws W}.
Variable id : Z.
Variable size : Z.
Abbreviation st := (VirtioBlk * W)%type.

(** C28. Whatever the guest writes to the block device, and whatever its rings, descriptors and
    requests in DRAM hold, a register write of 1, 2, 4 or 8 bytes in a well-formed state
    ends (the loop over the available ring never runs out of its 2^16 turns), and
    either returns in a well-formed state or ends in one of three ways: an exception
    escapes a noexcept function, the status byte of a request is written outside
    DRAM, or a division by zero.  Every other access it makes to DRAM without a check of
    its own is inside DRAM, and the division by zero needs a queue of size zero. *)
Theorem virtio_safe offset n value s : blk_inv size s ->
  match blk_write_internal id offset n value s with
  | (Ok _, s') => blk_inv size s'
  | (Throw e, _) => e = BTerminate \/ e = BStatusByte \/ e = BDivide
  end /\
  forall i, fits 32 i ->
  match queue_notify_handler id i s with
  | (Ok _, s') => blk_inv size s'
  | (Throw e, _) => e = BTerminate \/ e = BStatusByte \/
                    (e = BDivide /\ i < 2 /\ queue_num (queue_at i (fst s)) = 0)
  end.
Proof.
  intros Hs. split.
  - pose proof (blk_write_inv id size True offset n value I s Hs) as T.
    destruct (blk_write_internal id offset n value s) as [[a|e] s']; [exact T|].
    destruct T as [T|[T|[T _]]]; auto.
  - intros i Hi.
    pose proof (notify_spec id size (i < 2 /\ queue_num (queue_at i (fst s)) = 0) (queues_ (fst s)) i
      (proj1 Hi) (fun Hi2 Hz => conj Hi2 Hz) s (conj Hs eq_refl)) as T.
    by destruct (queue_notify_handler id i s) as [[a|e] s'].
Qed.

(** ** One request *)

(** What the primitives compute in a well-formed state. *)
Definition put (n : nat) (addr v : Z) (s : st) : st :=
  (fst s, w_set_dram (Dram.write n addr v (w_dram (snd s))) (snd s)).

Lemma put_inv n addr v s : blk_inv size s -> blk_inv size (put n addr v s).
Proof.
  intros [Hr Hd Hz]. split; cbn [put fst snd]; rewrite ?w_dram_set; [done|by apply write_wf|].
  rewrite <- Hz. apply store_le_size.
Qed.

Lemma upd_queue_inv i f s : 0 <= i < 2 -> (forall q, queue_ok q -> queue_ok (f q)) -> blk_inv size s ->
  blk_inv size (upd_queue i f (fst s), snd s).
Proof. intros Hi Hf [Hr Hd Hz]. split; [by apply upd_queue_ok|done|done]. Qed.

Lemma valid_eval {A} addr len (k : bool -> M st blk_exn A) s : blk_inv size s -> fits 64 addr -> 0 <= len < 2 ^ 64 ->
  bind (dram_valid addr len) k s = k (in_dram size addr len) s.
Proof.
  intros [_ Hd Hz] Ha Hl. unfold bind, dram_valid, gets. by rewrite valid_in_dram, Hz.
Qed.

Lemma read_eval {A} n addr (k : Z -> M st blk_exn A) s : blk_inv size s -> fits 64 addr -> (n <= 8)%nat ->
  in_dram size addr (Z.of_nat n) = true ->
  bind (dram_read n addr) k s = k (Dram.read n addr (w_dram (snd s))) s.
Proof.
  intros Hs Ha Hn Hin. unfold dram_read. unfold bind at 1. rewrite valid_eval by (done || lia).
  by rewrite Hin.
Qed.

Lemma write_eval {A} e n addr v (k : unit -> M st blk_exn A) s : blk_inv size s -> fits 64 addr -> (n <= 8)%nat ->
  in_dram size addr (Z.of_nat n) = true ->
  bind (dram_write e n addr v) k s = k tt (put n addr v s).
Proof.
  intros Hs Ha Hn Hin. unfold dram_write. unfold bind at 1. rewrite valid_eval by (done || lia).
  by rewrite Hin.
Qed.

(** A descriptor of the table as DRAM holds it. *)
Definition desc_addr (q : VirtioBlkQueue) (i : Z) : Z := u64 (queue_desc q + i * 16).
Definition desc_in (q : VirtioBlkQueue) (i : Z) (m : Dram) : VirtqDesc :=
  let a := desc_addr q i in
  mkDesc (Dram.read 8 a m) (Dram.read 4 (u64 (a + 8)) m) (Dram.read 2 (u64 (a + 12)) m) (Dram.read 2 (u64 (a + 14)) m).

Lemma read_desc_eval {A} q i (k : option VirtqDesc -> M st blk_exn A) s : blk_inv size s ->
  in_dram size (desc_addr q i) 16 = true ->
  bind (read_desc id q i) k s = k (Some (desc_in q i (w_dram (snd s)))) s.
Proof.
  intros Hs Hin. pose proof (inv_size size s Hs) as Hz. unfold read_desc. fold (desc_addr q i). cbv zeta.
  assert (fits 64 (desc_addr q i)) as Ha by (apply uwrap_fits; lia).
  pose proof (fun k n => in_dram_part size (desc_addr q i) 16 k n Hz Hin) as Hp.
  unfold bind at 1. rewrite valid_eval by (done || lia). rewrite Hin. cbn [negb].
  rewrite read_eval; [|done|done|lia|rewrite <- (u64_0 (desc_addr q i) Ha); apply Hp; lia].
  rewrite read_eval; [|done|apply part_fits|lia|apply Hp; lia].
  rewrite read_eval; [|done|apply part_fits|lia|apply Hp; lia].
  rewrite read_eval; [|done|apply part_fits|lia|apply Hp; lia]. done.
Qed.

Definition avail_elem (q : VirtioBlkQueue) : Z :=
  u64 (queue_avail q + 4 + u16 (last_avail q mod queue_num q) * 2).
Definition used_elem (q : VirtioBlkQueue) (used : Z) : Z :=
  u64 (queue_used q + 4 + u32 (used mod queue_num q * 8)).

(** A driver has made one chain available: its descriptors, header and status byte, and the
    parts of the rings, lie in DRAM, and the flags are those of a request. *)
Record one_request (i : Z) (s : st) (head used : Z) (d0 d1 d2 : VirtqDesc) : Prop := {
  or_index : 0 <= i < 2;
  or_ready : nz (Z.land (blk_status_ (fst s)) VIRTIO_STATUS_DRIVER_OK) = true /\
    nz (Z.land (blk_status_ (fst s)) VIRTIO_STATUS_DEVICE_NEEDS_RESET) = false /\
    q_ready (queue_at i (fst s)) = true;
  or_num : queue_num (queue_at i (fst s)) <> 0;
  or_rings : in_dram size (queue_avail (queue_at i (fst s))) 4 = true /\
    in_dram size (queue_used (queue_at i (fst s))) 4 = true;
  or_pending : Dram.read 2 (u64 (queue_avail (queue_at i (fst s)) + 2)) (w_dram (snd s)) =
    u16 (last_avail (queue_at i (fst s)) + 1);
  or_used : Dram.read 2 (u64 (queue_used (queue_at i (fst s)) + 2)) (w_dram (snd s)) = used;
  or_elem : in_dram size (avail_elem (queue_at i (fst s))) 2 = true /\
    Dram.read 2 (avail_elem (queue_at i (fst s))) (w_dram (snd s)) = head;
  or_slot : in_dram size (used_elem (queue_at i (fst s)) used) 8 = true;
  or_table : in_dram size (desc_addr (queue_at i (fst s)) head) 16 = true /\
    in_dram size (desc_addr (queue_at i (fst s)) (vd_next d0)) 16 = true /\
    in_dram size (desc_addr (queue_at i (fst s)) (vd_next d1)) 16 = true;
  or_chain : d0 = desc_in (queue_at i (fst s)) head (w_dram (snd s)) /\
    d1 = desc_in (queue_at i (fst s)) (vd_next d0) (w_dram (snd s)) /\
    d2 = desc_in (queue_at i (fst s)) (vd_next d1) (w_dram (snd s));
  or_flags : bad_flags d0 d1 d2 = false;
  or_header : in_dram size (vd_addr d0) 16 = true;
  or_status : in_dram size (vd_addr d2) 1 = true;
}.

(** The driver has made chains available on a ready queue: the notification gets to its loop. *)
Record chains_pending (i : Z) (s : st) : Prop := {
  cp_index : 0 <= i < 2;
  cp_ready : nz (Z.land (blk_status_ (fst s)) VIRTIO_STATUS_DRIVER_OK) = true /\
    nz (Z.land (blk_status_ (fst s)) VIRTIO_STATUS_DEVICE_NEEDS_RESET) = false /\
    q_ready (queue_at i (fst s)) = true;
  cp_rings : in_dram size (queue_avail (queue_at i (fst s))) 4 = true /\
    in_dram size (queue_used (queue_at i (fst s))) 4 = true;
  cp_index_new : Dram.read 2 (u64 (queue_avail (queue_at i (fst s)) + 2)) (w_dram (snd s)) <>
    last_avail (queue_at i (fst s));
  cp_index_near : Dram.read 2 (u64 (queue_avail (queue_at i (fst s)) + 2)) (w_dram (snd s)) -
    last_avail (queue_at i (fst s)) <= queue_num (queue_at i (fst s));
}.

(** The first of them is a request: three descriptors in DRAM with the flags of a request, and a
    header in DRAM.  Its buffer and its status byte may be anywhere. *)
Record next_chain (i : Z) (s : st) (head : Z) (d0 d1 d2 : VirtqDesc) : Prop := {
  nc_num : queue_num (queue_at i (fst s)) <> 0;
  nc_elem : in_dram size (avail_elem (queue_at i (fst s))) 2 = true /\
    Dram.read 2 (avail_elem (queue_at i (fst s))) (w_dram (snd s)) = head;
  nc_table : in_dram size (desc_addr (queue_at i (fst s)) head) 16 = true /\
    in_dram size (desc_addr (queue_at i (fst s)) (vd_next d0)) 16 = true /\
    in_dram size (desc_addr (queue_at i (fst s)) (vd_next d1)) 16 = true;
  nc_chain : d0 = desc_in (queue_at i (fst s)) head (w_dram (snd s)) /\
    d1 = desc_in (queue_at i (fst s)) (vd_next d0) (w_dram (snd s)) /\
    d2 = desc_in (queue_at i (fst s)) (vd_next d1) (w_dram (snd s));
  nc_flags : bad_flags d0 d1 d2 = false;
  nc_header : in_dram size (vd_addr d0) 16 = true;
}.

Lemma next_index last : fits 16 last -> u16 (last + 1) <> last /\ u16 (last + 1) - last <= 1.
Proof. unfold fits, uwrap. lia. Qed.

Lemma queue_at_ok i s : blk_inv size s -> 0 <= i < 2 -> queue_ok (queue_at i (fst s)).
Proof. intros Hs Hi. exact (queue_of_ok size (queues_ (fst s)) s i (conj Hs eq_refl) Hi). Qed.

Lemma one_request_chain i s head used d0 d1 d2 : one_request i s head used d0 d1 d2 -> next_chain i s head d0 d1 d2.
Proof. by intros []. Qed.

Lemma one_request_pending i s head used d0 d1 d2 : blk_inv size s ->
  one_request i s head used d0 d1 d2 -> chains_pending i s.
Proof.
  intros Hs []. destruct (queue_at_ok i s Hs or_index0) as (Q1 & _ & _ & _ & Q5).
  destruct (next_index _ Q5) as [Hne Hle]. by split; [| | |rewrite or_pending0|rewrite or_pending0; lia].
Qed.

(** The type and the sector of a request. *)
Definition request_type (d0 : VirtqDesc) (s : st) : Z := Dram.read 4 (vd_addr d0) (w_dram (snd s)).
Definition request_sector (d0 : VirtqDesc) (s : st) : Z := Dram.read 8 (u64 (vd_addr d0 + 8)) (w_dram (snd s)).

(** The length reported, and what is written when a request is done. *)
Definition reported (status : Z) (d1 : VirtqDesc) : Z := if status =? VIRTIO_BLK_S_OK then vd_len d1 else 0.
Definition complete (q : VirtioBlkQueue) (head used status : Z) (d1 d2 : VirtqDesc) (s : st) : st :=
  put 4 (u64 (used_elem q used + 4)) (reported status d1)
    (put 4 (used_elem q used) head (put 1 (vd_addr d2) status s)).
Definition publish (q : VirtioBlkQueue) (used : Z) (s : st) : st :=
  let s := put 2 (u64 (queue_used q + 2)) (u16 (used + 1)) s in
  if nz (Z.land (Dram.read 2 (queue_avail q) (w_dram (snd s))) 1) then s
  else (set_interrupt_status (Z.lor (interrupt_status_ (fst s)) VIRTIO_INT_USED_RING) (fst s),
        irq_callback id true (snd s)).

Lemma chain_eval i s head d0 d1 d2 : blk_inv size s -> next_chain i s head d0 d1 d2 ->
  read_chain id 3 (queue_at i (fst s)) head s = (Ok (Some [d0; d1; d2]), s).
Proof.
  intros Hs R. destruct (nc_table _ _ _ _ _ _ R) as (T0 & T1 & T2).
  destruct (nc_chain _ _ _ _ _ _ R) as (E0 & E1 & E2). cbn [read_chain].
  rewrite read_desc_eval, <- E0 by done. unfold bind at 1.
  rewrite read_desc_eval, <- E1 by done. unfold bind at 1.
  rewrite read_desc_eval, <- E2 by done. done.
Qed.

Lemma desc_in_fits q i m : dram_wf m -> fits 64 (vd_addr (desc_in q i m)).
Proof. intros Hm. apply (read_fits 8). done. Qed.

Lemma chain_fits i s head d0 d1 d2 : blk_inv size s -> next_chain i s head d0 d1 d2 ->
  fits 64 (vd_addr d0) /\ fits 64 (vd_addr d1) /\ fits 64 (vd_addr d2).
Proof.
  intros Hs R. pose proof (bi_dram _ _ Hs) as Hm. destruct (nc_chain _ _ _ _ _ _ R) as (E0 & E1 & E2).
  split_and!; [rewrite E0|rewrite E1|rewrite E2]; by apply desc_in_fits.
Qed.

(** The handler of a chain comes to its request, and stores the status of it. *)
Lemma desc_handler_request i s head d0 d1 d2 : blk_inv size s -> next_chain i s head d0 d1 d2 ->
  desc_handler id (queue_at i (fst s)) head s =
  bind (blk_request id (request_type d0 s) (request_sector d0 s) d1) (fun r =>
    match r with
    | None => ret None
    | Some status => dram_write BStatusByte 1 (vd_addr d2) status ;;; ret (Some (reported status d1))
    end) s.
Proof.
  intros Hs R. pose proof (inv_size size s Hs) as Hz. unfold desc_handler. unfold bind at 1.
  rewrite (chain_eval i s head d0 d1 d2) by done. rewrite (nc_flags _ _ _ _ _ _ R).
  destruct (chain_fits i s head d0 d1 d2 Hs R) as (F0 & _ & _). pose proof (nc_header _ _ _ _ _ _ R) as Hh.
  pose proof (fun k n => in_dram_part size (vd_addr d0) 16 k n Hz Hh) as Hp.
  rewrite valid_eval by (done || lia). rewrite Hh. cbn [negb].
  rewrite read_eval; [|done|done|lia|rewrite <- (u64_0 (vd_addr d0) F0); apply Hp; lia].
  rewrite read_eval; [|done|apply part_fits|lia|apply Hp; lia]. done.
Qed.

Lemma desc_handler_eval i s head used d0 d1 d2 status s1 :
  blk_inv size s -> one_request i s head used d0 d1 d2 -> blk_inv size s1 ->
  blk_request id (request_type d0 s) (request_sector d0 s) d1 s = (Ok (Some status), s1) ->
  desc_handler id (queue_at i (fst s)) head s =
    (Ok (Some (reported status d1)), put 1 (vd_addr d2) status s1).
Proof.
  intros Hs R Hs1 Hr. pose proof (one_request_chain _ _ _ _ _ _ _ R) as C.
  rewrite (desc_handler_request i s head d0 d1 d2) by done. destruct (chain_fits i s head d0 d1 d2 Hs C) as (_ & _ & F2).
  unfold bind at 1. rewrite Hr.
  rewrite write_eval; [done|done|done|lia|apply (or_status _ _ _ _ _ _ _ R)].
Qed.

(** One turn of the loop comes to the handler of the chain. *)
Lemma handle_one_chain i s head used d0 d1 d2 : blk_inv size s -> next_chain i s head d0 d1 d2 ->
  let q := queue_at i (fst s) in
  handle_one id i used s =
  bind (desc_handler id q head) (fun r =>
    match r with
    | None => set_fail id ;;; ret false
    | Some len =>
        let! ok := dram_valid (used_elem q used) 8 in
        if negb ok then set_fail id ;;; ret false
        else
          dram_write BOutside 4 (used_elem q used) head ;;;
          dram_write BOutside 4 (u64 (used_elem q used + 4)) len ;;;
          upd (upd_queue i advance) ;;;
          ret true
    end) s.
Proof.
  intros Hs R q. unfold handle_one. unfold bind at 1, get at 1, gets at 1. fold q.
  pose proof (nc_num _ _ _ _ _ _ R) as Hn. fold q in Hn. apply Z.eqb_neq in Hn. rewrite Hn.
  destruct (nc_elem _ _ _ _ _ _ R) as [He Hh]. fold q in He, Hh.
  fold (avail_elem q). cbv zeta. assert (fits 64 (avail_elem q)) as Fa by (apply uwrap_fits; lia).
  rewrite valid_eval by (done || lia). rewrite He. cbn [negb].
  rewrite read_eval by (done || lia). by rewrite Hh.
Qed.

Definition bump (i : Z) (s : st) : st := (upd_queue i advance (fst s), snd s).

Lemma handle_one_eval i s head used d0 d1 d2 status s1 :
  blk_inv size s -> one_request i s head used d0 d1 d2 -> blk_inv size s1 ->
  blk_request id (request_type d0 s) (request_sector d0 s) d1 s = (Ok (Some status), s1) ->
  handle_one id i used s =
    (Ok true, bump i (complete (queue_at i (fst s)) head used status d1 d2 s1)).
Proof.
  intros Hs R Hs1 Hr. pose proof (inv_size size s Hs) as Hz.
  rewrite (handle_one_chain i s head used d0 d1 d2) by (by apply one_request_chain in R). cbv zeta.
  set (q := queue_at i (fst s)). unfold bind at 1. unfold q.
  rewrite (desc_handler_eval i s head used d0 d1 d2 status s1) by done. fold q.
  assert (fits 64 (used_elem q used)) as Fu by (apply uwrap_fits; lia).
  pose proof (or_slot _ _ _ _ _ _ _ R) as Hsl. fold q in Hsl.
  pose proof (fun k n => in_dram_part size (used_elem q used) 8 k n Hz Hsl) as Hp.
  rewrite valid_eval by (by apply put_inv || done || lia). rewrite Hsl. cbn [negb].
  rewrite write_eval; [|by apply put_inv|done|lia|rewrite <- (u64_0 _ Fu); apply Hp; lia].
  rewrite write_eval; [|by do 2 apply put_inv|apply part_fits|lia|apply Hp; lia].
  done.
Qed.

Lemma bump_last i s : 0 <= i < 2 -> length (queues_ (fst s)) = 2%nat ->
  queue_at i (fst (bump i s)) = advance (queue_at i (fst s)).
Proof.
  intros Hi Hl. unfold bump, queue_at at 1. cbn [fst upd_queue set_queues queues_].
  apply list.nth_lookup_Some, list_lookup_insert_eq. lia.
Qed.

Lemma complete_queues i q head used status d1 d2 s :
  queue_at i (fst (complete q head used status d1 d2 s)) = queue_at i (fst s).
Proof. done. Qed.

(** The loop with one element. *)
Lemma handle_all_one fuel i new used s s' : handle_one id i used s = (Ok true, s') ->
  last_avail (queue_at i (fst s)) <> new -> last_avail (queue_at i (fst s')) = new ->
  handle_all id (S (S fuel)) i new used s = (Ok (Some (u16 (used + 1))), s').
Proof.
  intros H1' Hne Heq. cbn [handle_all]. unfold bind at 1, get at 1, gets at 1.
  apply Z.eqb_neq in Hne. rewrite Hne. unfold bind at 1. rewrite H1'.
  unfold bind at 1, get at 1, gets at 1. apply Z.eqb_eq in Heq. by rewrite Heq.
Qed.

Lemma notify_fuel_two : exists n, notify_fuel = S (S n).
Proof.
  exists (Z.to_nat (2 ^ 16 - 2)). unfold notify_fuel. rewrite <- !Z2Nat.inj_succ by lia. done.
Qed.

(** A notification comes to its loop. *)
Lemma notify_loop i s : blk_inv size s -> chains_pending i s ->
  let q := queue_at i (fst s) in
  queue_notify_handler id i s =
  bind (handle_all id notify_fuel i (Dram.read 2 (u64 (queue_avail q + 2)) (w_dram (snd s)))
          (Dram.read 2 (u64 (queue_used q + 2)) (w_dram (snd s))))
    (fun r => match r with None => ret tt | Some used => publish_used id q used end) s.
Proof.
  intros Hs [Hi (R1 & R2 & R3) [Ia Iu] Hne Hle] q. fold q in R3, Ia, Iu, Hne, Hle.
  pose proof (inv_size size s Hs) as Hz. destruct (queue_at_ok i s Hs Hi) as (Q1 & Q2 & Q3 & Q4 & Q5). fold q in Q1, Q3, Q4.
  unfold queue_notify_handler. unfold bind at 1, get at 1, gets at 1.
  rewrite (ro_queues _ (bi_regs _ _ Hs)). destruct (Z.leb_spec (Z.of_nat 2) i); [lia|].
  unfold bind at 1, get at 1, gets at 1. rewrite R2.
  unfold bind at 1, get at 1, gets at 1. fold q. rewrite R1, R3. cbn [andb negb].
  unfold queue_handler. unfold bind at 1, get at 1, gets at 1. fold q.
  rewrite valid_eval by (done || lia). rewrite Ia. cbn [negb].
  rewrite read_eval; [|done|apply part_fits|lia|apply (in_dram_part size (queue_avail q) 4); done || lia].
  rewrite (uwrap_id 16 (queue_num q)) by (unfold fits; lia).
  destruct (Z.ltb_spec (queue_num q) (Dram.read 2 (u64 (queue_avail q + 2)) (w_dram (snd s)) - last_avail q)); [lia|].
  destruct (Z.eqb_spec (last_avail q) (Dram.read 2 (u64 (queue_avail q + 2)) (w_dram (snd s)))); [congruence|].
  rewrite valid_eval by (done || lia). rewrite Iu. cbn [negb].
  rewrite read_eval; [done|done|apply part_fits|lia|apply (in_dram_part size (queue_used q) 4); done || lia].
Qed.

Lemma publish_eval q used s : blk_inv size s -> queue_ok q ->
  in_dram size (queue_used q) 4 = true -> in_dram size (queue_avail q) 4 = true ->
  publish_used id q (u16 (used + 1)) s = (Ok tt, publish q used s).
Proof.
  intros Hs (_ & _ & Ha & Hu & _) Iu Ia. pose proof (inv_size size s Hs) as Hz.
  unfold publish_used.
  rewrite write_eval; [|done|apply part_fits|lia|apply (in_dram_part size (queue_used q) 4); done || lia].
  rewrite read_eval; [|by apply put_inv|done|lia|].
  2:{ rewrite <- (u64_0 _ Ha). apply (in_dram_part size (queue_avail q) 4); done || lia. }
  unfold publish. set (s2 := put 2 _ _ s). by destruct (nz _).
Qed.

(** C29. One request through the ring: when the driver has made exactly one well-formed chain
    available and the request itself ends in a status, the notification returns, and the
    final state is exactly that of the request with, in this order, the status byte
    stored, the used element (the head of the chain and the reported length: that of
    the buffer on success, zero otherwise), last_avail advanced, and the used index
    advanced; the used-ring bit is set in the interrupt status and the interrupt line
    raised unless the driver suppressed it. *)
Theorem virtio_one_request i s head used d0 d1 d2 status s1 :
  blk_inv size s -> one_request i s head used d0 d1 d2 ->
  blk_request id (Dram.read 4 (vd_addr d0) (w_dram (snd s)))
    (Dram.read 8 (u64 (vd_addr d0 + 8)) (w_dram (snd s))) d1 s = (Ok (Some status), s1) ->
  let q := queue_at i (fst s) in
  queue_notify_handler id i s =
    (Ok tt, publish q used (bump i (complete q head used status d1 d2 s1))).
Proof.
  intros Hs R Hr q. pose proof (inv_size size s Hs) as Hz.
  pose proof (or_index _ _ _ _ _ _ _ R) as Hi. pose proof (queue_at_ok i s Hs Hi) as Hq. fold q in Hq.
  assert (with_queues size (queues_ (fst s)) s1) as [Hs1 Eq1].
  { clear -H2 Hs Hr. revert Hr. generalize (Dram.read 4 (vd_addr d0) (w_dram (snd s))).
    generalize (Dram.read 8 (u64 (vd_addr d0 + 8)) (w_dram (snd s))). intros sector type Hr.
    pose proof (blk_request_keeps id size False (queues_ (fst s)) type sector d1 s (conj Hs eq_refl)) as K.
    by rewrite Hr in K. }
  destruct (or_rings _ _ _ _ _ _ _ R) as [Ia Iu]. fold q in Ia, Iu.
  destruct (or_ready _ _ _ _ _ _ _ R) as (R1 & R2 & R3).
  pose proof (or_pending _ _ _ _ _ _ _ R) as Ep. pose proof (or_used _ _ _ _ _ _ _ R) as Eu. fold q in Ep, Eu.
  pose proof (or_num _ _ _ _ _ _ _ R) as Hn. fold q in Hn.
  destruct Hq as (Q1 & Q2 & Q3 & Q4 & Q5).
  assert (queue_at i (fst s1) = q) as Eqq by (unfold queue_at; by rewrite Eq1).
  rewrite notify_loop by (done || by apply (one_request_pending i s head used d0 d1 d2)). cbv zeta. fold q. rewrite Ep, Eu.
  destruct (next_index (last_avail q) Q5) as [Hne _].
  pose proof (handle_one_eval i s head used d0 d1 d2 status s1 Hs R Hs1 Hr) as H1'. fold q in H1'.
  destruct notify_fuel_two as [fuel ->]. unfold bind at 1.
  rewrite (handle_all_one fuel i (u16 (last_avail q + 1)) used s _ H1'); [|exact (not_eq_sym Hne)|].
  - apply publish_eval; [|done|done|done]. apply upd_queue_inv; [done| |by do 3 apply put_inv].
    intros q' (P1 & P2 & P3 & P4 & P5). exact (conj P1 (conj P2 (conj P3 (conj P4 (uwrap_fits 16 _ ltac:(lia)))))).
  - rewrite bump_last; [|done|].
    + rewrite complete_queues, Eqq. done.
    + change (queues_ (fst (complete q head used status d1 d2 s1))) with (queues_ (fst s1)).
      by rewrite (ro_queues _ (bi_regs _ _ Hs1)).
Qed.
End Guarantees.

(** ** The disk *)

(** A stream whose operations succeed: a file of bytes. *)
Class DiskFile (W : Type) `{DramPort W} `{DiskPort W} := {
  disk_get : W -> Z -> Z;
  df_fits : forall w i, fits 8 (disk_get w i);
  df_read : forall off len w,
    fst (disk_read off len w) = Some (map (fun k => disk_get w (off + Z.of_nat k)) (seq 0 (Z.to_nat len)));
  df_read_get : forall off len w i, disk_get (snd (disk_read off len w)) i = disk_get w i;
  df_write : forall off bs w, fst (disk_write off bs w) = true;
  df_write_get : forall off bs w i, Forall (fits 8) bs ->
    disk_get (snd (disk_write off bs w)) i =
      if (off <=? i) && (i <? off + Z.of_nat (length bs)) then nth (Z.to_nat (i - off)) bs 0 else disk_get w i;
}.

(** The bulk copies, byte by byte. *)
Lemma read_bytes_eval d addr len : dram_wf d -> fits 64 addr -> 0 <= len < 2 ^ 64 ->
  in_dram (size_ d) addr len = true ->
  read_bytes addr (Z.to_nat len) d =
    Some (map (fun i => byte_at d (addr - DRAM_BASE + Z.of_nat i)) (seq 0 (Z.to_nat len))).
Proof.
  intros Hd Ha Hl Hin. unfold read_bytes. rewrite Z2Nat.id by lia. rewrite valid_in_dram, Hin by done.
  unfold in_dram in Hin. bool_hyps. rewrite uwrap_id; [done|]. unfold fits, DRAM_BASE in *. lia.
Qed.

Lemma write_bytes_eval d addr bytes : dram_wf d -> fits 64 addr -> Z.of_nat (length bytes) < 2 ^ 64 ->
  in_dram (size_ d) addr (Z.of_nat (length bytes)) = true ->
  exists d', write_bytes addr bytes d = Some d' /\
  forall x, byte_at d' x =
    if (addr - DRAM_BASE <=? x) && (x <? addr - DRAM_BASE + Z.of_nat (length bytes))
    then u8 (nth (Z.to_nat (x - (addr - DRAM_BASE))) bytes 0) else byte_at d x.
Proof.
  intros Hd Ha Hl Hin. unfold write_bytes. rewrite valid_in_dram, Hin by (done || lia).
  eexists. split; [done|]. intros x. unfold in_dram in Hin. bool_hyps.
  rewrite uwrap_id by (unfold fits, DRAM_BASE in *; lia).
  pose proof (byte_at_foldl bytes 0 (addr - DRAM_BASE) d x) as E.
  change (imap (fun i x0 => ((0 + i)%nat, x0)) bytes) with (imap pair bytes) in E.
  change (Z.of_nat 0) with 0 in E. rewrite Z.add_0_r, Z.sub_0_r in E. exact E.
Qed.

Section Disk.
Context {W : Type} `{DramPortLaws W} `{!DiskFile W}.
Variable id : Z.
Variable size : Z.
Abbreviation st := (VirtioBlk * W)%type.

(** The byte of DRAM at an address. *)
Definition mem_at (s : st) (x : Z) : Z := byte_at (w_dram (snd s)) (x - DRAM_BASE).

(** The sectors of a request are on the disk. *)
Definition on_disk (d : VirtioBlk) (sector len : Z) : Prop :=
  0 <= sector <= u64 (capacity d - 1) /\ sector * 512 < disk_size_ d /\ sector * 512 + len <= disk_size_ d /\
  disk_size_ d < 2 ^ 63.

Lemma range_test (d : VirtioBlk) sector len : on_disk d sector len -> 0 <= len ->
  u64 (sector * DISK_BLK_SIZE) = sector * 512 /\
  (disk_size_ d <=? sector * 512) || (disk_size_ d <? u64 (sector * 512 + len)) = false /\
  (u64 (capacity d - 1) <? sector) = false.
Proof.
  intros (Hc & Ho & Hl & Hd) Hp. unfold DISK_BLK_SIZE.
  rewrite !uwrap_id by (unfold fits; lia). split; [done|].
  destruct (Z.leb_spec (disk_size_ d) (sector * 512)), (Z.ltb_spec (disk_size_ d) (sector * 512 + len)); try lia.
Qed.

(** The bytes of a buffer. *)
Definition buffer_of (s : st) (addr len : Z) : list Z :=
  map (fun i => byte_at (w_dram (snd s)) (addr - DRAM_BASE + Z.of_nat i)) (seq 0 (Z.to_nat len)).

Lemma buffer_fits s addr len : dram_wf (w_dram (snd s)) -> Forall (fits 8) (buffer_of s addr len).
Proof. intros Hd. apply Forall_map, Forall_true. intros k. by apply byte_at_fits. Qed.

Lemma buffer_length s addr len : 0 <= len -> Z.of_nat (length (buffer_of s addr len)) = len.
Proof. intros Hl. unfold buffer_of. rewrite length_map, length_seq. lia. Qed.

Lemma nth_map_seq {A} (f : nat -> A) n k a : (k < n)%nat -> nth k (map f (seq 0 n)) a = f k.
Proof.
  intros Hk. rewrite (nth_indep _ a (f 0%nat)) by (rewrite length_map, length_seq; lia).
  rewrite map_nth, seq_nth by lia. done.
Qed.

Lemma write_handler_eval sector addr len s : blk_inv size s -> on_disk (fst s) sector len ->
  0 <= len < 2 ^ 64 -> fits 64 addr -> in_dram size addr len = true ->
  write_handler sector addr len s =
    (Ok true, (fst s, snd (disk_write (sector * 512) (buffer_of s addr len) (snd s)))).
Proof.
  intros [Hr Hd Hz] Ho Hl Ha Hin. destruct (range_test _ _ _ Ho ltac:(lia)) as (E1 & E2 & _).
  unfold write_handler. rewrite E1. unfold bind at 1, get, gets at 1. rewrite E2.
  unfold dram_read_bytes, bind, gets. rewrite <- Hz in Hin. rewrite read_bytes_eval by done.
  fold (buffer_of s addr len). unfold ret, world, state.
  pose proof (df_write (sector * 512) (buffer_of s addr len) (snd s)) as Ew.
  destruct (disk_write _ _ _) as [ok w]. cbn [fst snd] in *. by subst ok.
Qed.

Lemma read_handler_eval sector addr len s : blk_inv size s -> on_disk (fst s) sector len ->
  0 <= len < 2 ^ 64 -> fits 64 addr -> in_dram size addr len = true ->
  exists m, read_handler sector addr len s =
    (Ok true, (fst s, w_set_dram m (snd (disk_read (sector * 512) len (snd s))))) /\
  forall x, byte_at m (x - DRAM_BASE) =
    if (addr <=? x) && (x <? addr + len) then disk_get (snd s) (sector * 512 + (x - addr))
    else mem_at s x.
Proof.
  intros [Hr Hd Hz] Ho Hl Ha Hin. destruct (range_test _ _ _ Ho ltac:(lia)) as (E1 & E2 & _).
  unfold read_handler. rewrite E1. unfold bind at 1, get, gets at 1. rewrite E2.
  pose proof (df_read (sector * 512) len (snd s)) as Er.
  pose proof (disk_read_dram (sector * 512) len (snd s)) as Ed. unfold world, state, bind at 1.
  destruct (disk_read (sector * 512) len (snd s)) as [o w]. cbn [fst snd] in *. subst o.
  set (bs := map _ _).
  assert (Z.of_nat (length bs) = len) as El by (unfold bs; rewrite length_map, length_seq; lia).
  rewrite <- Ed in Hd, Hz. rewrite <- Hz in Hin.
  destruct (write_bytes_eval (w_dram w) addr bs Hd Ha ltac:(lia) ltac:(by rewrite El)) as (m & Em & Eb).
  exists m. split; [unfold dram_write_bytes, bind, gets; cbn [fst snd]; by rewrite Em|].
  intros x. rewrite Eb, El. unfold mem_at. rewrite <- Ed.
  replace (addr - DRAM_BASE <=? x - DRAM_BASE) with (addr <=? x)
    by (destruct (Z.leb_spec addr x), (Z.leb_spec (addr - DRAM_BASE) (x - DRAM_BASE)); lia || done).
  replace (x - DRAM_BASE <? addr - DRAM_BASE + len) with (x <? addr + len)
    by (destruct (Z.ltb_spec x (addr + len)), (Z.ltb_spec (x - DRAM_BASE) (addr - DRAM_BASE + len)); lia || done).
  destruct (Z.leb_spec addr x), (Z.ltb_spec x (addr + len)); try done. cbn [andb].
  unfold bs. rewrite nth_map_seq by lia. rewrite uwrap_id by apply df_fits. f_equal. lia.
Qed.

(** C30. What the guest writes to the disk it reads back: an OUT request followed, after
    anything that changes neither the device nor the disk (the guest may overwrite
    its buffer), by an IN request for the same sectors and length, both succeed, and the
    second buffer then holds the bytes the first held when the OUT request was made;
    no other byte of DRAM changes in either request. *)
Theorem virtio_disk_roundtrip sector out inn s w' :
  blk_inv size s -> on_disk (fst s) sector (vd_len out) -> vd_len inn = vd_len out ->
  0 <= vd_len out < 2 ^ 64 -> fits 64 (vd_addr out) -> fits 64 (vd_addr inn) ->
  in_dram size (vd_addr out) (vd_len out) = true -> in_dram size (vd_addr inn) (vd_len out) = true ->
  has_flag VIRTIO_DESC_F_WRITE out = false -> has_flag VIRTIO_DESC_F_WRITE inn = true ->
  nz (Z.land (device_features_ (fst s)) VIRTIO_BLK_F_RO) = false ->
  let '(r1, s1) := blk_request id VIRTIO_BLK_T_OUT sector out s in
  (forall i, disk_get w' i = disk_get (snd s1) i) -> blk_inv size (fst s1, w') ->
  let '(r2, s2) := blk_request id VIRTIO_BLK_T_IN sector inn (fst s1, w') in
  r1 = Ok (Some VIRTIO_BLK_S_OK) /\ r2 = Ok (Some VIRTIO_BLK_S_OK) /\
  (forall x, mem_at s1 x = mem_at s x) /\
  forall x, mem_at s2 x =
    if (vd_addr inn <=? x) && (x <? vd_addr inn + vd_len out)
    then mem_at s (vd_addr out + (x - vd_addr inn)) else mem_at (fst s1, w') x.
Proof.
  intros Hs Ho El Hl Ha Hb Ia Ib Fo Fi Hro. destruct (range_test _ _ _ Ho ltac:(lia)) as (_ & _ & E3).
  assert (blk_request id VIRTIO_BLK_T_OUT sector out s =
    (Ok (Some VIRTIO_BLK_S_OK), (fst s, snd (disk_write (sector * 512)
       (buffer_of s (vd_addr out) (vd_len out)) (snd s))))) as ->.
  { unfold blk_request. unfold bind at 1, get at 1, gets at 1. rewrite E3.
    change (VIRTIO_BLK_T_OUT =? VIRTIO_BLK_T_IN) with false.
    change (VIRTIO_BLK_T_OUT =? VIRTIO_BLK_T_OUT) with true. cbv iota. rewrite Fo. cbn [negb].
    unfold bind at 1, get at 1, gets at 1. rewrite Hro. cbn [orb]. unfold bind at 1.
    by rewrite write_handler_eval. }
  set (w1 := snd (disk_write _ _ _)). intros Hw Hs1. cbn [fst snd] in *.
  destruct (read_handler_eval sector (vd_addr inn) (vd_len inn) (fst s, w') Hs1) as (m & Em & Eb);
    [by rewrite El|by rewrite El|done|by rewrite El|].
  assert (blk_request id VIRTIO_BLK_T_IN sector inn (fst s, w') =
    (Ok (Some VIRTIO_BLK_S_OK), (fst s, w_set_dram m (snd (disk_read (sector * 512) (vd_len inn) w'))))) as ->.
  { unfold blk_request. unfold bind at 1, get at 1, gets at 1. cbn [fst snd] in *. rewrite E3.
    change (VIRTIO_BLK_T_IN =? VIRTIO_BLK_T_IN) with true. cbv iota. rewrite Fi. unfold bind at 1.
    by rewrite Em. }
  split; [done|]. split; [done|]. split.
  { intros x. unfold mem_at. cbn [snd]. unfold w1. by rewrite disk_write_dram. }
  intros x. unfold mem_at at 1. cbn [snd]. rewrite w_dram_set, Eb, El. cbn [snd].
  destruct (Z.leb_spec (vd_addr inn) x), (Z.ltb_spec x (vd_addr inn + vd_len out)); try done. cbn [andb].
  rewrite Hw. unfold w1. rewrite df_write_get by (apply buffer_fits, Hs). rewrite buffer_length by lia.
  destruct (Z.leb_spec (sector * 512) (sector * 512 + (x - vd_addr inn))),
    (Z.ltb_spec (sector * 512 + (x - vd_addr inn)) (sector * 512 + vd_len out)); try lia. cbn [andb].
  unfold buffer_of. rewrite nth_map_seq by lia. unfold mem_at. f_equal. lia.
Qed.
End Disk.

(** ** Requests that bring the emulator down *)

Section BadRequests.
Context {W : Type} `{DramPortLaws W}.
Variable id : Z.
Variable size : Z.
Abbreviation st := (VirtioBlk * W)%type.

(** The copy a request makes between the guest's buffer and the disk, or from the serial number:
    the type of the request and the length of the copy. *)
Inductive data_copy (s : st) (sector : Z) (d1 : VirtqDesc) : Z -> Z -> Prop :=
  | copy_in bytes :
      has_flag VIRTIO_DESC_F_WRITE d1 = true -> on_disk (fst s) sector (vd_len d1) ->
      fst (disk_read (sector * 512) (vd_len d1) (snd s)) = Some bytes -> Z.of_nat (length bytes) = vd_len d1 ->
      data_copy s sector d1 VIRTIO_BLK_T_IN (vd_len d1)
  | copy_out :
      has_flag VIRTIO_DESC_F_WRITE d1 = false -> on_disk (fst s) sector (vd_len d1) ->
      nz (Z.land (device_features_ (fst s)) VIRTIO_BLK_F_RO) = false ->
      data_copy s sector d1 VIRTIO_BLK_T_OUT (vd_len d1)
  | copy_serial :
      has_flag VIRTIO_DESC_F_WRITE d1 = true ->
      data_copy s sector d1 VIRTIO_BLK_T_GET_ID (Z.min (vd_len d1) 10).

(** Outside of DRAM the copies throw. *)
Lemma write_bytes_outside d addr bytes : dram_wf d -> fits 64 addr -> Z.of_nat (length bytes) < 2 ^ 64 ->
  in_dram (size_ d) addr (Z.of_nat (length bytes)) = false -> write_bytes addr bytes d = None.
Proof. intros Hd Ha Hl Hn. unfold write_bytes. by rewrite valid_in_dram, Hn by (done || lia). Qed.

Lemma read_bytes_outside d addr len : dram_wf d -> fits 64 addr -> 0 <= len < 2 ^ 64 ->
  in_dram (size_ d) addr len = false -> read_bytes addr (Z.to_nat len) d = None.
Proof. intros Hd Ha Hl Hn. unfold read_bytes. rewrite Z2Nat.id by lia. by rewrite valid_in_dram, Hn. Qed.

Lemma copy_outside s sector d1 type len : blk_inv size s -> fits 64 (vd_addr d1) -> fits 32 (vd_len d1) ->
  data_copy s sector d1 type len -> in_dram size (vd_addr d1) len = false ->
  fst (blk_request id type sector d1 s) = Throw BTerminate.
Proof.
  intros [_ Hd Hz] Ha Hl Hc Hn. unfold fits in Hl. rewrite <- Hz in Hn. unfold blk_request.
  unfold bind at 1, get at 1, gets at 1. destruct Hc as [bytes Hf Ho Er El|Hf Ho Hro|Hf].
  - destruct (range_test _ _ _ Ho ltac:(lia)) as (E1 & E2 & ->). change (VIRTIO_BLK_T_IN =? VIRTIO_BLK_T_IN) with true.
    cbv iota. rewrite Hf. unfold read_handler. rewrite E1. unfold bind, get, gets. rewrite E2.
    pose proof (disk_read_dram (sector * 512) (vd_len d1) (snd s)) as Ed. unfold world, state.
    destruct (disk_read _ _ _) as [o w]. cbn [fst snd] in *. subst o. rewrite <- Ed in Hd, Hn. rewrite <- El in Hn.
    unfold dram_write_bytes, bind, gets. cbn [fst snd]. by rewrite write_bytes_outside by (done || lia).
  - destruct (range_test _ _ _ Ho ltac:(lia)) as (E1 & E2 & ->). change (VIRTIO_BLK_T_OUT =? VIRTIO_BLK_T_IN) with false.
    change (VIRTIO_BLK_T_OUT =? VIRTIO_BLK_T_OUT) with true. cbv iota. rewrite Hf. cbn [negb].
    unfold bind at 1, get at 1, gets at 1. rewrite Hro. cbn [orb]. unfold write_handler. rewrite E1.
    unfold bind, get, gets. rewrite E2. unfold dram_read_bytes, bind, gets.
    by rewrite read_bytes_outside by (done || lia).
  - change (VIRTIO_BLK_T_GET_ID =? VIRTIO_BLK_T_IN) with false. change (VIRTIO_BLK_T_GET_ID =? VIRTIO_BLK_T_OUT) with false.
    change (VIRTIO_BLK_T_GET_ID =? VIRTIO_BLK_T_FLUSH) with false.
    change (VIRTIO_BLK_T_GET_ID =? VIRTIO_BLK_T_GET_ID) with true. cbv iota. rewrite Hf. cbn [negb]. cbv zeta.
    set (bytes := take _ _). assert (Z.of_nat (length bytes) = Z.min (vd_len d1) 10) as El.
    { unfold bytes. rewrite length_take. change (length SERIAL0001) with 10%nat.
      destruct (Z.ltb_spec (vd_len d1) 10); lia. }
    rewrite <- El in Hn. unfold dram_write_bytes, bind, gets. cbn [fst snd].
    by rewrite write_bytes_outside by (done || lia).
Qed.

(** What the handler of the first chain throws, the notification throws. *)
Lemma chain_throws i s head d0 d1 d2 e : blk_inv size s -> chains_pending size i s ->
  next_chain size i s head d0 d1 d2 -> fst (desc_handler id (queue_at i (fst s)) head s) = Throw e ->
  fst (queue_notify_handler id i s) = Throw e.
Proof.
  intros Hs Hp Hc He. rewrite (notify_loop id size) by done. cbv zeta.
  destruct notify_fuel_two as [fuel ->]. cbn [handle_all]. unfold bind at 1 2, get at 1, gets at 1.
  pose proof (cp_index_new _ _ _ Hp) as Hne. apply not_eq_sym, Z.eqb_neq in Hne. rewrite Hne.
  unfold bind at 1. rewrite (handle_one_chain id size i s head _ d0 d1 d2) by done. cbv zeta. unfold bind at 1.
  destruct (desc_handler id _ head s) as [r s']. cbn [fst] in He. by rewrite He.
Qed.

(** C40. Three ways a guest brings the emulator down through the block device, from any well-formed
    state in which the driver has made at least one chain available on a ready queue.  If the first
    chain is a request whose copy -- of sectors of the disk, or of the serial number -- is
    from or to a buffer that is not in DRAM, an exception leaves a noexcept function; if the
    request is done but the address of its status byte is not in DRAM, the byte is written outside
    of the array; and if the queue was given no size, so that the available index is behind the
    one the device has seen, the notification divides by zero. *)
Theorem virtio_bad_requests i s : blk_inv size s -> chains_pending size i s ->
  (forall head d0 d1 d2 len, next_chain size i s head d0 d1 d2 ->
     data_copy s (request_sector d0 s) d1 (request_type d0 s) len ->
     in_dram size (vd_addr d1) len = false ->
     fst (queue_notify_handler id i s) = Throw BTerminate) /\
  (forall head d0 d1 d2 status s1, next_chain size i s head d0 d1 d2 ->
     blk_request id (request_type d0 s) (request_sector d0 s) d1 s = (Ok (Some status), s1) ->
     in_dram size (vd_addr d2) 1 = false ->
     fst (queue_notify_handler id i s) = Throw BStatusByte) /\
  (queue_num (queue_at i (fst s)) = 0 -> fst (queue_notify_handler id i s) = Throw BDivide).
Proof.
  intros Hs Hp. split; [|split].
  - intros head d0 d1 d2 len Hc Hd Hn. apply (chain_throws i s head d0 d1 d2); [done..|].
    rewrite (desc_handler_request id size i s head d0 d1 d2) by done. unfold bind at 1.
    destruct (chain_fits size i s head d0 d1 d2 Hs Hc) as (_ & F1 & _).
    assert (fits 32 (vd_len d1)) as Fl.
    { destruct (nc_chain _ _ _ _ _ _ _ Hc) as (_ & -> & _). apply (read_fits 4), Hs. }
    pose proof (copy_outside s _ d1 _ len Hs F1 Fl Hd Hn) as E. destruct (blk_request _ _ _ _ s) as [r s1].
    cbn [fst] in E. by rewrite E.
  - intros head d0 d1 d2 status s1 Hc Hr Hn. apply (chain_throws i s head d0 d1 d2); [done..|].
    rewrite (desc_handler_request id size i s head d0 d1 d2) by done. unfold bind at 1. rewrite Hr.
    destruct (chain_fits size i s head d0 d1 d2 Hs Hc) as (_ & _ & F2).
    pose proof (blk_request_keeps id size False (queues_ (fst s)) (request_type d0 s) (request_sector d0 s) d1 s
      (conj Hs eq_refl)) as K. rewrite Hr in K. destruct K as [K _].
    unfold bind at 1, dram_write. rewrite (valid_eval size) by (done || lia). change (Z.of_nat 1) with 1. by rewrite Hn.
  - intros Hz. rewrite (notify_loop id size) by done. cbv zeta. destruct notify_fuel_two as [fuel ->].
    cbn [handle_all]. unfold bind at 1 2, get at 1, gets at 1. pose proof (cp_index_new _ _ _ Hp) as Hne.
    apply not_eq_sym, Z.eqb_neq in Hne. rewrite Hne. unfold bind at 1, handle_one. unfold bind at 1, get at 1, gets at 1.
    by rewrite Hz.
Qed.
End BadRequests.

(** ** A small machine: 64 KiB of DRAM, a disk and one interrupt line *)

Section Small.
Record small_world := mkSmall { sw_dram : Dram; sw_disk : Z -> Z; sw_line : bool }.
#[local] Instance small_irq : IrqPort small_world := fun _ lvl w => mkSmall (sw_dram w) (sw_disk w) lvl.
#[local] Instance small_dram : DramPort small_world := {
  w_dram := sw_dram;
  w_set_dram d w := mkSmall d (sw_disk w) (sw_line w);
}.
#[local] Instance small_disk : DiskPort small_world := {
  disk_read off len w := (Some (map (fun k => u8 (sw_disk w (off + Z.of_nat k))) (seq 0 (Z.to_nat len))), w);
  disk_write off bs w := (true, mkSmall (sw_dram w) (fun i =>
    if (off <=? i) && (i <? off + Z.of_nat (length bs)) then nth (Z.to_nat (i - off)) bs 0 else sw_disk w i)
    (sw_line w));
  disk_flush w := w;
}.
#[local] Instance small_laws : DramPortLaws small_world.
Proof. by split. Qed.
#[local] Instance small_file : DiskFile small_world.
Proof.
  refine {| disk_get w i := u8 (sw_disk w i) |}; try done.
  - intros w i. apply uwrap_fits. lia.
  - intros off bs w i Hbs. cbn. destruct ((off <=? i) && (i <? off + Z.of_nat (length bs))) eqn:E; [|done].
    bool_hyps. apply uwrap_id. apply (proj1 (List.Forall_nth _ bs) Hbs). lia.
Defined.

(** The rings and the request of a driver, at fixed places. *)
Definition request_mem (type sector flags1 buf status : Z) : list (nat * Z * Z) :=
  [ (8%nat, 0x80001000, 0x80004000); (4%nat, 0x80001008, 16); (2%nat, 0x8000100c, 1); (2%nat, 0x8000100e, 1);
    (8%nat, 0x80001010, buf); (4%nat, 0x80001018, 4); (2%nat, 0x8000101c, flags1); (2%nat, 0x8000101e, 2);
    (8%nat, 0x80001020, status); (4%nat, 0x80001028, 1); (2%nat, 0x8000102c, 2); (2%nat, 0x8000102e, 0);
    (2%nat, 0x80002002, 1); (4%nat, 0x80004000, type); (8%nat, 0x80004008, sector);
    (4%nat, 0x80005000, 0xCAFEBABE); (1%nat, 0x80006000, 0xFF) ].
Definition small_mem (l : list (nat * Z * Z)) : Dram :=
  foldl (fun d nav => let '(n, a, v) := nav in Dram.write n a v d) (Dram_init 0x10000) l.
Definition small_queue (num last : Z) : VirtioBlkQueue :=
  mkQueue num 0x80001000 0x80002000 0x80003000 last true.
Definition small_blk (q : VirtioBlkQueue) : VirtioBlk :=
  mkBlk 0 0 0 0 0 [q; queue_init] VIRTIO_STATUS_DRIVER_OK 0 0x10000 (bv_store capacity_at 8 128 (bv_new sizeof_config 0)).
Definition small_state (q : VirtioBlkQueue) (l : list (nat * Z * Z)) : VirtioBlk * small_world :=
  (small_blk q, mkSmall (small_mem l) (fun i => i) false).

Lemma small_mem_wf l : dram_wf (small_mem l) /\ size_ (small_mem l) = 0x10000.
Proof.
  unfold small_mem. set (d := Dram_init 0x10000).
  assert (dram_wf d /\ size_ d = 0x10000) as H.
  { split; [split; [apply map_Forall_empty|cbn; unfold DRAM_BASE; lia]|done]. }
  clearbody d. revert d H. induction l as [|[[n a] v] l IH]; intros d [Hw Hs]; [done|].
  cbn [foldl]. apply IH. split; [by apply write_wf|]. rewrite <- Hs. apply store_le_size.
Qed.

Lemma small_inv q l : queue_ok q -> blk_inv 0x10000 (small_state q l).
Proof.
  intros Hq. destruct (small_mem_wf l) as [Hw Hs]. split; [|exact Hw|exact Hs].
  split; [done| |cbn; lia]. apply Forall_cons_2; [done|]. apply Forall_cons_2; [|done].
  unfold queue_ok, fits, queue_init. cbn. lia.
Qed.

Lemma small_queue_ok num last : 0 <= num <= 1024 -> fits 16 last -> queue_ok (small_queue num last).
Proof. unfold queue_ok, fits, small_queue. cbn. lia. Qed.

Definition out_state := small_state (small_queue 8 0) (request_mem VIRTIO_BLK_T_OUT 3 1 0x80005000 0x80006000).

Lemma virtio_safe_witness :
  (let '(r, _) := queue_notify_handler 12 0 out_state in r = Ok tt) /\
  blk_inv 0x10000 (snd (queue_notify_handler 12 0 out_state)).
Proof.
  destruct (virtio_safe 12 0x10000 VIRTIO_QueueNotify 4 0 out_state
    (small_inv _ _ (small_queue_ok 8 0 ltac:(lia) ltac:(unfold fits; lia)))) as [_ N].
  specialize (N 0 ltac:(unfold fits; lia)).
  assert (fst (queue_notify_handler 12 0 out_state) = Ok tt) as E by (vm_compute; reflexivity).
  destruct (queue_notify_handler 12 0 out_state) as [r s']. cbn [fst snd] in *. subst r.
  split; [reflexivity|exact N].
Defined.

(** The word CAFEBABE goes to sector 3; the status is 0, the used element reports 4 bytes. *)
Lemma virtio_one_request_witness :
  let s' := snd (queue_notify_handler 12 0 out_state) in
  let m := sw_dram (snd s') in
  sw_disk (snd s') 1539 = 0xCA /\ Dram.read 1 0x80006000 m = 0 /\ Dram.read 4 0x80003008 m = 4 /\
  Dram.read 2 0x80003002 m = 1 /\ interrupt_status_ (fst s') = 1 /\ sw_line (snd s') = true.
Proof.
  set (q := small_queue 8 0). set (m := w_dram (snd out_state)).
  pose proof (virtio_one_request 12 0x10000 0 out_state 0 0 (desc_in q 0 m) (desc_in q 1 m) (desc_in q 2 m) 0
    (snd (blk_request 12 VIRTIO_BLK_T_OUT 3 (desc_in q 1 m) out_state))
    (small_inv _ _ (small_queue_ok 8 0 ltac:(lia) ltac:(unfold fits; lia)))) as T.
  cbv zeta. rewrite T; clear T.
  - vm_compute. repeat split; reflexivity.
  - split; try (vm_compute; reflexivity); try (split_and!; vm_compute; reflexivity); [lia|by vm_compute].
  - vm_compute. reflexivity.
Defined.

Lemma virtio_disk_roundtrip_witness :
  let out := mkDesc 0x80005000 4 1 0 in
  let inn := mkDesc 0x80007000 4 3 0 in
  let s1 := snd (blk_request 12 VIRTIO_BLK_T_OUT 3 out out_state) in
  let s2 := snd (blk_request 12 VIRTIO_BLK_T_IN 3 inn s1) in
  mem_at s2 0x80007003 = 0xCA.
Proof.
  intros out inn. pose proof (small_inv (small_queue 8 0) (request_mem VIRTIO_BLK_T_OUT 3 1 0x80005000 0x80006000)
    (small_queue_ok 8 0 ltac:(lia) ltac:(unfold fits; lia))) as Hi.
  pose proof (virtio_disk_roundtrip 12 0x10000 3 out inn out_state
    (snd (snd (blk_request 12 VIRTIO_BLK_T_OUT 3 out out_state))) Hi) as T.
  assert (on_disk (fst out_state) 3 (vd_len out)) as Ho by (by vm_compute).
  specialize (T Ho eq_refl ltac:(cbn; lia) ltac:(unfold fits; cbn; lia) ltac:(unfold fits; cbn; lia)
    eq_refl eq_refl eq_refl eq_refl eq_refl).
  pose proof (blk_request_keeps 12 0x10000 False _ VIRTIO_BLK_T_OUT 3 out out_state (conj Hi eq_refl)) as K.
  destruct (blk_request 12 VIRTIO_BLK_T_OUT 3 out out_state) as [r1 [d1 w1]] eqn:E1. cbn [fst snd] in *.
  specialize (T (fun i => eq_refl)).
  assert (r1 = Ok (Some VIRTIO_BLK_S_OK)) as -> by (change r1 with (fst (r1, (d1, w1))); rewrite <- E1; vm_compute; reflexivity).
  specialize (T (proj1 K)). destruct (blk_request 12 VIRTIO_BLK_T_IN 3 inn (d1, w1)) as [r2 s2].
  destruct T as (_ & _ & _ & T). rewrite T. vm_compute. reflexivity.
Defined.

(** Three requests: to sector 0 with a buffer outside of DRAM; with the status byte just behind
    DRAM; and on a queue without a size. *)
Definition bad_state (num last buf status : Z) :=
  small_state (small_queue num last) (request_mem VIRTIO_BLK_T_IN 0 3 buf status).

Lemma bad_state_pending num last buf status : fst (num, last) = 8 /\ last = 0 \/ num = 0 /\ last = 2 ->
  (buf, status) ∈ [(0x1000, 0x80006000); (0x80005000, 0x80010000)] ->
  chains_pending 0x10000 0 (bad_state num last buf status).
Proof.
  intros Hn Hb. destruct Hn as [[? ->]|[-> ->]]; cbn [fst] in *; subst;
    (apply elem_of_cons in Hb as [[= -> ->]|Hb]; [|apply list_elem_of_singleton in Hb as [= -> ->]]);
    (split; [lia|by vm_compute|by vm_compute|by vm_compute|by vm_compute]).
Qed.

Lemma virtio_bad_requests_witness :
  fst (queue_notify_handler 12 0 (bad_state 8 0 0x1000 0x80006000)) = Throw BTerminate /\
  fst (queue_notify_handler 12 0 (bad_state 8 0 0x80005000 0x80010000)) = Throw BStatusByte /\
  fst (queue_notify_handler 12 0 (bad_state 0 2 0x1000 0x80006000)) = Throw BDivide.
Proof.
  set (q := small_queue 8 0).
  assert (queue_ok q) as Hq by (apply small_queue_ok; [lia|unfold fits; lia]).
  split; [|split].
  - set (s := bad_state 8 0 0x1000 0x80006000). set (m := w_dram (snd s)).
    destruct (virtio_bad_requests 12 0x10000 0 s (small_inv _ _ Hq) ltac:(apply bad_state_pending; [auto|set_solver]))
      as [T _].
    apply (T 0 (desc_in q 0 m) (desc_in q 1 m) (desc_in q 2 m) 4); [| |by vm_compute].
    + split; [done|by vm_compute|by vm_compute|by split_and!; vm_compute|by vm_compute|by vm_compute].
    + change (data_copy s (request_sector (desc_in q 0 m) s) (desc_in q 1 m) VIRTIO_BLK_T_IN 4).
      apply (copy_in s _ (desc_in q 1 m) [0; 1; 2; 3]); by vm_compute.
  - set (s := bad_state 8 0 0x80005000 0x80010000). set (m := w_dram (snd s)).
    destruct (virtio_bad_requests 12 0x10000 0 s (small_inv _ _ Hq) ltac:(apply bad_state_pending; [auto|set_solver]))
      as (_ & T & _).
    apply (T 0 (desc_in q 0 m) (desc_in q 1 m) (desc_in q 2 m) VIRTIO_BLK_S_OK
      (snd (blk_request 12 VIRTIO_BLK_T_IN 0 (desc_in q 1 m) s))); [|by vm_compute|by vm_compute].
    split; [done|by vm_compute|by vm_compute|by split_and!; vm_compute|by vm_compute|by vm_compute].
  - destruct (virtio_bad_requests 12 0x10000 0 (bad_state 0 2 0x1000 0x80006000)) as (_ & _ & T);
      [apply small_inv, small_queue_ok; [lia|unfold fits; lia]|apply bad_state_pending; [auto|set_solver]|].
    by apply T.
Defined.

(** The interrupt line is raised with a bit of the interrupt status and lowered when the
    driver has acknowledged every bit, but a reset clears the status and leaves the
    line as it was: after an interrupt and a reset the line stays high with no bit set. *)
Theorem virtio_reset_keeps_line :
  let s1 := snd (queue_notify_handler 12 0 out_state) in
  let ack := snd (blk_write_internal 12 VIRTIO_InterruptACK 4 1 s1) in
  let rst := snd (blk_write_internal 12 VIRTIO_Status 4 0 s1) in
  sw_line (snd s1) = true /\ interrupt_status_ (fst s1) = 1 /\
  sw_line (snd ack) = false /\ interrupt_status_ (fst ack) = 0 /\
  sw_line (snd rst) = true /\ interrupt_status_ (fst rst) = 0.
Proof. by vm_compute. Qed.
End Small.
