(* ===== verification/DeviceFrames.v ===== *)
(** * The devices act on the rest of the machine only through their ports

    For any reflexive and transitive relation on worlds that every port respects, every
    access, tick and host event of a device relates the world before to the one after. *)

From S2P Require Import Prelude Bits Hart HartInv Machine Bus Decoder Mmu MmuSpec Ports.
From S2P Require Import ByteVec SmallDevices Ns16550 GoldfishRtc GoldfishEvents PFlash Clint VirtioBlk.
Import TestIntrGen SiFiveTest NemuConsole SimpleFB BCM2835Rng GoldfishBattery.

(** The relation of a result: what [snd (snd r)] is to the world before. *)
Section Frames.
Context {W : Type} (R : W -> W -> Prop) `{!PreOrder R}.

Definition frames {S A} (w : W) (r : A * (S * W)) : Prop := R w (snd (snd r)).
Definition frames_s {S} (w : W) (s : S * W) : Prop := R w (snd s).

Lemma frames_trans w w' w'' : R w w' -> R w' w'' -> R w w''.
Proof. apply transitivity. Qed.

Section Twice.
Context {S : Type}.
Lemma read_twice_frames (r4 : Z -> S * W -> option Z * (S * W)) off s :
  (forall off s, frames (snd s) (r4 off s)) -> frames (snd s) (read_twice r4 off s).
Proof.
  intros H. unfold read_twice, frames. pose proof (H off s) as H1.
  destruct (r4 off s) as [[lo|] s1]; [|done]. unfold frames in H1. cbn [fst snd] in H1.
  pose proof (H (u64 (off + 4)) s1) as H2. unfold frames in H2.
  destruct (r4 _ s1) as [[hi|] s2]; cbn [fst snd] in *; by etransitivity.
Qed.
Lemma write_twice_frames (w4 : Z -> Z -> S * W -> bool * (S * W)) off v s :
  (forall off v s, frames (snd s) (w4 off v s)) -> frames (snd s) (write_twice w4 off v s).
Proof.
  intros H. unfold write_twice, frames. pose proof (H off (Z.land v 0xFFFFFFFF) s) as H1.
  destruct (w4 _ _ s) as [[] s1]; [|done]. unfold frames in H1. cbn [fst snd] in H1.
  pose proof (H (u64 (off + 4)) (Z.shiftr v 32) s1) as H2. unfold frames in H2.
  by etransitivity.
Qed.
End Twice.

(** ** The devices on the hart *)
Section OnHart.
Context `{HartPort W}.
Hypothesis R_hart : forall flag lvl w, R w (w_upd_hart (set_interrupt_pending flag lvl) w).

Lemma sig_write_frames off size v w : R w (snd (sig_write_internal off size v w)).
Proof. unfold sig_write_internal. repeat case_match; simpl; try done; apply R_hart. Qed.

Context `{SteadyClock W} `{UndefinedConversion}.
Hypothesis R_clock : forall w, R w (snd (steady_clock_now w)).

Lemma handle_compare_frames c w : R w (handle_stimecmp c (handle_mtimecmp c w)).
Proof.
  unfold handle_stimecmp, handle_mtimecmp. case_match; [etransitivity|]; apply R_hart.
Qed.

Lemma tick_internal_frames s : frames_s (snd s) (tick_internal s).
Proof.
  destruct s as [c w]. unfold tick_internal, frames_s. pose proof (R_clock w) as Hc.
  destruct (steady_clock_now w) as [now w1]. cbn [fst snd] in *.
  etransitivity; [exact Hc|apply handle_compare_frames].
Qed.

Lemma get_mtime_frames s : frames (snd s) (get_mtime s).
Proof.
  unfold get_mtime. pose proof (tick_internal_frames s) as Ht.
  by destruct (tick_internal s) as [c w].
Qed.

Lemma clint_read_frames off size s : frames (snd s) (clint_read_internal off size s).
Proof.
  destruct s as [c w]. unfold clint_read_internal. pose proof (get_mtime_frames (c, w)) as Hg.
  repeat case_match; try done; unfold frames; simpl; reflexivity.
Qed.

Lemma clint_write_frames off size v s : frames (snd s) (clint_write_internal off size v s).
Proof.
  destruct s as [c w]. unfold clint_write_internal, frames. cbn [snd].
  destruct (_ && _); [apply R_hart|]. destruct (_ && _).
  { apply (tick_internal_frames (_, w)). }
  destruct (_ && _); [|reflexivity]. pose proof (R_clock w) as Hc.
  destruct (steady_clock_now w) as [now w1]. cbn [fst snd] in *.
  etransitivity; [exact Hc|apply handle_compare_frames].
Qed.
End OnHart.

(** ** The devices behind the interrupt controller *)
Section OnIrq.
Context `{IrqPort W}.
Hypothesis R_irq : forall id lvl w, R w (irq_callback id lvl w).

Lemma battery_read_frames id off size s : frames (snd s) (battery_read_internal id off size s).
Proof. destruct s. unfold battery_read_internal, frames. repeat case_match; simpl; try done; apply R_irq. Qed.
Lemma battery_write_frames off size v (s : GoldfishBattery * W) :
  frames (snd s) (battery_write_internal off size v s).
Proof. destruct s. unfold battery_write_internal, frames. by repeat case_match. Qed.

Lemma enqueue_frames id t c v s : frames_s (snd s) (enqueue_event id t c v s).
Proof.
  destruct s as [d w]. unfold enqueue_event, frames_s. cbv zeta.
  repeat case_match; simplify_eq/=; try done; apply R_irq.
Qed.
Lemma dequeue_frames id s : frames (snd s) (dequeue_event id s).
Proof.
  destruct s as [d w]. unfold dequeue_event, frames. cbv zeta.
  repeat case_match; simpl; try done; first [apply R_irq|etransitivity; apply R_irq].
Qed.
Lemma push_key_frames id code press s : frames_s (snd s) (push_key_event id code press s).
Proof. apply enqueue_frames. Qed.
Lemma events_read_frames id off size s : frames (snd s) (events_read_internal id off size s).
Proof.
  destruct s as [d w]. unfold events_read_internal. cbn [snd].
  destruct (_ && _); [|generalize d as d1; intros d1].
  - set (w1 := if is_buffered _ then _ else _).
    assert (R w w1) as H1 by (subst w1; case_match; [apply R_irq|done]).
    pose proof (dequeue_frames id (set_state STATE_LIVE d, w1)) as Hd.
    destruct (off =? REG_READ); [|by repeat case_match].
    destruct (dequeue_event id _) as [v s]. unfold frames in *. cbn [fst snd] in *.
    by etransitivity.
  - pose proof (dequeue_frames id (d1, w)) as Hd.
    destruct (off =? REG_READ); [|by unfold frames; repeat case_match].
    by destruct (dequeue_event id _) as [v s].
Qed.
Lemma events_write_frames off size v (s : GoldfishEvents * W) :
  frames (snd s) (events_write_internal off size v s).
Proof. destruct s. unfold events_write_internal, frames. by repeat case_match. Qed.

Context `{SteadyClock W}.
Hypothesis R_clock : forall w, R w (snd (steady_clock_now w)).

Lemma get_count_frames s : frames (snd s) (get_count s).
Proof.
  destruct s as [d w]. unfold get_count, get_host_time_ns, frames. pose proof (R_clock w).
  by destruct (steady_clock_now w).
Qed.
Lemma trigger_frames id s : frames_s (snd s) (trigger_interrupt id s).
Proof. destruct s. apply R_irq. Qed.
Lemma set_alarm_frames id s : frames_s (snd s) (set_alarm id s).
Proof.
  unfold set_alarm. pose proof (get_count_frames s) as Hc.
  destruct (get_count s) as [n [d w]]. unfold frames in Hc. cbn [fst snd] in Hc.
  case_match; [|done]. unfold frames_s in *. etransitivity; [exact Hc|].
  apply (trigger_frames id (clear_alarm (d, w))).
Qed.
Lemma rtc_tick_frames id s : frames_s (snd s) (rtc_tick id s).
Proof.
  unfold rtc_tick. case_match; [|unfold frames_s; reflexivity].
  pose proof (get_count_frames s) as Hc. destruct (get_count s) as [n [d w]].
  unfold frames in Hc. cbn [fst snd] in Hc. case_match; [|done].
  unfold frames_s in *. etransitivity; [exact Hc|]. apply (trigger_frames id (d, w)).
Qed.
Lemma rtc_read_4_frames off s : frames (snd s) (rtc_read_4 off s).
Proof.
  unfold rtc_read_4. pose proof (get_count_frames s) as Hc.
  destruct (get_count s) as [n [d w]]. repeat case_match; try done; unfold frames; reflexivity.
Qed.
Lemma move_time_frames f s : frames_s (snd s) (rtc_move_time f s).
Proof.
  unfold rtc_move_time. pose proof (get_count_frames s) as Hc. by destruct (get_count s) as [n [d w]].
Qed.
Lemma rtc_write_4_frames id off v s : frames (snd s) (rtc_write_4 id off v s).
Proof.
  destruct s as [d w]. unfold rtc_write_4, frames.
  repeat case_match; simpl; try done; first [apply (move_time_frames _ (d, w))
    | apply (set_alarm_frames id (_, w)) | apply R_irq].
Qed.
Lemma rtc_read_frames off size s : frames (snd s) (rtc_read_internal off size s).
Proof.
  unfold rtc_read_internal. case_match; [by apply read_twice_frames, rtc_read_4_frames|].
  case_match; [unfold frames; reflexivity|apply rtc_read_4_frames].
Qed.
Lemma rtc_write_frames id off size v s : frames (snd s) (rtc_write_internal id off size v s).
Proof.
  unfold rtc_write_internal. case_match; [by apply write_twice_frames, rtc_write_4_frames|].
  case_match; [unfold frames; reflexivity|apply rtc_write_4_frames].
Qed.

Context `{ConsolePort W}.
Hypothesis R_read_char : forall w, R w (snd (read_char w)).
Hypothesis R_write_char : forall c w, R w (write_char c w).

Lemma update_interrupt_frames id s : frames_s (snd s) (update_interrupt id s).
Proof.
  destruct s as [d w]. unfold update_interrupt, frames_s. cbv zeta.
  destruct (_ =? 0); cbn [snd]; apply R_irq.
Qed.
Lemma ns_tick_frames id s : frames_s (snd s) (ns_tick id s).
Proof.
  destruct s as [d w]. unfold ns_tick. case_match; [unfold frames_s; reflexivity|].
  pose proof (R_read_char w) as Hr. destruct (read_char w) as [[c|] w1]; [|done].
  unfold frames_s in *. cbn [fst snd] in *. etransitivity; [exact Hr|].
  apply (update_interrupt_frames id (_, w1)).
Qed.
Lemma ns_read_frames id off size s : frames (snd s) (ns_read_internal id off size s).
Proof.
  destruct s as [d w]. unfold ns_read_internal. cbv zeta.
  do 2 (case_match; [unfold frames; reflexivity|]).
  destruct (_ =? RX); [|repeat case_match; unfold frames; reflexivity].
  destruct (if nz _ then _ else _) as [v d1]. apply (update_interrupt_frames id (d1, w)).
Qed.
Lemma ns_write_tx_frames id v s : frames_s (snd s) (ns_write_tx id v s).
Proof.
  destruct s as [d w]. unfold ns_write_tx, frames_s. cbn [snd].
  repeat case_match; try apply (update_interrupt_frames id (_, w)).
  unfold tx_byte. etransitivity; [apply (R_write_char v)|].
  apply (update_interrupt_frames id (_, write_char v w)).
Qed.
Lemma ns_write_frames id off size v s : frames (snd s) (ns_write_internal id off size v s).
Proof.
  destruct s as [d w]. unfold ns_write_internal. cbv zeta.
  do 2 (case_match; [unfold frames; reflexivity|]).
  destruct (_ =? TX); [apply (ns_write_tx_frames id _ (d, w))|].
  repeat case_match; unfold frames; cbn [fst snd];
    first [apply (update_interrupt_frames id (_, w))|reflexivity].
Qed.
End OnIrq.

Section Others.
Context `{ShutdownPort W} `{PrintPort W} `{RandomPort W}.
Hypothesis R_shutdown : forall c s w, R w (on_shutdown c s w).
Hypothesis R_print : forall c w, R w (print_char c w).
Hypothesis R_random : forall w, R w (snd (get_random_bytes w)).

Lemma sifive_write_frames off size v w : R w (snd (sifive_write_internal off size v w)).
Proof. unfold sifive_write_internal. simpl. repeat case_match; try done; apply R_shutdown. Qed.
Lemma nemu_write_frames off size v w : R w (snd (nemu_write_internal off size v w)).
Proof. unfold nemu_write_internal. case_match; [apply R_print|done]. Qed.

Lemma rng_read_4_frames off s : frames (snd s) (rng_read_4 off s).
Proof.
  destruct s as [d w]. unfold rng_read_4, frames. pose proof (R_random w).
  destruct (get_random_bytes w). by repeat case_match.
Qed.
Lemma rng_read_frames off size s : frames (snd s) (rng_read_internal off size s).
Proof.
  unfold rng_read_internal. case_match; [by apply read_twice_frames, rng_read_4_frames|].
  case_match; [unfold frames; reflexivity|apply rng_read_4_frames].
Qed.
Lemma rng_write_frames off size v (s : BCM2835Rng * W) : frames (snd s) (rng_write_internal off size v s).
Proof.
  assert (forall off v (s : BCM2835Rng * W), frames (snd s) (rng_write_4 off v s)) as H4.
  { intros o x [d w]. unfold rng_write_4, frames. by repeat case_match. }
  unfold rng_write_internal. case_match; [by apply write_twice_frames|].
  case_match; [unfold frames; reflexivity|apply H4].
Qed.
End Others.

(** ** The device on DRAM and on the disk *)
Section OnDma.
Context `{IrqPort W} `{DramPort W} `{DiskPort W}.
Hypothesis R_irq : forall id lvl w, R w (irq_callback id lvl w).
Hypothesis R_write : forall n a v w, R w (w_set_dram (Dram.write n a v (w_dram w)) w).
Hypothesis R_write_bytes : forall a bs d w, write_bytes a bs (w_dram w) = Some d -> R w (w_set_dram d w).
Hypothesis R_disk_read : forall off len w, R w (snd (disk_read off len w)).
Hypothesis R_disk_write : forall off bs w, R w (snd (disk_write off bs w)).
Hypothesis R_flush : forall w, R w (disk_flush w).

Definition world_rel (s s' : VirtioBlk * W) : Prop := R (snd s) (snd s').
#[local] Instance world_rel_preorder : PreOrder world_rel.
Proof.
  split; [by intros s; unfold world_rel|]. intros s1 s2 s3. unfold world_rel. apply transitivity.
Qed.
Abbreviation fr := (framed (E := blk_exn) world_rel).

Lemma fr_upd f : fr (upd f).
Proof. intros s. unfold world_rel. done. Qed.
Lemma fr_get {A} (f : VirtioBlk -> A) : fr (VirtioBlk.get f).
Proof. intros s. unfold world_rel. done. Qed.
Lemma fr_valid a n : fr (dram_valid a n).
Proof. intros s. unfold world_rel. done. Qed.
Lemma fr_world {A} (f : W -> A * W) : (forall w, R w (snd (f w))) -> fr (world f).
Proof.
  intros Hf s. unfold world, state, world_rel. specialize (Hf (snd s)). by destruct (f (snd s)).
Qed.
Lemma fr_dram_read n a : fr (dram_read n a).
Proof. unfold dram_read. repeat (frame_step || apply fr_valid). Qed.
Lemma fr_dram_write e n a v : fr (dram_write e n a v).
Proof.
  unfold dram_write. repeat (frame_step || apply fr_valid). apply framed_modify. intros s. apply R_write.
Qed.
Lemma fr_write_bytes a bs : fr (dram_write_bytes a bs).
Proof.
  intros s. unfold dram_write_bytes, bind, gets. destruct (write_bytes a bs (w_dram (snd s))) as [d|] eqn:E.
  - by apply (R_write_bytes a bs).
  - unfold world_rel. done.
Qed.
Lemma fr_read_bytes a n : fr (dram_read_bytes a n).
Proof. unfold dram_read_bytes. repeat frame_step. Qed.

Ltac fr_go := repeat (cbv zeta; first
  [ frame_step | apply fr_upd | apply fr_get | apply fr_valid | apply fr_dram_read | apply fr_dram_write
  | apply fr_write_bytes | apply fr_read_bytes
  | apply fr_world; intros; first [apply R_irq | apply R_disk_read | apply R_disk_write | apply R_flush] ]).

Lemma fr_set_fail id : fr (set_fail id).
Proof. unfold set_fail. fr_go. Qed.
Lemma fr_read_handler s a n : fr (read_handler s a n).
Proof. unfold read_handler. fr_go. Qed.
Lemma fr_write_handler s a n : fr (write_handler s a n).
Proof. unfold write_handler. fr_go. Qed.
Lemma fr_read_chain id n q i : fr (read_chain id n q i).
Proof.
  revert i. induction n as [|n IH]; intros i; cbn [read_chain]; unfold read_desc;
    repeat (fr_go || apply fr_set_fail || apply IH).
Qed.
Lemma fr_request id t s d : fr (blk_request id t s d).
Proof.
  unfold blk_request. repeat (fr_go || apply fr_set_fail || apply fr_read_handler || apply fr_write_handler).
Qed.
Lemma fr_desc_handler id q i : fr (desc_handler id q i).
Proof.
  unfold desc_handler.
  repeat (fr_go || apply fr_read_chain || apply fr_set_fail || apply fr_request).
Qed.
Lemma fr_handle_one id i used : fr (handle_one id i used).
Proof. unfold handle_one. repeat (fr_go || apply fr_set_fail || apply fr_desc_handler). Qed.
Lemma fr_handle_all id fuel i new used : fr (handle_all id fuel i new used).
Proof.
  revert used. induction fuel as [|fuel IH]; intros used; cbn [handle_all]; [frame_step|].
  repeat (fr_go || apply fr_handle_one || apply IH).
Qed.
Lemma fr_notify id i : fr (queue_notify_handler id i).
Proof.
  unfold queue_notify_handler, queue_handler, publish_used.
  repeat (fr_go || apply fr_set_fail || apply fr_handle_all).
Qed.
Lemma fr_write_4 id size off v : fr (blk_write_4 id size off v).
Proof.
  unfold blk_write_4, write_ready, upd_selected, interrupt_ack, update_status, write_config, blk_update_irq.
  repeat (fr_go || apply fr_set_fail || apply fr_notify).
Qed.

(** A register write relates the world before to the one after, however it ends. *)
Lemma blk_write_frames id off size v s : R (snd s) (snd (snd (blk_write_internal id off size v s))).
Proof.
  enough (fr (blk_write_internal id off size v)) as Hf by apply (Hf s).
  unfold blk_write_internal. repeat (fr_go || apply fr_write_4).
Qed.
End OnDma.
End Frames.
