(* ===== verification/Emulator.v ===== *)
(** * The assembled machine (src/emulator.cpp)

    The state of all devices, their ports connected to the hart, the interrupt
    controller and the host, and the devices in the order the constructor registers
    them.  The instances of [Platform] and [PlatformLaws] make every
    theorem about the core a theorem about this machine. *)

From stdpp Require Import gmap.
From S2P Require Import Prelude Bits Hart HartInv Machine Bus Ports ByteVec SmallDevices.
From S2P Require Import Ns16550 GoldfishRtc GoldfishEvents PFlash Clint Plic Mmu Elf VirtioBlk VirtioBlkSpec.
Import TestIntrGen SiFiveTest NemuConsole SimpleFB BCM2835Rng GoldfishBattery.

(** ** The host

    The answers of the host to successive calls are arbitrary sequences; what the
    program prints, and the disk image, are kept. *)
Record HostEnv := mkHost {
  h_clock : nat -> Z;            (* steady_clock::now(), call by call *)
  h_unix : nat -> Z;             (* to_time_t(system_clock::now()) *)
  h_random : nat -> Z;           (* the mt19937 *)
  h_input : nat -> option Z;     (* the console's read_char *)
  h_disk_io : nat -> option nat; (* whether an access to the disk fails, and after how many bytes *)
  h_calls : nat;                 (* host calls made so far *)
  h_console : list Z;            (* characters written to the UART console *)
  h_stdout : list Z;             (* characters printed by the NEMU console *)
  h_disk : bytevec;              (* the bytes of the disk image *)
}.
Definition host_out (calls : nat) (console stdout : list Z) (disk : bytevec) (h : HostEnv) : HostEnv :=
  mkHost (h_clock h) (h_unix h) (h_random h) (h_input h) (h_disk_io h) calls console stdout disk.
Definition host_call (h : HostEnv) : HostEnv :=
  host_out (S (h_calls h)) (h_console h) (h_stdout h) (h_disk h) h.
Definition host_write (c : Z) (h : HostEnv) : HostEnv :=
  host_out (h_calls h) (h_console h ++ [c]) (h_stdout h) (h_disk h) h.
Definition host_print (c : Z) (h : HostEnv) : HostEnv :=
  host_out (h_calls h) (h_console h) (h_stdout h ++ [c]) (h_disk h) h.
Definition set_h_disk (v : bytevec) (h : HostEnv) : HostEnv :=
  host_out (h_calls h) (h_console h) (h_stdout h) v h.

(** Bytes [off], ..., [off + n - 1] of the image, and a copy into it. *)
Definition disk_bytes (off : Z) (n : nat) (v : bytevec) : list Z :=
  map (fun i => u8 (bv_get v (off + Z.of_nat i))) (seq 0 n).
Definition disk_put (off : Z) (bytes : list Z) (v : bytevec) : bytevec :=
  foldl (fun v ib => bv_set (off + Z.of_nat (fst ib)) (snd ib) v) v (imap pair bytes).

(* The objects Emulator::Emulator creates, and the shutdown code and status. *)
(* @src src/emulator.cpp 42-122 Emulator::Emulator *)
Record Devices := mkDevices {
  d_clint : Clint;
  d_plic : Plic;
  d_shutdown : option (Z * Z);
  d_ns16550 : NS16550;
  d_simple_fb : bytevec;
  d_blk : option VirtioBlk;      (* when there is a disk *)
  d_flash0 : PFlashCFI01;
  d_flash1 : PFlashCFI01;
  d_events : GoldfishEvents;
  d_rtc : GoldfishRTC;
  d_battery : GoldfishBattery;
  d_rng : BCM2835Rng;
  d_dead : option blk_exn;       (* how a call of the block device ended the process *)
  d_host : HostEnv;
}.

Definition set_d_clint v d := mkDevices v (d_plic d) (d_shutdown d) (d_ns16550 d) (d_simple_fb d) (d_blk d) (d_flash0 d) (d_flash1 d) (d_events d) (d_rtc d) (d_battery d) (d_rng d) (d_dead d) (d_host d).
Definition set_d_plic v d := mkDevices (d_clint d) v (d_shutdown d) (d_ns16550 d) (d_simple_fb d) (d_blk d) (d_flash0 d) (d_flash1 d) (d_events d) (d_rtc d) (d_battery d) (d_rng d) (d_dead d) (d_host d).
Definition set_d_shutdown v d := mkDevices (d_clint d) (d_plic d) v (d_ns16550 d) (d_simple_fb d) (d_blk d) (d_flash0 d) (d_flash1 d) (d_events d) (d_rtc d) (d_battery d) (d_rng d) (d_dead d) (d_host d).
Definition set_d_ns16550 v d := mkDevices (d_clint d) (d_plic d) (d_shutdown d) v (d_simple_fb d) (d_blk d) (d_flash0 d) (d_flash1 d) (d_events d) (d_rtc d) (d_battery d) (d_rng d) (d_dead d) (d_host d).
Definition set_d_simple_fb v d := mkDevices (d_clint d) (d_plic d) (d_shutdown d) (d_ns16550 d) v (d_blk d) (d_flash0 d) (d_flash1 d) (d_events d) (d_rtc d) (d_battery d) (d_rng d) (d_dead d) (d_host d).
Definition set_d_blk v d := mkDevices (d_clint d) (d_plic d) (d_shutdown d) (d_ns16550 d) (d_simple_fb d) v (d_flash0 d) (d_flash1 d) (d_events d) (d_rtc d) (d_battery d) (d_rng d) (d_dead d) (d_host d).
Definition set_d_flash0 v d := mkDevices (d_clint d) (d_plic d) (d_shutdown d) (d_ns16550 d) (d_simple_fb d) (d_blk d) v (d_flash1 d) (d_events d) (d_rtc d) (d_battery d) (d_rng d) (d_dead d) (d_host d).
Definition set_d_flash1 v d := mkDevices (d_clint d) (d_plic d) (d_shutdown d) (d_ns16550 d) (d_simple_fb d) (d_blk d) (d_flash0 d) v (d_events d) (d_rtc d) (d_battery d) (d_rng d) (d_dead d) (d_host d).
Definition set_d_events v d := mkDevices (d_clint d) (d_plic d) (d_shutdown d) (d_ns16550 d) (d_simple_fb d) (d_blk d) (d_flash0 d) (d_flash1 d) v (d_rtc d) (d_battery d) (d_rng d) (d_dead d) (d_host d).
Definition set_d_rtc v d := mkDevices (d_clint d) (d_plic d) (d_shutdown d) (d_ns16550 d) (d_simple_fb d) (d_blk d) (d_flash0 d) (d_flash1 d) (d_events d) v (d_battery d) (d_rng d) (d_dead d) (d_host d).
Definition set_d_battery v d := mkDevices (d_clint d) (d_plic d) (d_shutdown d) (d_ns16550 d) (d_simple_fb d) (d_blk d) (d_flash0 d) (d_flash1 d) (d_events d) (d_rtc d) v (d_rng d) (d_dead d) (d_host d).
Definition set_d_rng v d := mkDevices (d_clint d) (d_plic d) (d_shutdown d) (d_ns16550 d) (d_simple_fb d) (d_blk d) (d_flash0 d) (d_flash1 d) (d_events d) (d_rtc d) (d_battery d) v (d_dead d) (d_host d).
Definition set_d_dead v d := mkDevices (d_clint d) (d_plic d) (d_shutdown d) (d_ns16550 d) (d_simple_fb d) (d_blk d) (d_flash0 d) (d_flash1 d) (d_events d) (d_rtc d) (d_battery d) (d_rng d) v (d_host d).
Definition set_d_host v d := mkDevices (d_clint d) (d_plic d) (d_shutdown d) (d_ns16550 d) (d_simple_fb d) (d_blk d) (d_flash0 d) (d_flash1 d) (d_events d) (d_rtc d) (d_battery d) (d_rng d) (d_dead d) v.

Abbreviation machine := (mach Devices).

(* The disk of the command line: [None] is an empty path. *)
(* @src src/emulator.cpp 42-45 Emulator::Emulator *)
Class DiskOption := disk_file : option DiskPath.
Definition has_disk `{DiskOption} : bool := match disk_file with Some _ => true | None => false end.

(** ** The ports *)

#[export] Instance machine_hart : HartPort machine := {
  w_hart := hart;
  w_upd_hart := upd_hart;
}.
#[export] Instance machine_hart_laws : HartPortLaws machine.
Proof. by split. Qed.

Definition on_host (f : HostEnv -> HostEnv) (m : machine) : machine :=
  upd_devs (fun d => set_d_host (f (d_host d)) d) m.
Definition ask_host {A} (f : HostEnv -> nat -> A) (m : machine) : A * machine :=
  let h := d_host (devs m) in (f h (h_calls h), on_host host_call m).

#[export] Instance machine_clock : SteadyClock machine := ask_host h_clock.
#[export] Instance machine_unix : SystemClock machine := ask_host h_unix.
#[export] Instance machine_random : RandomPort machine := ask_host h_random.
#[export] Instance machine_console : ConsolePort machine := {
  read_char := ask_host h_input;
  write_char c := on_host (host_write c);
}.
#[export] Instance machine_print : PrintPort machine := fun c => on_host (host_print c).

(** The DRAM shared with the block device, and the std::fstream of the image. *)
#[export] Instance machine_dram : DramPort machine := {
  w_dram := dram_;
  w_set_dram d := upd_dram (fun _ => d);
}.
Definition disk_answer (m : machine) : option nat * machine := ask_host h_disk_io m.
#[export] Instance machine_disk : DiskPort machine := {
  disk_read off len m :=
    let '(r, m) := disk_answer m in
    let v := h_disk (d_host (devs m)) in
    match r with
    | None => (if off + len <=? bv_size v then Some (disk_bytes off (Z.to_nat len) v) else None, m)
    | Some _ => (None, m)
    end;
  disk_write off bytes m :=
    let '(r, m) := disk_answer m in
    let put bytes := on_host (fun h => set_h_disk (disk_put off bytes (h_disk h)) h) m in
    match r with
    | None => (true, put bytes)
    | Some n => (false, put (take n bytes))
    end;
  disk_flush m := snd (disk_answer m);
}.

(* The lambda request_irq. *)
(* @src src/emulator.cpp 60-62 Emulator::Emulator *)
#[export] Instance machine_irq : IrqPort machine := fun id lvl m =>
  let '(p, h) := set_interrupt_level id lvl (d_plic (devs m), hart m) in
  upd_devs (set_d_plic p) (upd_hart (fun _ => h) m).

(* The lambda given to SiFiveTest. *)
(* @src src/emulator.cpp 65-71 Emulator::Emulator *)
#[export] Instance machine_shutdown : ShutdownPort machine := fun code status =>
  upd_devs (set_d_shutdown (Some (code, status))).

(** An operation on a device's own state and the machine, as one on the machine. *)
Definition with_own {S A} (get : Devices -> S) (set : S -> Devices -> Devices)
    (op : S * machine -> A * (S * machine)) (m : machine) : A * machine :=
  let '(a, (s, m)) := op (get (devs m), m) in (a, upd_devs (set s) m).
Definition with_own_ {S} (get : Devices -> S) (set : S -> Devices -> Devices)
    (op : S * machine -> S * machine) (m : machine) : machine :=
  snd (with_own get set (fun s => (tt, op s)) m).

(** Devices without a port. *)
Definition alone {S A} (op : S -> A * S) (s : S * machine) : A * (S * machine) :=
  let '(a, x) := op (fst s) in (a, (x, snd s)).

(** The interrupt controller works on the hart of the machine. *)
Definition plic_op {A} (op : Plic * Hart -> A * (Plic * Hart)) (m : machine) : A * machine :=
  let '(a, (p, h)) := op (d_plic (devs m), hart m) in
  (a, upd_devs (set_d_plic p) (upd_hart (fun _ => h) m)).

(** The block device: a read needs no port; a write may end the process, and then the first
    reason is kept. *)
Definition blk_read (off size : Z) (m : machine) : option Z * machine :=
  match d_blk (devs m) with
  | Some d => (blk_read_internal off size d, m)
  | None => (None, m)
  end.
Definition set_dead (e : blk_exn) (d : Devices) : Devices :=
  match d_dead d with None => set_d_dead (Some e) d | Some _ => d end.
Definition blk_write (off size value : Z) (m : machine) : bool * machine :=
  match d_blk (devs m) with
  | Some d =>
      match blk_write_internal BLK_ID off size value (d, m) with
      | (Ok ok, (d, m)) => (ok, upd_devs (set_d_blk (Some d)) m)
      | (Throw e, (d, m)) => (false, upd_devs (fun s => set_dead e (set_d_blk (Some d) s)) m)
      end
  | None => (false, m)
  end.

(** ** The devices on the bus *)

Section Emulator.
Context `{UndefinedConversion} `{DiskOption}.

Definition device_at (base size : Z) (r : Z -> Z -> machine -> option Z * machine)
    (w : Z -> Z -> Z -> machine -> bool * machine) (t : machine -> machine) : Device machine :=
  mkDevice base (Device_end base size) r w t.

Definition clint_device := device_at CLINT_BASE CLINT_SIZE
  (fun o n => with_own d_clint set_d_clint (clint_read_internal o n))
  (fun o n v => with_own d_clint set_d_clint (clint_write_internal o n v))
  (with_own_ d_clint set_d_clint Clint_tick).
Definition sig_device := device_at SIG_BASE SIG_SIZE
  sig_read_internal sig_write_internal id.
Definition plic_device := device_at PLIC_BASE PLIC_SIZE
  (fun o n => plic_op (plic_read_internal o n)) (fun o n v => plic_op (plic_write_internal o n v)) id.
Definition sifive_device := device_at SIFIVE_BASE SIFIVE_SIZE
  sifive_read_internal sifive_write_internal id.
Definition ns16550_device := device_at NS_BASE NS_SIZE
  (fun o n => with_own d_ns16550 set_d_ns16550 (ns_read_internal NS_ID o n))
  (fun o n v => with_own d_ns16550 set_d_ns16550 (ns_write_internal NS_ID o n v))
  (with_own_ d_ns16550 set_d_ns16550 (ns_tick NS_ID)).
Definition fb_device := device_at FB_BASE FB_SIZE
  (fun o n => with_own d_simple_fb set_d_simple_fb (alone (fb_read_internal o n)))
  (fun o n v => with_own d_simple_fb set_d_simple_fb (alone (fb_write_internal o n v))) id.
Definition blk_device := device_at BLK_BASE BLK_SIZE blk_read blk_write id.
Definition flash0_device := device_at 0x20000000 (u64 (0x10000 * 512))
  (fun o n => with_own d_flash0 set_d_flash0 (alone (flash_read_internal o n)))
  (fun o n v => with_own d_flash0 set_d_flash0 (alone (flash_write_internal o n v))) id.
Definition flash1_device := device_at 0x22000000 (u64 (0x10000 * 512))
  (fun o n => with_own d_flash1 set_d_flash1 (alone (flash_read_internal o n)))
  (fun o n v => with_own d_flash1 set_d_flash1 (alone (flash_write_internal o n v))) id.
Definition events_device := device_at EVENTS_BASE EVENTS_SIZE
  (fun o n => with_own d_events set_d_events (events_read_internal EVENTS_ID o n))
  (fun o n v => with_own d_events set_d_events (events_write_internal o n v)) id.
Definition rtc_device := device_at RTC_BASE RTC_SIZE
  (fun o n => with_own d_rtc set_d_rtc (rtc_read_internal o n))
  (fun o n v => with_own d_rtc set_d_rtc (rtc_write_internal RTC_ID o n v))
  (with_own_ d_rtc set_d_rtc (rtc_tick RTC_ID)).
Definition battery_device := device_at BATTERY_BASE BATTERY_SIZE
  (fun o n => with_own d_battery set_d_battery (battery_read_internal BATTERY_ID o n))
  (fun o n v => with_own d_battery set_d_battery (battery_write_internal o n v)) id.
Definition rng_device := device_at RNG_BASE RNG_SIZE
  (fun o n => with_own d_rng set_d_rng (rng_read_internal o n))
  (fun o n v => with_own d_rng set_d_rng (rng_write_internal o n v)) id.
Definition nemu_device := device_at NEMU_BASE NEMU_SIZE nemu_read_internal nemu_write_internal id.

(* The calls of add_device, in order. *)
(* @src src/emulator.cpp 52-119 Emulator::Emulator *)
Definition emulator_devices : list (Device machine) :=
  [ clint_device; sig_device; plic_device; sifive_device; ns16550_device; fb_device ]
  ++ (if has_disk then [blk_device] else []) ++
  [ flash0_device; flash1_device; events_device; rtc_device; battery_device; rng_device;
    nemu_device ].

(** What the devices keep true: while the process lives the registers of the block device
    are well formed, and it can only have ended in one of three ways. *)
Definition emulator_devs_ok (d : Devices) : Prop :=
  match d_dead d with
  | None => forall b, d_blk d = Some b -> regs_ok b
  | Some e => e = BTerminate \/ e = BStatusByte \/ e = BDivide
  end.

#[export] Instance emulator_platform : Platform Devices := {
  devices_ := emulator_devices;
  clint_get_mtime := with_own d_clint set_d_clint get_mtime;
  clint_tick := with_own_ d_clint set_d_clint Clint_tick;
  guest_shutdown d := match d_shutdown d with Some _ => true | None => false end;
  process_dead d := has_disk && match d_dead d with Some _ => true | None => false end;
  devs_ok := emulator_devs_ok;
}.
End Emulator.

(** ** Construction and loading *)

Section Construction.
Context `{UndefinedConversion} `{DiskOption}.

(** The device name "qwerty2" of the input device. *)
Definition qwerty2 : list Z := [0x71; 0x77; 0x65; 0x72; 0x74; 0x79; 0x32].

(* Every object before its constructor has run on the world; the clocks follow. *)
(* @src src/emulator.cpp 46-51 Emulator::Emulator *)
Definition blank_machine (dram_size : Z) (host : HostEnv) : machine :=
  mkMach (Hart_init DRAM_BASE) MMU_init (Dram_init dram_size) 0 0
    (mkDevices (mkClint 0 0 0 CLINT_FREQ) (Plic_init 31) None (NS16550_init 0 1) SimpleFB_init None
       (PFlash_init 0x10000 512) (PFlash_init 0x10000 512) (GoldfishEvents_init qwerty2)
       (mkRtc 0 0 0 0 0 0) (GoldfishBattery_init 96) BCM2835Rng_init None host).

(* An empty path is [None]. *)
(* @src src/emulator.cpp 90-98 Emulator::Emulator *)
Definition load_flash (file : option (list Z)) (d : PFlashCFI01) : option PFlashCFI01 :=
  match file with None => Some d | Some bytes => PFlash_load bytes 0 d end.

(* The image of a disk that is opened: a new file is 64 MB of zeros. *)
(* @src src/device/virtio_blk.cpp 42-56 VirtioBlk::open_disk *)
Definition disk_image (path : DiskPath) : bytevec :=
  match test_file path with
  | None => bv_new DEFAULT_DISK_SIZE 0
  | Some bytes => disk_put 0 bytes (bv_new (Z.of_nat (length bytes)) 0)
  end.

(* The disk of an empty path is no device; [None] is the exception of the constructor. *)
(* @src src/emulator.cpp 82-85 Emulator::Emulator *)
Definition open_blk (m : machine) : option machine :=
  match disk_file with
  | None => Some m
  | Some path =>
      match VirtioBlk_init path with
      | None => None
      | Some b => Some (on_host (set_h_disk (disk_image path)) (upd_devs (set_d_blk (Some b)) m))
      end
  end.

(* [None] is a std::runtime_error: a disk that cannot be created or opened or is empty, a
   flash image that is too large, or devices that overlap.  The CLINT and the RTC read the clocks as they are constructed. *)
(* @src src/emulator.cpp 42-122 Emulator::Emulator *)
Definition Emulator_init (dram_size : Z) (flash0 flash1 : option (list Z)) (host : HostEnv) :
    option machine :=
  let m := blank_machine dram_size host in
  let '(c, m) := Clint_init CLINT_FREQ m in
  let m := upd_devs (set_d_clint c) m in
  match open_blk m with
  | None => None
  | Some m =>
      match load_flash flash0 (d_flash0 (devs m)), load_flash flash1 (d_flash1 (devs m)),
        add_devices dram_size emulator_devices [] with
      | Some f0, Some f1, Some _ =>
          let m := upd_devs (fun d => set_d_flash1 f1 (set_d_flash0 f0 d)) m in
          let '(r, m) := GoldfishRTC_init m in
          Some (upd_devs (set_d_rtc r) m)
      | _, _, _ => None
      end
  end.

(* [None] is the std::out_of_range of write_bytes; an empty range is not looked at. *)
(* @src src/emulator.cpp 150-158 Emulator::load *)
Definition Emulator_load (addr : Z) (bytes : list Z) (m : machine) : option machine :=
  match bytes with
  | [] => Some m
  | _ => match write_bytes addr bytes (dram_ m) with
         | Some d => Some (upd_dram (fun _ => d) m)
         | None => None
         end
  end.

(* @src src/emulator.cpp 141-148 Emulator::loadelf *)
Definition Emulator_loadelf (file : list Z) : M machine load_exn unit := fun m =>
  match elf_load file (dram_ m) with
  | (Ok pc, d) => (Ok tt, upd_hart (set_pc pc) (upd_dram (fun _ => d) m))
  | (Throw e, d) => (Throw e, upd_dram (fun _ => d) m)
  end.
End Construction.
