(* ===== verification/Backends.v ===== *)
(** * The user interface backends (include/ui/, src/ui/sdl3_backend.cpp)

    What the two backends do to the host: the terminal mode of [HostConsole], the single
    instance of [UIBackend], the SDL objects the SDL3 backend creates and destroys, and
    the frames it presents.  SDL and the terminal are host services: their answers are
    arguments. *)

From stdpp Require Import gmap.
From S2P Require Import Prelude Bits ByteVec.

(** ** The terminal *)

(** The flag constants of <termios.h> and <fcntl.h>. *)
Class HostBits := {
  BRKINT : Z; ICRNL : Z; INPCK : Z; ISTRIP : Z; IXON : Z;
  CS8 : Z;
  ECHO : Z; ICANON : Z; IEXTEN : Z; ISIG : Z;
  O_NONBLOCK : Z;
}.

(** struct termios: the fields the program changes and the rest. *)
Record termios := mkTermios {
  c_iflag : Z;
  c_cflag : Z;
  c_lflag : Z;
  c_vmin : Z;
  c_vtime : Z;
  c_rest : list Z;
}.
Definition termios_zero : termios := mkTermios 0 0 0 0 0 [].

(** Standard input: the attributes when it is a terminal, and the file status flags. *)
Record Stdin := mkStdin {
  tty : option termios;
  file_flags : Z;
}.

(** tcgetattr leaves the buffer alone, and tcsetattr does nothing, when standard input is not
    a terminal. *)
Definition tcgetattr (buf : termios) (s : Stdin) : termios := default buf (tty s).
Definition tcsetattr (t : termios) (s : Stdin) : Stdin :=
  mkStdin (match tty s with Some _ => Some t | None => None end) (file_flags s).
Definition set_file_flags (f : Z) (s : Stdin) : Stdin := mkStdin (tty s) f.

Section HostConsole.
Context `{HostBits}.

(* @src include/ui/host_console.hpp 80-83 HostConsole *)
Record HostConsole := mkConsole {
  originalTermios_ : termios;
  originalFlags_ : Z;
}.

(* tcflag_t has 32 bits. *)
(* @src include/ui/host_console.hpp 57-67 HostConsole::enable_raw_mode *)
Definition raw_mode (t : termios) : termios :=
  mkTermios
    (Z.land (c_iflag t) (u32 (Z.lnot (foldr Z.lor 0 [BRKINT; ICRNL; INPCK; ISTRIP; IXON]))))
    (Z.lor (c_cflag t) CS8)
    (Z.land (c_lflag t) (u32 (Z.lnot (foldr Z.lor 0 [ECHO; ICANON; IEXTEN; ISIG]))))
    0 0 (c_rest t).

(* @src include/ui/host_console.hpp 55-73 HostConsole::enable_raw_mode *)
Definition enable_raw_mode (s : Stdin) : HostConsole * Stdin :=
  let original := tcgetattr termios_zero s in
  let s := tcsetattr (raw_mode original) s in
  let flags := file_flags s in
  (mkConsole original flags, set_file_flags (Z.lor flags O_NONBLOCK) s).

(* @src include/ui/host_console.hpp 75-78 HostConsole::restore_mode *)
Definition restore_mode (c : HostConsole) (s : Stdin) : Stdin :=
  set_file_flags (originalFlags_ c) (tcsetattr (originalTermios_ c) s).

(* [nread] is the result of read(2), [c] the byte it stored. *)
(* @src include/ui/host_console.hpp 36-44 HostConsole::read_char *)
Definition HostConsole_read_char (nread c : Z) : option Z :=
  if 0 <? nread then Some (u8 c) else None.
End HostConsole.

(** ** The backends *)

(** What the process holds of the host: the instance flag, the terminal, and the number of
    live SDL objects of each kind. *)
Record HostUi := mkHostUi {
  initialized_ : bool;
  stdin_ : Stdin;
  sdl_on : bool;
  sdl_windows : Z;
  sdl_renderers : Z;
  sdl_textures : Z;
}.
Definition set_initialized v h := mkHostUi v (stdin_ h) (sdl_on h) (sdl_windows h) (sdl_renderers h) (sdl_textures h).
Definition set_stdin v h := mkHostUi (initialized_ h) v (sdl_on h) (sdl_windows h) (sdl_renderers h) (sdl_textures h).
Definition set_sdl on w r t h := mkHostUi (initialized_ h) (stdin_ h) on w r t.

Section Backends.
Context `{HostBits}.

(* [None] is the std::runtime_error. *)
(* @src include/ui/ui_backend.hpp 37-42 UIBackend::UIBackend *)
Definition UIBackend_init (h : HostUi) : option HostUi :=
  if initialized_ h then None else Some (set_initialized true h).

(* @src include/ui/ui_backend.hpp 44-44 UIBackend::~UIBackend *)
Definition UIBackend_destroy (h : HostUi) : HostUi := set_initialized false h.

(** The member host_console_. *)
(* @src include/ui/host_console.hpp 32-34 HostConsole::HostConsole *)
Definition open_console (h : HostUi) : HostConsole * HostUi :=
  let '(c, s) := enable_raw_mode (stdin_ h) in (c, set_stdin s h).
Definition close_console (c : HostConsole) (h : HostUi) : HostUi :=
  set_stdin (restore_mode c (stdin_ h)) h.

(* @src include/ui/headless_backend.hpp 24-34 HeadlessBackend *)
Definition HeadlessBackend_init (h : HostUi) : option HostConsole * HostUi :=
  match UIBackend_init h with
  | None => (None, h)
  | Some h => let '(c, h) := open_console h in (Some c, h)
  end.
Definition HeadlessBackend_destroy (c : HostConsole) (h : HostUi) : HostUi :=
  UIBackend_destroy (close_console c h).

(* The SDL objects of the backend: whether each creation succeeded. *)
(* @src include/ui/sdl3_backend.hpp 40-42 SDL3Backend *)
Record SdlObjects := mkSdl { window_ : bool; renderer_ : bool; texture_ : bool }.

(* The creations, each only after the one before; [inl] is the goto fail. *)
(* @src src/ui/sdl3_backend.cpp 41-56 SDL3Backend::SDL3Backend *)
Definition sdl_create (init window renderer texture : bool) (h : HostUi) :
    (SdlObjects + SdlObjects) * HostUi :=
  if negb init then (inl (mkSdl false false false), h)
  else
    let h := set_sdl true (sdl_windows h) (sdl_renderers h) (sdl_textures h) h in
    if negb window then (inl (mkSdl false false false), h)
    else
      let h := set_sdl true (sdl_windows h + 1) (sdl_renderers h) (sdl_textures h) h in
      if negb renderer then (inl (mkSdl true false false), h)
      else
        let h := set_sdl true (sdl_windows h) (sdl_renderers h + 1) (sdl_textures h) h in
        if negb texture then (inl (mkSdl true true false), h)
        else (inr (mkSdl true true true),
              set_sdl true (sdl_windows h) (sdl_renderers h) (sdl_textures h + 1) h).

(* The same calls end a failed construction and the destructor. *)
(* @src src/ui/sdl3_backend.cpp 76-86 SDL3Backend::SDL3Backend *)
Definition sdl_destroy (o : SdlObjects) (h : HostUi) : HostUi :=
  set_sdl false (sdl_windows h - b2z (window_ o)) (sdl_renderers h - b2z (renderer_ o))
    (sdl_textures h - b2z (texture_ o)) h.

(* The exception of a failed construction destroys the members and the base. *)
(* @src src/ui/sdl3_backend.cpp 34-91 SDL3Backend::SDL3Backend *)
Definition SDL3Backend_init (init window renderer texture : bool) (h : HostUi) :
    option (SdlObjects * HostConsole) * HostUi :=
  match UIBackend_init h with
  | None => (None, h)
  | Some h =>
      let '(c, h) := open_console h in
      match sdl_create init window renderer texture h with
      | (inr o, h) => (Some (o, c), h)
      | (inl o, h) => (None, UIBackend_destroy (close_console c (sdl_destroy o h)))
      end
  end.

(* @src src/ui/sdl3_backend.cpp 93-110 SDL3Backend::~SDL3Backend *)
Definition SDL3Backend_destroy (o : SdlObjects) (c : HostConsole) (h : HostUi) : HostUi :=
  UIBackend_destroy (close_console c (sdl_destroy o h)).
End Backends.

(** ** Frames *)

(* The clock of the last frame, and the buffer given to SDL_UpdateTexture. *)
(* @src include/ui/sdl3_backend.hpp 44-46 SDL3Backend *)
Record FrameState := mkFrame {
  last_update : Z;
  pixel_buffer_ : bytevec;
}.

(* 16 ms + 648 us, in nanoseconds. *)
(* @src src/ui/sdl3_backend.cpp 158-158 SDL3Backend::update *)
Definition frame_interval : Z := 16648000.

(* The end of update: the frame presented, if any. *)
(* @src src/ui/sdl3_backend.cpp 150-180 SDL3Backend::update *)
Definition present (now : Z) (pixels : bytevec) (s : FrameState) : option bytevec * FrameState :=
  if now - last_update s <? frame_interval then (None, s)
  else
    let buffer := bv_memcpy 0 pixels 0 (Z.to_nat (bv_size pixels)) (pixel_buffer_ s) in
    (Some buffer, mkFrame now buffer).

(** Successive updates, at given times, of a changing framebuffer: the frames presented
    with their times. *)
Fixpoint frames_of (l : list (Z * bytevec)) (s : FrameState) : list (Z * bytevec) :=
  match l with
  | [] => []
  | (now, pixels) :: l =>
      match present now pixels s with
      | (Some f, s) => (now, f) :: frames_of l s
      | (None, s) => frames_of l s
      end
  end.

(** ** Theorems *)

Section Lifecycle.
Context `{HostBits}.

Lemma restore_enable s : let '(c, s') := enable_raw_mode s in restore_mode c s' = s.
Proof. destruct s as [[t|] f]; done. Qed.

Lemma close_open h : let '(c, h') := open_console h in
  initialized_ h' = initialized_ h /\ sdl_on h' = sdl_on h /\ sdl_windows h' = sdl_windows h /\
  sdl_renderers h' = sdl_renderers h /\ sdl_textures h' = sdl_textures h /\
  restore_mode c (stdin_ h') = stdin_ h.
Proof.
  unfold open_console. pose proof (restore_enable (stdin_ h)) as R. by destruct (enable_raw_mode _).
Qed.

Lemma SDL3_lifecycle (init window renderer texture : bool) h : sdl_on h = false ->
  let works := init && window && renderer && texture in
  match SDL3Backend_init init window renderer texture h with
  | (None, h') => h' = h /\ (initialized_ h = true \/ works = false)
  | (Some (o, c), h') => initialized_ h = false /\ works = true /\ initialized_ h' = true /\
      sdl_on h' = true /\ sdl_windows h' = sdl_windows h + 1 /\ SDL3Backend_destroy o c h' = h
  end.
Proof.
  intros Hs works. unfold works, SDL3Backend_init, UIBackend_init. destruct (initialized_ h) eqn:Ei; [auto|].
  pose proof (close_open (set_initialized true h)) as Hc.
  destruct (open_console (set_initialized true h)) as [c h1]. cbn in Hc.
  destruct Hc as (E1 & E2 & E3 & E4 & E5 & E6).
  destruct h as [i0 s0 on0 w0 r0 t0], h1 as [i1 s1 on1 w1 r1 t1]. cbn in *. subst.
  unfold sdl_create, SDL3Backend_destroy, UIBackend_destroy, close_console, sdl_destroy, set_sdl, set_stdin,
    set_initialized. cbn.
  destruct init, window, renderer, texture; cbn; split_and?; try (by right); try done; f_equal; lia.
Qed.

Lemma Headless_lifecycle h :
  match HeadlessBackend_init h with
  | (None, h') => h' = h /\ initialized_ h = true
  | (Some c, h') => initialized_ h = false /\ initialized_ h' = true /\ HeadlessBackend_destroy c h' = h
  end.
Proof.
  unfold HeadlessBackend_init, UIBackend_init. destruct (initialized_ h) eqn:Ei; [done|].
  pose proof (close_open (set_initialized true h)) as Hc.
  destruct (open_console (set_initialized true h)) as [c h1]. cbn in Hc.
  destruct Hc as (E1 & E2 & E3 & E4 & E5 & E6). split_and!; [done..|].
  destruct h, h1. cbn in *. subst. unfold HeadlessBackend_destroy, UIBackend_destroy, close_console. done.
Qed.

(** C37. A backend leaves the host as it found it, from a process without SDL objects.  A
    construction fails exactly when another backend exists or SDL fails at some point, and
    then the terminal mode, the instance flag and the SDL objects are those of before; and
    so they are after the destructor of a backend that was constructed. *)
Theorem backend_lifecycle (init window renderer texture : bool) h :
  sdl_on h = false ->
  let works := init && window && renderer && texture in
  match SDL3Backend_init init window renderer texture h with
  | (None, h') => h' = h /\ (initialized_ h = true \/ works = false)
  | (Some (o, c), h') => initialized_ h = false /\ works = true /\ initialized_ h' = true /\
      sdl_on h' = true /\ sdl_windows h' = sdl_windows h + 1 /\ SDL3Backend_destroy o c h' = h
  end /\
  match HeadlessBackend_init h with
  | (None, h') => h' = h /\ initialized_ h = true
  | (Some c, h') => initialized_ h = false /\ initialized_ h' = true /\ HeadlessBackend_destroy c h' = h
  end.
Proof. intros Hs. split; [by apply SDL3_lifecycle|apply Headless_lifecycle]. Qed.
End Lifecycle.

(** ** The presented frames *)

Lemma memcpy_all pixels buf : bv_wf pixels -> bv_size buf = bv_size pixels ->
  let f := bv_memcpy 0 pixels 0 (Z.to_nat (bv_size pixels)) buf in
  bv_size f = bv_size pixels /\
  forall i, 0 <= i < bv_size pixels -> bv_get f i = bv_get pixels i.
Proof.
  intros Hw Hs. destruct (bv_memcpy_updated 0 pixels 0 (Z.to_nat (bv_size pixels)) buf Hw) as (E1 & _ & _ & E4).
  cbv zeta. split; [congruence|]. intros i Hi. rewrite E4.
  destruct (Z.leb_spec 0 i), (Z.ltb_spec i (0 + Z.of_nat (Z.to_nat (bv_size pixels)))); try lia.
  cbn [andb]. f_equal. lia.
Qed.

(** Times at least [frame_interval] after [t], and each after the one before. *)
Fixpoint spaced (t : Z) (l : list (Z * bytevec)) : Prop :=
  match l with
  | [] => True
  | (t', _) :: l => t + frame_interval <= t' /\ spaced t' l
  end.

(** A presented frame shows the framebuffer as it was at the time of the update. *)
Definition shows (l : list (Z * bytevec)) (f : Z * bytevec) : Prop :=
  exists pixels, In (fst f, pixels) l /\ bv_size (snd f) = bv_size pixels /\
    forall i, 0 <= i < bv_size pixels -> bv_get (snd f) i = bv_get pixels i.

(** C38. The frames the window shows: each is a copy of the whole framebuffer at an update,
    and two of them are never closer than the frame interval, whatever the times of the
    updates and the contents drawn in between. *)
Theorem frames_shown size l s : bv_size (pixel_buffer_ s) = size ->
  Forall (fun u => bv_wf (snd u) /\ bv_size (snd u) = size) l ->
  spaced (last_update s) (frames_of l s) /\ Forall (shows l) (frames_of l s).
Proof.
  revert s. induction l as [|[now pixels] l IH]; intros s Hs Hl; [done|].
  apply Forall_cons_1 in Hl as [[Hw Hp] Hl']. cbn [frames_of snd] in *. unfold present.
  assert (forall s', bv_size (pixel_buffer_ s') = bv_size (pixel_buffer_ s) ->
    spaced (last_update s') (frames_of l s') /\ Forall (shows ((now, pixels) :: l)) (frames_of l s')) as IH'.
  { intros s' Hs'. destruct (IH s') as [I1 I2]; [congruence|done|]. split; [exact I1|].
    eapply Forall_impl; [|exact I2]. intros f (p & Hin & Hf). exists p. by split; [right|]. }
  destruct (Z.ltb_spec (now - last_update s) frame_interval); [by apply IH'|].
  destruct (memcpy_all pixels (pixel_buffer_ s) Hw ltac:(congruence)) as [M1 M2].
  set (f := bv_memcpy _ _ _ _ _) in *. destruct (IH' (mkFrame now f)) as [I1 I2]; [cbn; congruence|].
  split; [split; [lia|exact I1]|]. apply Forall_cons_2; [|exact I2].
  exists pixels. split; [by left|]. by split.
Qed.

(** *** Concrete runs *)

#[local] Instance linux_bits : HostBits := {
  BRKINT := 0x2; ICRNL := 0x100; INPCK := 0x10; ISTRIP := 0x20; IXON := 0x400;
  CS8 := 0x30; ECHO := 0x8; ICANON := 0x2; IEXTEN := 0x8000; ISIG := 0x1; O_NONBLOCK := 0x800;
}.
Definition linux_tty : Stdin := mkStdin (Some (mkTermios 0x4500 0xbf 0x8a3b 1 0 [])) 0x8002.

Example raw_tty : snd (enable_raw_mode linux_tty) = mkStdin (Some (mkTermios 0x4000 0xbf 0xa30 0 0 [])) 0x8802.
Proof. reflexivity. Qed.

Lemma backend_lifecycle_witness :
  let h := mkHostUi false linux_tty false 0 0 0 in
  snd (SDL3Backend_init true true false true h) = h.
Proof.
  intros h. destruct (backend_lifecycle true true false true h eq_refl) as [[T _] _]. exact T.
Defined.

Lemma frames_shown_witness :
  let pixels := bv_new 16 7 in
  let l := [(10, pixels); (16648000, pixels); (20000000, pixels); (33296000, pixels)] in
  spaced 0 (frames_of l (mkFrame 0 (bv_new 16 0))).
Proof.
  intros pixels l. apply (frames_shown 16 l (mkFrame 0 (bv_new 16 0)) eq_refl).
  repeat (apply Forall_cons_2; [split; [by apply bv_new_wf|reflexivity]|]). apply Forall_nil_2.
Defined.
