(* ===== verification/Ui.v ===== *)
(** * The user interface (src/ui/sdl3_backend.cpp, src/execution_engine.cpp)

    What the SDL backend does to the machine: its events become key events of the
    input device or a shutdown request.  Windows, textures and frames are in Backends.v. *)

From stdpp Require Import gmap.
From S2P Require Import Prelude Bits ByteVec Machine Clint GoldfishEvents Emulator.
From S2P Require Import Decoder Execute ExecFloat Engine Runner Backends.

(** The codes of linux/input-event-codes.h that the backend uses. *)
Module Keys.
Definition KEY_RESERVED : Z := 0.
Definition KEY_A : Z := 30.
Definition KEY_B : Z := 48.
Definition KEY_C : Z := 46.
Definition KEY_D : Z := 32.
Definition KEY_E : Z := 18.
Definition KEY_F : Z := 33.
Definition KEY_G : Z := 34.
Definition KEY_H : Z := 35.
Definition KEY_I : Z := 23.
Definition KEY_J : Z := 36.
Definition KEY_K : Z := 37.
Definition KEY_L : Z := 38.
Definition KEY_M : Z := 50.
Definition KEY_N : Z := 49.
Definition KEY_O : Z := 24.
Definition KEY_P : Z := 25.
Definition KEY_Q : Z := 16.
Definition KEY_R : Z := 19.
Definition KEY_S : Z := 31.
Definition KEY_T : Z := 20.
Definition KEY_U : Z := 22.
Definition KEY_V : Z := 47.
Definition KEY_W : Z := 17.
Definition KEY_X : Z := 45.
Definition KEY_Y : Z := 21.
Definition KEY_Z : Z := 44.
Definition KEY_1 : Z := 2.
Definition KEY_2 : Z := 3.
Definition KEY_3 : Z := 4.
Definition KEY_4 : Z := 5.
Definition KEY_5 : Z := 6.
Definition KEY_6 : Z := 7.
Definition KEY_7 : Z := 8.
Definition KEY_8 : Z := 9.
Definition KEY_9 : Z := 10.
Definition KEY_0 : Z := 11.
Definition KEY_ENTER : Z := 28.
Definition KEY_ESC : Z := 1.
Definition KEY_BACKSPACE : Z := 14.
Definition KEY_TAB : Z := 15.
Definition KEY_SPACE : Z := 57.
Definition KEY_MINUS : Z := 12.
Definition KEY_EQUAL : Z := 13.
Definition KEY_LEFTBRACE : Z := 26.
Definition KEY_RIGHTBRACE : Z := 27.
Definition KEY_BACKSLASH : Z := 43.
Definition KEY_SEMICOLON : Z := 39.
Definition KEY_APOSTROPHE : Z := 40.
Definition KEY_GRAVE : Z := 41.
Definition KEY_COMMA : Z := 51.
Definition KEY_DOT : Z := 52.
Definition KEY_SLASH : Z := 53.
Definition KEY_F1 : Z := 59.
Definition KEY_F2 : Z := 60.
Definition KEY_F3 : Z := 61.
Definition KEY_F4 : Z := 62.
Definition KEY_F5 : Z := 63.
Definition KEY_F6 : Z := 64.
Definition KEY_F7 : Z := 65.
Definition KEY_F8 : Z := 66.
Definition KEY_F9 : Z := 67.
Definition KEY_F10 : Z := 68.
Definition KEY_F11 : Z := 87.
Definition KEY_F12 : Z := 88.
Definition KEY_F13 : Z := 183.
Definition KEY_F14 : Z := 184.
Definition KEY_F15 : Z := 185.
Definition KEY_F16 : Z := 186.
Definition KEY_F17 : Z := 187.
Definition KEY_F18 : Z := 188.
Definition KEY_F19 : Z := 189.
Definition KEY_F20 : Z := 190.
Definition KEY_F21 : Z := 191.
Definition KEY_F22 : Z := 192.
Definition KEY_F23 : Z := 193.
Definition KEY_F24 : Z := 194.
Definition KEY_CAPSLOCK : Z := 58.
Definition KEY_SYSRQ : Z := 99.
Definition KEY_SCROLLLOCK : Z := 70.
Definition KEY_PAUSE : Z := 119.
Definition KEY_INSERT : Z := 110.
Definition KEY_HOME : Z := 102.
Definition KEY_PAGEUP : Z := 104.
Definition KEY_DELETE : Z := 111.
Definition KEY_END : Z := 107.
Definition KEY_PAGEDOWN : Z := 109.
Definition KEY_RIGHT : Z := 106.
Definition KEY_LEFT : Z := 105.
Definition KEY_DOWN : Z := 108.
Definition KEY_UP : Z := 103.
Definition KEY_NUMLOCK : Z := 69.
Definition KEY_KPSLASH : Z := 98.
Definition KEY_KPASTERISK : Z := 55.
Definition KEY_KPMINUS : Z := 74.
Definition KEY_KPPLUS : Z := 78.
Definition KEY_KPEQUAL : Z := 117.
Definition KEY_KPENTER : Z := 96.
Definition KEY_KPDOT : Z := 83.
Definition KEY_KP1 : Z := 79.
Definition KEY_KP2 : Z := 80.
Definition KEY_KP3 : Z := 81.
Definition KEY_KP4 : Z := 75.
Definition KEY_KP5 : Z := 76.
Definition KEY_KP6 : Z := 77.
Definition KEY_KP7 : Z := 71.
Definition KEY_KP8 : Z := 72.
Definition KEY_KP9 : Z := 73.
Definition KEY_KP0 : Z := 82.
Definition KEY_LEFTCTRL : Z := 29.
Definition KEY_LEFTSHIFT : Z := 42.
Definition KEY_LEFTALT : Z := 56.
Definition KEY_LEFTMETA : Z := 125.
Definition KEY_RIGHTCTRL : Z := 97.
Definition KEY_RIGHTSHIFT : Z := 54.
Definition KEY_RIGHTALT : Z := 100.
Definition KEY_RIGHTMETA : Z := 126.
Definition KEY_102ND : Z := 86.
Definition KEY_COMPOSE : Z := 127.
Definition KEY_OPEN : Z := 134.
Definition KEY_HELP : Z := 138.
Definition KEY_MENU : Z := 139.
Definition KEY_SELECT : Z := 353.
Definition KEY_STOP : Z := 128.
Definition KEY_REDO : Z := 182.
Definition KEY_UNDO : Z := 131.
Definition KEY_CUT : Z := 137.
Definition KEY_COPY : Z := 133.
Definition KEY_PASTE : Z := 135.
Definition KEY_SEARCH : Z := 217.
Definition KEY_ALTERASE : Z := 222.
Definition KEY_MUTE : Z := 113.
Definition KEY_VOLUMEUP : Z := 115.
Definition KEY_VOLUMEDOWN : Z := 114.
Definition KEY_PLAYPAUSE : Z := 164.
Definition KEY_STOPCD : Z := 166.
Definition KEY_NEXTSONG : Z := 163.
Definition KEY_PREVIOUSSONG : Z := 165.
Definition KEY_KPCOMMA : Z := 121.
Definition KEY_KPLEFTPAREN : Z := 179.
Definition KEY_KPRIGHTPAREN : Z := 180.
Definition KEY_KPPLUSMINUS : Z := 118.
Definition KEY_POWER : Z := 116.
Definition KEY_CLEAR : Z := 355.
Definition KEY_CANCEL : Z := 223.
Definition KEY_MODE : Z := 373.
Definition KEY_BACK : Z := 158.
Definition KEY_FORWARD : Z := 159.
Definition KEY_REFRESH : Z := 173.
Definition KEY_FAVORITES : Z := 364.
Definition KEY_HOMEPAGE : Z := 172.
Definition KEY_NEW : Z := 181.
Definition KEY_CLOSE : Z := 206.
Definition KEY_EXIT : Z := 174.
Definition KEY_SAVE : Z := 234.
Definition KEY_PRINT : Z := 210.
Definition KEY_PROPS : Z := 130.
Definition KEY_PLAY : Z := 207.
Definition KEY_PAUSECD : Z := 201.
Definition KEY_RECORD : Z := 167.
Definition KEY_FASTFORWARD : Z := 208.
Definition KEY_REWIND : Z := 168.
Definition KEY_EJECTCD : Z := 161.
Definition KEY_MEDIA : Z := 226.
Definition KEY_CHANNELUP : Z := 402.
Definition KEY_CHANNELDOWN : Z := 403.
Definition KEY_SLEEP : Z := 142.
Definition KEY_WAKEUP : Z := 143.
Definition KEY_PHONE : Z := 169.
End Keys.
Import Keys.

(** SDL_Scancode: the values the switch names, and the others. *)
Inductive SDL_Scancode : Set :=
  | SDL_SCANCODE_A | SDL_SCANCODE_B | SDL_SCANCODE_C | SDL_SCANCODE_D | SDL_SCANCODE_E
  | SDL_SCANCODE_F | SDL_SCANCODE_G | SDL_SCANCODE_H | SDL_SCANCODE_I | SDL_SCANCODE_J
  | SDL_SCANCODE_K | SDL_SCANCODE_L | SDL_SCANCODE_M | SDL_SCANCODE_N | SDL_SCANCODE_O
  | SDL_SCANCODE_P | SDL_SCANCODE_Q | SDL_SCANCODE_R | SDL_SCANCODE_S | SDL_SCANCODE_T
  | SDL_SCANCODE_U | SDL_SCANCODE_V | SDL_SCANCODE_W | SDL_SCANCODE_X | SDL_SCANCODE_Y
  | SDL_SCANCODE_Z | SDL_SCANCODE_1 | SDL_SCANCODE_2 | SDL_SCANCODE_3 | SDL_SCANCODE_4
  | SDL_SCANCODE_5 | SDL_SCANCODE_6 | SDL_SCANCODE_7 | SDL_SCANCODE_8 | SDL_SCANCODE_9
  | SDL_SCANCODE_0 | SDL_SCANCODE_RETURN | SDL_SCANCODE_ESCAPE | SDL_SCANCODE_BACKSPACE
  | SDL_SCANCODE_TAB | SDL_SCANCODE_SPACE | SDL_SCANCODE_MINUS | SDL_SCANCODE_EQUALS
  | SDL_SCANCODE_LEFTBRACKET | SDL_SCANCODE_RIGHTBRACKET | SDL_SCANCODE_BACKSLASH
  | SDL_SCANCODE_SEMICOLON | SDL_SCANCODE_APOSTROPHE | SDL_SCANCODE_GRAVE | SDL_SCANCODE_COMMA
  | SDL_SCANCODE_PERIOD | SDL_SCANCODE_SLASH | SDL_SCANCODE_F1 | SDL_SCANCODE_F2 | SDL_SCANCODE_F3
  | SDL_SCANCODE_F4 | SDL_SCANCODE_F5 | SDL_SCANCODE_F6 | SDL_SCANCODE_F7 | SDL_SCANCODE_F8
  | SDL_SCANCODE_F9 | SDL_SCANCODE_F10 | SDL_SCANCODE_F11 | SDL_SCANCODE_F12 | SDL_SCANCODE_F13
  | SDL_SCANCODE_F14 | SDL_SCANCODE_F15 | SDL_SCANCODE_F16 | SDL_SCANCODE_F17 | SDL_SCANCODE_F18
  | SDL_SCANCODE_F19 | SDL_SCANCODE_F20 | SDL_SCANCODE_F21 | SDL_SCANCODE_F22 | SDL_SCANCODE_F23
  | SDL_SCANCODE_F24 | SDL_SCANCODE_CAPSLOCK | SDL_SCANCODE_PRINTSCREEN | SDL_SCANCODE_SCROLLLOCK
  | SDL_SCANCODE_PAUSE | SDL_SCANCODE_INSERT | SDL_SCANCODE_HOME | SDL_SCANCODE_PAGEUP
  | SDL_SCANCODE_DELETE | SDL_SCANCODE_END | SDL_SCANCODE_PAGEDOWN | SDL_SCANCODE_RIGHT
  | SDL_SCANCODE_LEFT | SDL_SCANCODE_DOWN | SDL_SCANCODE_UP | SDL_SCANCODE_NUMLOCKCLEAR
  | SDL_SCANCODE_KP_DIVIDE | SDL_SCANCODE_KP_MULTIPLY | SDL_SCANCODE_KP_MINUS
  | SDL_SCANCODE_KP_PLUS | SDL_SCANCODE_KP_EQUALS | SDL_SCANCODE_KP_ENTER | SDL_SCANCODE_KP_PERIOD
  | SDL_SCANCODE_KP_1 | SDL_SCANCODE_KP_2 | SDL_SCANCODE_KP_3 | SDL_SCANCODE_KP_4
  | SDL_SCANCODE_KP_5 | SDL_SCANCODE_KP_6 | SDL_SCANCODE_KP_7 | SDL_SCANCODE_KP_8
  | SDL_SCANCODE_KP_9 | SDL_SCANCODE_KP_0 | SDL_SCANCODE_LCTRL | SDL_SCANCODE_LSHIFT
  | SDL_SCANCODE_LALT | SDL_SCANCODE_LGUI | SDL_SCANCODE_RCTRL | SDL_SCANCODE_RSHIFT
  | SDL_SCANCODE_RALT | SDL_SCANCODE_RGUI | SDL_SCANCODE_NONUSBACKSLASH | SDL_SCANCODE_APPLICATION
  | SDL_SCANCODE_EXECUTE | SDL_SCANCODE_HELP | SDL_SCANCODE_MENU | SDL_SCANCODE_SELECT
  | SDL_SCANCODE_STOP | SDL_SCANCODE_AGAIN | SDL_SCANCODE_UNDO | SDL_SCANCODE_CUT
  | SDL_SCANCODE_COPY | SDL_SCANCODE_PASTE | SDL_SCANCODE_FIND | SDL_SCANCODE_ALTERASE
  | SDL_SCANCODE_MUTE | SDL_SCANCODE_VOLUMEUP | SDL_SCANCODE_VOLUMEDOWN
  | SDL_SCANCODE_MEDIA_PLAY_PAUSE | SDL_SCANCODE_MEDIA_STOP | SDL_SCANCODE_MEDIA_NEXT_TRACK
  | SDL_SCANCODE_MEDIA_PREVIOUS_TRACK | SDL_SCANCODE_KP_COMMA | SDL_SCANCODE_KP_EQUALSAS400
  | SDL_SCANCODE_KP_00 | SDL_SCANCODE_KP_000 | SDL_SCANCODE_KP_LEFTPAREN
  | SDL_SCANCODE_KP_RIGHTPAREN | SDL_SCANCODE_KP_PLUSMINUS | SDL_SCANCODE_KP_POWER
  | SDL_SCANCODE_KP_SPACE | SDL_SCANCODE_KP_MEMCLEAR | SDL_SCANCODE_KP_CLEAR
  | SDL_SCANCODE_KP_CLEARENTRY | SDL_SCANCODE_NONUSHASH | SDL_SCANCODE_SYSREQ | SDL_SCANCODE_CANCEL
  | SDL_SCANCODE_CLEAR | SDL_SCANCODE_CLEARAGAIN | SDL_SCANCODE_CRSEL | SDL_SCANCODE_EXSEL
  | SDL_SCANCODE_MODE | SDL_SCANCODE_AC_BACK | SDL_SCANCODE_AC_FORWARD | SDL_SCANCODE_AC_REFRESH
  | SDL_SCANCODE_AC_STOP | SDL_SCANCODE_AC_SEARCH | SDL_SCANCODE_AC_BOOKMARKS
  | SDL_SCANCODE_AC_HOME | SDL_SCANCODE_AC_NEW | SDL_SCANCODE_AC_OPEN | SDL_SCANCODE_AC_CLOSE
  | SDL_SCANCODE_AC_EXIT | SDL_SCANCODE_AC_SAVE | SDL_SCANCODE_AC_PRINT
  | SDL_SCANCODE_AC_PROPERTIES | SDL_SCANCODE_MEDIA_PLAY | SDL_SCANCODE_MEDIA_PAUSE
  | SDL_SCANCODE_MEDIA_RECORD | SDL_SCANCODE_MEDIA_FAST_FORWARD | SDL_SCANCODE_MEDIA_REWIND
  | SDL_SCANCODE_MEDIA_EJECT | SDL_SCANCODE_MEDIA_SELECT | SDL_SCANCODE_CHANNEL_INCREMENT
  | SDL_SCANCODE_CHANNEL_DECREMENT | SDL_SCANCODE_SLEEP | SDL_SCANCODE_WAKE | SDL_SCANCODE_POWER
  | SDL_SCANCODE_CALL | SDL_SCANCODE_ENDCALL
  | SDL_SCANCODE_other.

(* The cases from the keypad on. *)
(* @src src/ui/sdl3_backend.cpp 296-410 SDL3Backend::sdl_scancode_to_linux *)
Definition sdl_scancode_to_linux_keypad (code : SDL_Scancode) : Z :=
  match code with
  | SDL_SCANCODE_NUMLOCKCLEAR => KEY_NUMLOCK
  | SDL_SCANCODE_KP_DIVIDE => KEY_KPSLASH
  | SDL_SCANCODE_KP_MULTIPLY => KEY_KPASTERISK
  | SDL_SCANCODE_KP_MINUS => KEY_KPMINUS
  | SDL_SCANCODE_KP_PLUS => KEY_KPPLUS
  | SDL_SCANCODE_KP_EQUALS => KEY_KPEQUAL
  | SDL_SCANCODE_KP_ENTER => KEY_KPENTER
  | SDL_SCANCODE_KP_PERIOD => KEY_KPDOT
  | SDL_SCANCODE_KP_1 => KEY_KP1
  | SDL_SCANCODE_KP_2 => KEY_KP2
  | SDL_SCANCODE_KP_3 => KEY_KP3
  | SDL_SCANCODE_KP_4 => KEY_KP4
  | SDL_SCANCODE_KP_5 => KEY_KP5
  | SDL_SCANCODE_KP_6 => KEY_KP6
  | SDL_SCANCODE_KP_7 => KEY_KP7
  | SDL_SCANCODE_KP_8 => KEY_KP8
  | SDL_SCANCODE_KP_9 => KEY_KP9
  | SDL_SCANCODE_KP_0 => KEY_KP0
  | SDL_SCANCODE_LCTRL => KEY_LEFTCTRL
  | SDL_SCANCODE_LSHIFT => KEY_LEFTSHIFT
  | SDL_SCANCODE_LALT => KEY_LEFTALT
  | SDL_SCANCODE_LGUI => KEY_LEFTMETA
  | SDL_SCANCODE_RCTRL => KEY_RIGHTCTRL
  | SDL_SCANCODE_RSHIFT => KEY_RIGHTSHIFT
  | SDL_SCANCODE_RALT => KEY_RIGHTALT
  | SDL_SCANCODE_RGUI => KEY_RIGHTMETA
  | SDL_SCANCODE_NONUSBACKSLASH => KEY_102ND
  | SDL_SCANCODE_APPLICATION => KEY_COMPOSE
  | SDL_SCANCODE_EXECUTE => KEY_OPEN
  | SDL_SCANCODE_HELP => KEY_HELP
  | SDL_SCANCODE_MENU => KEY_MENU
  | SDL_SCANCODE_SELECT => KEY_SELECT
  | SDL_SCANCODE_STOP => KEY_STOP
  | SDL_SCANCODE_AGAIN => KEY_REDO
  | SDL_SCANCODE_UNDO => KEY_UNDO
  | SDL_SCANCODE_CUT => KEY_CUT
  | SDL_SCANCODE_COPY => KEY_COPY
  | SDL_SCANCODE_PASTE => KEY_PASTE
  | SDL_SCANCODE_FIND => KEY_SEARCH
  | SDL_SCANCODE_ALTERASE => KEY_ALTERASE
  | SDL_SCANCODE_MUTE => KEY_MUTE
  | SDL_SCANCODE_VOLUMEUP => KEY_VOLUMEUP
  | SDL_SCANCODE_VOLUMEDOWN => KEY_VOLUMEDOWN
  | SDL_SCANCODE_MEDIA_PLAY_PAUSE => KEY_PLAYPAUSE
  | SDL_SCANCODE_MEDIA_STOP => KEY_STOPCD
  | SDL_SCANCODE_MEDIA_NEXT_TRACK => KEY_NEXTSONG
  | SDL_SCANCODE_MEDIA_PREVIOUS_TRACK => KEY_PREVIOUSSONG
  | SDL_SCANCODE_KP_COMMA => KEY_KPCOMMA
  | SDL_SCANCODE_KP_EQUALSAS400 => KEY_KPEQUAL
  | SDL_SCANCODE_KP_00 => KEY_KP0
  | SDL_SCANCODE_KP_000 => KEY_KP0
  | SDL_SCANCODE_KP_LEFTPAREN => KEY_KPLEFTPAREN
  | SDL_SCANCODE_KP_RIGHTPAREN => KEY_KPRIGHTPAREN
  | SDL_SCANCODE_KP_PLUSMINUS => KEY_KPPLUSMINUS
  | SDL_SCANCODE_KP_POWER => KEY_POWER
  | SDL_SCANCODE_KP_SPACE => KEY_SPACE
  | SDL_SCANCODE_KP_MEMCLEAR => KEY_CLEAR
  | SDL_SCANCODE_KP_CLEAR => KEY_CLEAR
  | SDL_SCANCODE_KP_CLEARENTRY => KEY_CLEAR
  | SDL_SCANCODE_NONUSHASH => KEY_102ND
  | SDL_SCANCODE_SYSREQ => KEY_SYSRQ
  | SDL_SCANCODE_CANCEL => KEY_CANCEL
  | SDL_SCANCODE_CLEAR => KEY_CLEAR
  | SDL_SCANCODE_CLEARAGAIN => KEY_CLEAR
  | SDL_SCANCODE_CRSEL => KEY_SELECT
  | SDL_SCANCODE_EXSEL => KEY_SELECT
  | SDL_SCANCODE_MODE => KEY_MODE
  | SDL_SCANCODE_AC_BACK => KEY_BACK
  | SDL_SCANCODE_AC_FORWARD => KEY_FORWARD
  | SDL_SCANCODE_AC_REFRESH => KEY_REFRESH
  | SDL_SCANCODE_AC_STOP => KEY_STOP
  | SDL_SCANCODE_AC_SEARCH => KEY_SEARCH
  | SDL_SCANCODE_AC_BOOKMARKS => KEY_FAVORITES
  | SDL_SCANCODE_AC_HOME => KEY_HOMEPAGE
  | SDL_SCANCODE_AC_NEW => KEY_NEW
  | SDL_SCANCODE_AC_OPEN => KEY_OPEN
  | SDL_SCANCODE_AC_CLOSE => KEY_CLOSE
  | SDL_SCANCODE_AC_EXIT => KEY_EXIT
  | SDL_SCANCODE_AC_SAVE => KEY_SAVE
  | SDL_SCANCODE_AC_PRINT => KEY_PRINT
  | SDL_SCANCODE_AC_PROPERTIES => KEY_PROPS
  | SDL_SCANCODE_MEDIA_PLAY => KEY_PLAY
  | SDL_SCANCODE_MEDIA_PAUSE => KEY_PAUSECD
  | SDL_SCANCODE_MEDIA_RECORD => KEY_RECORD
  | SDL_SCANCODE_MEDIA_FAST_FORWARD => KEY_FASTFORWARD
  | SDL_SCANCODE_MEDIA_REWIND => KEY_REWIND
  | SDL_SCANCODE_MEDIA_EJECT => KEY_EJECTCD
  | SDL_SCANCODE_MEDIA_SELECT => KEY_MEDIA
  | SDL_SCANCODE_CHANNEL_INCREMENT => KEY_CHANNELUP
  | SDL_SCANCODE_CHANNEL_DECREMENT => KEY_CHANNELDOWN
  | SDL_SCANCODE_SLEEP => KEY_SLEEP
  | SDL_SCANCODE_WAKE => KEY_WAKEUP
  | SDL_SCANCODE_POWER => KEY_POWER
  | SDL_SCANCODE_CALL => KEY_PHONE
  | SDL_SCANCODE_ENDCALL => KEY_PHONE
  | _ => KEY_RESERVED
  end.

(* @src src/ui/sdl3_backend.cpp 188-295 SDL3Backend::sdl_scancode_to_linux *)
Definition sdl_scancode_to_linux (code : SDL_Scancode) : Z :=
  match code with
  | SDL_SCANCODE_A => KEY_A
  | SDL_SCANCODE_B => KEY_B
  | SDL_SCANCODE_C => KEY_C
  | SDL_SCANCODE_D => KEY_D
  | SDL_SCANCODE_E => KEY_E
  | SDL_SCANCODE_F => KEY_F
  | SDL_SCANCODE_G => KEY_G
  | SDL_SCANCODE_H => KEY_H
  | SDL_SCANCODE_I => KEY_I
  | SDL_SCANCODE_J => KEY_J
  | SDL_SCANCODE_K => KEY_K
  | SDL_SCANCODE_L => KEY_L
  | SDL_SCANCODE_M => KEY_M
  | SDL_SCANCODE_N => KEY_N
  | SDL_SCANCODE_O => KEY_O
  | SDL_SCANCODE_P => KEY_P
  | SDL_SCANCODE_Q => KEY_Q
  | SDL_SCANCODE_R => KEY_R
  | SDL_SCANCODE_S => KEY_S
  | SDL_SCANCODE_T => KEY_T
  | SDL_SCANCODE_U => KEY_U
  | SDL_SCANCODE_V => KEY_V
  | SDL_SCANCODE_W => KEY_W
  | SDL_SCANCODE_X => KEY_X
  | SDL_SCANCODE_Y => KEY_Y
  | SDL_SCANCODE_Z => KEY_Z
  | SDL_SCANCODE_1 => KEY_1
  | SDL_SCANCODE_2 => KEY_2
  | SDL_SCANCODE_3 => KEY_3
  | SDL_SCANCODE_4 => KEY_4
  | SDL_SCANCODE_5 => KEY_5
  | SDL_SCANCODE_6 => KEY_6
  | SDL_SCANCODE_7 => KEY_7
  | SDL_SCANCODE_8 => KEY_8
  | SDL_SCANCODE_9 => KEY_9
  | SDL_SCANCODE_0 => KEY_0
  | SDL_SCANCODE_RETURN => KEY_ENTER
  | SDL_SCANCODE_ESCAPE => KEY_ESC
  | SDL_SCANCODE_BACKSPACE => KEY_BACKSPACE
  | SDL_SCANCODE_TAB => KEY_TAB
  | SDL_SCANCODE_SPACE => KEY_SPACE
  | SDL_SCANCODE_MINUS => KEY_MINUS
  | SDL_SCANCODE_EQUALS => KEY_EQUAL
  | SDL_SCANCODE_LEFTBRACKET => KEY_LEFTBRACE
  | SDL_SCANCODE_RIGHTBRACKET => KEY_RIGHTBRACE
  | SDL_SCANCODE_BACKSLASH => KEY_BACKSLASH
  | SDL_SCANCODE_SEMICOLON => KEY_SEMICOLON
  | SDL_SCANCODE_APOSTROPHE => KEY_APOSTROPHE
  | SDL_SCANCODE_GRAVE => KEY_GRAVE
  | SDL_SCANCODE_COMMA => KEY_COMMA
  | SDL_SCANCODE_PERIOD => KEY_DOT
  | SDL_SCANCODE_SLASH => KEY_SLASH
  | SDL_SCANCODE_F1 => KEY_F1
  | SDL_SCANCODE_F2 => KEY_F2
  | SDL_SCANCODE_F3 => KEY_F3
  | SDL_SCANCODE_F4 => KEY_F4
  | SDL_SCANCODE_F5 => KEY_F5
  | SDL_SCANCODE_F6 => KEY_F6
  | SDL_SCANCODE_F7 => KEY_F7
  | SDL_SCANCODE_F8 => KEY_F8
  | SDL_SCANCODE_F9 => KEY_F9
  | SDL_SCANCODE_F10 => KEY_F10
  | SDL_SCANCODE_F11 => KEY_F11
  | SDL_SCANCODE_F12 => KEY_F12
  | SDL_SCANCODE_F13 => KEY_F13
  | SDL_SCANCODE_F14 => KEY_F14
  | SDL_SCANCODE_F15 => KEY_F15
  | SDL_SCANCODE_F16 => KEY_F16
  | SDL_SCANCODE_F17 => KEY_F17
  | SDL_SCANCODE_F18 => KEY_F18
  | SDL_SCANCODE_F19 => KEY_F19
  | SDL_SCANCODE_F20 => KEY_F20
  | SDL_SCANCODE_F21 => KEY_F21
  | SDL_SCANCODE_F22 => KEY_F22
  | SDL_SCANCODE_F23 => KEY_F23
  | SDL_SCANCODE_F24 => KEY_F24
  | SDL_SCANCODE_CAPSLOCK => KEY_CAPSLOCK
  | SDL_SCANCODE_PRINTSCREEN => KEY_SYSRQ
  | SDL_SCANCODE_SCROLLLOCK => KEY_SCROLLLOCK
  | SDL_SCANCODE_PAUSE => KEY_PAUSE
  | SDL_SCANCODE_INSERT => KEY_INSERT
  | SDL_SCANCODE_HOME => KEY_HOME
  | SDL_SCANCODE_PAGEUP => KEY_PAGEUP
  | SDL_SCANCODE_DELETE => KEY_DELETE
  | SDL_SCANCODE_END => KEY_END
  | SDL_SCANCODE_PAGEDOWN => KEY_PAGEDOWN
  | SDL_SCANCODE_RIGHT => KEY_RIGHT
  | SDL_SCANCODE_LEFT => KEY_LEFT
  | SDL_SCANCODE_DOWN => KEY_DOWN
  | SDL_SCANCODE_UP => KEY_UP
  | _ => sdl_scancode_to_linux_keypad code
  end.

(** The SDL events the backend tells apart. *)
Inductive SDL_Event : Set :=
  | SDL_EVENT_QUIT
  | SDL_EVENT_WINDOW_RESIZED
  | SDL_EVENT_KEY_DOWN (scancode : SDL_Scancode)
  | SDL_EVENT_KEY_UP (scancode : SDL_Scancode)
  | SDL_EVENT_WINDOW_MOUSE_ENTER
  | SDL_EVENT_WINDOW_MOUSE_LEAVE
  | SDL_EVENT_other.

Section Ui.
Context `{UndefinedConversion} `{DiskOption}.

(** [input_sink->push_key_event] on the input device of the machine. *)
Definition push_key (code : Z) (press : bool) (e : engine Devices) : engine Devices :=
  mkEngine (e_phase e) (e_i e)
    (with_own_ d_events set_d_events (push_key_event EVENTS_ID code press) (e_mach e))
    (shutdown_from_guest_ e) (shutdown_from_host_ e).

(* @src src/ui/sdl3_backend.cpp 124-140 SDL3Backend::update *)
Definition sdl_key (code : SDL_Scancode) (press : bool) (e : engine Devices) : engine Devices :=
  let linux_code := sdl_scancode_to_linux code in
  if negb (linux_code =? KEY_RESERVED) then push_key linux_code press e else e.

(* The events SDL_PollEvent returns in one call of update, in order. *)
(* @src src/ui/sdl3_backend.cpp 112-148 SDL3Backend::update *)
Fixpoint SDL3Backend_update (events : list SDL_Event) (e : engine Devices) : engine Devices :=
  match events with
  | [] => e
  | SDL_EVENT_QUIT :: _ => request_shutdown_from_host e
  | SDL_EVENT_KEY_DOWN code :: events => SDL3Backend_update events (sdl_key code true e)
  | SDL_EVENT_KEY_UP code :: events => SDL3Backend_update events (sdl_key code false e)
  | _ :: events => SDL3Backend_update events e
  end.

Definition is_quit (ev : SDL_Event) : bool := match ev with SDL_EVENT_QUIT => true | _ => false end.

(* The whole of update: after a quit event nothing is shown. *)
(* @src src/ui/sdl3_backend.cpp 112-180 SDL3Backend::update *)
Definition SDL3Backend_frame (events : list SDL_Event) (now : Z) (s : FrameState)
    (e : engine Devices) : option bytevec * FrameState * engine Devices :=
  let e := SDL3Backend_update events e in
  if existsb is_quit events then (None, s, e)
  else (present now (d_simple_fb (devs (e_mach e))) s, e).

(* The backend that the constructor makes.  The headless backend's update does nothing. *)
(* @src src/emulator.cpp 122-138 Emulator::Emulator *)
Definition emulator_ui (headless : bool) : UiBackend Devices := {|
  ui_input := list SDL_Event;
  ui_update events e := if headless then e else SDL3Backend_update events e;
|}.

(** The steps of the whole program: the CPU thread, the device ticks, a shutdown request of
    the host (the timeout), and the update of the user interface, with any events.  The
    headless backend's update does nothing. *)
Inductive emulator_step `{SoftFloat} (u : operands) : engine Devices -> engine Devices -> Prop :=
  | step_engine e e' : step u e e' -> emulator_step u e e'
  | step_ui events e : e_phase e <> Died -> emulator_step u e (SDL3Backend_update events e).
End Ui.

(** ** The keys and the input device's description *)

(** The bit of a key in the page EV_KEY. *)
Definition announced (d : GoldfishEvents) (code : Z) : bool :=
  Z.testbit (nth (Z.to_nat (code / 8)) (nth (Z.to_nat EV_KEY) (ev_bits_ d) []) 0) (code mod 8).

(** Every key event the user interface can send has a code that the device announces to the
    guest in its EV_KEY page. *)
Theorem keys_announced code : sdl_scancode_to_linux code <> KEY_RESERVED ->
  announced (GoldfishEvents_init qwerty2) (sdl_scancode_to_linux code) = true.
Proof. destruct code; intros Hne; first [by vm_compute | by destruct Hne]. Qed.

Lemma keys_announced_witness :
  announced (GoldfishEvents_init qwerty2) KEY_CHANNELDOWN = true.
Proof. apply (keys_announced SDL_SCANCODE_CHANNEL_DECREMENT). discriminate. Defined.
