(* ===== verification/EmulatorSpec.v ===== *)
(** * The assembled machine keeps the promises the core relies on

    Every device of emulator.cpp touches the hart only through the pending bits of mip
    and leaves the MMU alone, and only the block device writes DRAM, so the laws of [Platform] hold; the constructor's
    registrations succeed; and the theorems on the core hold of the whole machine. *)

From stdpp Require Import gmap.
From S2P Require Import Prelude Bits Hart HartInv Machine Bus Ports ByteVec SmallDevices.
From S2P Require Import Ns16550 GoldfishRtc GoldfishEvents PFlash Clint Plic VirtioBlk VirtioBlkSpec Mmu MmuSpec DeviceFrames Elf Emulator.
From S2P Require Import Decoder Execute ExecFloat Dispatch ExecSpec ExecSafe Engine EngineSpec Runner RunnerSpec Backends Ui.
Import TestIntrGen SiFiveTest NemuConsole SimpleFB BCM2835Rng GoldfishBattery.

(** ** What a device may change *)

(** The part of the devices' state that the invariant is about. *)
Definition own (d : Devices) : option VirtioBlk * option blk_exn := (d_blk d, d_dead d).

Record port_frame (m m' : machine) : Prop := {
  pf_hart : mip_frame (hart m) (hart m');
  pf_mmu : mmu m' = mmu m;
  pf_dram : dram_wf (dram_ m) -> dram_wf (dram_ m') /\ size_ (dram_ m') = size_ (dram_ m);
  pf_own : own (devs m') = own (devs m);
  pf_flags : softfloat_exceptionFlags m' = softfloat_exceptionFlags m;
  pf_rm : softfloat_roundingMode m' = softfloat_roundingMode m;
}.

#[export] Instance port_frame_preorder : PreOrder port_frame.
Proof.
  split.
  - intros m. by split.
  - intros m1 m2 m3 [] []. split; try congruence; [by eapply mip_frame_trans|].
    intros F. destruct (pf_dram0 F) as [F1 E1]. destruct (pf_dram1 F1). split; [done|congruence].
Qed.

Lemma upd_devs_port f (m : machine) : (forall d, own (f d) = own d) -> port_frame m (upd_devs f m).
Proof. intros Hf. split; try done. apply Hf. Qed.
Lemma upd_hart_port f (m : machine) : mip_frame (hart m) (f (hart m)) -> port_frame m (upd_hart f m).
Proof. by split. Qed.
Lemma on_host_port f m : port_frame m (on_host f m).
Proof. by apply upd_devs_port. Qed.
Lemma ask_host_port {A} (f : HostEnv -> nat -> A) m : port_frame m (snd (ask_host f m)).
Proof. apply on_host_port. Qed.

(** The PLIC drives lines of the hart and nothing else. *)
Lemma context_update_frame p c h : mip_frame h (context_update p c h).
Proof. apply set_interrupt_pending_frame. Qed.

Lemma level_loop_frame p lvl id pr cs h : mip_frame h (snd (level_loop p lvl id pr cs h)).
Proof.
  induction cs as [|c cs IH]; [done|]. cbn [level_loop]. destruct (Z.testbit _ _).
  - apply context_update_frame.
  - by destruct (level_loop p lvl id pr cs h).
Qed.

Lemma set_interrupt_level_frame id lvl p h : mip_frame h (snd (set_interrupt_level id lvl (p, h))).
Proof.
  unfold set_interrupt_level. case_match; [done|]. cbv zeta.
  pose proof level_loop_frame as Hl. set (p1 := mkPlic _ _ _ _ _ _).
  specialize (Hl p1 lvl id (arr_get (priority_ p) id) (contexts_ p1) h).
  by destruct (level_loop _ _ _ _ _ _).
Qed.

Lemma context_claim_frame p c h : mip_frame h (snd (context_claim p c h)).
Proof. apply context_update_frame. Qed.

Lemma plic_read_4_frame off p h : mip_frame h (snd (snd (plic_read_4 off (p, h)))).
Proof.
  unfold plic_read_4. cbv zeta. do 2 (destruct (_ && _); [done|]).
  destruct (_ && _); [by destruct (get_context _ p)|]. destruct (_ && _); [|done]. destruct (get_context _ _) as [c|]; [|done].
  unfold context_read. cbv zeta. destruct (_ =? CONTEXT_THRESHOLD); [done|].
  destruct (_ =? CONTEXT_CLAIM); [|done]. pose proof (context_claim_frame p c h) as Hc.
  by destruct (context_claim p c h) as [[v c'] h'].
Qed.

Lemma enable_write_frame p c off v h : mip_frame h (snd (context_enable_write p c off v h)).
Proof.
  unfold context_enable_write. cbv zeta. destruct (_ <=? _); [done|]. apply context_update_frame.
Qed.

Lemma context_write_frame p c off v h : mip_frame h (snd (context_write p c off v h)).
Proof.
  unfold context_write. cbv zeta. destruct (_ =? CONTEXT_THRESHOLD).
  - destruct (_ <=? _); [apply context_update_frame|done].
  - destruct (_ =? CONTEXT_CLAIM); [|done]. destruct (_ && _); [apply context_update_frame|done].
Qed.

Lemma plic_write_4_frame off v p h : mip_frame h (snd (snd (plic_write_4 off v (p, h)))).
Proof.
  unfold plic_write_4. cbv zeta. destruct (_ && _); [done|]. destruct (_ && _).
  - destruct (get_context _ _) as [c|]; [|done].
    match goal with |- context [context_enable_write p c ?o ?x h] =>
      pose proof (enable_write_frame p c o x h) as Hf; by destruct (context_enable_write p c o x h) end.
  - destruct (_ && _); [|done]. destruct (get_context _ _) as [c|]; [|done].
    match goal with |- context [context_write p c ?o ?x h] =>
      pose proof (context_write_frame p c o x h) as Hf; by destruct (context_write p c o x h) as [[b c'] h'] end.
Qed.

Lemma plic_read_frame off size p h : mip_frame h (snd (snd (plic_read_internal off size (p, h)))).
Proof.
  unfold plic_read_internal. pose proof (plic_read_4_frame off p h) as H1.
  destruct (size =? 8); [|by case_match].
  destruct (plic_read_4 off (p, h)) as [[lo|] [p1 h1]]; [|done].
  pose proof (plic_read_4_frame (u64 (off + 4)) p1 h1) as H2.
  destruct (plic_read_4 _ (p1, h1)) as [[hi|] [p2 h2]]; by eapply mip_frame_trans.
Qed.

Lemma plic_write_frame off size v p h : mip_frame h (snd (snd (plic_write_internal off size v (p, h)))).
Proof.
  unfold plic_write_internal. destruct (size =? 8); [|case_match; [done|apply plic_write_4_frame]].
  pose proof (plic_write_4_frame off (Z.land v 0xFFFFFFFF) p h) as H1.
  destruct (plic_write_4 _ _ (p, h)) as [[] [p1 h1]]; [|done].
  eapply mip_frame_trans; [exact H1|]. apply plic_write_4_frame.
Qed.

Lemma plic_op_frame {A} (op : Plic * Hart -> A * (Plic * Hart)) m :
  (forall p h, mip_frame h (snd (snd (op (p, h))))) -> port_frame m (snd (plic_op op m)).
Proof.
  intros Hop. unfold plic_op. specialize (Hop (d_plic (devs m)) (hart m)).
  destruct (op _) as [a [p h]]. cbn [snd] in *. by split.
Qed.

Lemma irq_port id lvl m : port_frame m (irq_callback id lvl m).
Proof.
  unfold irq_callback, machine_irq.
  pose proof (set_interrupt_level_frame id lvl (d_plic (devs m)) (hart m)) as Hs.
  destruct (set_interrupt_level _ _ _) as [p h]. by split.
Qed.

Lemma with_own_port {S A} get set (op : S * machine -> A * (S * machine)) m :
  (forall s d, own (set s d) = own d) -> (forall s, frames port_frame (snd s) (op s)) -> port_frame m (snd (with_own get set op m)).
Proof.
  intros Hset Hop. unfold with_own. specialize (Hop (get (devs m), m)).
  destruct (op _) as [a [s m']]. unfold frames in Hop. cbn [fst snd] in *.
  etransitivity; [exact Hop|apply upd_devs_port, Hset].
Qed.

Lemma with_own__port {S} get set (op : S * machine -> S * machine) m :
  (forall s d, own (set s d) = own d) -> (forall s, frames_s port_frame (snd s) (op s)) ->
  port_frame m (with_own_ get set op m).
Proof. intros Hset Hop. apply with_own_port; [done|]. intros s. apply Hop. Qed.

Lemma alone_frames {S A} (op : S -> A * S) s : frames port_frame (snd s) (alone op s).
Proof. destruct s as [x m]. unfold alone, frames. simpl. by destruct (op x). Qed.

(** ** The laws *)

Section Laws.
Context `{UndefinedConversionLaws} `{DiskOption}.

Lemma port_device_frame m m' : port_frame m m' -> device_frame m m'.
Proof.
  intros [[] E1 E2 [= Eb Ed] E3 E4]. split; try done.
  cbn [devs_ok emulator_platform]. unfold emulator_devs_ok. by rewrite Eb, Ed.
Qed.

Lemma hart_port flag lvl (m : machine) : port_frame m (w_upd_hart (set_interrupt_pending flag lvl) m).
Proof. apply upd_hart_port, set_interrupt_pending_frame. Qed.
Lemma clock_port (m : machine) : port_frame m (snd (steady_clock_now m)).
Proof. apply ask_host_port. Qed.

Lemma read_char_port (m : machine) : port_frame m (snd (read_char m)).
Proof. apply ask_host_port. Qed.
Lemma write_char_port c (m : machine) : port_frame m (write_char c m).
Proof. apply on_host_port. Qed.
Lemma random_port (m : machine) : port_frame m (snd (get_random_bytes m)).
Proof. apply ask_host_port. Qed.
Lemma print_port c (m : machine) : port_frame m (print_char c m).
Proof. apply on_host_port. Qed.
Lemma shutdown_port c s (m : machine) : port_frame m (on_shutdown c s m).
Proof. by apply upd_devs_port. Qed.

(** The ports of the block device. *)
Lemma dma_port f (m : machine) : (dram_wf (dram_ m) -> dram_wf f /\ size_ f = size_ (dram_ m)) ->
  port_frame m (w_set_dram f m).
Proof. by split. Qed.
Lemma dma_write_port n a v (m : machine) : port_frame m (w_set_dram (Dram.write n a v (w_dram m)) m).
Proof. apply dma_port. intros Hd. split; [by apply write_wf|apply store_le_size]. Qed.
Lemma dma_bytes_port a bs d (m : machine) : write_bytes a bs (w_dram m) = Some d -> port_frame m (w_set_dram d m).
Proof. intros E. apply dma_port. intros Hd. by apply (write_bytes_wf a bs (dram_ m)). Qed.
Lemma disk_read_port off len (m : machine) : port_frame m (snd (disk_read off len m)).
Proof.
  cbn [disk_read machine_disk]. pose proof (ask_host_port h_disk_io m) as Hp. unfold disk_answer.
  by destruct (ask_host h_disk_io m) as [[n|] m1].
Qed.
Lemma disk_write_port off bs (m : machine) : port_frame m (snd (disk_write off bs m)).
Proof.
  cbn [disk_write machine_disk]. pose proof (ask_host_port h_disk_io m) as Hp. unfold disk_answer.
  destruct (ask_host h_disk_io m) as [[n|] m1]; (etransitivity; [exact Hp|apply on_host_port]).
Qed.
Lemma disk_flush_port (m : machine) : port_frame m (disk_flush m).
Proof. apply (ask_host_port h_disk_io). Qed.

#[export] Instance machine_dram_laws : DramPortLaws machine.
Proof.
  split; [done| | | |done].
  - intros id lvl m. cbn [w_dram machine_dram]. unfold irq_callback, machine_irq.
    by destruct (set_interrupt_level _ _ _).
  - intros off len m. cbn [w_dram machine_dram disk_read machine_disk]. unfold disk_answer, ask_host.
    cbv zeta. by destruct (h_disk_io (d_host (devs m)) (h_calls (d_host (devs m)))).
  - intros off bs m. cbn [w_dram machine_dram disk_write machine_disk]. unfold disk_answer, ask_host.
    cbv zeta. by destruct (h_disk_io (d_host (devs m)) (h_calls (d_host (devs m)))).
Qed.

Lemma blk_internal_port off n v (b : VirtioBlk) (m : machine) :
  port_frame m (snd (snd (blk_write_internal BLK_ID off n v (b, m)))).
Proof.
  apply (blk_write_frames port_frame irq_port dma_write_port dma_bytes_port disk_read_port
    disk_write_port disk_flush_port BLK_ID off n v (b, m)).
Qed.

(** A write to the block device keeps its registers well formed or ends the process in one
    of the three ways. *)
Lemma blk_write_frame off n v m : device_frame m (snd (blk_write off n v m)).
Proof.
  unfold blk_write. destruct (d_blk (devs m)) as [b|] eqn:Eb; [|apply device_frame_refl].
  pose proof (blk_internal_port off n v b m) as Hp.
  assert (dram_wf (dram_ m) -> regs_ok b ->
    match blk_write_internal BLK_ID off n v (b, m) with
    | (Ok _, s') => blk_inv (size_ (dram_ m)) s'
    | (Throw e, _) => e = BTerminate \/ e = BStatusByte \/ (e = BDivide /\ True)
    end) as HT.
  { intros Hd Hr. apply (blk_write_inv BLK_ID (size_ (dram_ m)) True off n v I). by split. }
  destruct (blk_write_internal BLK_ID off n v (b, m)) as [r [b' m1]]. cbn [fst snd] in Hp.
  destruct (port_device_frame m m1 Hp) as [? ? ? ? ? ? ? ? ? ? ? ? _].
  pose proof (pf_own m m1 Hp) as [= Eb1 Ed1].
  assert (forall f, (dram_wf (dram_ m) -> emulator_devs_ok (devs m) -> emulator_devs_ok (f (devs m1))) ->
    device_frame m (upd_devs f m1)) as Hf by (intros f Hf; by split).
  destruct r as [ok|e]; apply Hf; intros Hd; unfold emulator_devs_ok, set_dead;
    cbn [set_d_blk set_d_dead d_dead d_blk]; rewrite Ed1; destruct (d_dead (devs m)) eqn:Ed; intros Ho.
  - exact Ho.
  - intros x [= <-]. apply (HT Hd (Ho b Eb)).
  - cbn [set_d_blk d_dead]. rewrite Ed1. exact Ho.
  - cbn [set_d_dead d_dead]. destruct (HT Hd (Ho b Eb)) as [?|[?|[? _]]]; auto.
Qed.


(** The three virtual functions of a device. *)
Definition device_port (d : Device machine) : Prop :=
  (forall off n m, device_frame m (snd (read_internal d off n m))) /\
  (forall off n v m, device_frame m (snd (write_internal d off n v m))) /\
  (forall m, device_frame m (dev_tick d m)).

Lemma device_at_port base size r w t :
  (forall off n m, port_frame m (snd (r off n m))) ->
  (forall off n v m, port_frame m (snd (w off n v m))) ->
  (forall m, port_frame m (t m)) -> device_port (device_at base size r w t).
Proof. intros Hr Hw Ht. split_and!; intros; by apply port_device_frame. Qed.
Lemma blk_device_port : device_port blk_device.
Proof.
  split_and!; intros; [|apply blk_write_frame|apply device_frame_refl].
  cbn [read_internal blk_device device_at]. unfold blk_read. case_match; apply device_frame_refl.
Qed.

Ltac port_frames :=
  first [ apply clint_read_frames | apply clint_write_frames | apply tick_internal_frames
        | apply ns_read_frames | apply ns_write_frames | apply ns_tick_frames | apply alone_frames
        | apply events_read_frames | apply events_write_frames | apply rtc_read_frames
        | apply rtc_write_frames | apply rtc_tick_frames | apply battery_read_frames
        | apply battery_write_frames | apply rng_read_frames | apply rng_write_frames
        | apply get_mtime_frames ];
  auto using port_frame_preorder, hart_port, clock_port, irq_port, read_char_port, write_char_port,
    random_port.

Lemma emulator_devices_port : Forall device_port emulator_devices.
Proof.
  unfold emulator_devices. rewrite !Forall_app. split_and!;
    [|by destruct has_disk; [apply Forall_singleton, blk_device_port|]|];
    repeat apply List.Forall_cons; try apply List.Forall_nil; apply device_at_port; intros;
    try reflexivity;
    try (first [apply with_own_port | apply with_own__port]; [done|]; intros; port_frames);
    try (apply plic_op_frame; intros; first [apply plic_read_frame | apply plic_write_frame]).
  - unfold sig_read_internal. by repeat case_match.
  - apply sig_write_frames; [apply _|apply hart_port].
  - apply sifive_write_frames; [apply _|apply shutdown_port].
  - apply nemu_write_frames; [apply _|apply print_port].
Qed.

Lemma emulator_device_port d : d ∈ emulator_devices -> device_port d.
Proof. intros Hd. exact (proj1 (list.Forall_forall _ _) emulator_devices_port d Hd). Qed.

Lemma mtime_fits c now : fits 64 (mtime_at c now).
Proof.
  unfold mtime_at, dbl_to_u64. case_match; [|apply undefined_u64_fits].
  case_match; [|apply undefined_u64_fits]. bool_hyps. by split.
Qed.

#[export] Instance emulator_laws : PlatformLaws Devices.
Proof.
  split.
  - intros d off n m Hd. by apply emulator_device_port.
  - intros d off n v m Hd. by apply emulator_device_port.
  - intros d m Hd. by apply emulator_device_port.
  - intros m. apply port_device_frame, with_own__port; [done|]. intros. port_frames.
  - intros m. apply port_device_frame, with_own_port; [done|]. intros. port_frames.
  - intros m. cbn [clint_get_mtime emulator_platform]. unfold with_own, get_mtime, tick_internal.
    destruct (steady_clock_now m) as [now m1]. apply mtime_fits.
Qed.
End Laws.

(** ** Registration *)

Section Registration.
Context `{UndefinedConversion} `{DiskOption}.

Definition apart {W} (d1 d2 : Device W) : bool :=
  negb (check_overlap (start_ d1) (end_ d1) (start_ d2) (end_ d2)).

(** Ranges that are pairwise apart and below DRAM are all accepted, in order. *)
Lemma add_devices_apart {W} dram_size (devs acc : list (Device W)) :
  0 < dram_size <= 2 ^ 64 - DRAM_BASE -> Forall (fun d => end_ d < DRAM_BASE) devs ->
  (forall d e, d ∈ devs -> e ∈ acc -> apart d e = true) ->
  ForallOrdPairs (fun d e => apart e d = true) devs ->
  add_devices dram_size devs acc = Some (acc ++ devs).
Proof.
  intros Hs. revert acc. induction devs as [|d devs IH]; intros acc Hd Ha Hp;
    [by rewrite app_nil_r|].
  inversion Hd as [|? ? Hd1 Hd2]; subst. inversion Hp as [|? ? Hp1 Hp2]; subst. cbn [add_devices].
  unfold add_device. cbv zeta.
  assert (check_overlap (start_ d) (end_ d) DRAM_BASE (u64 (u64 (DRAM_BASE + dram_size) - 1)) = false)
    as ->.
  { unfold check_overlap. apply Z.leb_gt. lia. }
  assert (existsb (fun e => check_overlap (start_ d) (end_ d) (start_ e) (end_ e)) acc = false) as ->.
  { apply not_true_is_false. intros (e & He & Ho)%existsb_exists.
    apply list_elem_of_In in He. specialize (Ha d e ltac:(left) He). unfold apart in Ha.
    by rewrite Ho in Ha. }
  rewrite IH; [by rewrite <- app_assoc|done| |done].
  intros d' e Hd' [He|He]%elem_of_app; [apply Ha; [by right|done]|].
  apply list_elem_of_singleton in He as ->.
  rewrite List.Forall_forall in Hp1. apply Hp1. by apply list_elem_of_In.
Qed.

Lemma emulator_registered dram_size : 0 < dram_size <= 2 ^ 64 - DRAM_BASE ->
  add_devices dram_size emulator_devices [] = Some emulator_devices.
Proof.
  intros Hs. apply (add_devices_apart dram_size emulator_devices []); [done| | |].
  - unfold emulator_devices. destruct has_disk; repeat constructor.
  - intros d e _ He. by apply not_elem_of_nil in He.
  - unfold emulator_devices. destruct has_disk; repeat constructor.
Qed.

Lemma emulator_ranges : Forall device_range emulator_devices.
Proof. unfold emulator_devices. destruct has_disk; repeat constructor; by vm_compute. Qed.

Lemma emulator_bus_ok dram_size : 0 < dram_size <= 2 ^ 64 - DRAM_BASE ->
  bus_ok dram_size emulator_devices.
Proof.
  intros Hs. eapply add_devices_ok; [done|apply emulator_ranges| |by apply emulator_registered].
  split; [|done]. intros d Hd. inversion Hd.
Qed.
End Registration.

(** ** The constructor *)

Section Construction.
Context `{UndefinedConversionLaws} `{DiskOption}.

(** The size of an image; no image counts as an empty one. *)
Definition image_len (file : option (list Z)) : Z :=
  match file with None => 0 | Some bytes => Z.of_nat (length bytes) end.
Definition fits_flash (file : option (list Z)) : Prop := image_len file <= 0x2000000.

Lemma load_flash_spec file : image_len file < 2 ^ 64 ->
  match load_flash file (PFlash_init 0x10000 512) with
  | Some _ => fits_flash file
  | None => ~ fits_flash file
  end.
Proof.
  intros Hl. unfold fits_flash. destruct file as [bytes|]; cbn [load_flash image_len] in *; [|lia].
  unfold PFlash_load. change (bv_size _) with 0x2000000. rewrite Z.add_0_l, uwrap_id by (split; lia).
  destruct (Z.ltb_spec 0x2000000 (Z.of_nat (length bytes))); lia.
Qed.

(** The constructor of the CLINT works through its ports. *)
Lemma Clint_init_frames (R : machine -> machine -> Prop) (HR : PreOrder R) freq m :
  (forall flag lvl m, R m (w_upd_hart (set_interrupt_pending flag lvl) m)) ->
  (forall m, R m (snd (steady_clock_now m))) -> R m (snd (Clint_init freq m)).
Proof.
  intros Rh Rc. unfold Clint_init. pose proof (Rc m) as Hc.
  destruct (steady_clock_now m) as [now m1]. cbn [fst snd] in *.
  etransitivity; [exact Hc|].
  apply (tick_internal_frames R Rh Rc (mkClint 0 0 now freq, m1)).
Qed.

(** Having the same view is a relation that ports respect when they do not write it. *)
Lemma same_view_preorder {B} (f : machine -> B) : PreOrder (fun m m' => f m' = f m).
Proof. split; [by intros m|]. intros m1 m2 m3 E1 E2. congruence. Qed.

Lemma Clint_init_port freq (m : machine) : port_frame m (snd (Clint_init freq m)).
Proof. apply Clint_init_frames; auto using port_frame_preorder, hart_port, clock_port. Qed.

Lemma RTC_init_port (m : machine) : frames port_frame m (tt, GoldfishRTC_init m).
Proof.
  unfold GoldfishRTC_init, get_host_time_ns, frames. pose proof (ask_host_port h_unix m) as Hu.
  change (unix_time m) with (ask_host h_unix m). destruct (ask_host h_unix m) as [x m1].
  pose proof (clock_port m1) as Hc. destruct (steady_clock_now m1) as [now m2].
  cbn [fst snd] in *. by etransitivity.
Qed.

(** Opening the disk fails when the path names no file and none can be created there, when it
    cannot be opened for reading and writing, and when it has no size or is empty. *)
Definition disk_unusable (path : DiskPath) : Prop :=
  (test_file path = None /\ (create_file path = false \/ create_closed path = false)) \/
  disk_opens path = false \/ disk_tells path = false \/ test_file path = Some [].
Definition disk_fails (disk : option DiskPath) : Prop :=
  match disk with Some path => disk_unusable path | None => False end.
Definition disk_ok : Prop := ~ disk_fails disk_file.

Lemma open_disk_spec path d : open_disk path d = None <-> disk_unusable path.
Proof.
  unfold open_disk, disk_unusable. cbv zeta.
  destruct (test_file path) as [[|x bytes]|], (create_file path), (create_closed path), (disk_opens path), (disk_tells path);
    cbn; by intuition discriminate.
Qed.

#[export] Instance disk_unusable_dec path : Decision (disk_unusable path).
Proof.
  destruct (open_disk path (mkBlk 0 0 0 0 0 [] 0 0 0 (bv_new 0 0))) eqn:E.
  - right. intros Hu. by apply (open_disk_spec _ (mkBlk 0 0 0 0 0 [] 0 0 0 (bv_new 0 0))) in Hu; rewrite E in Hu.
  - left. by apply open_disk_spec in E.
Qed.
#[export] Instance disk_fails_dec disk : Decision (disk_fails disk).
Proof. destruct disk; apply _. Qed.

Lemma VirtioBlk_init_ok path b : VirtioBlk_init path = Some b -> regs_ok b.
Proof.
  unfold VirtioBlk_init, open_disk. cbv zeta. assert (queue_ok queue_init) as Hq by (unfold queue_ok, fits, queue_init; cbn; lia).
  do 3 (destruct (_ && _) || destruct (negb _); [done|]). destruct (_ <=? 0); [done|]. intros [= <-].
  split; [done| |cbn; lia]. by repeat apply Forall_cons_2.
Qed.

Lemma open_blk_spec (m : machine) : d_dead (devs m) = None ->
  match open_blk m with
  | Some m' => disk_ok /\ device_frame m m' /\ d_flash0 (devs m') = d_flash0 (devs m) /\
               d_flash1 (devs m') = d_flash1 (devs m)
  | None => ~ disk_ok
  end.
Proof.
  intros Hd. unfold open_blk, disk_ok. destruct disk_file as [path|]; [|by split_and!; [intros []|apply device_frame_refl|..]].
  destruct (VirtioBlk_init path) as [b|] eqn:Eb.
  - split; [|split; [|done]].
    + cbn [disk_fails]. intros Hu. unfold VirtioBlk_init in Eb. by rewrite (proj2 (open_disk_spec path _) Hu) in Eb.
    + pose proof (VirtioBlk_init_ok _ _ Eb) as Hr. split; try done. intros _ _.
      cbn [devs_ok emulator_platform]. unfold emulator_devs_ok. cbn. rewrite Hd. by intros x [= <-].
  - intros Hne. apply Hne. by apply open_disk_spec in Eb.
Qed.

(** The constructor only fails on a flash image that is too large or a disk that cannot be used. *)
Lemma Emulator_init_inv dram_size f0 f1 host :
  0 < dram_size <= 2 ^ 64 - DRAM_BASE ->
  image_len f0 < 2 ^ 64 -> image_len f1 < 2 ^ 64 ->
  match Emulator_init dram_size f0 f1 host with
  | Some m => fits_flash f0 /\ fits_flash f1 /\ disk_ok /\ device_frame (blank_machine dram_size host) m
  | None => ~ (fits_flash f0 /\ fits_flash f1 /\ disk_ok)
  end.
Proof.
  intros Hs L0 L1. unfold Emulator_init.
  set (m0 := blank_machine dram_size host). pose proof (Clint_init_port CLINT_FREQ m0) as Hc.
  assert (d_flash0 (devs m0) = PFlash_init 0x10000 512 /\ d_flash1 (devs m0) = PFlash_init 0x10000 512)
    as [E0 E1] by done.
  assert (d_flash0 (devs (snd (Clint_init CLINT_FREQ m0))) = d_flash0 (devs m0) /\
    d_flash1 (devs (snd (Clint_init CLINT_FREQ m0))) = d_flash1 (devs m0)) as [F0 F1].
  { split.
    - by apply (Clint_init_frames _ (same_view_preorder (fun m => d_flash0 (devs m)))).
    - by apply (Clint_init_frames _ (same_view_preorder (fun m => d_flash1 (devs m)))). }
  destruct (Clint_init CLINT_FREQ m0) as [c m1]. cbn [fst snd] in *.
  rewrite <- F0 in E0. rewrite <- F1 in E1. clear F0 F1. set (m2 := upd_devs (set_d_clint c) m1).
  assert (port_frame m0 m2) as Hp by (etransitivity; [exact Hc|by apply upd_devs_port]).
  pose proof (open_blk_spec m2) as Ho. pose proof (pf_own _ _ Hp) as [= _ Ed]. specialize (Ho Ed).
  destruct (open_blk m2) as [m3|]; [|tauto]. destruct Ho as (Hok & Hf & G0 & G1).
  change (d_flash0 (devs m2)) with (d_flash0 (devs m1)) in G0.
  change (d_flash1 (devs m2)) with (d_flash1 (devs m1)) in G1. rewrite G0, G1, E0, E1.
  pose proof (load_flash_spec f0 L0) as S0. pose proof (load_flash_spec f1 L1) as S1.
  destruct (load_flash f0 _) as [g0|]; [|tauto]. destruct (load_flash f1 _) as [g1|]; [|tauto].
  rewrite emulator_registered by done.
  match goal with |- context [GoldfishRTC_init ?m] => pose proof (RTC_init_port m) as Hr;
    destruct (GoldfishRTC_init m) as [r m4] end. unfold frames in Hr. cbn [fst snd] in Hr.
  split_and!; [exact S0|exact S1|exact Hok|].
  eapply device_frame_trans; [apply port_device_frame, Hp|]. eapply device_frame_trans; [exact Hf|].
  apply port_device_frame. etransitivity; [|by apply upd_devs_port].
  etransitivity; [|exact Hr]. by apply upd_devs_port.
Qed.

(** No shutdown has been asked for yet. *)
Lemma Emulator_init_shutdown dram_size f0 f1 host m :
  Emulator_init dram_size f0 f1 host = Some m -> d_shutdown (devs m) = None.
Proof.
  unfold Emulator_init. set (m0 := blank_machine dram_size host).
  assert (d_shutdown (devs (snd (Clint_init CLINT_FREQ m0))) = None) as Hc.
  { transitivity (d_shutdown (devs m0)); [|done].
    by apply (Clint_init_frames _ (same_view_preorder (fun m => d_shutdown (devs m)))). }
  destruct (Clint_init CLINT_FREQ m0) as [c m1]. cbn [snd] in Hc.
  assert (forall m2, open_blk (upd_devs (set_d_clint c) m1) = Some m2 -> d_shutdown (devs m2) = None) as Ho.
  { intros m2. unfold open_blk. destruct disk_file; [|by intros [= <-]].
    destruct (VirtioBlk_init _); [|done]. by intros [= <-]. }
  destruct (open_blk _) as [m2|]; [|done]. specialize (Ho m2 eq_refl).
  destruct (load_flash f0 _) as [g0|]; [|done]. destruct (load_flash f1 _) as [g1|]; [|done].
  destruct (add_devices _ _ _); [|done]. unfold GoldfishRTC_init, get_host_time_ns.
  change (unix_time ?m) with (ask_host h_unix m). unfold ask_host. cbn.
  by intros [= <-].
Qed.
End Construction.

(** ** The whole program *)

Section Program.
Context `{UndefinedConversionLaws} `{DiskOption} `{SoftFloatLaws}.

Lemma blank_machine_ok dram_size host : 0 < dram_size <= 2 ^ 64 - DRAM_BASE ->
  mach_ok (blank_machine dram_size host).
Proof.
  intros Hs. split; [apply Hart_init_ok; [by split|done]| |done|done]. apply Dram_init_wf. lia.
Qed.

Lemma set_pc_hart_ok pc h : fits 64 pc -> Z.testbit pc 0 = false -> hart_ok h -> hart_ok (set_pc pc h).
Proof. intros Hp He []. by split. Qed.

(** The machine after the constructor and the loading of a program. *)
Lemma Emulator_loaded_ok dram_size f0 f1 host file segs m m1 :
  0 < dram_size <= 2 ^ 64 - DRAM_BASE -> image_len f0 < 2 ^ 64 -> image_len f1 < 2 ^ 64 ->
  Emulator_init dram_size f0 f1 host = Some m -> elf_readable file segs ->
  Emulator_loadelf file m = (Ok tt, m1) -> Z.testbit (pc (hart m1)) 0 = false -> ok0 m1.
Proof.
  intros Hs L0 L1 Hi Hf Hl He. pose proof (Emulator_init_inv dram_size f0 f1 host Hs L0 L1) as HI.
  rewrite Hi in HI. destruct HI as (_ & _ & _ & Hp). pose proof (blank_machine_ok dram_size host Hs) as Hb.
  assert (mach_ok m) as [Hh' Hd' Ht' Ho'].
  { apply (mem_frame_ok (blank_machine dram_size host)); [|done]. by apply device_mem_frame. }
  assert (softfloat_exceptionFlags m = 0) as Hfl by (by rewrite (df_flags _ _ Hp)).
  unfold Emulator_loadelf in Hl. pose proof (elf_load_lemma file segs (dram_ m) Hf Hd') as HL.
  destruct (elf_load file (dram_ m)) as [[entry|e] d]; [|done]. injection Hl as <-.
  destruct HL as (_ & _ & Ee & Hd1 & _). split; [|done]. split; [|done|done|done].
  apply set_pc_hart_ok; [|done|done]. eapply (file_field_fits file _ 8); [apply Hf|done].
Qed.

(** The user interface acts on the machine as a device does. *)
Lemma push_key_ok code press e : engine_ok e -> engine_ok (push_key code press e).
Proof.
  intros [Hm Hi Hd Hg].
  assert (port_frame (e_mach e) (with_own_ d_events set_d_events (push_key_event EVENTS_ID code press) (e_mach e)))
    as Hp.
  { apply with_own__port; [done|]. intros s. apply push_key_frames; [apply _|apply irq_port]. }
  split; cbn [push_key e_mach e_i e_phase shutdown_from_guest_]; try done.
  - destruct Hm as [Hm Hf]. split; [|by rewrite (pf_flags _ _ Hp)].
    apply (mem_frame_ok (e_mach e)); [|done]. by apply device_mem_frame, port_device_frame.
  - intros Ep. unfold died_why. rewrite (df_priv _ _ (port_device_frame _ _ Hp)).
    cbn [process_dead emulator_platform]. pose proof (pf_own _ _ Hp) as [= _ Ed]. rewrite Ed. by apply Hd.
Qed.

Lemma ui_update_ok events e : engine_ok e -> engine_ok (SDL3Backend_update events e).
Proof.
  revert e. induction events as [|ev events IH]; intros e He; [done|].
  assert (forall code press, engine_ok (sdl_key code press e)) as Hk.
  { intros code press. unfold sdl_key. case_match; [by apply push_key_ok|done]. }
  destruct ev; cbn [SDL3Backend_update]; auto. by destruct He.
Qed.

Lemma ui_update_keeps events e :
  let e' := SDL3Backend_update events e in
  e_phase e' = e_phase e /\ e_i e' = e_i e /\
  (shutdown_from_host_ e = true -> shutdown_from_host_ e' = true).
Proof.
  revert e. induction events as [|ev events IH]; intros e; [done|].
  assert (forall code press, let e' := sdl_key code press e in
    e_phase e' = e_phase e /\ e_i e' = e_i e /\ shutdown_from_host_ e' = shutdown_from_host_ e) as Hk.
  { intros code press. unfold sdl_key. by case_match. }
  destruct ev as [| |code|code| | |]; cbn [SDL3Backend_update]; auto.
  - destruct (Hk code true) as (<- & <- & <-). apply IH.
  - destruct (Hk code false) as (<- & <- & <-). apply IH.
Qed.

(** Both backends are what the engine's host thread relies on. *)
#[export] Instance emulator_ui_laws headless : UiLaws (UiBackend0 := emulator_ui headless) Devices.
Proof.
  split; cbn [ui_update emulator_ui]; intros events e; destruct headless; try done; try apply ui_update_keeps.
  by apply ui_update_ok.
Qed.

(** How the process can have died: at the reserved privilege level, or in a request to the
    disk. *)
Definition emulator_died_why (m : machine) : Prop :=
  priv (hart m) = 2 \/
  has_disk = true /\ exists why, d_dead (devs m) = Some why /\
    (why = BTerminate \/ why = BStatusByte \/ why = BDivide).

Lemma emulator_died e : engine_ok e -> e_phase e = Died -> emulator_died_why (e_mach e).
Proof.
  intros [Ho _ Hd Hg] Ep. destruct (Hd Ep) as [?|Hdead]; [by left|right].
  pose proof (mk_devs _ (proj1 Ho)) as Hdv. cbn [devs_ok process_dead emulator_platform] in *.
  unfold emulator_devs_ok in Hdv. bool_hyps. destruct (d_dead (devs (e_mach e))) as [why|]; [|done].
  by split; [|exists why].
Qed.

Lemma emulator_reachable u m e : ok0 m -> rtc (emulator_step u) (engine_init m) e -> engine_ok e.
Proof.
  intros Hm. apply (rtc_ind_r (fun e => engine_ok e)); [by split|].
  intros e1 e2 _ Hs He. destruct Hs as [e1 e2 Hs|events e1 _]; [by eapply step_ok|by apply ui_update_ok].
Qed.

(** The program as a whole, with no assumption on its devices: the constructor of
    the emulator fails only on a flash image larger than the flash or a disk that cannot be used;
    and after it and the
    loading of an ELF file with an even entry point, whatever the host's clock, console
    and random numbers answer, whatever keys the user presses and however the two
    threads interleave, the machine stays well formed (the registers of the block device
    included), no host exception ends the CPU thread, and the process can only die at the
    reserved privilege level 2 or, when there is a disk, in a request to it: by an exception
    in a noexcept function, a status byte outside of DRAM or a queue of size zero. *)
Theorem emulator_safe (u : operands) dram_size f0 f1 host file segs :
  0 < dram_size <= 2 ^ 64 - DRAM_BASE -> image_len f0 < 2 ^ 64 -> image_len f1 < 2 ^ 64 ->
  elf_readable file segs ->
  match Emulator_init dram_size f0 f1 host with
  | None => 0x2000000 < image_len f0 \/ 0x2000000 < image_len f1 \/ disk_fails disk_file
  | Some m => forall m1 e, Emulator_loadelf file m = (Ok tt, m1) -> Z.testbit (pc (hart m1)) 0 = false ->
      rtc (emulator_step u) (engine_init m1) e ->
      ok0 (e_mach e) /\ shutdown_from_guest_ e = false /\
      (e_phase e = Died -> priv (hart (e_mach e)) = 2 \/
        has_disk = true /\ exists why, d_dead (devs (e_mach e)) = Some why /\
          (why = BTerminate \/ why = BStatusByte \/ why = BDivide))
  end.
Proof.
  intros Hs L0 L1 Hf. destruct (Emulator_init dram_size f0 f1 host) as [m|] eqn:Hi.
  - intros m1 e Hl He Hr. pose proof (Emulator_loaded_ok dram_size f0 f1 host file segs m m1 Hs L0 L1 Hi Hf Hl He) as Hm.
    pose proof (emulator_reachable u m1 e Hm Hr) as He1.
    split; [apply He1|]. split; [apply He1|]. by apply emulator_died.
  - pose proof (Emulator_init_inv dram_size f0 f1 host Hs L0 L1) as HI. rewrite Hi in HI.
    unfold fits_flash, disk_ok in HI.
    destruct (decide (disk_fails disk_file)) as [?|Hne]; [by right; right|].
    destruct (Z.ltb_spec 0x2000000 (image_len f0)); [by left|].
    destruct (Z.ltb_spec 0x2000000 (image_len f1)); [by right; left|]. by destruct HI.
Qed.

(** C35. The memory map of the machine: for every size of DRAM the registration of all
    thirteen devices, fourteen with a disk, succeeds, and every access belongs to DRAM or to at most one
    device, whatever the order of the bus's vector. *)
Theorem emulator_memory_map dram_size addr len d1 d2 :
  0 < dram_size <= 2 ^ 64 - DRAM_BASE -> fits 64 addr -> 0 < len < 2 ^ 64 ->
  add_devices dram_size emulator_devices [] = Some emulator_devices /\
  (d1 ∈ emulator_devices -> contains d1 addr len = true ->
   start_ d1 <= addr <= end_ d1 /\ ~ DRAM_BASE <= addr < DRAM_BASE + dram_size /\
   (d2 ∈ emulator_devices -> contains d2 addr len = true -> start_ d2 = start_ d1)).
Proof.
  intros Hs Ha Hl. split; [by apply emulator_registered|].
  destruct (emulator_bus_ok dram_size Hs) as [Hrange Hdisj].
  intros Hin1 Hc1. destruct (Hrange d1 Hin1) as [R1 D1].
  destruct (contains_range d1 addr len) as [I1 _]; [done..|].
  split; [exact I1|]. split; [lia|].
  intros Hin2 Hc2. destruct (Hrange d2 Hin2) as [R2 D2].
  destruct (contains_range d2 addr len) as [I2 _]; [done..|].
  apply list_elem_of_lookup_1 in Hin1 as [i Hi], Hin2 as [j Hj].
  destruct (decide (i = j)) as [->|Hij]; [by simplify_eq|].
  destruct (Hdisj i j d1 d2); [done..|lia|lia].
Qed.
End Program.

(** *** A concrete machine *)

Section Witness.
(** A path where no file exists and one can be created: the machine has a new disk. *)
Definition new_disk : DiskPath := mkDiskPath None true true true true.
#[local] Instance small_disk : DiskOption := Some new_disk.
#[local] Existing Instance zero_softfloat.
#[local] Instance zero_conversion : UndefinedConversion := {
  undefined_u64 _ := 0;
  undefined_s64 _ := 0;
}.
#[local] Instance zero_conversion_laws : UndefinedConversionLaws.
Proof. split. by split. Qed.

(** A host whose clock advances by a microsecond per call, without input. *)
Definition small_host : HostEnv :=
  mkHost (fun n => 1000 * Z.of_nat n) (fun _ => 1700000000) (fun n => Z.of_nat n) (fun _ => None) (fun _ => None) 0 [] []
    (bv_new 0 0).

Lemma emulator_safe_witness :
  match Emulator_init 0x4000000 None None small_host with
  | None => False
  | Some m => forall m1, Emulator_loadelf small_elf m = (Ok tt, m1) ->
      Z.testbit (pc (hart m1)) 0 = false ->
      ok0 (e_mach (cpu_step no_operands (engine_init m1)))
  end.
Proof.
  pose proof (emulator_safe no_operands 0x4000000 None None small_host small_elf small_segs
    ltac:(split; [reflexivity|discriminate]) ltac:(reflexivity) ltac:(reflexivity) small_elf_readable)
    as Hs.
  destruct (Emulator_init 0x4000000 None None small_host) as [m|].
  - intros m1 Hl He. apply (Hs m1 _ Hl He). eapply rtc_l; [apply step_engine, step_cpu|apply rtc_refl].
  - destruct Hs as [Hs|[Hs|[[_ [Hs|Hs]]|[Hs|[Hs|Hs]]]]]; vm_compute in Hs; discriminate Hs.
Defined.

Lemma emulator_memory_map_witness :
  add_devices 0x4000000 emulator_devices [] = Some emulator_devices /\
  start_ ns16550_device <= 0x10000005 <= end_ ns16550_device.
Proof.
  destruct (emulator_memory_map 0x4000000 0x10000005 1 ns16550_device ns16550_device) as [E H];
    [split; [reflexivity|discriminate]|split; [discriminate|reflexivity]|split; reflexivity|].
  split; [exact E|]. apply H; [|reflexivity]. unfold emulator_devices, has_disk. cbn [app disk_file small_disk]. do 4 right. left.
Defined.

(** The machine of the witness does load the file and starts at its entry point. *)
Example emulator_runs :
  match Emulator_init 0x4000000 None None small_host with
  | Some m => match Emulator_loadelf small_elf m with
              | (Ok tt, m1) => pc (hart m1) = 0x80000010
              | _ => False
              end
  | None => False
  end.
Proof. vm_compute. reflexivity. Qed.
End Witness.
