(* ===== verification/Main.v ===== *)
(** * The program (src/main.cpp, src/emulator.cpp)

    [main] on the options of the command line: the emulator is constructed with its user
    interface, an ELF file is loaded, the engine runs until it halts, and the objects are
    destroyed, also when an exception ends the construction or the loading.  CLI11 parses the
    command line; what the program sees of it is the record of options. *)

From stdpp Require Import gmap.
From S2P Require Import Prelude Bits Hart HartInv Machine Bus Ports ByteVec SmallDevices.
From S2P Require Import Ns16550 GoldfishRtc GoldfishEvents PFlash Clint Plic VirtioBlk VirtioBlkSpec Mmu MmuSpec DeviceFrames Elf Emulator.
From S2P Require Import Decoder Execute ExecFloat Dispatch ExecSpec ExecSafe Engine EngineSpec Runner RunnerSpec Backends Ui EmulatorSpec.

(** ** Options *)

(** What opening and reading a file gives: [None] when it fails. *)
Abbreviation File := (option (list Z)).

(* An option that is not given is an empty path: [None]. *)
(* @src src/main.cpp 32-38 main *)
Record Args := mkArgs {
  elf_file : File;
  disk_arg : option DiskPath;
  flash0_file : option File;
  flash1_file : option File;
  dram_size_mb : Z;
  timeout_ms : Z;              (* uint64_t *)
  headless : bool;
}.

(* Without -m and -t. *)
(* @src src/main.cpp 36-54 main *)
Definition default_args (file : list Z) : Args := mkArgs (Some file) None None None 512 0 false.

(* CLI::ExistingFile and CLI::Range *)
(* @src src/main.cpp 40-53 main *)
Definition accepted (a : Args) : bool :=
  match elf_file a with Some _ => true | None => false end &&
  (64 <=? dram_size_mb a) && (dram_size_mb a <=? 16384).

(* @src src/main.cpp 59-59 main *)
Definition dram_size (a : Args) : Z := u64 (u64 (dram_size_mb a * 1024) * 1024).

(* std::chrono::milliseconds holds a signed 64-bit number. *)
(* @src src/main.cpp 72-72 main *)
Definition timeout_arg (a : Args) : Z := swrap 64 (timeout_ms a).

(** Whether the calls of SDL succeed. *)
Record SdlAnswers := mkSdlAnswers {
  sdl_init : bool;
  sdl_window : bool;
  sdl_renderer : bool;
  sdl_texture : bool;
}.

(** ** The emulator object *)

(* The flash images: [None] is the std::runtime_error of a file that cannot be read. *)
(* @src src/device/pflash_cfi01.cpp 90-103 PFlashCFI01::load *)
Definition read_flash (f : option File) : option File :=
  match f with
  | None => Some None
  | Some None => None
  | Some (Some bytes) => Some (Some bytes)
  end.

(** The backend of the engine. *)
Inductive backend : Type :=
  | Headless (c : HostConsole)
  | Sdl (o : SdlObjects) (c : HostConsole).

Section Emulator.
Context `{UndefinedConversion} `{HostBits}.
Variable a : Args.
#[local] Instance args_disk : DiskOption := disk_arg a.
#[local] Instance args_ui : UiBackend Devices := emulator_ui (headless a).

(* @src src/emulator.cpp 122-138 Emulator::Emulator *)
Definition make_backend (sdl : SdlAnswers) (h : HostUi) : option backend * HostUi :=
  if headless a then
    let '(c, h) := HeadlessBackend_init h in (Headless <$> c, h)
  else
    let '(b, h) := SDL3Backend_init (sdl_init sdl) (sdl_window sdl) (sdl_renderer sdl) (sdl_texture sdl) h in
    ((fun oc => Sdl (fst oc) (snd oc)) <$> b, h).

(* The destructor of the last member of the engine. *)
(* @src include/emulator.hpp 31-31 Emulator::~Emulator *)
Definition destroy_backend (b : backend) (h : HostUi) : HostUi :=
  match b with
  | Headless c => HeadlessBackend_destroy c h
  | Sdl o c => SDL3Backend_destroy o c h
  end.

(* The whole constructor: the machine, then the user interface. *)
(* @src src/emulator.cpp 42-139 Emulator::Emulator *)
Definition Emulator_construct (sdl : SdlAnswers) (host : HostEnv) (h : HostUi) :
    option (machine * backend) * HostUi :=
  match read_flash (flash0_file a), read_flash (flash1_file a) with
  | Some f0, Some f1 =>
      match Emulator_init (dram_size a) f0 f1 host with
      | None => (None, h)
      | Some m =>
          let '(b, h) := make_backend sdl h in
          (match b with Some b => Some (m, b) | None => None end, h)
      end
  | _, _ => (None, h)
  end.

(* @src src/emulator.cpp 164-169 Emulator::load *)
Definition Emulator_load_path (addr : Z) (file : File) (m : machine) : option machine :=
  match file with
  | None => None
  | Some data => match data with [] => Some m | _ => Emulator_load addr data m end
  end.

(* @src include/emulator.hpp 57-63 Emulator::shutdown_code *)
Definition Emulator_shutdown_code (m : machine) : Z := default 0 (fst <$> d_shutdown (devs m)).
(* @src include/execution_engine.hpp 49-55 ExecutionEngine::shutdown_status *)
Definition Emulator_shutdown_status (m : machine) : Z := default 0 (snd <$> d_shutdown (devs m)).

(** ** main *)

(** What [main] has reached before it runs the engine. *)
Inductive start_result :=
  | Failed                                  (* EXIT_FAILURE *)
  | LoadUndefined                           (* the loader has read outside of the file *)
  | Started (m : machine) (b : backend).

(* An exception of loadelf destroys the emulator. *)
(* @src src/main.cpp 55-84 main *)
Definition main_start (sdl : SdlAnswers) (host : HostEnv) (h : HostUi) : start_result * HostUi :=
  match Emulator_construct sdl host h with
  | (None, h) => (Failed, h)
  | (Some (m, b), h) =>
      match elf_file a with
      | None => (Failed, destroy_backend b h)
      | Some file =>
          match Emulator_loadelf file m with
          | (Ok _, m) => (Started m b, h)
          | (Throw LThrow, _) => (Failed, destroy_backend b h)
          | (Throw LUndefined, _) => (LoadUndefined, h)
          end
      end
  end.

Context `{SoftFloat}.

(* @src src/emulator.cpp 141-143 Emulator::run *)
Definition Emulator_run (u : operands) (mvs : list move) (m : machine) : runner Devices :=
  schedule u (timeout_arg a) mvs (runner_init m).

(* The exit code once the emulator is destroyed: EXIT_SUCCESS or, after an exception of the
   CPU thread, EXIT_FAILURE. *)
(* @src src/main.cpp 73-84 main *)
Definition main_exit (r : runner Devices) : option Z :=
  match r_host r with
  | HJoined Returned => Some 0
  | HJoined Rethrown => Some 1
  | _ => None
  end.
End Emulator.

(** ** The constructor and the loading *)

Section Start.
Context `{UndefinedConversionLaws} `{HostBits} `{SoftFloatLaws}.
Variable a : Args.
#[local] Hint Extern 0 DiskOption => exact (args_disk a) : typeclass_instances.
#[local] Hint Extern 0 (UiBackend Devices) => exact (args_ui a) : typeclass_instances.

(** The size of the image of a flash option, when it can be read. *)
Definition flash_len (f : option File) : Z :=
  match f with Some (Some bytes) => Z.of_nat (length bytes) | _ => 0 end.
Definition sdl_works (sdl : SdlAnswers) : bool :=
  sdl_init sdl && sdl_window sdl && sdl_renderer sdl && sdl_texture sdl.

(** Why the program ends before it runs the guest: a flash image that cannot be read or does
    not fit, a disk that cannot be created or opened or is empty, a second user interface or a
    failure of SDL, or an ELF file with another header or segments outside of DRAM.  The host is
    taken to have the memory and the threads the program asks for. *)
Definition cannot_start (sdl : SdlAnswers) (h : HostUi) (file : list Z) (segs : list Elf64_Phdr) : Prop :=
  flash0_file a = Some None \/ flash1_file a = Some None \/
  0x2000000 < flash_len (flash0_file a) \/ 0x2000000 < flash_len (flash1_file a) \/
  disk_fails (disk_arg a) \/
  initialized_ h = true \/ (headless a = false /\ sdl_works sdl = false) \/
  valid_header file = false \/ ~ Forall (seg_fits (dram_size a)) segs.

Lemma accepted_size : accepted a = true -> 0 < dram_size a <= 2 ^ 64 - DRAM_BASE.
Proof.
  unfold accepted, dram_size. intros Ha. bool_hyps.
  assert (64 <= dram_size_mb a <= 16384) by lia.
  rewrite !uwrap_id by (unfold fits; rewrite ?uwrap_id by (unfold fits; lia); lia).
  change DRAM_BASE with 0x80000000. lia.
Qed.

(** The backend can be made exactly when no other exists and SDL works. *)
Lemma make_backend_spec sdl h : sdl_on h = false ->
  match make_backend a sdl h with
  | (Some b, h') => destroy_backend b h' = h /\ initialized_ h = false /\
      (headless a = true \/ sdl_works sdl = true)
  | (None, h') => h' = h /\ (initialized_ h = true \/ (headless a = false /\ sdl_works sdl = false))
  end.
Proof.
  intros Hs. unfold make_backend, sdl_works. destruct (headless a).
  - pose proof (Headless_lifecycle h) as HL. destruct (HeadlessBackend_init h) as [[c|] h']; cbn.
    + destruct HL as (? & ? & ?). auto.
    + destruct HL as (? & ?). auto.
  - pose proof (SDL3_lifecycle (sdl_init sdl) (sdl_window sdl) (sdl_renderer sdl) (sdl_texture sdl) h Hs) as HL.
    destruct (SDL3Backend_init _ _ _ _ h) as [[[o c]|] h']; cbn.
    + destruct HL as (? & ? & ? & ? & ? & ?). auto.
    + destruct HL as (? & [?|?]); auto.
Qed.

(** Reading a flash image. *)
Lemma read_flash_spec f : match read_flash f with
  | Some f' => f <> Some None /\ image_len f' = flash_len f
  | None => f = Some None
  end.
Proof. by destruct f as [[bytes|]|]. Qed.

(** The objects of the constructor. *)
Lemma Emulator_construct_spec sdl host h : accepted a = true -> sdl_on h = false ->
  flash_len (flash0_file a) < 2 ^ 64 -> flash_len (flash1_file a) < 2 ^ 64 ->
  match Emulator_construct a sdl host h with
  | (Some (m, b), h') => destroy_backend b h' = h /\ (exists f0 f1, image_len f0 < 2 ^ 64 /\ image_len f1 < 2 ^ 64 /\
      Emulator_init (dram_size a) f0 f1 host = Some m) /\
      forall file segs, cannot_start sdl h file segs ->
        valid_header file = false \/ ~ Forall (seg_fits (dram_size a)) segs
  | (None, h') => h' = h /\ forall file segs, cannot_start sdl h file segs
  end.
Proof.
  intros Ha Hs L0 L1. pose proof (accepted_size Ha) as Hz. unfold Emulator_construct, cannot_start.
  pose proof (read_flash_spec (flash0_file a)) as R0. pose proof (read_flash_spec (flash1_file a)) as R1.
  destruct (read_flash (flash0_file a)) as [f0|]; [|by auto].
  destruct (read_flash (flash1_file a)) as [f1|]; [|by auto].
  destruct R0 as [N0 E0], R1 as [N1 E1]. rewrite <- E0, <- E1 in *. clear E0 E1.
  pose proof (Emulator_init_inv (dram_size a) f0 f1 host Hz L0 L1) as HI. unfold fits_flash, disk_ok in HI.
  change disk_file with (disk_arg a) in HI.
  destruct (Emulator_init (dram_size a) f0 f1 host) as [m|] eqn:Ei.
  - destruct HI as (I0 & I1 & I2 & _). pose proof (make_backend_spec sdl h Hs) as HB.
    destruct (make_backend a sdl h) as [[b|] h'].
    + destruct HB as (B1 & B2 & B3). split; [done|]. split; [by exists f0, f1|]. intros file segs Hc.
      rewrite B2 in Hc. destruct Hc as [?|[?|[?|[?|[?|[?|[[B4 B5]|?]]]]]]]; try done; try lia.
      rewrite B4, B5 in B3. by destruct B3.
    + destruct HB as (-> & HB). split; [done|]. intros file segs. do 5 right. destruct HB; auto.
  - split; [done|]. intros file segs.
    destruct (decide (disk_fails (disk_arg a))) as [?|Hne]; [by do 4 right; left|].
    destruct (Z.ltb_spec 0x2000000 (image_len f0)); [by do 2 right; left|].
    destruct (Z.ltb_spec 0x2000000 (image_len f1)); [by do 3 right; left|]. by destruct HI.
Qed.

(** ** The program as a whole *)

(** What the program is given: options that pass the checks of the command line, images that
    exist, and an ELF file whose headers and segments lie within it. *)
Record args_ok (file : list Z) (segs : list Elf64_Phdr) : Prop := {
  ao_accepted : accepted a = true;
  ao_flash0 : flash_len (flash0_file a) < 2 ^ 64;
  ao_flash1 : flash_len (flash1_file a) < 2 ^ 64;
  ao_elf : elf_file a = Some file;
  ao_readable : elf_readable file segs;
}.

(** The machine [main] runs. *)
Definition ready (m : machine) : Prop :=
  d_shutdown (devs m) = None /\ (Z.testbit (pc (hart m)) 0 = false -> ok0 m).

Lemma loaded file segs f0 f1 host m : args_ok file segs ->
  image_len f0 < 2 ^ 64 -> image_len f1 < 2 ^ 64 -> Emulator_init (dram_size a) f0 f1 host = Some m ->
  match Emulator_loadelf file m with
  | (Ok _, m1) => ready m1 /\ valid_header file = true /\ Forall (seg_fits (dram_size a)) segs
  | (Throw e, _) => e = LThrow /\ (valid_header file = false \/ ~ Forall (seg_fits (dram_size a)) segs)
  end.
Proof.
  intros [Ha _ _ _ Hf] L0 L1 Hi. pose proof (accepted_size Ha) as Hz.
  pose proof (Emulator_init_inv (dram_size a) f0 f1 host Hz L0 L1) as HI. rewrite Hi in HI.
  destruct HI as (_ & _ & _ & HF). pose proof (blank_machine_ok (dram_size a) host Hz) as Hb.
  assert (dram_wf (dram_ m) /\ size_ (dram_ m) = dram_size a) as [Hd Hsz].
  { destruct (df_dram _ _ HF) as [? Hsz]; [apply Hb|]. split; [done|exact Hsz]. }
  pose proof (Emulator_init_shutdown _ _ _ _ _ Hi) as Hn.
  pose proof (elf_load_lemma file segs (dram_ m) Hf Hd) as HL. rewrite Hsz in HL.
  destruct (Emulator_loadelf file m) as [[[]|e] m1] eqn:El.
  - split; [split|]; [| |by unfold Emulator_loadelf in El; destruct (elf_load file (dram_ m)) as [[|] ?]; [destruct HL as (? & ? & _)|]].
    + unfold Emulator_loadelf in El. destruct (elf_load file (dram_ m)) as [[entry|] d]; [|done]. by injection El as <-.
    + intros He. by apply (Emulator_loaded_ok (dram_size a) f0 f1 host file segs m).
  - unfold Emulator_loadelf in El. destruct (elf_load file (dram_ m)) as [[|] d]; [done|]. injection El as -> <-.
    by destruct HL as (? & _ & _ & ?).
Qed.

Lemma main_start_spec sdl host h file segs : args_ok file segs -> sdl_on h = false ->
  match main_start a sdl host h with
  | (Failed, h') => h' = h /\ cannot_start sdl h file segs
  | (LoadUndefined, _) => False
  | (Started m b, h') => ready m /\ destroy_backend b h' = h /\ ~ cannot_start sdl h file segs
  end.
Proof.
  intros Hok Hs. pose proof (Emulator_construct_spec sdl host h (ao_accepted _ _ Hok) Hs (ao_flash0 _ _ Hok) (ao_flash1 _ _ Hok)) as HC.
  unfold main_start. destruct (Emulator_construct a sdl host h) as [[[m b]|] h']; [|by destruct HC as [-> HC]].
  destruct HC as (Hb & (f0 & f1 & L0 & L1 & Hi) & Hc). rewrite (ao_elf _ _ Hok).
  pose proof (loaded file segs f0 f1 host m Hok L0 L1 Hi) as HL.
  destruct (Emulator_loadelf file m) as [[[]|e] m1].
  - destruct HL as (Hr & Hv & Hseg). split; [done|]. split; [done|]. intros Hx.
    apply Hc in Hx as [Hx|Hx]; [congruence|done].
  - destruct HL as [-> HL]. split; [done|]. unfold cannot_start. do 7 right. exact HL.
Qed.

Lemma ready_init m : ready m -> Z.testbit (pc (hart m)) 0 = false ->
  ok0 m /\ guest_shutdown (devs m) = false.
Proof. intros [Hd Hm] He. split; [by apply Hm|]. cbn [guest_shutdown emulator_platform]. by rewrite Hd. Qed.

(** C1. The program as a whole, for any options the command line accepts and any ELF file whose
    headers and segments lie within it.  It exits with EXIT_FAILURE before it runs the guest
    exactly for the reasons of [cannot_start], with the terminal and the SDL objects as they
    were.  Otherwise, if the entry point is even, then whatever the host's clock,
    console, random numbers, disk and user do and however the two threads interleave, the machine
    stays well formed; the program ends only when the CPU thread has ended, with EXIT_SUCCESS and
    the terminal restored; or the process dies, at the reserved privilege level 2 or in a
    request to the disk: never in the start or the end of the threads. *)
Theorem main_safe (u : operands) sdl host h file segs : args_ok file segs -> sdl_on h = false ->
  match main_start a sdl host h with
  | (Failed, h') => h' = h /\ cannot_start sdl h file segs
  | (LoadUndefined, _) => False
  | (Started m b, h') => destroy_backend b h' = h /\ ~ cannot_start sdl h file segs /\
      (Z.testbit (pc (hart m)) 0 = false -> forall mvs, let r := Emulator_run a u mvs m in
       ok0 (e_mach (r_eng r)) /\
       (forall code, main_exit r = Some code -> code = 0 /\ cpu_thread_ r = Exited) /\
       (gone r = true -> e_phase (r_eng r) = Died /\ emulator_died_why (e_mach (r_eng r))))
  end.
Proof.
  intros Hok Hs. pose proof (main_start_spec sdl host h file segs Hok Hs) as HM.
  destruct (main_start a sdl host h) as [[| |m b] h']; [done..|]. destruct HM as (Hr & Hb & Hc).
  split; [done|]. split; [done|]. intros He mvs r. destruct (ready_init m Hr He) as [Hm Hg].
  assert (runner_ok r) as Hrun by (by apply schedule_ok, runner_init_ok). clearbody r.
  split; [apply Hrun|]. pose proof (ro_result r Hrun) as Hz. split.
  - intros code. unfold main_exit. destruct (r_host r) as [| | | | | | |res|[]|]; try done. by intros [= <-].
  - unfold gone. intros Hgone. assert (e_phase (r_eng r) = Died) as Ed by (by destruct (e_phase (r_eng r)), (r_host r)).
    split; [done|]. by apply emulator_died; [apply Hrun|].
Qed.

(** C2. A run with a timeout ends, whatever the guest does: the handshake needs a step of the
    host, one of the CPU thread and one of the host; once the deadline has passed, five steps of the
    host, 2 * 65536 + 2 of the CPU thread and one of the host, in any interleaving, end
    the program with EXIT_SUCCESS, unless the process has died at the reserved privilege level
    2 or in a request to the disk.  The timeout is below 2^63 nanoseconds. *)
Theorem main_terminates (u : operands) sdl host h file segs m b h' s1 s2 s3 t1 t2 t3 :
  args_ok file segs -> sdl_on h = false -> 0 < timeout_ms a < 9223372036854 ->
  main_start a sdl host h = (Started m b, h') -> Z.testbit (pc (hart m)) 0 = false ->
  1 <= host_moves s1 -> 1 <= cpu_moves s2 -> 1 <= host_moves s3 ->
  late (timeout_ms a) (start_time (Emulator_run a u (s1 ++ s2 ++ s3) m)) t1 ->
  5 <= host_moves t1 -> 131074 <= cpu_moves t2 -> 1 <= host_moves t3 ->
  let r := Emulator_run a u ((s1 ++ s2 ++ s3) ++ (t1 ++ t2 ++ t3)) m in
  main_exit r = Some 0 \/ (e_phase (r_eng r) = Died /\ emulator_died_why (e_mach (r_eng r))).
Proof.
  intros Hok Hs Ht E He N1 N2 N3 Hl N4 N5 N6 r. pose proof (main_start_spec sdl host h file segs Hok Hs) as HM.
  rewrite E in HM. destruct HM as (Hr & _). destruct (ready_init m Hr He) as [Hm Hg].
  assert (timeout_arg a = timeout_ms a) as Et.
  { unfold timeout_arg, swrap. rewrite Z.mod_small by lia. by destruct (Z.ltb_spec (timeout_ms a) (2 ^ (64 - 1))); [|lia]. }
  assert (runner_ok r) as Hrun by (by apply schedule_ok, runner_init_ok).
  rewrite <- Et in Hl, Ht. pose proof (halt_ends u (timeout_arg a) Ht m s1 s2 s3 t1 t2 t3 Hm Hg N1 N2 N3 Hl N4 N5 N6) as HE.
  cbv zeta in HE. rewrite <- schedule_app in HE. fold (Emulator_run a u ((s1 ++ s2 ++ s3) ++ (t1 ++ t2 ++ t3)) m) in HE.
  fold r in HE. destruct HE as [Hj|[Hd _]].
  - left. unfold main_exit. by rewrite Hj.
  - right. split; [exact Hd|]. by apply emulator_died; [apply Hrun|].
Qed.
End Start.

(** *** A concrete run *)

Section Witness.
#[local] Existing Instance zero_softfloat.
#[local] Existing Instance zero_conversion.
#[local] Existing Instance zero_conversion_laws.
#[local] Existing Instance linux_bits.

(** 64 MB, a new disk, no window, a timeout of 5 ms; a terminal nobody else uses. *)
Definition small_args : Args := mkArgs (Some small_elf) (Some new_disk) None None 64 5 true.
Definition small_sdl : SdlAnswers := mkSdlAnswers false false false false.
Definition small_ui : HostUi := mkHostUi false linux_tty false 0 0 0.

Lemma small_args_ok : args_ok small_args small_elf small_segs.
Proof. by split; [| | | |apply small_elf_readable]. Qed.

(** It starts, at the entry point of the file. *)
Example small_starts :
  match main_start small_args small_sdl small_host small_ui with
  | (Started m b, h) => pc (hart m) = 0x80000010 /\ d_blk (devs m) <> None /\ stdin_ h <> linux_tty
  | _ => False
  end.
Proof. vm_compute. split; [done|]. by split. Qed.

(** A disk image that cannot be opened for writing, and a path where none can be created, end
    the program. *)
Example bad_disks :
  let start disk := main_start (mkArgs (Some small_elf) (Some disk) None None 64 0 true) small_sdl small_host small_ui in
  start (mkDiskPath (Some [0; 0]) true true false true) = (Failed, small_ui) /\
  start (mkDiskPath None false true true true) = (Failed, small_ui).
Proof. vm_compute. by split. Qed.

(** A file that is no ELF file ends the program, with the terminal restored. *)
Example bad_file :
  main_start (mkArgs (Some [1; 2; 3; 4]) None None None 64 0 true) small_sdl small_host small_ui = (Failed, small_ui).
Proof. vm_compute. reflexivity. Qed.

Lemma main_safe_witness :
  match main_start small_args small_sdl small_host small_ui with
  | (Started m b, h') => destroy_backend b h' = small_ui
  | _ => False
  end.
Proof.
  pose proof small_starts as Hst.
  pose proof (main_safe small_args no_operands small_sdl small_host small_ui small_elf small_segs small_args_ok eq_refl) as T.
  destruct (main_start small_args small_sdl small_host small_ui) as [[| |m b] h']; [done..|]. apply T.
Defined.

(** A step of the host without user input, and one of the CPU thread. *)
Definition host_at (now : Z) : move (H1 := args_ui small_args) :=
  MHost (H1 := args_ui small_args) now ([] : list SDL_Event).
Definition cpu_move : move (H1 := args_ui small_args) := MCpu (H1 := args_ui small_args).

Lemma main_terminates_witness :
  match main_start small_args small_sdl small_host small_ui with
  | (Started m b, h') =>
      let r := Emulator_run small_args no_operands (([host_at 0] ++ [cpu_move] ++ [host_at 100]) ++
        (repeat (host_at 6000000) 5 ++ repeat cpu_move (Z.to_nat 131074) ++ [host_at 6000000])) m in
      main_exit r = Some 0 \/ e_phase (r_eng r) = Died
  | _ => False
  end.
Proof.
  pose proof small_starts as Hst.
  destruct (main_start small_args small_sdl small_host small_ui) as [[| |m b] h'] eqn:E; [done..|].
  assert (forall n, cpu_moves (repeat (cpu_move) n) = Z.of_nat n) as Hn.
  { unfold cpu_moves. induction n as [|n IH]; [done|]. cbn [repeat List.filter is_cpu cpu_move length] in *. lia. }
  assert (Z.testbit (pc (hart m)) 0 = false) as He by (by destruct Hst as [-> _]).
  pose proof (main_terminates small_args no_operands small_sdl small_host small_ui small_elf small_segs m b h'
    [host_at 0] [cpu_move] [host_at 100] (repeat (host_at 6000000) 5) (repeat cpu_move (Z.to_nat 131074)) [host_at 6000000]
    small_args_ok eq_refl (conj eq_refl eq_refl) E He (Z.le_refl 1) (Z.le_refl 1) (Z.le_refl 1)) as T.
  destruct T as [R|[R _]].
  - change (late 5 100 (repeat (host_at 6000000) 5)).
    repeat (apply Forall_cons_2; [by vm_compute|]). apply Forall_nil_2.
  - done.
  - rewrite Hn. lia.
  - done.
  - left. exact R.
  - right. exact R.
Defined.
End Witness.
