(* ===== verification/Sv39Program.v ===== *)
(** * The guest program of examples/sv39-test

    The C program that builds page tables, turns Sv39 on and checks what it then reads and
    writes, as calls of the emulator's own loads, stores and CSR accesses: a store of the
    program is [mmu_write] on the assembled machine, a character of its output a store to the
    console device; the CSR accesses and the mret of its start-up code are those of the
    emulator too.  The addresses of its objects, which the linker chooses, and the address of the
    instruction are parameters. *)

From stdpp Require Import gmap.
From Stdlib Require Import Strings.String Strings.Ascii.
From S2P Require Import Prelude Bits Hart HartInv Machine Bus Ports ByteVec SmallDevices.
From S2P Require Import Ns16550 GoldfishRtc GoldfishEvents PFlash Clint Plic VirtioBlk Mmu Elf Emulator.
From S2P Require Import Decoder CsrAccess Execute.

(** The characters of a string literal, and of one that ends with newlines. *)
Definition chars (s : string) : list Z := map (fun c => Z.of_N (N_of_ascii c)) (list_ascii_of_string s).
Definition newline : list Z := [10].
Definition line (s : string) : list Z := chars s ++ newline.
Definition line2 (s : string) : list Z := line s ++ newline.

Module Program.
(* @src examples/sv39-test/main.c 22-24 TEST_BASE *)
Definition TEST_BASE : Z := 0x00100000.
Definition CONSOLE_BASE : Z := 0x10008000.

(* The PTE bits are those of Mmu.v. *)
(* @src examples/sv39-test/main.c 32-33 SATP_MODE_SV39 *)
Definition SATP_MODE_SV39 : Z := Z.shiftl 8 60.
Definition PAGE_SIZE : Z := 4096.

(* The page tables, of 512 entries, and the test variable. *)
(* @src examples/sv39-test/main.c 62-70 root_page_table *)
Record Layout := mkLayout {
  root_page_table : Z;
  mid_page_table_ram : Z;
  leaf_page_table_ram : Z;
  mid_page_table_nonid : Z;
  leaf_page_table_nonid : Z;
  test_data : Z;
}.

(* @src examples/sv39-test/main.c 86-88 make_pte *)
Definition make_pte (pa flags : Z) : Z := Z.lor (u64 (Z.shiftl (Z.shiftr pa 12) 10)) flags.
Definition RW : Z := Z.lor (Z.lor PTE_V PTE_R) PTE_W.
Definition RWX : Z := Z.lor RW PTE_X.

Section Program.
Context `{UndefinedConversion} `{DiskOption}.
Variable L : Layout.
Variable pc : Z.
Abbreviation guest := (M machine exn).

(** A volatile access of a 64-bit object, and entry [i] of a table. *)
Definition load64 (a : Z) : guest Z := mmu_read 8 pc a false.
Definition store64 (a v : Z) : guest unit := mmu_write 8 pc a v.
Definition set_entry (table i v : Z) : guest unit := store64 (table + 8 * i) v.

(** A counted loop: [for (i = from; i < from + n; i++)]. *)
Fixpoint for_loop (n : nat) (from : Z) (body : Z -> guest unit) : guest unit :=
  match n with
  | O => ret tt
  | S n => body from ;;; for_loop n (from + 1) body
  end.

(** The instructions csrr, csrw and sfence.vma; a failing access would report [insn]. *)
(* @src examples/sv39-test/main.c 51-60 read_csr *)
Definition read_csr (csr : Z) : guest Z := set_check_pending ;;; read_checked csr pc 0.
Definition write_csr (csr v : Z) : guest unit := set_check_pending ;;; write_checked csr pc 0 v.
Definition sfence_vma : guest unit :=
  exec_sfence_vma (mkDecodedInsn 0x12000073 Normal rv_sfence_vma Ity_R (mkOperands 0 0 0 0 0) pc).

(* @src examples/sv39-test/main.c 72-72 putchar *)
Definition putchar (c : Z) : guest unit := mmu_write 1 pc CONSOLE_BASE c.

(* The characters up to the terminating zero. *)
(* @src examples/sv39-test/main.c 74-77 puts *)
Fixpoint puts (s : list Z) : guest unit :=
  match s with
  | [] => ret tt
  | c :: s => putchar c ;;; puts s
  end.

(* @src examples/sv39-test/main.c 79-84 print_hex *)
Definition hex_digit (d : Z) : Z := nth (Z.to_nat d) (chars "0123456789ABCDEF") 0.
Fixpoint hex_digits (n : nat) (val : Z) : list Z :=
  match n with
  | O => []
  | S n => hex_digit (Z.land (Z.shiftr val (4 * Z.of_nat n)) 0xF) :: hex_digits n val
  end.
Definition print_hex (val : Z) : guest unit :=
  puts (chars "0x") ;;; puts (hex_digits 16 val).

(* @src examples/sv39-test/main.c 90-98 setup_sv39 *)
Definition clear_tables : guest unit :=
  for_loop 512 0 (fun i =>
    set_entry (root_page_table L) i 0 ;;;
    set_entry (mid_page_table_ram L) i 0 ;;;
    set_entry (leaf_page_table_ram L) i 0 ;;;
    set_entry (mid_page_table_nonid L) i 0 ;;;
    set_entry (leaf_page_table_nonid L) i 0).

(* @src examples/sv39-test/main.c 90-128 setup_sv39 *)
Definition setup_sv39 : guest unit :=
  clear_tables ;;;
  puts (line "Setting up page tables...") ;;;
  set_entry (root_page_table L) 2 (make_pte (mid_page_table_ram L) PTE_V) ;;;
  set_entry (mid_page_table_ram L) 0 (make_pte (leaf_page_table_ram L) PTE_V) ;;;
  for_loop 512 0 (fun i =>
    set_entry (leaf_page_table_ram L) i (make_pte (u32 (0x80000000 + i * PAGE_SIZE)) RWX)) ;;;
  puts (line " RAM identity mapped (0x80000000-0x80200000)") ;;;
  set_entry (root_page_table L) 0 (make_pte 0x00000000 RW) ;;;
  puts (line " All devices identity mapped (0x00000000-0x3FFFFFFF)") ;;;
  set_entry (root_page_table L) 3 (make_pte (mid_page_table_nonid L) PTE_V) ;;;
  set_entry (mid_page_table_nonid L) 0 (make_pte (leaf_page_table_nonid L) PTE_V) ;;;
  set_entry (leaf_page_table_nonid L) 0 (make_pte 0x80100000 RWX) ;;;
  puts (line " Non-identity mapping: VA 0xC0000000 -> PA 0x80100000") ;;;
  puts (line2 "Page tables setup complete").

(* @src examples/sv39-test/main.c 131-132 enable_sv39 *)
Definition satp_value : Z := Z.lor SATP_MODE_SV39 (Z.shiftr (root_page_table L) 12).

(* @src examples/sv39-test/main.c 130-143 enable_sv39 *)
Definition enable_sv39 : guest unit :=
  puts (line "Enabling SV39...") ;;;
  puts (chars "SATP value: ") ;;;
  print_hex satp_value ;;;
  puts newline ;;;
  write_csr SATP_ADDRESS satp_value ;;;
  sfence_vma ;;;
  puts (line2 "SV39 enabled!").

(* @src examples/sv39-test/main.c 145-148 shutdown *)
Definition shutdown (code : Z) : guest unit :=
  mmu_write 4 pc TEST_BASE (Z.lor (u32 (Z.shiftl (u32 code) 16)) 0x5555).

(** The end of a test. *)
Definition verdict (ok : bool) (pass fail : list Z) : guest unit :=
  if ok then puts pass else puts fail ;;; shutdown (-1).

(* @src examples/sv39-test/main.c 150-227 test_virtual_memory *)
Definition test_virtual_memory : guest unit :=
  puts (line2 "=== Virtual Memory Tests ===") ;;;
  puts (line "Test 1: Identity-mapped R/W") ;;;
  store64 (test_data L) 0x12345678ABCDEF00 ;;;
  puts (chars " Written: ") ;;;
  let! written := load64 (test_data L) in
  print_hex written ;;;
  puts newline ;;;
  let! read_val := load64 (test_data L) in
  puts (chars " Read: ") ;;;
  print_hex read_val ;;;
  puts newline ;;;
  verdict (read_val =? 0x12345678ABCDEF00) (line2 " PASS") (line2 " FAIL") ;;;
  puts (line "Test 2: Non-identity mapping") ;;;
  store64 0x80100000 0xCAFEBABEDEADC0DE ;;;
  puts (line " Written 0xCAFEBABEDEADC0DE to PA 0x80100000") ;;;
  let! virt_read := load64 0xC0000000 in
  puts (chars " Read from VA 0xC0000000: ") ;;;
  print_hex virt_read ;;;
  puts newline ;;;
  verdict (virt_read =? 0xCAFEBABEDEADC0DE) (line2 " PASS: Non-identity mapping works!")
    (line2 " FAIL: Non-identity mapping broken") ;;;
  puts (line "Test 3: Reverse non-identity test") ;;;
  store64 0xC0000000 0x0123456789ABCDEF ;;;
  puts (line " Written 0x0123456789ABCDEF to VA 0xC0000000") ;;;
  let! phys_read := load64 0x80100000 in
  puts (chars " Read from PA 0x80100000: ") ;;;
  print_hex phys_read ;;;
  puts newline ;;;
  verdict (phys_read =? 0x0123456789ABCDEF) (line2 " PASS") (line2 " FAIL") ;;;
  puts (line "Test 4: Verify SATP register") ;;;
  let! satp_val := read_csr SATP_ADDRESS in
  puts (chars " SATP: ") ;;;
  print_hex satp_val ;;;
  puts newline ;;;
  verdict (Z.shiftr satp_val 60 =? 8) (line2 " PASS: SV39 mode active") (line2 " FAIL: SV39 mode not active") ;;;
  puts (line "=== All Tests Complete ===").

(* Up to the endless loop. *)
(* @src examples/sv39-test/main.c 229-257 main *)
Definition main : guest unit :=
  puts newline ;;;
  puts (line "========================================") ;;;
  puts (line " RISC-V SV39 Virtual Memory Test") ;;;
  puts (line " (Fixed with device mappings)") ;;;
  puts (line2 "========================================") ;;;
  let! satp := read_csr SATP_ADDRESS in
  puts (chars "Initial SATP: ") ;;;
  print_hex satp ;;;
  puts newline ;;;
  let! sstatus := read_csr SSTATUS_ADDRESS in
  puts (chars "Initial sstatus: ") ;;;
  print_hex sstatus ;;;
  puts (newline ++ newline) ;;;
  setup_sv39 ;;;
  enable_sv39 ;;;
  test_virtual_memory ;;;
  puts newline ;;;
  puts (line "Test completed successfully!") ;;;
  shutdown 0.

(** ** The start-up code *)

(** The instructions csrs and csrc. *)
Definition set_csr (csr v : Z) : guest unit :=
  set_check_pending ;;; let! t := read_checked csr pc 0 in write_checked csr pc 0 (Z.lor t v).
Definition clear_csr (csr v : Z) : guest unit :=
  set_check_pending ;;; let! t := read_checked csr pc 0 in write_checked csr pc 0 (andn t v).
Definition mret : guest unit :=
  exec_mret (mkDecodedInsn 0x30200073 Normal rv_mret Ity_N (mkOperands 0 0 0 0 0) pc).

(* Machine mode.  The stack pointer is a register and not represented. *)
(* @src examples/sv39-test/start.S 20-56 _start *)
Definition m_mode_start (s_mode_entry : Z) : guest unit :=
  write_csr MIE_ADDRESS 0 ;;;
  write_csr MIP_ADDRESS 0 ;;;
  write_csr MEDELEG_ADDRESS 0xFFFFFFFFFFFFFFFF ;;;
  write_csr MIDELEG_ADDRESS 0xFFFFFFFFFFFFFFFF ;;;
  write_csr PMPCFGN_MIN_ADDRESS 0x1F ;;;
  write_csr PMPADDRN_MIN_ADDRESS 0xFFFFFFFFFFFFFFFF ;;;
  write_csr MENVCFG_ADDRESS (Z.shiftl 1 61) ;;;
  clear_csr MSTATUS_ADDRESS (Z.shiftl 3 11) ;;;
  set_csr MSTATUS_ADDRESS (Z.shiftl 1 11) ;;;
  clear_csr MSTATUS_ADDRESS (Z.shiftl 1 8) ;;;
  write_csr MEPC_ADDRESS s_mode_entry ;;;
  mret.

(* The section is a whole number of double words: link.ld aligns its end. *)
(* @src examples/sv39-test/start.S 66-73 clear_bss *)
Definition clear_bss (bss_start : Z) (words : nat) : guest unit :=
  for_loop words 0 (fun i => store64 (bss_start + 8 * i) 0).

(* Supervisor mode, up to the call of main. *)
(* @src examples/sv39-test/start.S 58-96 s_mode_entry *)
Definition s_mode_start (bss_start : Z) (words : nat) : guest unit :=
  (write_csr SIE_ADDRESS 0 ;;; write_csr SIP_ADDRESS 0) ;;;
  clear_bss bss_start words ;;;
  (set_csr SSTATUS_ADDRESS (Z.shiftl 1 18) ;;;
   clear_csr SSTATUS_ADDRESS (Z.shiftl 1 8) ;;;
   clear_csr SSTATUS_ADDRESS (Z.shiftl 1 1)).

(* @src examples/sv39-test/start.S 20-99 _start *)
Definition boot (s_mode_entry bss_start : Z) (words : nat) : guest unit :=
  m_mode_start s_mode_entry ;;; s_mode_start bss_start words.
End Program.
End Program.
