(* ===== verification/Sv39Spec.v ===== *)
(** * What the Sv39 guest program does to the machine

    The stores of [setup_sv39] as a list of writes to DRAM, the page tables they build, and
    the address space the hart sees once [enable_sv39] has turned translation on. *)

From stdpp Require Import gmap.
From Stdlib Require Import Strings.String.
From S2P Require Import Prelude Bits Hart HartInv Machine Bus Ports ByteVec SmallDevices.
From S2P Require Import Ns16550 GoldfishRtc GoldfishEvents PFlash Clint Plic VirtioBlk Mmu MmuSpec TlbSpec Elf Emulator.
From S2P Require Import Decoder CsrAccess Execute EmulatorSpec Sv39Program.
Import Program.
#[local] Open Scope list_scope.

(** ** Writes of 64-bit words *)

Definition writes (l : list (Z * Z)) (d : Dram) : Dram :=
  foldl (fun d av => write 8 (fst av) (snd av) d) d l.

Lemma guest_writes_app l1 l2 d : writes (l1 ++ l2) d = writes l2 (writes l1 d).
Proof. apply foldl_app. Qed.
Lemma writes_cons a v l d : writes ((a, v) :: l) d = writes l (write 8 a v d).
Proof. done. Qed.
Lemma writes_size l d : size_ (writes l d) = size_ d.
Proof. revert d. induction l as [|[a v] l IH]; intros d; [done|]. rewrite writes_cons, IH. apply store_le_size. Qed.
Lemma writes_wf l d : dram_wf d -> dram_wf (writes l d).
Proof. revert d. induction l as [|[a v] l IH]; intros d Hd; [done|]. rewrite writes_cons. by apply IH, write_wf. Qed.

(** A word of DRAM that a list of writes can address. *)
Definition word_ok (size a : Z) : Prop := DRAM_BASE <= a /\ a + 8 <= DRAM_BASE + size /\ a mod 8 = 0.
Definition writes_ok (size : Z) (l : list (Z * Z)) : Prop :=
  Forall (fun av => word_ok size (fst av) /\ fits 64 (snd av)) l.

Lemma word_valid d a : dram_wf d -> word_ok (size_ d) a -> fits 64 a /\ is_valid_addr d a 8 = true.
Proof.
  intros Hd (H1 & H2 & _). assert (fits 64 a) as Ha.
  { destruct Hd as [_ Hs]. unfold fits, DRAM_BASE in *. lia. }
  split; [done|]. by apply valid_addr_range.
Qed.

(** Words that are not written keep their value, and a word whose writes all have one value
    has that value. *)
Lemma read_writes_other l d a : dram_wf d -> writes_ok (size_ d) l -> word_ok (size_ d) a ->
  Forall (fun av => fst av <> a) l -> read 8 a (writes l d) = read 8 a d.
Proof.
  revert d. induction l as [|[b v] l IH]; intros d Hd Hl Ha Hn; [done|].
  apply Forall_cons_1 in Hl as [[Hb Hv] Hl]. apply Forall_cons_1 in Hn as [Hne Hn]. cbn [fst snd] in *.
  rewrite writes_cons.
  assert (size_ (write 8 b v d) = size_ d) as Es by apply store_le_size.
  rewrite IH; [|by apply write_wf|by rewrite Es|by rewrite Es|done].
  destruct (word_valid d a Hd Ha) as [Fa Va], (word_valid d b Hd Hb) as [Fb Vb].
  apply (read_write_eq d 8 8 b a v); try done. destruct Ha as (_ & _ & ?), Hb as (_ & _ & ?). lia.
Qed.

Lemma read_writes d l1 a v l2 : dram_wf d -> writes_ok (size_ d) (l1 ++ (a, v) :: l2) ->
  Forall (fun av => fst av <> a) l2 -> read 8 a (writes (l1 ++ (a, v) :: l2) d) = v.
Proof.
  intros Hd Hl Hn. apply Forall_app in Hl as [_ Hl]. apply Forall_cons_1 in Hl as [[Ha Hv] Hl]. cbn [fst snd] in *.
  rewrite guest_writes_app, writes_cons.
  set (d' := writes l1 d). assert (dram_wf d') as Hd' by by apply writes_wf.
  assert (size_ (write 8 a v d') = size_ d) as Es by (etransitivity; [apply store_le_size|apply writes_size]).
  assert (word_ok (size_ d') a) as Ha' by (unfold d'; by rewrite writes_size).
  rewrite read_writes_other; [|by apply write_wf|by rewrite Es|by rewrite Es|done].
  destruct (word_valid d' a Hd' Ha') as [Fa Va]. by apply (read_write_eq d' 8 8 a a v).
Qed.

(** The last write to an address. *)
Fixpoint last_write (a : Z) (l : list (Z * Z)) : option Z :=
  match l with
  | [] => None
  | (b, v) :: l => match last_write a l with Some x => Some x | None => if b =? a then Some v else None end
  end.

Lemma last_write_app a l1 l2 :
  last_write a (l1 ++ l2) = match last_write a l2 with Some x => Some x | None => last_write a l1 end.
Proof.
  induction l1 as [|[b v] l1 IH]; cbn; [by destruct (last_write a l2)|].
  rewrite IH. by destruct (last_write a l2).
Qed.

Lemma read_last d l a v : dram_wf d -> writes_ok (size_ d) l -> last_write a l = Some v ->
  read 8 a (writes l d) = v.
Proof.
  intros Hd Hl Ha. assert (exists l1 l2, l = l1 ++ (a, v) :: l2 /\ Forall (fun av => fst av <> a) l2) as (l1 & l2 & -> & Hn).
  { clear Hl. induction l as [|[b w] l IH]; [done|]. cbn in Ha. destruct (last_write a l) as [x|] eqn:E.
    - destruct (IH Ha) as (l1 & l2 & -> & Hn). by exists ((b, w) :: l1), l2.
    - destruct (Z.eqb_spec b a) as [->|]; [|done]. injection Ha as <-. exists [], l. split; [done|].
      clear IH. induction l as [|[c x] l IH]; [by apply Forall_nil_2|]. cbn in E.
      destruct (last_write a l); [done|]. destruct (Z.eqb_spec c a); [done|]. apply Forall_cons_2; auto. }
  by apply read_writes.
Qed.

(** The writes of a loop. *)
Fixpoint loop_writes (n : nat) (from : Z) (w : Z -> list (Z * Z)) : list (Z * Z) :=
  match n with
  | O => []
  | S n => w from ++ loop_writes n (from + 1) w
  end.

Lemma loop_writes_ok size n from w :
  (forall i, from <= i < from + Z.of_nat n -> writes_ok size (w i)) -> writes_ok size (loop_writes n from w).
Proof.
  revert from. induction n as [|n IH]; intros from Hw; [by apply Forall_nil_2|]. cbn.
  apply Forall_app_2; [apply Hw; lia|]. apply IH. intros i Hi. apply Hw. lia.
Qed.

(** When only one turn of a loop writes to an address. *)
Lemma last_write_loop a n from w k : from <= k < from + Z.of_nat n ->
  (forall i, from <= i < from + Z.of_nat n -> i <> k -> last_write a (w i) = None) ->
  last_write a (loop_writes n from w) = last_write a (w k).
Proof.
  revert from. induction n as [|n IH]; intros from Hk Hn; [lia|]. cbn. rewrite last_write_app.
  destruct (decide (k = from)) as [->|Hne].
  - assert (last_write a (loop_writes n (from + 1) w) = None) as ->; [|done].
    clear IH Hk. assert (forall i, from + 1 <= i < from + 1 + Z.of_nat n -> last_write a (w i) = None) as Hall
      by (intros i Hi; apply Hn; lia). clear Hn. generalize dependent (from + 1). intros f.
    revert f. induction n as [|n IH]; intros f Hall; [done|]. cbn. rewrite last_write_app.
    rewrite IH; [apply Hall; lia|]. intros i Hi. apply Hall. lia.
  - rewrite (IH (from + 1)); [|lia|intros i Hi; apply Hn; lia].
    destruct (last_write a (w k)); [done|]. apply Hn; lia.
Qed.

Lemma last_write_loop_none a n from w :
  (forall i, from <= i < from + Z.of_nat n -> last_write a (w i) = None) ->
  last_write a (loop_writes n from w) = None.
Proof.
  revert from. induction n as [|n IH]; intros from Hn; [done|]. cbn. rewrite last_write_app.
  rewrite IH; [apply Hn; lia|]. intros i Hi. apply Hn. lia.
Qed.

(** ** Arithmetic of virtual addresses *)

Lemma devices_arith va : 0 <= va < 0x40000000 ->
  va / 2 ^ 30 mod 512 = 0 /\ (va / 4096) mod 2 ^ 18 = va / 4096 /\ fits 44 (va / 4096) /\
  va / 4096 * 4096 + va mod 4096 = va.
Proof. unfold fits. lia. Qed.

Lemma ram_arith va (k := va / 4096 mod 512) : 0x80000000 <= va < 0x80200000 ->
  va / 2 ^ 30 mod 512 = 2 /\ va / 2 ^ 21 mod 512 = 0 /\ 0 <= k < 512 /\
  (0x80000000 + k * 4096) / 4096 * 4096 + va mod 4096 = va.
Proof. unfold k. clear k. intros Hv. split; [lia|]. split; [lia|]. split; lia. Qed.

Lemma ram_pages k : 0 <= k < 512 ->
  u32 (0x80000000 + k * 4096) = 0x80000000 + k * 4096 /\ fits 56 (0x80000000 + k * 4096) /\
  fits 44 ((0x80000000 + k * 4096) / 4096) /\ (0x80000000 + k * 4096) mod 4096 = 0.
Proof. intros Hk. rewrite uwrap_id by (unfold fits; lia). unfold fits. lia. Qed.

Lemma nonid_arith va : 0xC0000000 <= va < 0xC0001000 ->
  va / 2 ^ 30 mod 512 = 3 /\ va / 2 ^ 21 mod 512 = 0 /\ va / 4096 mod 512 = 0 /\
  0x80100000 / 4096 * 4096 + va mod 4096 = va - 0xC0000000 + 0x80100000.
Proof. intros Hv. split; [lia|]. split; [lia|]. split; lia. Qed.

(** Any other address has no entry in one of the tables. *)
Lemma other_arith va : 0 <= va < 2 ^ 38 \/ 2 ^ 64 - 2 ^ 38 <= va < 2 ^ 64 -> 0x40000000 <= va ->
  ~ 0x80000000 <= va < 0x80200000 -> ~ 0xC0000000 <= va < 0xC0001000 ->
  let i2 := va / 2 ^ 30 mod 512 in let i1 := va / 2 ^ 21 mod 512 in let i0 := va / 4096 mod 512 in
  (i2 <> 0 /\ i2 <> 2 /\ i2 <> 3) \/ (i2 = 2 /\ i1 <> 0) \/ (i2 = 3 /\ (i1 <> 0 \/ (i1 = 0 /\ i0 <> 0))).
Proof.
  intros Hc H1 H2 H3 i2 i1 i0. unfold i2, i1, i0. clear i2 i1 i0.
  assert (va < 2 ^ 32 \/ 2 ^ 32 <= va) as [Hs|Hs] by lia.
  - assert (va / 2 ^ 30 mod 512 = va / 2 ^ 30) as -> by lia. assert (1 <= va / 2 ^ 30 <= 3) as Hi by lia.
    destruct (decide (va / 2 ^ 30 = 1)) as [->|N1]; [lia|].
    destruct (decide (va / 2 ^ 30 = 2)) as [E2|N2]; [right; left; lia|]. right. right. split; [lia|].
    destruct (decide (va / 2 ^ 21 mod 512 = 0)); [right|left; done]. split; [done|]. lia.
  - left. lia.
Qed.

(** ** Running the program with translation off *)

Section Effects.
Context `{UndefinedConversion} `{DiskOption}.
Variables (pc size : Z).
Hypothesis Hsize : 0 <= size <= 2 ^ 64 - DRAM_BASE.
Abbreviation guest := (M machine exn).

(** What a piece of the program does: writes to DRAM and output. *)
Definition print_all (s : list Z) (h : HostEnv) : HostEnv :=
  host_out (h_calls h) (h_console h) (h_stdout h ++ s) (h_disk h) h.
Definition effect (l : list (Z * Z)) (s : list Z) (m : machine) : machine :=
  on_host (print_all s) (upd_dram (writes l) m).

Definition bare (h : Hart) : Prop := satp_mode (read_own h SATP_ADDRESS) = SATP_Bare.
Lemma translate_bare vaddr t (m : machine) : bare (hart m) -> translate pc vaddr t m = (Ok vaddr, m).
Proof.
  intros Hb. unfold translate. unfold bind at 1, gets at 1. cbv zeta. destruct (_ =? PrivM); [done|].
  unfold bare, satp_mode in Hb. by rewrite Hb.
Qed.

Definition does (c : guest unit) (l : list (Z * Z)) (s : list Z) : Prop :=
  writes_ok size l /\
  forall m, bare (hart m) -> size_ (dram_ m) = size -> dram_wf (dram_ m) -> c m = (Ok tt, effect l s m).

Lemma effect_nil m : effect [] [] m = m.
Proof.
  unfold effect, on_host, upd_dram, upd_devs, print_all, host_out, set_d_host. cbn. rewrite app_nil_r.
  by destruct m as [? ? ? ? ? [? ? ? ? ? ? ? ? ? ? ? ? ? []]].
Qed.
Lemma effect_app l1 s1 l2 s2 m : effect l2 s2 (effect l1 s1 m) = effect (l1 ++ l2) (s1 ++ s2) m.
Proof.
  unfold effect, on_host, upd_dram, upd_devs, print_all, host_out, set_d_host. cbn.
  by rewrite guest_writes_app, app_assoc.
Qed.
Lemma effect_size l s m : size_ (dram_ (effect l s m)) = size_ (dram_ m).
Proof. apply writes_size. Qed.

Lemma does_ret : does (ret tt) [] [].
Proof. split; [apply Forall_nil_2|]. intros m _ _ _. by rewrite effect_nil. Qed.

Lemma does_bind c k l1 s1 l2 s2 : does c l1 s1 -> does k l2 s2 -> does (c ;;; k) (l1 ++ l2) (s1 ++ s2).
Proof.
  intros [W1 C1] [W2 C2]. split; [by apply Forall_app_2|]. intros m Hb Hs Hw. unfold bind. rewrite C1 by done.
  rewrite C2, effect_app; [done|done|by rewrite effect_size|by apply writes_wf].
Qed.

Lemma does_store a v : word_ok size a -> fits 64 v -> does (store64 pc a v) [(a, v)] [].
Proof.
  intros Ha Hv. split; [by apply Forall_singleton|]. intros m Hb Hs Hw. unfold store64, mmu_write.
  change (Z.of_nat 8) with 8. destruct Ha as (H1 & H2 & H3) eqn:E. clear E. rewrite H3. cbn [Z.eqb].
  unfold bind. rewrite translate_bare by done. unfold state, bus_write. change (Z.of_nat 8) with 8.
  destruct (word_valid (dram_ m) a Hw) as [_ ->]; [by rewrite Hs|]. cbn [negb ret].
  unfold effect, on_host, upd_dram, upd_devs, print_all, host_out, set_d_host. cbn. rewrite app_nil_r.
  by destruct m as [? ? ? ? ? [? ? ? ? ? ? ? ? ? ? ? ? ? []]].
Qed.

Lemma does_loop n from body w : (forall i, from <= i < from + Z.of_nat n -> does (body i) (w i) []) ->
  does (for_loop n from body) (loop_writes n from w) [].
Proof.
  revert from. induction n as [|n IH]; intros from Hb; [apply does_ret|]. cbn.
  change ([] : list Z) with ([] ++ [] : list Z). apply does_bind; [apply Hb; lia|]. apply IH. intros i Hi. apply Hb. lia.
Qed.

(** A character goes to the console of the host. *)
Lemma bus_putchar c (m : machine) : fits 8 c -> bus_write 1 CONSOLE_BASE c m = (true, effect [] [c] m).
Proof.
  intros Hc. unfold bus_write. assert (is_valid_addr (dram_ m) CONSOLE_BASE (Z.of_nat 1) = false) as -> by done.
  assert (List.find (fun dev => contains dev CONSOLE_BASE (Z.of_nat 1)) devices_ = Some nemu_device) as ->.
  { cbn [devices_ emulator_platform]. unfold emulator_devices. by destruct has_disk. }
  assert (u64 (CONSOLE_BASE - NemuConsole.NEMU_BASE) = 0) as Eo by done.
  unfold device_write, nemu_device, device_at. cbn [start_ write_internal].
  rewrite Eo. unfold NemuConsole.nemu_write_internal. cbn [Z.eqb]. change (8 * Z.of_nat 1) with 8.
  rewrite (uwrap_id 8 c) by done. change 0xFF with (Z.ones 8).
  rewrite Z.land_ones, (Z.mod_small c) by (lia || apply Hc).
  by destruct m as [? ? ? ? ? [? ? ? ? ? ? ? ? ? ? ? ? ? []]].
Qed.

Lemma does_putchar c : fits 8 c -> does (putchar pc c) [] [c].
Proof.
  intros Hc. split; [apply Forall_nil_2|]. intros m Hb _ _. unfold putchar, mmu_write.
  change (CONSOLE_BASE mod Z.of_nat 1 =? 0) with true. cbv iota. unfold bind.
  rewrite translate_bare by done. unfold state. by rewrite bus_putchar.
Qed.

Lemma does_puts s : Forall (fits 8) s -> does (puts pc s) [] s.
Proof.
  induction s as [|c s IH]; intros Hs; [apply does_ret|]. apply Forall_cons_1 in Hs as [Hc Hs].
  apply (does_bind _ _ [] [c] [] s); [by apply does_putchar|by apply IH].
Qed.

Lemma chars_fits t : Forall (fits 8) (chars t).
Proof.
  unfold chars. apply Forall_map, Forall_true. intros c. cbn. pose proof (Ascii.N_ascii_bounded c).
  unfold fits. lia.
Qed.
Lemma newline_fits : Forall (fits 8) newline.
Proof. by repeat constructor. Qed.
Lemma line_fits t : Forall (fits 8) (line t).
Proof. apply Forall_app_2; [apply chars_fits|apply newline_fits]. Qed.
Lemma line2_fits t : Forall (fits 8) (line2 t).
Proof. apply Forall_app_2; [apply line_fits|apply newline_fits]. Qed.
Lemma hex_fits n v : Forall (fits 8) (hex_digits n v).
Proof.
  induction n as [|n IH]; [by apply Forall_nil_2|]. cbn [hex_digits]. apply Forall_cons_2; [|done].
  unfold hex_digit. match goal with |- context [chars ?t] => generalize (chars t), (chars_fits t) end.
  generalize (Z.to_nat (Z.land (Z.shiftr v (4 * Z.of_nat n)) 0xF)). clear.
  intros k l Hl. revert k. induction Hl as [|c l Hc _ IH]; intros [|k]; by cbn.
Qed.

Definition hex_text (v : Z) : list Z := chars "0x" ++ hex_digits 16 v.
Lemma does_print_hex v : does (print_hex pc v) [] (hex_text v).
Proof. apply (does_bind _ _ [] _ []); apply does_puts; [apply chars_fits|apply hex_fits]. Qed.

(** *** Setting up *)

Variable L : Layout.

(** The tables are pages of DRAM, and different. *)
Definition table_ok (t : Z) : Prop := DRAM_BASE <= t /\ t + 4096 <= DRAM_BASE + size /\ t mod 4096 = 0.
Definition tables : list Z :=
  [root_page_table L; mid_page_table_ram L; leaf_page_table_ram L; mid_page_table_nonid L; leaf_page_table_nonid L].
Record layout_ok : Prop := {
  lo_tables : Forall table_ok tables;
  lo_distinct : NoDup tables;
  lo_small : size <= 2 ^ 55;
}.
Hypothesis Hlayout : layout_ok.

Lemma entry_ok t i : t ∈ tables -> 0 <= i < 512 -> word_ok size (t + 8 * i).
Proof.
  intros Ht Hi. pose proof (lo_tables Hlayout) as HT. rewrite Forall_forall in HT.
  apply list_elem_of_In in Ht.
  destruct (HT t Ht) as (H1 & H2 & H3). unfold word_ok. split; [lia|]. split; [lia|]. lia.
Qed.

(** The stores of [setup_sv39], and its output. *)
Definition clear_row (i : Z) : list (Z * Z) :=
  [(root_page_table L + 8 * i, 0); (mid_page_table_ram L + 8 * i, 0); (leaf_page_table_ram L + 8 * i, 0);
   (mid_page_table_nonid L + 8 * i, 0); (leaf_page_table_nonid L + 8 * i, 0)].
Definition ram_row (i : Z) : list (Z * Z) :=
  [(leaf_page_table_ram L + 8 * i, make_pte (u32 (0x80000000 + i * PAGE_SIZE)) RWX)].
Definition setup_writes : list (Z * Z) :=
  loop_writes 512 0 clear_row ++
  [(root_page_table L + 8 * 2, make_pte (mid_page_table_ram L) PTE_V);
   (mid_page_table_ram L + 8 * 0, make_pte (leaf_page_table_ram L) PTE_V)] ++
  loop_writes 512 0 ram_row ++
  [(root_page_table L + 8 * 0, make_pte 0x00000000 RW);
   (root_page_table L + 8 * 3, make_pte (mid_page_table_nonid L) PTE_V);
   (mid_page_table_nonid L + 8 * 0, make_pte (leaf_page_table_nonid L) PTE_V);
   (leaf_page_table_nonid L + 8 * 0, make_pte 0x80100000 RWX)].
Definition setup_text : list Z :=
  (line "Setting up page tables..." ++ line " RAM identity mapped (0x80000000-0x80200000)" ++
   line " All devices identity mapped (0x00000000-0x3FFFFFFF)" ++
   line " Non-identity mapping: VA 0xC0000000 -> PA 0x80100000" ++ line2 "Page tables setup complete").

Lemma make_pte_fits pa fl : fits 10 fl -> fits 64 (make_pte pa fl).
Proof.
  intros Hf. unfold make_pte. apply fits_lor; [lia|apply uwrap_fits; lia|]. by eapply fits_le; [|exact Hf].
Qed.

Lemma does_entry t i v : t ∈ tables -> 0 <= i < 512 -> fits 64 v -> does (set_entry pc t i v) [(t + 8 * i, v)] [].
Proof. intros Ht Hi Hv. apply does_store; [by apply entry_ok|done]. Qed.

Lemma does_eq c l s l' s' : does c l s -> l = l' -> s = s' -> does c l' s'.
Proof. by intros Hc -> ->. Qed.

Ltac entry := apply does_entry;
  [unfold tables; apply list_elem_of_In; cbn [In]; tauto | lia | first [split; lia | apply make_pte_fits; by vm_compute]].

Lemma does_clear : does (clear_tables L pc) (loop_writes 512 0 clear_row) [].
Proof.
  apply does_loop. intros i Hi.
  eapply does_eq; [do 4 (apply does_bind; [entry|]); entry|reflexivity|reflexivity].
Qed.

Lemma setup_does : does (setup_sv39 L pc) setup_writes setup_text.
Proof.
  unfold setup_sv39. eapply does_eq;
    [do 12 (apply does_bind;
       [ first [ apply does_clear | apply does_puts, line_fits | entry
               | apply (does_loop 512 0 _ ram_row); intros i Hi; entry ] | ]);
     apply does_puts, line2_fits | reflexivity | reflexivity].
Qed.

(** *** The tables *)

Lemma entry_eqb t t' i k : t ∈ tables -> t' ∈ tables -> 0 <= i < 512 -> 0 <= k < 512 ->
  (t + 8 * i =? t' + 8 * k) = (t =? t') && (i =? k).
Proof.
  intros Ht Ht' Hi Hk. pose proof (lo_tables Hlayout) as HT. rewrite Forall_forall in HT.
  apply list_elem_of_In in Ht, Ht'. destruct (HT t Ht) as (_ & _ & H1), (HT t' Ht') as (_ & _ & H2).
  destruct (Z.eqb_spec t t'), (Z.eqb_spec i k), (Z.eqb_spec (t + 8 * i) (t' + 8 * k)); cbn [andb]; lia.
Qed.

Ltac in_tables := unfold tables; apply list_elem_of_In; cbn [In]; tauto.

(** Entry [k] of a table after the stores. *)
Definition entry_of (t k : Z) : Z :=
  if t =? root_page_table L then
    if k =? 0 then make_pte 0x00000000 RW
    else if k =? 2 then make_pte (mid_page_table_ram L) PTE_V
    else if k =? 3 then make_pte (mid_page_table_nonid L) PTE_V else 0
  else if t =? mid_page_table_ram L then if k =? 0 then make_pte (leaf_page_table_ram L) PTE_V else 0
  else if t =? leaf_page_table_ram L then make_pte (u32 (0x80000000 + k * PAGE_SIZE)) RWX
  else if t =? mid_page_table_nonid L then if k =? 0 then make_pte (leaf_page_table_nonid L) PTE_V else 0
  else if k =? 0 then make_pte 0x80100000 RWX else 0.

Lemma distinct :
  root_page_table L <> mid_page_table_ram L /\ root_page_table L <> leaf_page_table_ram L /\
  root_page_table L <> mid_page_table_nonid L /\ root_page_table L <> leaf_page_table_nonid L /\
  mid_page_table_ram L <> leaf_page_table_ram L /\ mid_page_table_ram L <> mid_page_table_nonid L /\
  mid_page_table_ram L <> leaf_page_table_nonid L /\ leaf_page_table_ram L <> mid_page_table_nonid L /\
  leaf_page_table_ram L <> leaf_page_table_nonid L /\ mid_page_table_nonid L <> leaf_page_table_nonid L.
Proof.
  pose proof (lo_distinct Hlayout) as HD. unfold tables in HD.
  rewrite !list.NoDup_cons, !not_elem_of_cons in HD. tauto.
Qed.

Lemma table_cases (P : Z -> Prop) :
  P (root_page_table L) -> P (mid_page_table_ram L) -> P (leaf_page_table_ram L) ->
  P (mid_page_table_nonid L) -> P (leaf_page_table_nonid L) -> forall t, t ∈ tables -> P t.
Proof.
  intros ? ? ? ? ? t. unfold tables. rewrite !elem_of_cons.
  intros [-> | [-> | [-> | [-> | [-> | Hn]]]]]; try done. by apply not_elem_of_nil in Hn.
Qed.

(** Every address of the lists below is an entry of a table: compare the tables, then the
    entries. *)
Ltac compare :=
  repeat match goal with
  | |- context [?t + 8 * ?i =? ?t' + 8 * ?k] =>
      rewrite (entry_eqb t t' i k) by (in_tables || lia)
  end;
  repeat match goal with
  | |- context [?x =? ?x] => rewrite (Z.eqb_refl x)
  | Hne : ?x <> ?y |- context [?x =? ?y] => rewrite (proj2 (Z.eqb_neq x y) Hne)
  | Hne : ?x <> ?y |- context [?y =? ?x] => rewrite (proj2 (Z.eqb_neq y x) (not_eq_sym Hne))
  end; cbn [andb].

Lemma clear_entry t k : t ∈ tables -> 0 <= k < 512 ->
  last_write (t + 8 * k) (loop_writes 512 0 clear_row) = Some 0.
Proof.
  intros Ht Hk. destruct distinct as (N1 & N2 & N3 & N4 & N5 & N6 & N7 & N8 & N9 & N10).
  revert t Ht. apply table_cases; rewrite (last_write_loop _ 512 0 clear_row k) by
    (lia || (intros i Hi Hne; unfold clear_row; cbn [last_write]; by compare));
    unfold clear_row; cbn [last_write]; by compare.
Qed.

Lemma ram_other t k : t ∈ tables -> t <> leaf_page_table_ram L -> 0 <= k < 512 ->
  last_write (t + 8 * k) (loop_writes 512 0 ram_row) = None.
Proof.
  intros Ht Hne Hk. apply last_write_loop_none. intros i Hi. unfold ram_row. cbn [last_write]. rewrite entry_eqb by (in_tables || lia || done).
  by rewrite (proj2 (Z.eqb_neq _ _) (not_eq_sym Hne)).
Qed.

Lemma ram_entry k : 0 <= k < 512 ->
  last_write (leaf_page_table_ram L + 8 * k) (loop_writes 512 0 ram_row)
  = Some (make_pte (u32 (0x80000000 + k * PAGE_SIZE)) RWX).
Proof.
  intros Hk. rewrite (last_write_loop _ 512 0 ram_row k) by
    (lia || (intros i Hi Hne; unfold ram_row; cbn [last_write]; by compare)).
  unfold ram_row. cbn [last_write]. by compare.
Qed.

Lemma last_entry t k : t ∈ tables -> 0 <= k < 512 -> last_write (t + 8 * k) setup_writes = Some (entry_of t k).
Proof.
  intros Ht Hk. destruct distinct as (N1 & N2 & N3 & N4 & N5 & N6 & N7 & N8 & N9 & N10).
  unfold setup_writes. rewrite !last_write_app, clear_entry by done. unfold entry_of.
  revert t Ht. apply table_cases;
    (first [rewrite ram_entry by done | rewrite ram_other by first [in_tables | done | by apply not_eq_sym]]);
    cbn [last_write]; compare; rewrite ?(Z.eqb_sym 0 k), ?(Z.eqb_sym 2 k), ?(Z.eqb_sym 3 k);
    repeat match goal with |- context [k =? ?c] => destruct (Z.eqb_spec k c) end; try done; lia.
Qed.

(** *** Page-table entries *)

Lemma make_pte_shape pa fl : fits 56 pa -> make_pte pa fl = Z.lor (Z.shiftl (pa / 4096) 10) fl.
Proof.
  intros Hp. unfold make_pte, fits in *. rewrite Z.shiftr_div_pow2 by lia. change (2 ^ 12) with 4096.
  by rewrite uwrap_id by (unfold fits; rewrite Z.shiftl_mul_pow2; lia).
Qed.

(** The flags and the page number of an entry. *)
Lemma make_pte_flags pa fl x : fits 56 pa -> fits 10 x -> Z.land (make_pte pa fl) x = Z.land fl x.
Proof.
  intros Hp Hx. rewrite make_pte_shape by done. rewrite Z.land_lor_distr_l.
  by rewrite land_shiftl_low by done.
Qed.

Lemma make_pte_ppn pa fl : fits 56 pa -> fits 10 fl ->
  pte_ppn (make_pte pa fl) = pa / 4096 /\ Z.shiftr (make_pte pa fl) 54 = 0.
Proof.
  intros Hp Hf. rewrite make_pte_shape by done. unfold fits in *.
  assert (Z.shiftr (Z.lor (Z.shiftl (pa / 4096) 10) fl) 10 = pa / 4096) as E.
  { rewrite Z.shiftr_lor, Z.shiftr_shiftl_l, Z.sub_diag, Z.shiftl_0_r by lia.
    rewrite (Z.shiftr_div_pow2 fl), (Z.div_small fl) by lia. apply Z.lor_0_r. }
  unfold pte_ppn. rewrite E. change (Z.shiftl 1 44 - 1) with (Z.ones 44). rewrite Z.land_ones by lia.
  rewrite Z.mod_small by lia. split; [done|].
  change 54 with (10 + 44). rewrite <- Z.shiftr_shiftr, E by lia.
  rewrite Z.shiftr_div_pow2 by lia. apply Z.div_small. lia.
Qed.

(** *** The walk *)

Variable dr : Dram.
Hypothesis Hdr : dram_wf dr.
Hypothesis Hdr_size : size_ dr = size.
Hypothesis Hdr_tables : forall t k, t ∈ tables -> 0 <= k < 512 -> read 8 (t + 8 * k) dr = entry_of t k.

(** One level: the index, and what the entry says. *)
Definition index (vpn : Z) (i : nat) : Z := vpn / 2 ^ (9 * Z.of_nat i) mod 512.

Lemma table_facts t : t ∈ tables -> table_ok t /\ fits 56 t.
Proof.
  intros Ht. pose proof (lo_tables Hlayout) as HT. rewrite Forall_forall in HT. apply list_elem_of_In in Ht.
  pose proof (HT t Ht) as (H1 & H2 & H3). split; [done|]. pose proof (lo_small Hlayout).
  unfold fits, DRAM_BASE in *. lia.
Qed.

Lemma slot_eq t vpn i : t ∈ tables -> pte_slot vpn i t = t + 8 * index vpn i /\
  is_valid_addr dr (t + 8 * index vpn i) 8 = true /\ 0 <= index vpn i < 512.
Proof.
  intros Ht. assert (0 <= index vpn i < 512) as Hi by (unfold index; lia).
  destruct (table_facts t Ht) as [(H1 & H2 & H3) Hf].
  assert (word_ok (size_ dr) (t + 8 * index vpn i)) as Hw by (rewrite Hdr_size; by apply entry_ok).
  destruct (word_valid dr _ Hdr Hw) as [F V]. split; [|done].
  unfold pte_slot. rewrite Z.shiftr_div_pow2 by (unfold VPNBITS; lia).
  change (Z.shiftl 1 VPNBITS - 1) with (Z.ones 9). rewrite Z.land_ones by lia. unfold VPNBITS, PTESIZE.
  rewrite (Z.mul_comm (Z.of_nat i)). fold (index vpn i). rewrite (Z.mul_comm _ 8). by apply uwrap_id.
Qed.

Lemma walk_zero t vpn i : t ∈ tables -> entry_of t (index vpn i) = 0 -> pt_walk dr vpn i t = PtFault.
Proof.
  intros Ht E. destruct (slot_eq t vpn i Ht) as (E1 & E2 & E3).
  destruct i; cbn [pt_walk]; rewrite E1, E2; cbn [negb]; rewrite Hdr_tables, E by done; done.
Qed.

Lemma walk_down t t' vpn i : t ∈ tables -> t' ∈ tables -> entry_of t (index vpn (S i)) = make_pte t' PTE_V ->
  pt_walk dr vpn (S i) t = pt_walk dr vpn i t'.
Proof.
  intros Ht Ht' E. destruct (slot_eq t vpn (S i) Ht) as (E1 & E2 & E3).
  destruct (table_facts t' Ht') as [(H1 & H2 & H3) Hf].
  destruct (make_pte_ppn t' PTE_V Hf ltac:(by vm_compute)) as [Ep Er].
  cbn [pt_walk]. rewrite E1, E2. cbn [negb]. rewrite Hdr_tables, E by done.
  unfold pte_invalid, pte_leaf. rewrite !(make_pte_flags t' PTE_V) by (done || by vm_compute). rewrite Er, Ep.
  change (pt_walk dr vpn i (u64 (Z.shiftl (t' / 4096) PGSHIFT)) = pt_walk dr vpn i t'). f_equal.
  rewrite Z.shiftl_mul_pow2 by done. unfold PGSHIFT. change (2 ^ 12) with 4096.
  rewrite uwrap_id; unfold fits in *; lia.
Qed.

(** A leaf whose page is aligned to its level. *)
Lemma walk_leaf_at t pa fl vpn i : t ∈ tables -> entry_of t (index vpn i) = make_pte pa fl ->
  fits 56 pa -> (fl = RW \/ fl = RWX) -> pa mod (4096 * 2 ^ (9 * Z.of_nat i)) = 0 ->
  pt_walk dr vpn i t = PtLeaf i (t + 8 * index vpn i) (make_pte pa fl).
Proof.
  intros Ht E Hp Hfl Ha. destruct (slot_eq t vpn i Ht) as (E1 & E2 & E3).
  assert (fits 10 fl) as Hf by (by destruct Hfl as [-> | ->]).
  destruct (make_pte_ppn pa fl Hp Hf) as [Ep Er].
  assert (pte_invalid (make_pte pa fl) = false /\ pte_leaf (make_pte pa fl) = true) as [Ei El].
  { unfold pte_invalid, pte_leaf. rewrite !make_pte_flags by (done || by vm_compute). by destruct Hfl as [-> | ->]. }
  assert (pte_misaligned i (make_pte pa fl) = false) as Em.
  { unfold pte_misaligned. destruct i; [done|]. rewrite Ep. apply nz_false.
    change (Z.shiftl 1 ?n - 1) with (Z.ones n). rewrite Z.land_ones by (unfold VPNBITS; lia). unfold VPNBITS.
    rewrite (Z.mul_comm (Z.of_nat (S i)) 9). set (k := 2 ^ (9 * Z.of_nat (S i))) in *.
    assert (0 < k) by (apply Z.pow_pos_nonneg; lia). apply Z.mod_divide; [lia|].
    apply Z.mod_divide in Ha as [z ->]; [|lia]. exists z. replace (z * (4096 * k)) with (z * k * 4096) by ring.
    by rewrite Z.div_mul. }
  destruct i; cbn [pt_walk]; rewrite E1, E2; cbn [negb]; rewrite Hdr_tables, E, Ei, Er, El, Em by done; done.
Qed.

(** ** The address space *)

(** Where a virtual address leads, with the rights of the page. *)
Definition sv39_target (va : Z) : option (Z * Z) :=
  if va <? 0x40000000 then Some (va, RW)
  else if (0x80000000 <=? va) && (va <? 0x80200000) then Some (va, RWX)
  else if (0xC0000000 <=? va) && (va <? 0xC0001000) then Some (va - 0xC0000000 + 0x80100000, RWX)
  else None.

(** A result of the page-table lookup that agrees with it. *)
Definition agrees (va : Z) (r : pt_result) : Prop :=
  match sv39_target va with
  | Some (pa, rights) => exists i slot pte, r = PtLeaf i slot pte /\
      Z.land pte PTE_PERM_MASK = Z.land rights PTE_PERM_MASK /\
      Z.lor (u64 (Z.shiftl (leaf_ppn i va (pte_ppn pte)) PGSHIFT)) (Z.land va PGMASK) = pa
  | None => r = PtFault
  end.

Lemma page_address ppn va : fits 44 ppn ->
  Z.lor (u64 (Z.shiftl ppn PGSHIFT)) (Z.land va PGMASK) = ppn * 4096 + va mod 4096.
Proof.
  intros Hp. unfold PGMASK, PGSIZE, PGSHIFT. change (Z.shiftl 1 12 - 1) with (Z.ones 12).
  rewrite Z.land_ones by lia. change (2 ^ 12) with 4096.
  rewrite uwrap_id by (unfold fits in *; rewrite Z.shiftl_mul_pow2; lia).
  pose proof (Z.add_lor_land (Z.shiftl ppn 12) (va mod 4096)) as E.
  rewrite land_shiftl_low in E by (unfold fits; lia). rewrite Z.shiftl_mul_pow2 in * by lia. lia.
Qed.

Lemma canonical_cases va : fits 64 va -> canonical va = true -> va < 2 ^ 38 \/ 2 ^ 64 - 2 ^ 38 <= va.
Proof.
  intros Hv Hc. unfold canonical in Hc. apply Z.eqb_eq in Hc. change (64 - 39) with 25 in Hc.
  rewrite Z.shiftr_div_pow2 in Hc by lia.
  pose proof (swrap_range 64 (u64 (Z.shiftl va 25)) ltac:(lia)) as Hr.
  set (x := s64 _) in *. unfold uwrap, fits in *. lia.
Qed.

(** The indices of an address. *)
Lemma index_va va : index (va / 4096) 2 = va / 2 ^ 30 mod 512 /\ index (va / 4096) 1 = va / 2 ^ 21 mod 512 /\
  index (va / 4096) 0 = va / 4096 mod 512.
Proof. unfold index. rewrite !Z.div_div by lia. done. Qed.

Ltac at_index E := unfold entry_of; rewrite ?E; compare; first [reflexivity | by rewrite ?E].

(** The gigapage of the devices. *)
Lemma agrees_devices va : 0 <= va < 0x40000000 -> agrees va (pt_walk dr (va / 4096) 2 (root_page_table L)).
Proof.
  intros Hv. destruct (index_va va) as (I2 & _ & _). unfold agrees, sv39_target.
  destruct (devices_arith va Hv) as (A1 & A2 & A3 & A4).
  destruct (Z.ltb_spec va 0x40000000); [|lia]. exists 2%nat. eexists _, _. split; [|split].
  - apply (walk_leaf_at _ 0 RW); [in_tables| |by vm_compute|by left|done].
    unfold entry_of. by rewrite Z.eqb_refl, I2, A1.
  - by apply make_pte_flags.
  - destruct (make_pte_ppn 0 RW) as [-> _]; [done..|]. change (0 / 4096) with 0. unfold leaf_ppn. cbv zeta.
    assert (Z.lor (andn 0 (Z.shiftl 1 (Z.of_nat 2 * VPNBITS) - 1))
      (Z.land (Z.shiftr va PGSHIFT) (Z.shiftl 1 (Z.of_nat 2 * VPNBITS) - 1)) = va / 4096) as ->.
    { change (Z.shiftl 1 (Z.of_nat 2 * VPNBITS) - 1) with (Z.ones 18). change (andn 0 (Z.ones 18)) with 0.
      by rewrite Z.lor_0_l, Z.land_ones, Z.shiftr_div_pow2 by done. }
    by rewrite page_address.
Qed.

(** The 2 MB of RAM. *)
Lemma agrees_ram va : 0x80000000 <= va < 0x80200000 -> agrees va (pt_walk dr (va / 4096) 2 (root_page_table L)).
Proof.
  intros Hv. destruct (index_va va) as (I2 & I1 & I0).
  destruct distinct as (N1 & N2 & N3 & N4 & N5 & N6 & N7 & N8 & N9 & N10).
  destruct (ram_arith va Hv) as (J2 & J1 & Hk & A4).
  destruct (ram_pages _ Hk) as (Eu & Hf & Hp & Hm).
  unfold agrees, sv39_target.
  destruct (Z.ltb_spec va 0x40000000), (Z.leb_spec 0x80000000 va), (Z.ltb_spec va 0x80200000); try lia. cbn [andb].
  rewrite (walk_down _ (mid_page_table_ram L)); [|in_tables|in_tables|rewrite I2, J2; unfold entry_of; by compare].
  rewrite (walk_down _ (leaf_page_table_ram L)); [|in_tables|in_tables|rewrite I1, J1; unfold entry_of; by compare].
  set (k := va / 4096 mod 512) in *.
  exists 0%nat. eexists _, _. split; [|split].
  - apply (walk_leaf_at _ (0x80000000 + k * 4096) RWX); [in_tables| |done|by right|done].
    rewrite I0. unfold entry_of, PAGE_SIZE. compare. by rewrite Eu.
  - by apply make_pte_flags.
  - destruct (make_pte_ppn (0x80000000 + k * 4096) RWX) as [-> _]; [done..|]. unfold leaf_ppn.
    by rewrite page_address.
Qed.

(** The page that is mapped elsewhere. *)
Lemma agrees_nonid va : 0xC0000000 <= va < 0xC0001000 -> agrees va (pt_walk dr (va / 4096) 2 (root_page_table L)).
Proof.
  intros Hv. destruct (index_va va) as (I2 & I1 & I0).
  destruct distinct as (N1 & N2 & N3 & N4 & N5 & N6 & N7 & N8 & N9 & N10).
  destruct (nonid_arith va Hv) as (J2 & J1 & J0 & A4). unfold agrees, sv39_target.
  destruct (Z.ltb_spec va 0x40000000), (Z.ltb_spec va 0x80200000), (Z.leb_spec 0xC0000000 va),
    (Z.ltb_spec va 0xC0001000); try lia. rewrite andb_false_r. cbn [andb].
  rewrite (walk_down _ (mid_page_table_nonid L)); [|in_tables|in_tables|rewrite I2, J2; unfold entry_of; by compare].
  rewrite (walk_down _ (leaf_page_table_nonid L)); [|in_tables|in_tables|rewrite I1, J1; unfold entry_of; by compare].
  exists 0%nat. eexists _, _. split; [|split].
  - apply (walk_leaf_at _ 0x80100000 RWX); [in_tables| |by vm_compute|by right|done].
    rewrite I0, J0. unfold entry_of. by compare.
  - by apply make_pte_flags.
  - destruct (make_pte_ppn 0x80100000 RWX) as [-> _]; [done..|]. unfold leaf_ppn.
    by rewrite page_address.
Qed.

(** No other page is mapped. *)
Lemma agrees_other va : 0 <= va < 2 ^ 38 \/ 2 ^ 64 - 2 ^ 38 <= va < 2 ^ 64 -> 0x40000000 <= va ->
  ~ 0x80000000 <= va < 0x80200000 -> ~ 0xC0000000 <= va < 0xC0001000 ->
  agrees va (pt_walk dr (va / 4096) 2 (root_page_table L)).
Proof.
  intros Hc H1 H2 H3. destruct (index_va va) as (I2 & I1 & I0).
  destruct distinct as (N1 & N2 & N3 & N4 & N5 & N6 & N7 & N8 & N9 & N10).
  assert (sv39_target va = None) as Et.
  { unfold sv39_target. clear - H1 H2 H3.
    destruct (Z.ltb_spec va 0x40000000), (Z.leb_spec 0x80000000 va), (Z.ltb_spec va 0x80200000),
      (Z.leb_spec 0xC0000000 va), (Z.ltb_spec va 0xC0001000); cbn [andb]; done || lia. }
  unfold agrees. rewrite Et. pose proof (other_arith va Hc H1 H2 H3) as HO. cbv zeta in HO.
  clear Hc H1 H2 H3 Et. rewrite <- I2, <- I1, <- I0 in HO.
  destruct HO as [(Z0 & Z2 & Z3)|[(E2 & Z1)|(E3 & HO)]].
  - apply walk_zero; [in_tables|]. unfold entry_of. by compare.
  - rewrite (walk_down _ (mid_page_table_ram L)); [|in_tables|in_tables|rewrite E2; unfold entry_of; by compare].
    apply walk_zero; [in_tables|]. unfold entry_of. by compare.
  - rewrite (walk_down _ (mid_page_table_nonid L)); [|in_tables|in_tables|rewrite E3; unfold entry_of; by compare].
    destruct HO as [Z1|(E1 & Z0)].
    + apply walk_zero; [in_tables|]. unfold entry_of. by compare.
    + rewrite (walk_down _ (leaf_page_table_nonid L)); [|in_tables|in_tables|rewrite E1; unfold entry_of; by compare].
      apply walk_zero; [in_tables|]. unfold entry_of. by compare.
Qed.

Lemma sv39_walk va : fits 64 va -> canonical va = true ->
  agrees va (pt_walk dr (Z.shiftr va PGSHIFT) (LEVELS - 1) (root_page_table L)).
Proof.
  intros Hv Hc. pose proof (canonical_cases va Hv Hc) as Hcc. unfold fits in Hv.
  unfold PGSHIFT. rewrite Z.shiftr_div_pow2 by lia. change (2 ^ 12) with 4096. change (LEVELS - 1)%nat with 2%nat.
  assert (va < 0x40000000 \/ 0x80000000 <= va < 0x80200000 \/ 0xC0000000 <= va < 0xC0001000 \/
    (0x40000000 <= va /\ ~ 0x80000000 <= va < 0x80200000 /\ ~ 0xC0000000 <= va < 0xC0001000)) as HR
    by (clear -Hv; lia).
  destruct HR as [HR|[HR|[HR|(H1 & H2 & H3)]]].
  - apply agrees_devices. clear -Hv HR. lia.
  - by apply agrees_ram.
  - by apply agrees_nonid.
  - apply agrees_other; [clear -Hv Hcc; lia|done..].
Qed.
End Effects.
