(* ===== verification/Sv39Start.v ===== *)
(** * The start-up code of the Sv39 guest program

    What start.S leaves when it calls main: from the reset state of the hart, supervisor mode
    without translation, with the updates of accessed and dirty bits allowed and SUM set. *)

From stdpp Require Import gmap.
From S2P Require Import Prelude Bits Hart HartInv Machine Bus Ports ByteVec SmallDevices.
From S2P Require Import Ns16550 GoldfishRtc GoldfishEvents PFlash Clint Plic VirtioBlk Mmu MmuSpec TlbSpec Elf Emulator.
From S2P Require Import Decoder CsrAccess Execute EmulatorSpec Sv39Program Sv39Spec.
Import Program.
#[local] Open Scope list_scope.

(** Supervisor mode, no translation, the updates of A and D allowed. *)
Record supervisor (h : Hart) : Prop := {
  sv_priv : priv h = PrivS;
  sv_mprv : Z.land (read_own h MSTATUS_ADDRESS) MSTATUS_MPRV = 0;
  sv_tvm : Z.land (read_own h MSTATUS_ADDRESS) MSTATUS_TVM = 0;
  sv_adue : nz (Z.land (read_own h MENVCFG_ADDRESS) MENVCFG_ADUE) = true;
  sv_satp : raw h SATP_ADDRESS = 0;
}.

Lemma supervisor_bare h : supervisor h -> bare h.
Proof. intros Hs. unfold bare. change (read_own h SATP_ADDRESS) with (raw h SATP_ADDRESS). by rewrite (sv_satp h Hs). Qed.

(** The hart as it is constructed; the devices may have raised interrupt lines since. *)
Definition reset_hart (entry mip : Z) : Hart := set_raw MIP_ADDRESS mip (Hart_init entry).

Section Start.
Context `{UndefinedConversion} `{DiskOption}.
Variables (pc size : Z).
Hypothesis Hsize : 0 <= size <= 2 ^ 64 - DRAM_BASE.
Abbreviation guest := (M machine exn).

(** ** Steps of the hart

    Code that only changes the hart, from [h] to [h']. *)
Definition moves (c : guest unit) (h h' : Hart) : Prop :=
  forall m, hart m = h -> c m = (Ok tt, upd_hart (fun _ => h') m).

Lemma moves_bind c k h1 h2 h3 : moves c h1 h2 -> moves k h2 h3 -> moves (c ;;; k) h1 h3.
Proof. intros Hc Hk m Hm. unfold bind. rewrite (Hc m Hm). by rewrite Hk. Qed.

(** The classes of registers the start-up code uses, whose accesses have no other effect. *)
Definition hart_only (c : csr_class) : bool :=
  match c with
  | CMIE | CMIP | CMEDELEG | CMIDELEG | CPMPCFGN | CPMPADDRN | CMENVCFG | CMSTATUS | CMEPC
  | CSIE | CSIP | CSSTATUS => true
  | _ => false
  end.

(** The instruction may access the register. *)
Definition accessible_csr (csr : Z) (h : Hart) : bool :=
  hart_only (csr_class_at csr) && (min_priv (csr_class_at csr) <=? priv h).

Lemma access_allowed csr h (m : machine) : accessible_csr csr h = true -> hart m = h ->
  check_access csr pc 0 m = (Ok tt, m).
Proof.
  intros Ha Hm. unfold accessible_csr in Ha. bool_hyps. unfold check_access, bind, gets.
  assert (check_permissions (hart m) csr = Some true) as ->; [|done].
  unfold check_permissions, CSR_check_permissions. rewrite Hm.
  by destruct (csr_class_at csr); try done; f_equal; apply Z.leb_le.
Qed.

Lemma write_allowed csr v h (m : machine) : accessible_csr csr h = true -> hart m = h ->
  write_checked csr pc 0 v m = (Ok tt, upd_hart (write_hart csr v) m).
Proof.
  intros Ha Hm. pose proof (access_allowed csr h m Ha Hm) as Hc. unfold accessible_csr in Ha. bool_hyps.
  unfold write_checked. destruct (csr_class_at csr) eqn:E; try done;
    unfold CSR_write_checked, bind; rewrite Hc; unfold write_unchecked; by rewrite E.
Qed.

Lemma read_allowed csr h (m : machine) : accessible_csr csr h = true -> hart m = h ->
  read_checked csr pc 0 m = (Ok (read_own h csr), m).
Proof.
  intros Ha Hm. pose proof (access_allowed csr h m Ha Hm) as Hc. unfold accessible_csr in Ha. bool_hyps.
  unfold read_checked. destruct (csr_class_at csr) eqn:E; try done;
    unfold CSR_read_checked, bind; rewrite Hc; unfold read_unchecked, read_hart, gets; by rewrite E, <- Hm.
Qed.

Definition pending (h : Hart) : Hart := set_interrupt_check_pending true h.
Definition changed (csr : Z) (f : Z -> Z) (h : Hart) : Hart :=
  let h := pending h in write_hart csr (f (read_own h csr)) h.

Lemma moves_write csr v h : accessible_csr csr h = true ->
  moves (write_csr pc csr v) h (changed csr (fun _ => v) h).
Proof.
  intros Ha m Hm. unfold write_csr, bind, set_check_pending, modify.
  rewrite (write_allowed csr v (pending h)); [|done|by rewrite <- Hm]. by rewrite <- Hm.
Qed.

Lemma moves_set csr v h : accessible_csr csr h = true ->
  moves (set_csr pc csr v) h (changed csr (fun t => Z.lor t v) h).
Proof.
  intros Ha m Hm. unfold set_csr, bind, set_check_pending, modify.
  rewrite (read_allowed csr (pending h)); [|done|by rewrite <- Hm].
  rewrite (write_allowed csr _ (pending h)); [|done|by rewrite <- Hm]. by rewrite <- Hm.
Qed.

Lemma moves_clear csr v h : accessible_csr csr h = true ->
  moves (clear_csr pc csr v) h (changed csr (fun t => andn t v) h).
Proof.
  intros Ha m Hm. unfold clear_csr, bind, set_check_pending, modify.
  rewrite (read_allowed csr (pending h)); [|done|by rewrite <- Hm].
  rewrite (write_allowed csr _ (pending h)); [|done|by rewrite <- Hm]. by rewrite <- Hm.
Qed.

(** The mret of the start-up code: to supervisor mode, with interrupts of machine mode off. *)
Definition returned (h : Hart) : Hart :=
  let h := pending h in
  MSTATUS_write (andn (Z.lor (andn (andn (MSTATUS_read h) MSTATUS_MPRV) MSTATUS_MIE) MSTATUS_MPIE) MSTATUS_MPP)
    (set_priv PrivS (set_pc (u64 (EPC_read h MEPC_ADDRESS)) h)).

Lemma moves_mret h : priv h = PrivM -> Z.land (MSTATUS_read h) MSTATUS_MPP = Z.shiftl PrivS MPP_SHIFT ->
  nz (Z.land (andn (MSTATUS_read h) MSTATUS_MPRV) MSTATUS_MPIE) = false ->
  moves (mret pc) h (returned h).
Proof.
  intros Hp Hmpp Hie m Hm. unfold mret, exec_mret, bind, set_check_pending, modify, gets.
  cbn [hart upd_hart]. rewrite Hm. change (priv (set_interrupt_check_pending true h)) with (priv h). rewrite Hp.
  change (PrivM =? PrivM) with true. cbn [negb].
  change (read_own (set_interrupt_check_pending true h) MSTATUS_ADDRESS) with (MSTATUS_read h). rewrite Hmpp.
  change (Z.shiftr (Z.shiftl PrivS MPP_SHIFT) MPP_SHIFT) with PrivS. change (PrivS =? PrivM) with false. cbn [negb].
  rewrite Hie. unfold set_hart_pc, modify, write_unchecked. change (csr_class_at MSTATUS_ADDRESS) with CMSTATUS. cbv iota.
  unfold modify. change (write_hart MSTATUS_ADDRESS) with MSTATUS_write. unfold upd_hart. cbn [hart mmu dram_ devs].
  by rewrite Hm.
Qed.

(** ** The two parts *)

Ltac csr_step :=
  match goal with
  | |- moves (write_csr _ _ _) _ _ => apply moves_write
  | |- moves (set_csr _ _ _) _ _ => apply moves_set
  | |- moves (clear_csr _ _ _) _ _ => apply moves_clear
  end; vm_compute; reflexivity.

Lemma m_mode_moves entry mip s_mode_entry : exists h, moves (m_mode_start pc s_mode_entry) (reset_hart entry mip) h /\
  exists h1, moves (write_csr pc SIE_ADDRESS 0 ;;; write_csr pc SIP_ADDRESS 0) h h1 /\ bare h1 /\
  exists h2, moves (set_csr pc SSTATUS_ADDRESS (Z.shiftl 1 18) ;;; clear_csr pc SSTATUS_ADDRESS (Z.shiftl 1 8) ;;;
    clear_csr pc SSTATUS_ADDRESS (Z.shiftl 1 1)) h1 h2 /\
  supervisor h2 /\ read_own h2 SSTATUS_ADDRESS = 0x0000000200040000.
Proof.
  eexists. split.
  { unfold m_mode_start. do 11 (eapply moves_bind; [csr_step|]). apply moves_mret; vm_compute; reflexivity. }
  eexists. split; [eapply moves_bind; csr_step|]. split; [by vm_compute|].
  eexists. split; [do 2 (eapply moves_bind; [csr_step|]); csr_step|].
  split; [by split; vm_compute|by vm_compute].
Qed.

(** The cleared section lies in DRAM. *)
Definition bss_ok (bss_start : Z) (words : nat) : Prop :=
  bss_start mod 8 = 0 /\ DRAM_BASE <= bss_start /\ bss_start + 8 * Z.of_nat words <= DRAM_BASE + size.

Lemma does_clear_bss bss_start words : bss_ok bss_start words ->
  does size (clear_bss pc bss_start words) (loop_writes words 0 (fun i => [(bss_start + 8 * i, 0)])) [].
Proof.
  intros (Ha & Hl & Hh). apply does_loop. intros i Hi. apply does_store; [|done].
  unfold word_ok. split; [lia|]. split; [lia|]. lia.
Qed.

(** What main finds. *)
Record main_ready (ss : Z) (m : machine) : Prop := {
  mr_hart : supervisor (hart m);
  mr_sstatus : read_own (hart m) SSTATUS_ADDRESS = ss;
  mr_dram : dram_wf (dram_ m);
  mr_size : size_ (dram_ m) = size;
}.

Lemma boot_runs (m : machine) entry mip s_mode_entry bss_start words : hart m = reset_hart entry mip ->
  dram_wf (dram_ m) -> size_ (dram_ m) = size -> bss_ok bss_start words ->
  exists m', boot pc s_mode_entry bss_start words m = (Ok tt, m') /\ main_ready 0x0000000200040000 m' /\
    h_stdout (d_host (devs m')) = h_stdout (d_host (devs m)).
Proof.
  intros Hm Hd Hz Hb. destruct (m_mode_moves entry mip s_mode_entry) as (h & M1 & h1 & M2 & B1 & h2 & M3 & S2 & E2).
  destruct (does_clear_bss bss_start words Hb) as [Hok Hc].
  unfold boot, bind at 1. rewrite (M1 m Hm). unfold s_mode_start. unfold bind at 1.
  rewrite (M2 (upd_hart (fun _ => h) m) eq_refl). unfold bind at 1.
  rewrite Hc by done.
  rewrite (M3 (effect _ [] (upd_hart (fun _ => h1) (upd_hart (fun _ => h) m))) eq_refl). eexists. split; [done|]. split.
  - split; [exact S2|exact E2|by apply writes_wf|]. cbn [dram_ upd_hart]. by rewrite effect_size.
  - cbn. by rewrite app_nil_r.
Qed.
End Start.
