(* ===== verification/Sv39Space.v ===== *)
(** * The address space of the Sv39 guest program

    With the page tables of [setup_sv39] and translation on, every access is translated as
    the program's comments say, and translation keeps it so although it fills the TLBs and sets
    accessed and dirty bits in the tables. *)

From stdpp Require Import gmap.
From Stdlib Require Import Strings.String.
From S2P Require Import Prelude Bits Hart HartInv Machine Bus Ports ByteVec SmallDevices.
From S2P Require Import Ns16550 GoldfishRtc GoldfishEvents PFlash Clint Plic VirtioBlk Mmu MmuSpec TlbSpec Elf Emulator.
From S2P Require Import Decoder CsrAccess Execute EmulatorSpec Sv39Program Sv39Spec Sv39Start.
Import Program.
#[local] Open Scope list_scope.

(** Where an access leads: devices cannot be executed. *)
Definition sv39_map (va : Z) (t : AccessType) : option Z :=
  match sv39_target va with
  | Some (pa, rights) => if type_allowed t false rights then Some pa else None
  | None => None
  end.

(** ** Translation *)

Section Space.
Context {D : Type} `{Platform D}.

(** A hart in supervisor mode with Sv39 on and the updates of A and D by hardware. *)
Record sv39_hart (h : Hart) : Prop := {
  sh_priv : priv h = PrivS;
  sh_mprv : Z.land (read_own h MSTATUS_ADDRESS) MSTATUS_MPRV = 0;
  sh_mode : satp_mode (read_own h SATP_ADDRESS) = SATP_Sv39;
  sh_adue : nz (Z.land (read_own h MENVCFG_ADDRESS) MENVCFG_ADUE) = true;
}.

Record sv39_space (m : mach D) : Prop := {
  ss_hart : sv39_hart (hart m);
  ss_dram : dram_wf (dram_ m);
  ss_tlb : tlb_coherent m;
  ss_tables : forall va, fits 64 va -> canonical va = true ->
    agrees va (pt_walk (dram_ m) (Z.shiftr va PGSHIFT) (LEVELS - 1) (pt_root (hart m)));
}.

Lemma effective_S h t : sv39_hart h -> effective_priv h t = PrivS.
Proof.
  intros [Hp Hm _ _]. unfold effective_priv. cbv zeta. rewrite Hm, andb_false_r. exact Hp.
Qed.

(** The rights of a leaf decide. *)
Lemma rights_decide pte rights t sum mxr : rights = RW \/ rights = RWX ->
  Z.land pte PTE_PERM_MASK = Z.land rights PTE_PERM_MASK ->
  user_allowed PrivS t sum pte = true /\ type_allowed t mxr pte = type_allowed t false rights.
Proof.
  intros Hr Ep. destruct (allowed_perm pte PrivS t sum mxr) as [<- <-]. rewrite Ep.
  by destruct Hr as [-> | ->], t, mxr.
Qed.

Lemma target_rights va pa rights : sv39_target va = Some (pa, rights) -> rights = RW \/ rights = RWX.
Proof. unfold sv39_target. repeat case_match; intros [= _ <-]; auto. Qed.

Lemma walk_leaf_runs pc va t p sum mxr idx vpn i pa pte (m : mach D) :
  pte_misaligned i pte = false -> is_valid_addr (dram_ m) pa 8 = true ->
  user_allowed p t sum pte = true ->
  fst (walk_leaf pc va t p sum mxr true idx vpn i pa pte m) =
    if type_allowed t mxr pte
    then Ok (Z.lor (u64 (Z.shiftl (leaf_ppn i va (pte_ppn pte)) PGSHIFT)) (Z.land va PGMASK))
    else Throw (ETrap (mkTrap pc (page_fault_cause t) va)).
Proof.
  intros Hm Hv Hu. unfold walk_leaf. cbv zeta. fold (pte_ppn pte).
  assert (match i with O => false | S _ =>
       nz (Z.land (pte_ppn pte) (Z.shiftl 1 (Z.of_nat i * VPNBITS) - 1)) end = false) as -> by done.
  rewrite Hu. cbn [negb]. destruct (type_allowed t mxr pte); cbn [negb]; [|done].
  destruct (negb (nz (Z.land pte PTE_A)) || _); [|done].
  unfold bind, state, bus_write. change (Z.of_nat 8) with 8. by rewrite Hv.
Qed.

Lemma noncanonical_unmapped va t : fits 64 va -> canonical va = false -> sv39_map va t = None.
Proof.
  intros Hv Hc. unfold sv39_map, sv39_target.
  destruct (Z.ltb_spec va 0xC0001000) as [Hl|Hl].
  - exfalso. assert (canonical va = true) as Hc'; [|congruence]. clear Hc. unfold canonical, fits in *.
    change (64 - 39) with 25. rewrite !Z.shiftl_mul_pow2, Z.shiftr_div_pow2 by lia.
    rewrite (uwrap_id 64 (va * 2 ^ 25)) by (unfold fits; lia). rewrite swrap_id by lia.
    rewrite Z.div_mul, uwrap_id by (unfold fits; lia). apply Z.eqb_refl.
  - destruct (Z.ltb_spec va 0x40000000); [lia|]. destruct (Z.ltb_spec va 0x80200000); [lia|].
    by rewrite !andb_false_r.
Qed.

(** The outcome of every translation. *)
Lemma translate_outcome pc va t (m : mach D) : sv39_space m -> fits 64 va ->
  fst (translate pc va t m) = match sv39_map va t with
                              | Some pa => Ok pa
                              | None => Throw (ETrap (mkTrap pc (page_fault_cause t) va))
                              end.
Proof.
  intros [Hh Hd Ht Hv] Hf. rewrite translate_uncached by done. unfold translate_walk. unfold bind, gets. cbv zeta.
  rewrite (effective_S _ _ Hh). change (PrivS =? PrivM) with false. cbv iota.
  pose proof (sh_mode _ Hh) as Hm. unfold satp_mode in Hm. rewrite Hm.
  change (SATP_Sv39 =? SATP_Bare) with false. change (SATP_Sv39 =? SATP_Sv39) with true. cbn [negb].
  destruct (canonical va) eqn:Ec; cbn [negb].
  2: { by rewrite noncanonical_unmapped. }
  specialize (Hv va Hf Ec). unfold agrees in Hv. rewrite (sh_adue _ Hh).
  match goal with |- context [walk pc va t ?p ?s ?x true ?idx _ ?i ?a m] =>
    pose proof (walk_pt pc va t p s x true idx i a m) as Hw end.
  unfold sv39_map. destruct (sv39_target va) as [[pa rights]|] eqn:Et.
  - destruct Hv as (i & slot & pte & Ew & Ep & Ea). rewrite Ew in Hw.
    destruct Hw as (-> & _ & Hva & _ & _ & Hmis & _).
    destruct (rights_decide pte rights t (nz (Z.land (read_own (hart m) MSTATUS_ADDRESS) MSTATUS_SUM))
      (nz (Z.land (read_own (hart m) MSTATUS_ADDRESS) MSTATUS_MXR)) (target_rights _ _ _ Et) Ep) as [Hu Hty].
    rewrite walk_leaf_runs, Hty, Ea by done. by destruct (type_allowed t false rights).
  - rewrite Hv in Hw. by rewrite Hw.
Qed.

(** A leaf with other A and D bits agrees as well. *)
Lemma agrees_update va r r' pa pte b : ad_bits b -> agrees va r -> 
  r' = match r with PtLeaf i p x => PtLeaf i p (if p =? pa then Z.lor pte b else x) | _ => r end ->
  (forall i x, r = PtLeaf i pa x -> x = pte) -> agrees va r'.
Proof.
  intros Hb Ha -> Hx. unfold agrees in *. destruct (sv39_target va) as [[p rights]|]; [|by rewrite Ha].
  destruct Ha as (i & slot & x & -> & Ep & Ea). exists i, slot. eexists. split; [done|].
  destruct (Z.eqb_spec slot pa) as [->|_]; [|done]. rewrite (Hx i x eq_refl) in *.
  destruct (ad_same pte b Hb) as (_ & _ & E3 & _ & E5 & _). by rewrite E3, E5.
Qed.

Lemma agrees_inside va r : agrees va r -> r <> PtOutside.
Proof. unfold agrees. destruct (sv39_target va) as [[pa rights]|]; [intros (? & ? & ? & -> & _)|intros ->]; done. Qed.

(** Translation keeps the address space. *)
Lemma translate_keeps pc va t (m : mach D) : sv39_space m -> fits 64 va ->
  sv39_space (snd (translate pc va t m)) /\ hart (snd (translate pc va t m)) = hart m /\
  devs (snd (translate pc va t m)) = devs m.
Proof.
  intros Hs Hf. pose proof Hs as [Hh Hd Ht Hv]. destruct (canonical va) eqn:Ec.
  2: { assert (snd (translate pc va t m) = m) as ->; [|done]. unfold translate. unfold bind, gets. cbv zeta.
       rewrite Ec. cbn [negb]. by repeat case_match. }
  destruct (translate_changes pc va t m Hd Ht) as (C1 & C2 & C3 & C4); [by eapply agrees_inside, Hv|].
  split; [|done]. set (m' := snd (translate pc va t m)) in *.
  destruct C4 as [E|(i & pa & pte & b & Hb & Ew & Epte & Hva & Hpf & Hpa & Hl & E)].
  - split; rewrite ?C2, ?E; done.
  - split; [by rewrite C2|by rewrite E; apply write_wf|done|]. intros va' Hf' Hc'. rewrite C2, E.
    eapply (agrees_update va' _ _ pa pte b Hb (Hv va' Hf' Hc')).
    + rewrite (pt_walk_update _ pa pte b Hd (conj Hpf (conj Hpa Hva)) Epte Hl Hb) by apply table_aligned.
      generalize (pt_walk (dram_ m) (Z.shiftr va' PGSHIFT) (LEVELS - 1) (pt_root (hart m))). intros []; reflexivity.
    + intros i' x Ex. apply pt_walk_read in Ex. congruence.
Qed.
End Space.

(** ** Turning translation on *)

Section Enable.
Context `{UndefinedConversion} `{DiskOption}.
Variables (pc size : Z) (L : Layout).
Hypothesis Hsize : 0 <= size <= 2 ^ 64 - DRAM_BASE.
Hypothesis Hlayout : layout_ok size L.

Lemma root_facts : let root := root_page_table L in
  table_ok size root /\ fits 56 root /\ satp_value L <> 0 /\ fits 64 (satp_value L) /\
  satp_mode (satp_value L) = SATP_Sv39 /\ Z.land (satp_value L) SATP_PPN = root / 4096.
Proof.
  destruct (table_facts size L Hlayout (root_page_table L)) as [Ht Hf]; [left|].
  intros root. split; [exact Ht|]. split; [exact Hf|]. unfold satp_value.
  rewrite Z.shiftr_div_pow2 by lia. change (2 ^ 12) with 4096. fold root. unfold fits in Hf.
  assert (fits 44 (root / 4096)) as Hp by (unfold fits, root; lia).
  assert (Z.land (Z.lor SATP_MODE_SV39 (root / 4096)) SATP_PPN = root / 4096) as E1.
  { rewrite Z.land_lor_distr_l. change (Z.land SATP_MODE_SV39 SATP_PPN) with 0. rewrite Z.lor_0_l.
    change SATP_PPN with (Z.ones 44). rewrite Z.land_ones by lia. by apply Z.mod_small. }
  assert (satp_mode (Z.lor SATP_MODE_SV39 (root / 4096)) = SATP_Sv39) as E2.
  { unfold satp_mode. rewrite Z.land_lor_distr_l, (Z.land_comm (root / 4096)).
    change SATP_MODE with (Z.shiftl 15 60). rewrite (land_shiftl_low 15 _ 60); [done|lia|].
    eapply fits_le; [|exact Hp]. lia. }
  split_and!; try done.
  - intros E. rewrite E in E2. done.
  - apply fits_lor; [lia|done|]. eapply fits_le; [|exact Hp]. lia.
Qed.

(** The instructions csrw satp and sfence.vma. *)
Definition with_satp (h : Hart) : Hart := set_raw SATP_ADDRESS (satp_value L) (set_interrupt_check_pending true h).

Lemma with_satp_other h a : a <> SATP_ADDRESS -> raw (with_satp h) a = raw h a.
Proof. intros Ha. unfold with_satp, raw, set_raw, set_interrupt_check_pending. cbn. by rewrite lookup_insert_ne. Qed.

Lemma with_satp_hart h : supervisor h -> sv39_hart (with_satp h) /\ pt_root (with_satp h) = root_page_table L.
Proof.
  intros [Hp Hm Ht Ha Hr]. destruct root_facts as ((R1 & R2 & R3) & R4 & R5 & R6 & R7 & R8).
  assert (read_own (with_satp h) SATP_ADDRESS = satp_value L) as Es.
  { change (read_own (with_satp h) SATP_ADDRESS) with (raw (with_satp h) SATP_ADDRESS).
    unfold with_satp, raw, set_raw. cbn. by rewrite lookup_insert_eq. }
  split.
  - split; [exact Hp| |by rewrite Es|].
    + change (read_own (with_satp h) MSTATUS_ADDRESS) with (MSTATUS_read (with_satp h)).
      unfold MSTATUS_read. rewrite with_satp_other by done. exact Hm.
    + change (read_own (with_satp h) MENVCFG_ADDRESS) with (MENVCFG_read (with_satp h)).
      unfold MENVCFG_read. rewrite with_satp_other by done. exact Ha.
  - unfold pt_root. rewrite Es, R8. unfold PGSHIFT. rewrite Z.shiftl_mul_pow2 by lia. change (2 ^ 12) with 4096.
    rewrite uwrap_id; unfold fits in *; lia.
Qed.

Lemma csrw_satp (m : machine) : supervisor (hart m) ->
  (write_csr pc SATP_ADDRESS (satp_value L) ;;; sfence_vma pc) m =
  (Ok tt, upd_mmu tlb_flush_all (upd_mmu tlb_flush_all (upd_hart with_satp m))).
Proof.
  intros Hs. pose proof Hs as [Hp Hm Ht Ha Hr]. destruct root_facts as (_ & _ & R5 & _ & R7 & _).
  set (h := set_interrupt_check_pending true (hart m)).
  assert (check_permissions h SATP_ADDRESS = Some true) as Ec.
  { change (check_permissions h SATP_ADDRESS) with (Some (SATP_check_permissions h)).
    unfold SATP_check_permissions, CSR_check_permissions. change (priv h) with (priv (hart m)). rewrite Hp.
    change (MSTATUS_read h) with (read_own (hart m) MSTATUS_ADDRESS). by rewrite Ht. }
  assert (SATP_write (satp_value L) h = (with_satp (hart m), true)) as Ew.
  { unfold SATP_write. cbv zeta. rewrite R7. change (raw h SATP_ADDRESS) with (raw (hart m) SATP_ADDRESS). rewrite Hr.
    by destruct (Z.eqb_spec 0 (satp_value L)) as [E|_]; [by rewrite <- E in R5|]. }
  unfold write_csr, sfence_vma. unfold bind at 1 2, set_check_pending, modify at 1.
  unfold write_checked. change (csr_class_at SATP_ADDRESS) with CSATP. cbv iota.
  unfold CSR_write_checked, check_access. unfold bind at 1 2, gets at 1. cbn [hart upd_hart]. fold h. rewrite Ec.
  unfold ret at 1, write_unchecked. change (csr_class_at SATP_ADDRESS) with CSATP. cbv iota.
  unfold SATP_write_unchecked, state. unfold bind at 1. cbn [hart upd_hart]. fold h. rewrite Ew.
  unfold when, modify at 1, exec_sfence_vma, bind, gets. cbn [hart upd_mmu upd_hart d_rs1 d_ops o_rs1].
  change (priv (with_satp (hart m))) with (priv (hart m)). rewrite Hp. change (PrivS =? PrivU) with false.
  change (PrivS =? PrivS) with true.
  assert (Z.land (read_own (with_satp (hart m)) MSTATUS_ADDRESS) MSTATUS_TVM = 0) as ->.
  { change (read_own (with_satp (hart m)) MSTATUS_ADDRESS) with (MSTATUS_read (with_satp (hart m))).
    unfold MSTATUS_read. rewrite with_satp_other by done. exact Ht. }
  done.
Qed.

(** *** Output with translation on *)

Abbreviation stdout m := (h_stdout (d_host (devs m))).

Lemma effect_space s m : sv39_space m -> sv39_space (effect [] s m) /\ stdout (effect [] s m) = stdout m ++ s.
Proof. intros [? ? ? ?]. split; [|done]. by split. Qed.

Lemma space_putchar c (m : machine) : sv39_space m -> fits 8 c ->
  exists m', putchar pc c m = (Ok tt, m') /\ sv39_space m' /\ stdout m' = stdout m ++ [c].
Proof.
  intros Hs Hc. assert (fits 64 CONSOLE_BASE) as Hf by done.
  pose proof (translate_outcome pc CONSOLE_BASE Store m Hs Hf) as Ho.
  destruct (translate_keeps pc CONSOLE_BASE Store m Hs Hf) as (K1 & _ & K3).
  change (sv39_map CONSOLE_BASE Store) with (Some CONSOLE_BASE) in Ho.
  unfold putchar, mmu_write. change (CONSOLE_BASE mod Z.of_nat 1 =? 0) with true. cbv iota. unfold bind.
  destruct (translate pc CONSOLE_BASE Store m) as [r m1]. cbn [fst snd] in *. subst r.
  unfold state. rewrite bus_putchar by done. cbn [negb].
  destruct (effect_space [c] m1 K1) as [E1 E2]. eexists. split; [done|]. split; [done|]. by rewrite E2, K3.
Qed.

Lemma space_puts s (m : machine) : sv39_space m -> Forall (fits 8) s ->
  exists m', puts pc s m = (Ok tt, m') /\ sv39_space m' /\ stdout m' = stdout m ++ s.
Proof.
  revert m. induction s as [|c s IH]; intros m Hs Hc.
  { exists m. split; [done|]. split; [done|]. by rewrite app_nil_r. }
  apply Forall_cons_1 in Hc as [Hc Hcs]. destruct (space_putchar c m Hs Hc) as (m1 & E1 & S1 & O1).
  destruct (IH m1 S1 Hcs) as (m2 & E2 & S2 & O2). exists m2. cbn [puts]. unfold bind. rewrite E1.
  split; [done|]. split; [done|]. by rewrite O2, O1, <- app_assoc.
Qed.

(** *** The address space of the program *)

Definition enable_text : list Z :=
  line "Enabling SV39..." ++ chars "SATP value: " ++ hex_text (satp_value L) ++ newline.

Lemma setup_tables d : dram_wf d -> size_ d = size ->
  forall t k, t ∈ tables L -> 0 <= k < 512 -> read 8 (t + 8 * k) (writes (setup_writes L) d) = entry_of L t k.
Proof.
  intros Hd Hs t k Ht Hk. apply read_last; [done| |by apply (last_entry size Hsize)].
  rewrite Hs. exact (proj1 (setup_does pc size Hsize L Hlayout)).
Qed.

Lemma before_satp : does size
  (setup_sv39 L pc ;;; puts pc (line "Enabling SV39...") ;;; puts pc (chars "SATP value: ") ;;;
   print_hex pc (satp_value L) ;;; puts pc newline) (setup_writes L) (setup_text ++ enable_text).
Proof.
  eapply does_eq; [apply does_bind; [apply (setup_does pc size Hsize L Hlayout)|];
    apply does_bind; [apply does_puts, line_fits|]; apply does_bind; [apply does_puts, chars_fits|];
    apply does_bind; [apply does_print_hex|apply does_puts, newline_fits] | by rewrite app_nil_r | reflexivity].
Qed.

(** Translations one after the other. *)
Definition translations (l : list (Z * Z * AccessType)) (m : machine) : machine :=
  foldl (fun m '(p, va, t) => snd (translate p va t m)) m l.

Lemma translations_keep l m : Forall (fun x => fits 64 (snd (fst x))) l -> sv39_space m -> sv39_space (translations l m).
Proof.
  revert m. induction l as [|[[p va] t] l IH]; intros m Hl Hs; [done|].
  apply Forall_cons_1 in Hl as [Hf Hl]. apply (IH _ Hl). by apply (translate_keeps p va t m).
Qed.

(** The program up to the test, as the part before csrw satp, the two instructions, and a
    message. *)
Lemma setup_enable_split m :
  (setup_sv39 L pc ;;; enable_sv39 L pc) m =
  ((setup_sv39 L pc ;;; puts pc (line "Enabling SV39...") ;;; puts pc (chars "SATP value: ") ;;;
    print_hex pc (satp_value L) ;;; puts pc newline) ;;;
   (write_csr pc SATP_ADDRESS (satp_value L) ;;; sfence_vma pc) ;;;
   puts pc (line2 "SV39 enabled!")) m.
Proof.
  unfold enable_sv39, bind. destruct (setup_sv39 L pc m) as [[[]|e] m1]; [|done].
  destruct (puts pc (line "Enabling SV39...") m1) as [[[]|e] m2]; [|done].
  destruct (puts pc (chars "SATP value: ") m2) as [[[]|e] m3]; [|done].
  destruct (print_hex pc (satp_value L) m3) as [[[]|e] m4]; [|done].
  destruct (puts pc newline m4) as [[[]|e] m5]; [|done].
  by destruct (write_csr pc SATP_ADDRESS (satp_value L) m5) as [[[]|e] m6].
Qed.

(** The machine once translation is on, before the last message. *)
Lemma sv39_switched (m : machine) :
  supervisor (hart m) -> dram_wf (dram_ m) -> size_ (dram_ m) = size ->
  exists m', (setup_sv39 L pc ;;; enable_sv39 L pc) m = puts pc (line2 "SV39 enabled!") m' /\ sv39_space m' /\
    stdout m' = stdout m ++ setup_text ++ enable_text /\
    hart m' = with_satp (hart m) /\ dram_ m' = writes (setup_writes L) (dram_ m).
Proof.
  intros Hs Hd Hz. rewrite setup_enable_split. destruct before_satp as [_ Hb].
  unfold bind at 1. rewrite Hb by (done || by apply supervisor_bare).
  set (m1 := effect (setup_writes L) (setup_text ++ enable_text) m).
  assert (supervisor (hart m1)) as Hs1 by done.
  unfold bind at 1. rewrite csrw_satp by done.
  set (m2 := upd_mmu tlb_flush_all (upd_mmu tlb_flush_all (upd_hart with_satp m1))).
  assert (dram_ m2 = writes (setup_writes L) (dram_ m)) as Ed by done.
  destruct (with_satp_hart (hart m1) Hs1) as [H1 H2].
  exists m2. split; [reflexivity|]. split; [|split; [reflexivity|by split]].
  split; [exact H1|by rewrite Ed; apply writes_wf|apply tlb_coherent_flush|].
  intros va Hf Hc. change (pt_root (hart m2)) with (pt_root (with_satp (hart m1))). rewrite H2, Ed.
  eapply (sv39_walk size Hsize L Hlayout); [by apply writes_wf|by rewrite writes_size|by apply setup_tables|done|done].
Qed.

Lemma sv39_enabled_lemma (m : machine) :
  supervisor (hart m) -> dram_wf (dram_ m) -> size_ (dram_ m) = size ->
  exists m', (setup_sv39 L pc ;;; enable_sv39 L pc) m = (Ok tt, m') /\ sv39_space m' /\
    stdout m' = stdout m ++ setup_text ++ enable_text ++ line2 "SV39 enabled!".
Proof.
  intros Hs Hd Hz. destruct (sv39_switched m Hs Hd Hz) as (m2 & -> & Hsp & O2 & _).
  destruct (space_puts (line2 "SV39 enabled!") m2 Hsp (line2_fits _)) as (m3 & E3 & S3 & O3).
  exists m3. split; [exact E3|]. split; [exact S3|]. by rewrite O3, O2, <- !app_assoc.
Qed.

(** C21. The guest program of examples/sv39-test gets the address space its comments
    describe, on any machine whose DRAM holds its five page tables: [setup_sv39] and [enable_sv39],
    run in supervisor mode with translation off, print their messages and leave a machine on
    which every translation -- after any number of others, whose TLB fills and updates of
    accessed and dirty bits it sees -- maps the 2 MB of RAM and, for loads and stores, the
    gigabyte of devices to themselves and the page 0xC0000000 to 0x80100000, and is a page
    fault everywhere else. *)
Theorem sv39_address_space (m : machine) :
  supervisor (hart m) -> dram_wf (dram_ m) -> size_ (dram_ m) = size ->
  exists m', (setup_sv39 L pc ;;; enable_sv39 L pc) m = (Ok tt, m') /\
    stdout m' = stdout m ++ setup_text ++ enable_text ++ line2 "SV39 enabled!" /\
    forall l p va t, Forall (fun x => fits 64 (snd (fst x))) l -> fits 64 va ->
      fst (translate p va t (translations l m')) =
        match sv39_map va t with
        | Some pa => Ok pa
        | None => Throw (ETrap (mkTrap p (page_fault_cause t) va))
        end.
Proof.
  intros Hs Hd Hz. destruct (sv39_enabled_lemma m Hs Hd Hz) as (m' & E & S & O). exists m'.
  split; [done|]. split; [done|]. intros l p va t Hl Hf. apply translate_outcome; [|done].
  by apply translations_keep.
Qed.
End Enable.

(** *** A concrete machine *)

Section Witness.
Abbreviation stdout m := (h_stdout (d_host (devs m))).
#[local] Existing Instance zero_conversion.
#[local] Instance no_disk : DiskOption := None.

(** 32 MB of DRAM, as the test of the program has, after the start-up code; its tables are the
    section it clears. *)
Definition reset_machine : machine :=
  match Emulator_init 0x2000000 None None small_host with
  | Some m => m
  | None => blank_machine 0 small_host
  end.
Definition sv39_layout : Layout := mkLayout 0x80002000 0x80003000 0x80004000 0x80005000 0x80006000 0x80001000.
Definition sv39_machine : machine := snd (boot DRAM_BASE 0x80000040 0x80002000 2560 reset_machine).

Lemma reset_machine_ok : hart reset_machine = reset_hart DRAM_BASE MTIP /\ dram_wf (dram_ reset_machine) /\
  size_ (dram_ reset_machine) = 0x2000000 /\ bss_ok 0x2000000 0x80002000 2560.
Proof.
  split; [by vm_compute|]. split; [apply Dram_init_wf; split; [done|by vm_compute]|].
  split; by vm_compute.
Qed.

Lemma sv39_machine_ready : main_ready 0x2000000 0x0000000200040000 sv39_machine.
Proof.
  destruct reset_machine_ok as (Eh & Hd & Hs & Hb).
  destruct (boot_runs DRAM_BASE 0x2000000 reset_machine DRAM_BASE MTIP 0x80000040 0x80002000 2560 Eh Hd Hs Hb) as (m & E & Hm & _).
  unfold sv39_machine. by rewrite E.
Qed.

Lemma sv39_layout_ok : layout_ok 0x2000000 sv39_layout.
Proof.
  split; [|by apply NoDup_ListNoDup; repeat constructor; cbn; intuition discriminate|done].
  repeat (apply Forall_cons_2; [by vm_compute|]). apply Forall_nil_2.
Qed.

Lemma sv39_address_space_witness :
  exists m', (setup_sv39 sv39_layout DRAM_BASE ;;; enable_sv39 sv39_layout DRAM_BASE) sv39_machine = (Ok tt, m') /\
    fst (translate 0 0xC0000123 Load (translations [(0, 0x80001000, Store)] m')) = Ok 0x80100123.
Proof.
  destruct sv39_machine_ready as [Hh _ Hd Hz].
  destruct (sv39_address_space DRAM_BASE 0x2000000 sv39_layout ltac:(by split) sv39_layout_ok sv39_machine Hh Hd Hz)
    as (m' & E & _ & T).
  exists m'. split; [exact E|]. apply (T [(0, 0x80001000, Store)] 0 0xC0000123 Load); [|by split].
  apply Forall_cons_2; [by split|apply Forall_nil_2].
Defined.
End Witness.
