(* ===== verification/Sv39Run.v ===== *)
(** * The Sv39 guest program from reset to power off

    The page tables are closed under the walk, so a store outside of them keeps the address
    space; with that the four tests of the program read back what they have written, and the
    program prints that they pass. *)

From stdpp Require Import gmap.
From Stdlib Require Import Strings.String.
From S2P Require Import Prelude Bits Hart HartInv Machine Bus Ports ByteVec SmallDevices.
From S2P Require Import Ns16550 GoldfishRtc GoldfishEvents PFlash Clint Plic VirtioBlk Mmu MmuSpec TlbSpec Elf Emulator.
From S2P Require Import Decoder CsrAccess Execute EmulatorSpec Sv39Program Sv39Spec Sv39Start Sv39Space.
Import Program.
#[local] Open Scope list_scope.

Section Run.
Context `{UndefinedConversion} `{DiskOption}.
Variables (pc size : Z) (L : Layout).
Hypothesis Hsize : 0 <= size <= 2 ^ 64 - DRAM_BASE.
Hypothesis Hlayout : layout_ok size L.
Abbreviation guest := (M machine exn).
Abbreviation stdout m := (h_stdout (d_host (devs m))).

(** ** Page tables that lead to each other only *)

(** The table the entry points to. *)
Definition next_table (pte : Z) : Z := u64 (Z.shiftl (pte_ppn pte) PGSHIFT).
Definition tables_closed (d : Dram) : Prop := forall t k, t ∈ tables L -> 0 <= k < 512 ->
  pte_invalid (read 8 (t + 8 * k) d) = false -> pte_leaf (read 8 (t + 8 * k) d) = false ->
  next_table (read 8 (t + 8 * k) d) ∈ tables L.

(** A word of DRAM that is in none of them. *)
Definition outside (a : Z) : Prop :=
  word_ok size a /\ forall t, t ∈ tables L -> a + 8 <= t \/ t + 4096 <= a.

Lemma outside_entry a t k : outside a -> t ∈ tables L -> 0 <= k < 512 -> t + 8 * k <> a.
Proof. intros [_ Ho] Ht Hk. destruct (Ho t Ht); lia. Qed.

Lemma next_of_pointer t : t ∈ tables L -> next_table (make_pte t PTE_V) = t.
Proof.
  intros Ht. destruct (table_facts size L Hlayout t Ht) as [(_ & _ & Ha) Hf]. unfold next_table.
  destruct (make_pte_ppn t PTE_V Hf ltac:(by vm_compute)) as [-> _]. unfold PGSHIFT.
  rewrite Z.shiftl_mul_pow2 by lia. change (2 ^ 12) with 4096. rewrite uwrap_id; unfold fits in *; lia.
Qed.

(** An entry is a leaf, a pointer to a table, or nothing. *)
Inductive entry_kind : Z -> Prop :=
  | entry_leaf pa fl : fits 56 pa -> fl = RW \/ fl = RWX -> entry_kind (make_pte pa fl)
  | entry_pointer t : t ∈ tables L -> entry_kind (make_pte t PTE_V)
  | entry_none : entry_kind 0.

Lemma entry_of_kind t k : 0 <= k < 512 -> entry_kind (entry_of L t k).
Proof.
  intros Hk. destruct (ram_pages k Hk) as (Eu & Hf & _ & _). unfold entry_of, PAGE_SIZE. rewrite Eu.
  repeat (match goal with |- context [if ?b then _ else _] => destruct b end);
    first [ apply entry_none
          | apply entry_pointer, list_elem_of_In; unfold tables; cbn [In]; tauto
          | apply entry_leaf; [done|by right] | apply entry_leaf; [by vm_compute|by left] ].
Qed.

Lemma entry_closed t k : 0 <= k < 512 -> pte_invalid (entry_of L t k) = false ->
  pte_leaf (entry_of L t k) = false -> next_table (entry_of L t k) ∈ tables L.
Proof.
  intros Hk. destruct (entry_of_kind t k Hk) as [pa fl Hf Hfl|x Hx|]; intros Hi Hl; [|by rewrite next_of_pointer|by vm_compute in Hi].
  unfold pte_leaf in Hl. rewrite !make_pte_flags in Hl by (done || by vm_compute). by destruct Hfl as [-> | ->].
Qed.

Lemma setup_closed d : dram_wf d -> size_ d = size -> tables_closed (writes (setup_writes L) d).
Proof.
  intros Hd Hs t k Ht Hk. rewrite (setup_tables pc size L Hsize Hlayout d Hd Hs t k Ht Hk). by apply entry_closed.
Qed.

(** The walk reads entries of the tables only. *)
Lemma walk_slot d vpn i t : dram_wf d -> size_ d = size -> tables_closed d -> t ∈ tables L ->
  match pt_walk d vpn i t with
  | PtLeaf _ pa _ => exists t' k, t' ∈ tables L /\ 0 <= k < 512 /\ pa = t' + 8 * k
  | _ => True
  end.
Proof.
  intros Hd Hs Hc. revert t. induction i as [|i IH]; intros t Ht;
    (match goal with |- context [pt_walk _ _ ?j _] =>
       destruct (slot_eq size L Hlayout d Hd Hs t vpn j Ht) as (E1 & E2 & E3) end);
    cbn [pt_walk]; rewrite E1, E2; cbn [negb];
    (destruct (pte_invalid _) eqn:Ei; [done|]); (destruct (nz (Z.shiftr _ 54)); [done|]).
  - destruct (pte_leaf _) eqn:El; [|by destruct (nz _)]. destruct (pte_misaligned _ _); [done|]. eauto.
  - destruct (pte_leaf _) eqn:El; [destruct (pte_misaligned _ _); [done|]; eauto|].
    destruct (nz _); [done|]. by apply IH, Hc.
Qed.

Lemma walk_same d d' vpn i t : dram_wf d -> size_ d = size -> dram_wf d' -> size_ d' = size -> tables_closed d ->
  (forall t k, t ∈ tables L -> 0 <= k < 512 -> read 8 (t + 8 * k) d' = read 8 (t + 8 * k) d) ->
  t ∈ tables L -> pt_walk d' vpn i t = pt_walk d vpn i t.
Proof.
  intros Hd Hs Hd' Hs' Hc He. revert t. induction i as [|i IH]; intros t Ht;
    (match goal with |- context [pt_walk _ _ ?j _] =>
       destruct (slot_eq size L Hlayout d Hd Hs t vpn j Ht) as (E1 & E2 & E3);
       destruct (slot_eq size L Hlayout d' Hd' Hs' t vpn j Ht) as (_ & F2 & _) end);
    cbn [pt_walk]; rewrite E1, E2, F2, He by done; cbn [negb]; [done|].
  destruct (pte_invalid _) eqn:Ei; [done|]. destruct (nz (Z.shiftr _ 54)); [done|].
  destruct (pte_leaf _) eqn:El; [done|]. destruct (nz _); [done|]. by apply IH, Hc.
Qed.

Lemma read_other d a b v : dram_wf d -> size_ d = size -> word_ok size a -> word_ok size b -> a <> b -> fits 64 v ->
  read 8 a (write 8 b v d) = read 8 a d.
Proof.
  intros Hd Hs Ha Hb Hne Hv. apply (read_writes_other [(b, v)] d a); rewrite ?Hs; [done| |done|].
  - by apply Forall_singleton.
  - by apply Forall_singleton, not_eq_sym.
Qed.

(** ** The machine while the program runs *)

Record running (m : machine) : Prop := {
  rn_space : sv39_space m;
  rn_size : size_ (dram_ m) = size;
  rn_root : pt_root (hart m) ∈ tables L;
  rn_closed : tables_closed (dram_ m);
  rn_satp : raw (hart m) SATP_ADDRESS = satp_value L;
  rn_tvm : Z.land (MSTATUS_read (hart m)) MSTATUS_TVM = 0;
}.

(** A store outside of the tables. *)
Lemma running_store a v m : running m -> outside a -> fits 64 v ->
  running (upd_dram (write 8 a v) m) /\ read 8 a (write 8 a v (dram_ m)) = v.
Proof.
  intros [[Hh Hd Ht Hv] Hs Hr Hc Hsa Htv] Ho Hf. pose proof Ho as [Ha _].
  assert (dram_wf (write 8 a v (dram_ m))) as Hd' by by apply write_wf.
  assert (size_ (write 8 a v (dram_ m)) = size) as Hs' by (rewrite <- Hs; apply store_le_size).
  assert (forall t k, t ∈ tables L -> 0 <= k < 512 ->
    read 8 (t + 8 * k) (write 8 a v (dram_ m)) = read 8 (t + 8 * k) (dram_ m)) as He.
  { intros t k Htt Hk. apply read_other; try done; [by apply (entry_ok size L Hlayout)|].
    by apply outside_entry. }
  assert (forall vpn i t, t ∈ tables L -> pt_walk (write 8 a v (dram_ m)) vpn i t = pt_walk (dram_ m) vpn i t) as Hw
    by (intros; by apply walk_same).
  split.
  - split; [|done|done| |done|done]. 2: { intros t k Htt Hk. cbn [dram_ upd_dram]. rewrite He by done. by apply Hc. }
    split; [done|done| |].
    + apply tlb_coherent_dram; [|done]. intros e Hec Hval. rewrite Hw by done. by apply Hec.
    + intros va Hfv Hca. cbn [dram_ upd_dram hart]. rewrite Hw by done. by apply Hv.
  - destruct (word_valid (dram_ m) a Hd) as [Fa Va]; [by rewrite Hs|].
    by apply (read_write_eq (dram_ m) 8 8 a a v).
Qed.

(** A translation keeps the words outside of the tables. *)
Lemma running_translate p va t m : running m -> fits 64 va ->
  let m' := snd (translate p va t m) in
  running m' /\ devs m' = devs m /\ forall a, outside a -> read 8 a (dram_ m') = read 8 a (dram_ m).
Proof.
  intros Hr Hf m'. pose proof Hr as [Hsp Hs Hrt Hc Hsa Htv]. pose proof Hsp as [Hh Hd Ht Hv].
  destruct (translate_keeps p va t m Hsp Hf) as (K1 & K2 & K3). fold m' in K1, K2, K3.
  assert (dram_ m' = dram_ m \/ exists pa b, ad_bits b /\ fits 64 pa /\ pa mod 8 = 0 /\ is_valid_addr (dram_ m) pa 8 = true /\
    pte_leaf (read 8 pa (dram_ m)) = true /\ (exists t' k, t' ∈ tables L /\ 0 <= k < 512 /\ pa = t' + 8 * k) /\
    dram_ m' = write 8 pa (Z.lor (read 8 pa (dram_ m)) b) (dram_ m)) as HE.
  { destruct (canonical va) eqn:Ec.
    2: { left. assert (m' = m) as ->; [|done]. unfold m', translate. unfold bind, gets. cbv zeta.
         rewrite Ec. cbn [negb]. by repeat case_match. }
    destruct (translate_changes p va t m Hd Ht) as (_ & _ & _ & C4); [by eapply agrees_inside, Hv|]. fold m' in C4.
    destruct C4 as [E|(i & pa & pte & b & Hb & Ew & -> & Hva & Hpf & Hpa & Hl & E)]; [by left|right].
    exists pa, b. pose proof (walk_slot (dram_ m) (Z.shiftr va PGSHIFT) (LEVELS - 1) _ Hd Hs Hc Hrt) as Hsl.
    rewrite Ew in Hsl. done. }
  destruct HE as [E|(pa & b & Hb & Hpf & Hpa & Hva & Hl & Hsl & E)].
  { split; [split; rewrite ?K2, ?E; done|]. by rewrite E. }
  set (pte := read 8 pa (dram_ m)) in *.
  assert (fits 64 (Z.lor pte b)) as Hfp by (by apply (updated_fits (dram_ m) pa pte b)).
  pose proof (slot_read (dram_ m) pa pte b Hd (conj Hpf (conj Hpa Hva)) eq_refl Hb) as Hsr.
  split; [|split; [done|]].
  - split; rewrite ?K2; try done; rewrite ?E.
    + rewrite <- Hs. apply store_le_size.
    + intros t' k Htt Hk.
      assert (word_ok size (t' + 8 * k)) as Hw by (by apply (entry_ok size L Hlayout)).
      destruct (word_valid (dram_ m) (t' + 8 * k) Hd) as [Fa Va]; [by rewrite Hs|].
      rewrite Hsr by (done || apply Hw). destruct (t' + 8 * k =? pa); [|by apply Hc].
      destruct (ad_same pte b Hb) as (_ & -> & _). by rewrite Hl.
  - intros a Ho. rewrite E. pose proof Ho as [Hw _].
    destruct (word_valid (dram_ m) a Hd) as [Fa Va]; [by rewrite Hs|].
    rewrite Hsr by (done || apply Hw). destruct Hsl as (t' & k & Htt & Hk & ->).
    destruct (Z.eqb_spec a (t' + 8 * k)) as [Ea|_]; [|done]. by destruct (outside_entry a t' k Ho Htt Hk).
Qed.
(** ** Output and results

    From a machine with [P] the code returns a value, has printed [s], and leaves [Q]. *)
Definition prints {A} (P : machine -> Prop) (c : guest A) (s : list Z) (Q : A -> machine -> Prop) : Prop :=
  forall m, P m -> exists a m', c m = (Ok a, m') /\ Q a m' /\ stdout m' = stdout m ++ s.

Lemma prints_bind {A B} P (c : guest A) s R (k : A -> guest B) s' Q :
  prints P c s R -> (forall a, prints (R a) (k a) s' Q) -> prints P (bind c k) (s ++ s') Q.
Proof.
  intros Hc Hk m Hm. destruct (Hc m Hm) as (a & m1 & E1 & R1 & O1). destruct (Hk a m1 R1) as (b & m2 & E2 & Q2 & O2).
  exists b, m2. split; [unfold bind; by rewrite E1|]. split; [done|]. by rewrite O2, O1, <- app_assoc.
Qed.

(** When the value is known. *)
Lemma prints_value {A B} P (c : guest A) s v R (k : A -> guest B) s' Q :
  prints P c s (fun a m => a = v /\ R m) -> prints R (k v) s' Q -> prints P (bind c k) (s ++ s') Q.
Proof. intros Hc Hk. eapply prints_bind; [exact Hc|]. intros a m [-> Hm]. by apply Hk. Qed.

Lemma prints_regroup {A B C} P (c : guest A) (k : A -> guest B) (k' : B -> guest C) s Q :
  prints P (bind (bind c k) k') s Q -> prints P (bind c (fun a => bind (k a) k')) s Q.
Proof.
  intros Hp m Hm. destruct (Hp m Hm) as (x & m' & E & HQ). exists x, m'. split; [|done]. rewrite <- E.
  unfold bind. by destruct (c m) as [[a|e] m1].
Qed.

Lemma prints_eq {A} P (c : guest A) s s' Q : prints P c s Q -> s = s' -> prints P c s' Q.
Proof. by intros Hc <-. Qed.

(** *** Before translation *)

Abbreviation at_start ss := (main_ready size ss).

Lemma start_puts ss s : Forall (fits 8) s -> prints (at_start ss) (puts pc s) s (fun _ => at_start ss).
Proof.
  intros Hs m [Hh He Hd Hz]. destruct (does_puts pc size s Hs) as [_ Hp]. exists tt, (effect [] s m).
  split; [apply Hp; [by apply supervisor_bare|done|done]|]. split; [by split|done].
Qed.

Lemma start_hex ss v : prints (at_start ss) (print_hex pc v) (hex_text v) (fun _ => at_start ss).
Proof. eapply prints_bind; [apply start_puts, chars_fits|]. intros []. apply start_puts, hex_fits. Qed.

(** Reading satp and sstatus in supervisor mode. *)
Lemma read_satp (m : machine) : priv (hart m) = PrivS -> Z.land (MSTATUS_read (hart m)) MSTATUS_TVM = 0 ->
  read_csr pc SATP_ADDRESS m = (Ok (raw (hart m) SATP_ADDRESS), upd_hart (set_interrupt_check_pending true) m).
Proof.
  intros Hp Ht. unfold read_csr, bind, set_check_pending, modify, read_checked.
  change (csr_class_at SATP_ADDRESS) with CSATP. cbv iota. unfold CSR_read_checked, bind, check_access, bind, gets.
  assert (check_permissions (hart (upd_hart (set_interrupt_check_pending true) m)) SATP_ADDRESS = Some true) as ->; [|done].
  unfold check_permissions. change (csr_class_at SATP_ADDRESS) with CSATP. cbv iota.
  unfold SATP_check_permissions, CSR_check_permissions. cbn [hart upd_hart].
  change (priv (set_interrupt_check_pending true (hart m))) with (priv (hart m)). rewrite Hp.
  change (MSTATUS_read (set_interrupt_check_pending true (hart m))) with (MSTATUS_read (hart m)). by rewrite Ht.
Qed.

Lemma start_read_satp ss : prints (at_start ss) (read_csr pc SATP_ADDRESS) [] (fun v m => v = 0 /\ at_start ss m).
Proof.
  intros m [[Hp Hm Ht Ha Hr] He Hd Hz]. rewrite read_satp by done. do 2 eexists. split; [done|].
  split; [split; [done|]|by rewrite app_nil_r]. by split; [split|..].
Qed.

Lemma start_read_sstatus ss : prints (at_start ss) (read_csr pc SSTATUS_ADDRESS) [] (fun v m => v = ss /\ at_start ss m).
Proof.
  intros m [Hh He Hd Hz]. destruct Hh as [Hp Hm Ht Ha Hr].
  exists ss, (upd_hart (set_interrupt_check_pending true) m). split; [|split; [split; [done|]|by rewrite app_nil_r]].
  - unfold read_csr, bind, set_check_pending, modify.
    rewrite (read_allowed pc SSTATUS_ADDRESS (set_interrupt_check_pending true (hart m))); [|unfold accessible_csr|done].
    + change (read_own (set_interrupt_check_pending true (hart m)) SSTATUS_ADDRESS) with (read_own (hart m) SSTATUS_ADDRESS).
      by rewrite He.
    + change (priv (set_interrupt_check_pending true (hart m))) with (priv (hart m)). by rewrite Hp.
  - by split; [split|..].
Qed.

(** *** With translation

    The program runs, and a word outside of the tables has a value. *)
Definition kept (f : option (Z * Z)) (m : machine) : Prop :=
  running m /\ match f with Some (a, v) => outside a /\ read 8 a (dram_ m) = v | None => True end.

Lemma kept_translate f p va t m : kept f m -> fits 64 va ->
  kept f (snd (translate p va t m)) /\ devs (snd (translate p va t m)) = devs m.
Proof.
  intros [Hr Hf] Hv. destruct (running_translate p va t m Hr Hv) as (K1 & K2 & K3). split; [|done].
  split; [done|]. destruct f as [[a v]|]; [|done]. destruct Hf as [Ho He]. split; [done|]. by rewrite K3.
Qed.

Lemma kept_effect f s m : kept f m -> kept f (effect [] s m).
Proof. intros [[[? ? ? ?] ? ? ? ? ?] Hf]. by split; [split; [split|..]|]. Qed.

Lemma kept_putchar f c : fits 8 c -> prints (kept f) (putchar pc c) [c] (fun _ => kept f).
Proof.
  intros Hc m Hm. assert (fits 64 CONSOLE_BASE) as Hf by done.
  pose proof (translate_outcome pc CONSOLE_BASE Store m (rn_space _ (proj1 Hm)) Hf) as Ho.
  destruct (kept_translate f pc CONSOLE_BASE Store m Hm Hf) as [K1 K2].
  change (sv39_map CONSOLE_BASE Store) with (Some CONSOLE_BASE) in Ho.
  unfold putchar, mmu_write. change (CONSOLE_BASE mod Z.of_nat 1 =? 0) with true. cbv iota. unfold bind.
  destruct (translate pc CONSOLE_BASE Store m) as [r m1]. cbn [fst snd] in *. subst r.
  unfold state. rewrite bus_putchar by done. cbn [negb]. do 2 eexists. split; [done|].
  split; [by apply kept_effect|]. unfold effect. cbn. by rewrite K2.
Qed.

Lemma kept_puts f s : Forall (fits 8) s -> prints (kept f) (puts pc s) s (fun _ => kept f).
Proof.
  induction s as [|c s IH]; intros Hs.
  { intros m Hm. exists tt, m. by rewrite app_nil_r. }
  apply Forall_cons_1 in Hs as [Hc Hs]. apply (prints_bind _ _ [c] (fun _ => kept f)); [by apply kept_putchar|].
  intros []. by apply IH.
Qed.

Lemma kept_hex f v : prints (kept f) (print_hex pc v) (hex_text v) (fun _ => kept f).
Proof. eapply prints_bind; [apply kept_puts, chars_fits|]. intros []. apply kept_puts, hex_fits. Qed.

(** A store through any address of the word, and a load of it. *)
Lemma kept_store f va a v : sv39_map va Store = Some a -> fits 64 va -> va mod 8 = 0 -> outside a -> fits 64 v ->
  prints (kept f) (store64 pc va v) [] (fun _ => kept (Some (a, v))).
Proof.
  intros Hmap Hf Hal Ho Hv m Hm. pose proof (translate_outcome pc va Store m (rn_space _ (proj1 Hm)) Hf) as Ht.
  destruct (kept_translate f pc va Store m Hm Hf) as [[K1 _] K2]. rewrite Hmap in Ht.
  unfold store64, mmu_write. change (Z.of_nat 8) with 8. rewrite Hal. cbn [Z.eqb]. unfold bind.
  destruct (translate pc va Store m) as [r m1]. cbn [fst snd] in *. subst r. unfold state, bus_write.
  change (Z.of_nat 8) with 8. destruct (word_valid (dram_ m1) a (ss_dram _ (rn_space _ K1))) as [_ ->];
    [rewrite (rn_size _ K1); apply Ho|]. cbn [negb]. destruct (running_store a v m1 K1 Ho Hv) as [S1 S2].
  do 2 eexists. split; [done|]. split; [by split|]. cbn. by rewrite K2, app_nil_r.
Qed.

Lemma kept_load va a v : sv39_map va Load = Some a -> fits 64 va -> va mod 8 = 0 -> outside a ->
  prints (kept (Some (a, v))) (load64 pc va) [] (fun x m => x = v /\ kept (Some (a, v)) m).
Proof.
  intros Hmap Hf Hal Ho m Hm. pose proof (translate_outcome pc va Load m (rn_space _ (proj1 Hm)) Hf) as Ht.
  destruct (kept_translate _ pc va Load m Hm Hf) as [K1 K2]. rewrite Hmap in Ht.
  unfold load64, mmu_read. change (Z.of_nat 8) with 8. rewrite Hal. cbn [Z.eqb]. unfold bind.
  destruct (translate pc va Load m) as [r m1]. cbn [fst snd] in *. subst r. unfold state, bus_read.
  change (Z.of_nat 8) with 8. pose proof K1 as [R1 [_ E1]].
  destruct (word_valid (dram_ m1) a (ss_dram _ (rn_space _ R1))) as [_ ->]; [rewrite (rn_size _ R1); apply Ho|].
  do 2 eexists. split; [done|]. split; [by split|]. by rewrite K2, app_nil_r.
Qed.

Lemma kept_read_satp f : prints (kept f) (read_csr pc SATP_ADDRESS) [] (fun v m => v = satp_value L /\ kept f m).
Proof.
  intros m [[[[Hp Hm Hs Ha] Hd Ht Hv] Hz Hr Hc Hsa Htv] Hf]. rewrite read_satp by done. do 2 eexists. split; [done|].
  split; [|by rewrite app_nil_r]. split; [done|]. by split; [split; [split; [split|..]|..]|].
Qed.

(** Power off, through the page of the test device. *)
Lemma kept_shutdown f : prints (kept f) (shutdown pc 0) [] (fun _ m => d_shutdown (devs m) = Some (0, 0x5555)).
Proof.
  intros m Hm. assert (fits 64 TEST_BASE) as Hf by done.
  pose proof (translate_outcome pc TEST_BASE Store m (rn_space _ (proj1 Hm)) Hf) as Ho.
  destruct (kept_translate f pc TEST_BASE Store m Hm Hf) as [K1 K2].
  change (sv39_map TEST_BASE Store) with (Some TEST_BASE) in Ho.
  unfold shutdown, mmu_write. change (TEST_BASE mod Z.of_nat 4 =? 0) with true. cbv iota. unfold bind.
  destruct (translate pc TEST_BASE Store m) as [r m1]. cbn [fst snd] in *. subst r. unfold state, bus_write.
  assert (is_valid_addr (dram_ m1) TEST_BASE (Z.of_nat 4) = false) as -> by done.
  assert (List.find (fun dev => contains dev TEST_BASE (Z.of_nat 4)) devices_ = Some sifive_device) as ->.
  { cbn [devices_ emulator_platform]. unfold emulator_devices. by destruct has_disk. }
  assert (stdout m1 = stdout m ++ []) as E by (by rewrite K2, app_nil_r).
  do 2 eexists. split; [reflexivity|]. split; [reflexivity|exact E].
Qed.

(** ** The program *)

(** The words of the tests are in DRAM, where it is mapped to itself, and not in a table. *)
Record tests_ok : Prop := {
  to_data : outside (test_data L) /\ test_data L < 0x80200000;
  to_page : outside 0x80100000;
}.
Hypothesis Htests : tests_ok.

Lemma map_ram a t : 0x80000000 <= a < 0x80200000 -> sv39_map a t = Some a.
Proof.
  intros Ha. unfold sv39_map, sv39_target.
  destruct (Z.ltb_spec a 0x40000000), (Z.leb_spec 0x80000000 a), (Z.ltb_spec a 0x80200000); try lia. by destruct t.
Qed.

Lemma data_facts : (forall t, sv39_map (test_data L) t = Some (test_data L)) /\ fits 64 (test_data L) /\
  test_data L mod 8 = 0 /\ outside (test_data L).
Proof.
  destruct Htests as [[Ho Hl] _]. pose proof Ho as [(H1 & H2 & H3) _]. change DRAM_BASE with 0x80000000 in *.
  split_and!; [intros t; apply map_ram; lia|unfold fits; lia|done|done].
Qed.

(** What each test prints. *)
Definition test1_text : list Z :=
  line "Test 1: Identity-mapped R/W" ++ line " Written: 0x12345678ABCDEF00" ++ line " Read: 0x12345678ABCDEF00" ++
  line2 " PASS".
Definition test2_text : list Z :=
  line "Test 2: Non-identity mapping" ++ line " Written 0xCAFEBABEDEADC0DE to PA 0x80100000" ++
  line " Read from VA 0xC0000000: 0xCAFEBABEDEADC0DE" ++ line2 " PASS: Non-identity mapping works!".
Definition test3_text : list Z :=
  line "Test 3: Reverse non-identity test" ++ line " Written 0x0123456789ABCDEF to VA 0xC0000000" ++
  line " Read from PA 0x80100000: 0x0123456789ABCDEF" ++ line2 " PASS".
Definition test4_text : list Z :=
  line "Test 4: Verify SATP register" ++ chars " SATP: " ++ hex_text (satp_value L) ++ newline ++
  line2 " PASS: SV39 mode active".
Definition tests_text : list Z :=
  line2 "=== Virtual Memory Tests ===" ++ test1_text ++ test2_text ++ test3_text ++ test4_text ++
  line "=== All Tests Complete ===".

Lemma satp_sv39 : (Z.shiftr (satp_value L) 60 =? 8) = true.
Proof.
  destruct (root_facts size L Hlayout) as (_ & Hf & _). unfold satp_value, fits in *.
  rewrite Z.shiftr_lor, (Z.shiftr_div_pow2 (root_page_table L)) by lia.
  assert (Z.shiftr (root_page_table L / 2 ^ 12) 60 = 0) as ->; [|done].
  rewrite Z.shiftr_div_pow2 by lia. apply Z.div_small. lia.
Qed.

Lemma kept_verdict f ok pass fail : ok = true -> Forall (fits 8) pass ->
  prints (kept f) (verdict pc ok pass fail) pass (fun _ => kept f).
Proof. intros ->. apply kept_puts. Qed.

Ltac text_fits := first [apply line2_fits | apply line_fits | apply chars_fits | apply newline_fits].
Ltac say :=
  eapply prints_bind;
  [ first [ apply kept_hex | apply kept_puts; text_fits | apply kept_verdict; [|text_fits]; first [reflexivity | apply satp_sv39] ]
  | intros [] ].

Lemma tests_print f : prints (kept f) (test_virtual_memory L pc) tests_text
  (fun _ => kept (Some (0x80100000, 0x0123456789ABCDEF))).
Proof.
  destruct data_facts as (Dm & Df & Da & Do). destruct Htests as [_ Po].
  unfold test_virtual_memory. eapply prints_eq.
  - do 2 say. eapply prints_bind; [apply (kept_store _ _ (test_data L)); done|intros []].
    say. eapply prints_value; [apply kept_load; done|]. do 2 say.
    eapply prints_value; [apply kept_load; done|]. do 5 say.
    eapply prints_bind; [apply (kept_store _ _ 0x80100000); done|intros []]. say.
    eapply prints_value; [apply kept_load; done|]. do 5 say.
    eapply prints_bind; [apply (kept_store _ _ 0x80100000); done|intros []]. say.
    eapply prints_value; [apply kept_load; done|]. do 5 say.
    eapply prints_value; [apply kept_read_satp|]. do 4 say.
    apply kept_puts; text_fits.
  - reflexivity.
Qed.

(** Turning translation on. *)
Lemma enable_prints ss : prints (at_start ss) (setup_sv39 L pc ;;; enable_sv39 L pc)
  ((setup_text ++ enable_text L) ++ line2 "SV39 enabled!") (fun _ => kept None).
Proof.
  intros m [Hh He Hd Hz]. destruct (sv39_switched pc size L Hsize Hlayout m Hh Hd Hz) as (m2 & E & Hsp & O & Eh & Ed).
  assert (kept None m2) as Hk.
  { split; [|done]. destruct (with_satp_hart size L Hlayout (hart m) Hh) as [_ Hroot].
    split; [done| | | | |].
    - by rewrite Ed, writes_size.
    - rewrite Eh, Hroot. apply list_elem_of_In. by left.
    - rewrite Ed. by apply setup_closed.
    - rewrite Eh. unfold with_satp, raw, set_raw. cbn. by rewrite lookup_insert_eq.
    - rewrite Eh. unfold MSTATUS_read. rewrite with_satp_other by done. apply (sv_tvm _ Hh). }
  destruct (kept_puts None (line2 "SV39 enabled!") (line2_fits _) m2 Hk) as ([] & m3 & E3 & K3 & O3).
  exists tt, m3. rewrite E. split; [done|]. split; [done|]. by rewrite O3, O, !app_assoc.
Qed.

(** The whole output. *)
Definition sv39_transcript (sstatus : Z) : list Z :=
  newline ++ line "========================================" ++ line " RISC-V SV39 Virtual Memory Test" ++
  line " (Fixed with device mappings)" ++ line2 "========================================" ++
  line "Initial SATP: 0x0000000000000000" ++
  chars "Initial sstatus: " ++ hex_text sstatus ++ newline ++ newline ++
  setup_text ++ enable_text L ++ line2 "SV39 enabled!" ++ tests_text ++
  newline ++ line "Test completed successfully!".

Ltac start_say :=
  eapply prints_bind; [first [apply start_hex | apply start_puts; text_fits]|intros []].

Lemma main_prints ss : prints (at_start ss) (main L pc) (sv39_transcript ss)
  (fun _ m => d_shutdown (devs m) = Some (0, 0x5555)).
Proof.
  unfold main. eapply prints_eq.
  - do 5 start_say. eapply prints_value; [apply start_read_satp|]. do 3 start_say.
    eapply prints_value; [apply start_read_sstatus|]. do 2 start_say.
    eapply prints_bind; [apply start_puts, Forall_app_2; apply newline_fits|intros []].
    apply prints_regroup. eapply prints_bind; [apply enable_prints|intros []].
    eapply prints_bind; [apply tests_print|intros []]. do 2 say. apply kept_shutdown.
  - unfold sv39_transcript. reflexivity.
Qed.

(** C22. The guest program of examples/sv39-test, from reset to power off, on any machine whose
    hart is as constructed (whatever interrupt lines the devices have raised) and whose DRAM holds
    the program's tables, its cleared section and the words of its tests: the start-up code and main
    run without an exception; their output is exactly that of a run in which each test passes,
    with the sstatus that the start-up code has set and the satp of the layout; and the
    machine is powered off with code 0 and the status of success. *)
Theorem sv39_program_passes (m : machine) entry mip s_mode_entry bss_start words :
  hart m = reset_hart entry mip -> dram_wf (dram_ m) -> size_ (dram_ m) = size -> bss_ok size bss_start words ->
  exists m', (boot pc s_mode_entry bss_start words ;;; main L pc) m = (Ok tt, m') /\
    stdout m' = stdout m ++ sv39_transcript 0x0000000200040000 /\ d_shutdown (devs m') = Some (0, 0x5555).
Proof.
  intros Hm Hd Hz Hb.
  destruct (boot_runs pc size m entry mip s_mode_entry bss_start words Hm Hd Hz Hb) as (m1 & E1 & R1 & O1).
  destruct (main_prints _ m1 R1) as ([] & m2 & E2 & S2 & O2). exists m2.
  split; [unfold bind; by rewrite E1|]. by rewrite O2, O1.
Qed.
End Run.

(** *** The program on the emulator *)

Section Witness.
Abbreviation stdout m := (h_stdout (d_host (devs m))).
#[local] Existing Instance zero_conversion.
#[local] Existing Instance no_disk.

Lemma sv39_layout_tests : tests_ok 0x2000000 sv39_layout.
Proof.
  assert (forall a, Forall (fun t => a + 8 <= t \/ t + 4096 <= a) (tables sv39_layout) ->
    forall t, t ∈ tables sv39_layout -> a + 8 <= t \/ t + 4096 <= a) as HF.
  { intros a HF t Ht. rewrite List.Forall_forall in HF. by apply HF, list_elem_of_In. }
  split; [split; [|by vm_compute]|]; (split; [by split_and!; vm_compute|]); apply HF; unfold tables; cbn;
    repeat (apply Forall_cons_2; [lia|]); apply Forall_nil_2.
Qed.

(** The line that shows what the start-up code has set. *)
Example sstatus_line : chars "Initial sstatus: " ++ hex_text 0x0000000200040000 ++ newline =
  line "Initial sstatus: 0x0000000200040000".
Proof. reflexivity. Qed.

Lemma sv39_program_passes_witness :
  exists m', (boot DRAM_BASE 0x80000040 0x80002000 2560 ;;; main sv39_layout DRAM_BASE) reset_machine = (Ok tt, m') /\
    stdout m' = sv39_transcript sv39_layout 0x0000000200040000 /\ d_shutdown (devs m') = Some (0, 0x5555).
Proof.
  destruct reset_machine_ok as (Eh & Hd & Hs & Hb).
  destruct (sv39_program_passes DRAM_BASE 0x2000000 sv39_layout ltac:(by split) sv39_layout_ok sv39_layout_tests
    reset_machine DRAM_BASE MTIP 0x80000040 0x80002000 2560 Eh Hd Hs Hb) as (m' & E & O & S).
  exists m'. split; [exact E|]. split; [|exact S]. rewrite O. reflexivity.
Defined.
End Witness.
