(* ===== verification/Firmware.v ===== *)
(** * The firmware tests (tests/isa/test_custom.cpp)

    Two of the binaries the repository runs on the emulator, executed by the model: the
    machine with 32 MB of DRAM, the bytes loaded at its start, and the CPU thread until it
    stops. *)

From stdpp Require Import gmap.
From S2P Require Import Prelude Bits Hart HartInv Machine Bus Ports ByteVec SmallDevices.
From S2P Require Import Ns16550 GoldfishRtc GoldfishEvents PFlash Clint Plic VirtioBlk VirtioBlkSpec Mmu MmuSpec DeviceFrames Elf Emulator.
From S2P Require Import Decoder Execute ExecFloat Dispatch ExecSpec ExecSafe Engine EngineSpec Runner RunnerSpec Backends Ui EmulatorSpec Main.

(* @src tests/isa/test_custom.cpp 32-57 BasicExecution *)
Definition basic_execution : list Z :=
  [
    0x17; 0x01; 0x02; 0x00; 0x13; 0x01; 0x01; 0x00; 0x93; 0x02; 0x00; 0x00; 0x93; 0x81; 0x02;
    0x00; 0x13; 0x82; 0x02; 0x00; 0xef; 0x00; 0x40; 0x06; 0x6f; 0x00; 0x00; 0x00; 0x13; 0x01;
    0x01; 0xfd; 0x23; 0x34; 0x11; 0x02; 0x23; 0x30; 0x81; 0x02; 0x13; 0x04; 0x01; 0x03; 0x93;
    0x07; 0x05; 0x00; 0x23; 0x2e; 0xf4; 0xfc; 0xb7; 0x07; 0x10; 0x00; 0x23; 0x34; 0xf4; 0xfe;
    0x83; 0x27; 0xc4; 0xfd; 0x9b; 0x97; 0x07; 0x01; 0x9b; 0x87; 0x07; 0x00; 0x13; 0x87; 0x07;
    0x00; 0xb7; 0x57; 0x00; 0x00; 0x93; 0x87; 0x57; 0x55; 0xb3; 0x67; 0xf7; 0x00; 0x1b; 0x87;
    0x07; 0x00; 0x83; 0x37; 0x84; 0xfe; 0x23; 0xa0; 0xe7; 0x00; 0x13; 0x00; 0x00; 0x00; 0x83;
    0x30; 0x81; 0x02; 0x03; 0x34; 0x01; 0x02; 0x13; 0x01; 0x01; 0x03; 0x67; 0x80; 0x00; 0x00;
    0x13; 0x01; 0x01; 0xfd; 0x23; 0x34; 0x11; 0x02; 0x23; 0x30; 0x81; 0x02; 0x13; 0x04; 0x01;
    0x03; 0x93; 0x07; 0x10; 0x00; 0x23; 0x26; 0xf4; 0xfe; 0x93; 0x07; 0x20; 0x00; 0x23; 0x24;
    0xf4; 0xfe; 0x93; 0x07; 0x30; 0x00; 0x23; 0x22; 0xf4; 0xfe; 0x83; 0x27; 0xc4; 0xfe; 0x1b;
    0x87; 0x07; 0x00; 0x83; 0x27; 0x84; 0xfe; 0x9b; 0x87; 0x07; 0x00; 0xbb; 0x07; 0xf7; 0x00;
    0x9b; 0x87; 0x07; 0x00; 0x23; 0x20; 0xf4; 0xfe; 0x83; 0x27; 0xc4; 0xfe; 0x1b; 0x87; 0x07;
    0x00; 0x83; 0x27; 0x84; 0xfe; 0x9b; 0x87; 0x07; 0x00; 0xbb; 0x07; 0xf7; 0x02; 0x9b; 0x87;
    0x07; 0x00; 0x23; 0x2e; 0xf4; 0xfc; 0x83; 0x27; 0x04; 0xfe; 0x1b; 0x87; 0x07; 0x00; 0x83;
    0x27; 0xc4; 0xfd; 0x9b; 0x87; 0x07; 0x00; 0xbb; 0x57; 0xf7; 0x02; 0x9b; 0x87; 0x07; 0x00;
    0x23; 0x2c; 0xf4; 0xfc; 0x83; 0x27; 0x04; 0xfe; 0x1b; 0x87; 0x07; 0x00; 0x83; 0x27; 0xc4;
    0xfd; 0x9b; 0x87; 0x07; 0x00; 0xbb; 0x77; 0xf7; 0x02; 0x9b; 0x87; 0x07; 0x00; 0x23; 0x2a;
    0xf4; 0xfc; 0x13; 0x05; 0x00; 0x00; 0xef; 0xf0; 0x9f; 0xf0; 0x6f; 0x00; 0x00; 0x00 ].

(* @src tests/isa/test_custom.cpp 71-78 MachineModeException *)
Definition machine_mode_exception : list Z :=
  [
    0x97; 0x02; 0x00; 0x00; 0x93; 0x82; 0x02; 0x03; 0x73; 0x90; 0x52; 0x30; 0x13; 0x05; 0xa0;
    0x00; 0x73; 0x00; 0x00; 0x00; 0xb7; 0x02; 0x10; 0x00; 0x37; 0x53; 0x00; 0x00; 0x1b; 0x03;
    0x53; 0x55; 0x13; 0x15; 0x05; 0x01; 0x33; 0x65; 0x65; 0x00; 0x23; 0xa0; 0xa2; 0x00; 0x6f;
    0x00; 0x00; 0x00; 0x13; 0x05; 0xa5; 0x02; 0x73; 0x23; 0x10; 0x34; 0x13; 0x03; 0x43; 0x00;
    0x73; 0x10; 0x13; 0x34; 0x73; 0x00; 0x20; 0x30 ].

(* @src tests/isa/test_custom.cpp 25-25 TEST_DRAM_SIZE *)
Definition TEST_DRAM_SIZE : Z := 32 * 1024 * 1024.

Section Firmware.
#[local] Existing Instance zero_softfloat.
#[local] Existing Instance zero_conversion.
#[local] Instance test_disk : DiskOption := None.

(* The emulator of a test, after load. *)
(* @src tests/isa/test_custom.cpp 59-61 BasicExecution *)
Definition test_machine (firmware : list Z) : option machine :=
  match Emulator_init TEST_DRAM_SIZE None None small_host with
  | Some m => Emulator_load DRAM_BASE firmware m
  | None => None
  end.

(** The CPU thread stops after [n] iterations, with a shutdown code and status. *)
Definition halts_with (firmware : list Z) (n : nat) (code status : Z) : Prop :=
  match test_machine firmware with
  | Some m =>
      let e := Nat.iter n (cpu_step no_operands) (engine_init m) in
      e_phase e = Stopped /\ shutdown_from_guest_ e = false /\
      Emulator_shutdown_code (e_mach e) = code /\ Emulator_shutdown_status (e_mach e) = status
  | None => False
  end.

(** The emulator runs the repository's firmware: the program that calls functions,
    multiplies and divides stops with code 0 and the status of success, and the one that takes
    an environment call into its own trap handler, which changes a register, advances mepc and
    returns, stops with code 52. *)
Theorem firmware_tests :
  halts_with basic_execution 66 0 0x5555 /\ halts_with machine_mode_exception 18 52 0x5555.
Proof. split; vm_compute; by split_and!. Qed.
End Firmware.
